(* ===== verification/_CoqProject ===== *)
-Q . S2P
Prelude.v
GoInt.v
GoFloat.v
GoFloatInt.v
GoSort.v
GoTime.v
GoString.v
GoScan.v
GoDuration.v
Http.v
Metrics.v
RateLimit.v
Breaker.v
Store.v
Migrate.v
Collector.v
CollectSpec.v
Config.v
Scheduler.v
RemoteWrite.v
Ingest.v
Service.v
Main.v
Sha256.v
Tenant.v
Webhook.v
Derived.v
McpQuery.v
McpAlerts.v
McpNatural.v
McpSummary.v
LeastSquares.v
McpForecast.v
McpAnomaly.v
McpTables.v
McpServer.v
Tracing.v
