(* ===== verification/Prelude.v ===== *)
(** * netdata-postgres-mcp

    The program is a sidecar of Netdata written in Go.  It collects metric samples from Netdata
    agents over HTTP, stores them in PostgreSQL, also accepts samples by Prometheus remote write,
    rolls old samples up and deletes them, and answers questions about the stored data as an MCP
    server.  This development models its Go code and proves what makes it correct.

    ** The parts and how they interact

    main.go loads a configuration (config), opens a pool and migrates the database (store), makes
    one collector and one scheduler per configured node, and serves HTTP.  A scheduler runs
    cycles: it asks its circuit breaker for leave, upserts its node, collects with up to three
    attempts (collector), inserts the samples (store) and advances the counters (metrics); once a
    day it rolls up and deletes old samples.  HTTP requests reach the health and metrics
    endpoints, the remote-write receiver, which inserts into the same tables, or, behind rate
    limiter, token check and body limit, the MCP server, whose twelve tools read the tables.

    ** Conventions

    Go's int and int64 are [Z] with the wrap-around written out (GoInt: [i64], [add64],
    [mul64]).  A float64 is [spec_float] with the rounding of binary64 (GoFloat); [fval] is its
    exact value in units of 2^-1074, and GoFloatInt relates floats that are whole numbers to
    [Z].  Times and durations are nanoseconds (GoTime).  A Go string is a byte string
    [String.string]; what Unicode tables would decide is the class [Unicode].  A function that
    can panic returns an [outcome] (below); one that returns an error returns a sum or an option
    with the text.  A JSON object, a Go map and a table with a key are [gmap]s.  Every reading of
    the clock is an argument.  Loops are structural or bounded by the length of what they
    consume; [consume] and [batch_loop] have such a bound, with lemmas that it is never reached.

    Code outside the repository is a class with laws, or an argument: PostgreSQL
    (Store.[Postgres], and one reader class per group of SELECT statements), pgxpool (Main), the
    YAML and JSON parsers, the HTTP client, snappy, [sort.Slice] and the order of a map range
    (GoSort), the MCP library, OpenTelemetry (Tracing).  Each class with laws has an instance in
    memory that meets them ([MemPg], [MemReader], [MemGroups], [MemPoints], [MemTables],
    [MemOrder]), with which the witnesses evaluate.  An error of the database does not say that
    nothing happened: the reply of a commit, or of a statement outside a transaction, may be
    what was lost, so after an error it has no effect or its full effect.

    ** The files

    - Prelude: [outcome], slices, loops, batches.  GoInt, GoFloat, GoFloatInt, GoTime, GoSort,
      GoString, GoScan, GoDuration: what the program uses of Go and its library.  Http, Sha256,
      LeastSquares: requests and responses; the hash; least squares over the integers.
    - Metrics: internal/metrics.  RateLimit: internal/middleware/ratelimit.go.  Breaker:
      internal/circuitbreaker.
    - Store: internal/store/store.go and rollup.go.  [Schema] reads each statement as a function on
      the tables, [Ops] has the Go operations.  Migrate: [Migrate] of store.go.
    - Collector: internal/collector, both parsers and the fall-back.  CollectSpec: the two formats
      as the agent writes them, and what [Collect] makes of them.
    - Config: internal/config and internal/reload.
    - Scheduler: internal/scheduler; [collectOnce], [runRetention] and [run_at], the
      interleaving of the two loops, each step labelled with its reading of the clock.
    - RemoteWrite, Ingest: internal/remotewrite; the protobuf decoder, the translation to rows and
      the endpoint.
    - Service: middlewares, routes, set-up and reload of cmd/netdata-postgres-mcp/main.go, and
      [service_at], the running service as a transition system, its steps labelled likewise.
      Main: the commands of main.go with their exit codes, and the pool settings of store.go.
    - Tenant, Webhook, Derived: internal/tenant, internal/webhook, internal/derived; main.go uses
      none of them.
    - McpQuery, McpAlerts, McpNatural, McpSummary, McpForecast, McpAnomaly, McpTables: the tools of
      internal/mcp; each handler from its arguments to its result, with the text and the
      arguments of the SQL it sends.  McpServer: their registration.
    - Tracing: internal/tracing.

    In each file the definitions come first, in a module that bears the name of the component; a
    definition has the name of the Go function it models.  Sections with proofs follow, then
    witnesses, in which a theorem is applied to a concrete input.

    ** What is proved

    - Collection: a cycle is all or nothing, an error other than that of the commit leaves the
      samples alone; the Prometheus parser inverts the rendering of a line; a collection returns
      the samples of the JSON answer or, when that fails or is empty, of the Prometheus text; an
      outage opens the breaker and cycles are skipped.
    - Storage: InsertSamples is atomic and what it stores the listing tools show; retention keeps
      exactly the samples not older than the cutoff; an hour inside the window gets a rollup of
      all its samples; migrations are safe under concurrency, failures, crashes and closed
      connections, and end; they exclude each other while the lock's connection stays open.
    - Service: from the command line to the data, a stored sample is lost only when older than the
      configured retention, in every history; requests without the token stop; collect-once
      tells the truth by its exit code; a reload changes nothing of the work.
    - Remote write: the decoder inverts the encoding; an accepted request stores exactly its finite
      samples in one commit; a request refused with 400 or 405 changes nothing, and one
      answered 500 stored nothing unless its commit failed.
    - Limits: buckets hold between 0 and burst tokens in floating point, the burst is exact, and a
      refused visitor is let through again; the breaker refines its three-state machine and
      recovers.
    - MCP: the query tools answer with what their arguments select, the newest of it up to the
      limit, with a text for every error, placeholders and arguments in line; the
      alert, summary, bottleneck, anomaly and forecast tools compute what they claim, the
      regression is least squares; every tool reads only what it declares, and answers.
    - Tenants, webhooks, derived contexts: who is admitted, who is notified, what is computed.

    Some theorems state defects: a theorem that the code does what it should not.  They are
    listed as findings of the development.

    ** Bounds

    The floating-point theorems of the regression assume whole coordinates so small (at most
    2^25 after multiplying by the number of points) that every intermediate result is exact; the
    retention theorems assume at most 106751 days, above which the duration overflows; the decoder
    theorems assume lengths below 2^63.

    ** Not modelled, and why

    Process I/O: the usage text, sockets, TLS, signals, graceful shutdown, log texts.  Libraries:
    the dispatch and transports of mcp-go, OpenTelemetry, pgx, net/http, YAML, JSON syntax,
    snappy.
    The SQL of the migration scripts is an argument of Migrate; the tables they create are those
    of [Schema].  A cycle, a retention run and a request are one step each of the service: data
    races between goroutines inside them are not modelled; neither are concurrent sessions during
    one operation of the store.  The descriptions of the tools carry no behaviour.

    ** Plan

    Finer interleavings (the statements of a cycle and of a retention run as steps), the SQL of the
    scripts against [Schema], and the transports of the MCP server over the routes. *)

From stdpp Require Export base option list strings gmap.
From Stdlib Require Export ZArith Lia.

#[global] Open Scope Z_scope.

(** * Outcomes of Go code

    [Ret] is a normal return, [Err] a return with a non-nil [error] (its text),
    [Panic] a run-time panic (slice bounds), [Diverge] an exhausted loop bound
    of the model; a theorem says of every loop that it never diverges. *)
Inductive outcome (A : Type) : Type :=
| Ret (a : A)
| Err (msg : string)
| Panic
| Diverge.
Arguments Ret {A} a.
Arguments Err {A} msg.
Arguments Panic {A}.
Arguments Diverge {A}.

#[export] Instance outcome_ret : MRet outcome := λ A a, Ret a.
#[export] Instance outcome_bind : MBind outcome := λ A B f m,
  match m with
  | Ret a => f a
  | Err e => Err e
  | Panic => Panic
  | Diverge => Diverge
  end.
#[export] Instance outcome_fmap : FMap outcome := λ A B f m,
  match m with
  | Ret a => Ret (f a)
  | Err e => Err e
  | Panic => Panic
  | Diverge => Diverge
  end.

#[export] Instance outcome_eq_dec `{EqDecision A} : EqDecision (outcome A).
Proof. solve_decision. Defined.

Definition is_ret {A} (o : outcome A) : bool :=
  match o with Ret _ => true | _ => false end.

Section Outcome.
Context {A B : Type}.
Implicit Types (m : outcome A) (f : A → outcome B).

#[local] Ltac solve_bind m :=
  destruct m; cbn; split; intros Hb;
  repeat match goal with
  | H : _ ∨ _ |- _ => destruct H
  | H : ∃ _, _ |- _ => destruct H
  | H : _ ∧ _ |- _ => destruct H
  end; simplify_eq; eauto.

Lemma bind_Ret m f b : m ≫= f = Ret b ↔ ∃ a, m = Ret a ∧ f a = Ret b.
Proof. solve_bind m. Qed.

Lemma bind_Diverge m f :
  m ≫= f = Diverge ↔ m = Diverge ∨ ∃ a, m = Ret a ∧ f a = Diverge.
Proof. solve_bind m. Qed.

Lemma bind_Panic m f :
  m ≫= f = Panic ↔ m = Panic ∨ ∃ a, m = Ret a ∧ f a = Panic.
Proof. solve_bind m. Qed.
End Outcome.

(** Take apart a hypothesis that says what a chain of binds returned. *)
Ltac invert_bind :=
  repeat match goal with
  | H : Ret _ = Ret _ |- _ => injection H as H; subst
  | H : _ ≫= _ = Ret _ |- _ =>
      apply bind_Ret in H; destruct H as (? & ? & H)
  | H : (if ?b then _ else _) = Ret _ |- _ =>
      let E := fresh "E" in destruct b eqn:E; try discriminate H
  | H : (let '(_, _) := ?p in _) = _ |- _ =>
      let E := fresh "E" in destruct p eqn:E
  end.

(** * Go slices

    [data[n:]] and [data[:n]] with the bounds check of the language. *)
Section Slices.
Context {A : Type}.
Implicit Types (l : list A) (n : Z).

Definition zlen l : Z := Z.of_nat (length l).

Definition slice_from l n : outcome (list A) :=
  if (0 <=? n) && (n <=? zlen l) then Ret (drop (Z.to_nat n) l) else Panic.

Definition slice_to l n : outcome (list A) :=
  if (0 <=? n) && (n <=? zlen l) then Ret (take (Z.to_nat n) l) else Panic.

Definition slice l i j : outcome (list A) :=
  if (0 <=? i) && (i <=? j) && (j <=? zlen l)
  then Ret (take (Z.to_nat (j - i)) (drop (Z.to_nat i) l)) else Panic.

Lemma zlen_nonneg l : 0 <= zlen l.
Proof. unfold zlen; lia. Qed.

Lemma zlen_nil : zlen (@nil A) = 0.
Proof. reflexivity. Qed.

Lemma zlen_cons a l : zlen (a :: l) = 1 + zlen l.
Proof. unfold zlen; cbn [length]; lia. Qed.

Lemma zlen_app l1 l2 : zlen (l1 ++ l2) = zlen l1 + zlen l2.
Proof. unfold zlen; rewrite length_app; lia. Qed.

Lemma slice_from_Ret l n r :
  slice_from l n = Ret r → 0 <= n <= zlen l ∧ zlen r = zlen l - n.
Proof.
  unfold slice_from, zlen. intros H.
  destruct (_ && _) eqn:E; [|done]. injection H as <-.
  rewrite andb_true_iff, !Z.leb_le in E. rewrite length_drop. lia.
Qed.

Lemma slice_from_app l1 l2 : slice_from (l1 ++ l2) (zlen l1) = Ret l2.
Proof.
  unfold slice_from. rewrite zlen_app.
  pose proof (zlen_nonneg l1). pose proof (zlen_nonneg l2).
  replace (_ && _) with true by lia.
  unfold zlen. by rewrite Nat2Z.id, drop_app_length.
Qed.

Lemma slice_to_app l1 l2 : slice_to (l1 ++ l2) (zlen l1) = Ret l1.
Proof.
  unfold slice_to. rewrite zlen_app.
  pose proof (zlen_nonneg l1). pose proof (zlen_nonneg l2).
  replace (_ && _) with true by lia.
  unfold zlen. by rewrite Nat2Z.id, take_app_length.
Qed.

Lemma slice_from_not_Diverge l n : slice_from l n ≠ Diverge.
Proof. unfold slice_from. by destruct (_ && _). Qed.

Lemma slice_to_not_Diverge l n : slice_to l n ≠ Diverge.
Proof. unfold slice_to. by destruct (_ && _). Qed.
End Slices.

(** * The loop [for len(data) > 0 { ... }]

    A loop whose body consumes a prefix of the remaining data and updates an
    accumulator.  [consume] bounds it by the length of the data: the bound is
    enough for every body that consumes at least one element. *)
Section Consume.
Context {S A : Type} (body : S → list A → outcome (S * list A)).

Fixpoint consume_loop (fuel : nat) (s : S) (data : list A) : outcome S :=
  match data, fuel with
  | [], _ => Ret s
  | _ :: _, O => Diverge
  | _ :: _, Datatypes.S fuel' =>
      p ← body s data; consume_loop fuel' p.1 p.2
  end.

Definition consume (s : S) (data : list A) : outcome S :=
  consume_loop (length data) s data.

Hypothesis body_consumes : ∀ s data s' data',
  data ≠ [] → body s data = Ret (s', data') → (length data' < length data)%nat.

Lemma consume_loop_fuel f1 f2 s data :
  (length data ≤ f1)%nat → (length data ≤ f2)%nat →
  consume_loop f1 s data = consume_loop f2 s data.
Proof.
  revert f2 s data. induction f1 as [|f1 IH]; intros [|f2] s [|a data] H1 H2;
    cbn in *; try lia; try done.
  destruct (body s (a :: data)) as [[s' data']| | |] eqn:E; cbn; try done.
  apply body_consumes in E; [|done]. cbn in E. apply IH; lia.
Qed.

Lemma consume_step s data :
  data ≠ [] → consume s data = p ← body s data; consume p.1 p.2.
Proof.
  intros Hne. unfold consume. destruct data as [|a data]; [done|].
  cbn [length consume_loop].
  destruct (body s (a :: data)) as [[s' data']| | |] eqn:E; cbn; try done.
  apply body_consumes in E; [|done]. cbn in E. apply consume_loop_fuel; lia.
Qed.

(** The bound is never reached. *)
Lemma consume_terminates s data :
  (∀ s data, body s data ≠ Diverge) → consume s data ≠ Diverge.
Proof.
  intros Hb. unfold consume. generalize (le_n (length data)).
  generalize (length data) at 2 3. intros fuel. revert s data.
  induction fuel as [|fuel IH]; intros s [|a data] Hl; cbn in *; try done; try lia.
  destruct (body s (a :: data)) as [[s' data']| | |] eqn:E; cbn; try done.
  - apply body_consumes in E; [|done]. cbn in E. apply IH. lia.
  - by destruct (Hb s (a :: data)).
Qed.
End Consume.

(** * Batches: the loop [for i := 0; i < len(l); i += n]

    [chunks n l] is what the loop cuts [l] into. *)
Section Chunks.
Context {A : Type} (n : nat).

Fixpoint chunks_aux (fuel : nat) (l : list A) : list (list A) :=
  match fuel, l with
  | S fuel', _ :: _ => take n l :: chunks_aux fuel' (drop n l)
  | _, _ => []
  end.

Definition chunks (l : list A) : list (list A) := chunks_aux (length l) l.

Lemma chunks_aux_concat fuel l :
  (0 < n)%nat → (length l ≤ fuel)%nat → concat (chunks_aux fuel l) = l.
Proof.
  intros Hn. revert l. induction fuel as [|fuel IH]; intros [|a l] Hl;
    cbn [chunks_aux concat]; try done; [cbn in Hl; lia|].
  rewrite IH, take_drop; [done|]. rewrite length_drop. cbn in *. lia.
Qed.

Lemma chunks_concat l : (0 < n)%nat → concat (chunks l) = l.
Proof. intros. by apply chunks_aux_concat. Qed.

Lemma chunks_aux_bound fuel l :
  Forall (λ c, (length c ≤ n)%nat) (chunks_aux fuel l).
Proof.
  revert l. induction fuel as [|fuel IH]; intros [|a l]; cbn [chunks_aux]; constructor; auto.
  rewrite length_take. lia.
Qed.

Lemma chunks_bound l : Forall (λ c, (length c ≤ n)%nat) (chunks l).
Proof. apply chunks_aux_bound. Qed.
End Chunks.
