(* ===== verification/GoInt.v ===== *)
(** Machine integers of Go on a 64-bit platform: [int] and [int64] wrap around in
    two's complement, [uint64] wraps modulo 2^64. *)

From coqutil Require Import Z.bitblast.
From S2P Require Import Prelude.

Definition two64 : Z := 2 ^ 64.
Definition max_int64 : Z := 2 ^ 63 - 1.
Definition min_int64 : Z := - 2 ^ 63.

(** [uint64(z)]. *)
Definition u64 (z : Z) : Z := z mod two64.

(** [int64(z)], also [int(z)] of a [uint64]. *)
Definition i64 (z : Z) : Z := (z + 2 ^ 63) mod two64 - 2 ^ 63.

Definition is_i64 (z : Z) : Prop := min_int64 <= z <= max_int64.
Definition is_u64 (z : Z) : Prop := 0 <= z < two64.

#[export] Instance is_i64_dec z : Decision (is_i64 z).
Proof. unfold is_i64. apply _. Defined.
#[export] Instance is_u64_dec z : Decision (is_u64 z).
Proof. unfold is_u64. apply _. Defined.

Definition add64 (a b : Z) : Z := i64 (a + b).
Definition sub64 (a b : Z) : Z := i64 (a - b).
Definition mul64 (a b : Z) : Z := i64 (a * b).

Create HintDb goint.
Create Rewrite HintDb goint_rw.

Ltac unfold_int := unfold is_i64, is_u64, max_int64, min_int64, i64, u64, two64 in *.

Lemma i64_range z : is_i64 (i64 z).
Proof. unfold_int. pose proof (Z.mod_pos_bound (z + 2 ^ 63) (2 ^ 64)). lia. Qed.

Lemma u64_range z : is_u64 (u64 z).
Proof. unfold_int. apply Z.mod_pos_bound. lia. Qed.

Lemma i64_id z : is_i64 z → i64 z = z.
Proof. unfold_int. intros H. rewrite Z.mod_small; lia. Qed.

Lemma u64_id z : is_u64 z → u64 z = z.
Proof. unfold_int. apply Z.mod_small. Qed.

(** A [uint64] from 2^63 on becomes a negative [int]. *)
Lemma i64_of_big_u64 z : 2 ^ 63 <= z < two64 → i64 z = z - two64.
Proof.
  unfold_int. intros H. rewrite <- (Z_mod_plus_full _ (-1)).
  rewrite Z.mod_small; lia.
Qed.

Lemma i64_u64 z : i64 (u64 z) = i64 z.
Proof.
  unfold i64, u64, two64. f_equal.
  by rewrite Zplus_mod_idemp_l.
Qed.

Lemma i64_add_l a b : i64 (i64 a + b) = i64 (a + b).
Proof.
  unfold i64, two64. f_equal.
  replace ((a + 2 ^ 63) mod 2 ^ 64 - 2 ^ 63 + b + 2 ^ 63)
    with ((a + 2 ^ 63) mod 2 ^ 64 + b) by lia.
  rewrite Zplus_mod_idemp_l. f_equal. lia.
Qed.

#[export] Hint Resolve i64_range u64_range : goint.
#[export] Hint Rewrite i64_u64 i64_add_l : goint_rw.

(** Disjoint bit fields: the [or] of a value below 2^s and a value shifted by s is
    their sum. *)
Lemma lor_shiftl_add x b s :
  0 <= s → 0 <= x < 2 ^ s → Z.lor x (Z.shiftl b s) = x + b * 2 ^ s.
Proof.
  intros Hs Hx. rewrite <- Z.shiftl_mul_pow2 by lia. apply Z.or_to_plus. apply Z.bits_inj'. intros n Hn.
  rewrite Z.land_spec, Z.bits_0. destruct (Z.lt_ge_cases n s).
  - rewrite Z.shiftl_spec_low by lia. apply andb_false_r.
  - rewrite <- (Z.mod_small x (2 ^ s)) by lia.
    by rewrite Z.mod_pow2_bits_high by lia.
Qed.
