(* ===== verification/GoFloat.v ===== *)
(** IEEE 754 binary64 arithmetic, the [float64] of Go: round to nearest, ties to
    even, no fused multiply-add (the amd64 code generation).  The first part
    defines the operations the program uses on top of the Standard Library's
    executable specification; the second part shows that rounding respects
    every representable bound, which is what the components' invariants use. *)

From Stdlib Require Import SpecFloat.
From S2P Require Import Prelude GoInt.

Create HintDb gofloat.

(** * Operations *)

Abbreviation float64 := spec_float.

Definition f64_prec : Z := 53.
Definition f64_emax : Z := 1024.
Abbreviation fexp64 := (fexp f64_prec f64_emax).

Definition fadd : float64 → float64 → float64 := SFadd f64_prec f64_emax.
Definition fsub : float64 → float64 → float64 := SFsub f64_prec f64_emax.
Definition fmul : float64 → float64 → float64 := SFmul f64_prec f64_emax.
Definition fdiv : float64 → float64 → float64 := SFdiv f64_prec f64_emax.
Definition fopp : float64 → float64 := SFopp.
Definition fabs : float64 → float64 := SFabs.

Definition fltb : float64 → float64 → bool := SFltb.
Definition fleb : float64 → float64 → bool := SFleb.
Definition feqb : float64 → float64 → bool := SFeqb.
(** [a > b] and [a >= b]; false on NaN like the operators of Go. *)
Definition fgtb (a b : float64) : bool := SFltb b a.
Definition fgeb (a b : float64) : bool := SFleb b a.

Definition is_nan (x : float64) : bool := match x with S754_nan => true | _ => false end.
Definition is_inf (x : float64) : bool := match x with S754_infinity _ => true | _ => false end.

(** [float64(z)] for an integer, correctly rounded. *)
Definition f64_of_Z (z : Z) : float64 := binary_normalize f64_prec f64_emax z 0 false.

(** The float64 nearest to the rational n/d: the value of a decimal literal. *)
Definition f64_ratio (n : Z) (d : positive) : float64 :=
  match n with
  | Z0 => S754_zero false
  | Zpos p =>
      let '(m, e, l) := SFdiv_core_binary f64_prec f64_emax (Zpos p) 0 (Zpos d) 0 in
      binary_round_aux f64_prec f64_emax false m e l
  | Zneg p =>
      let '(m, e, l) := SFdiv_core_binary f64_prec f64_emax (Zpos p) 0 (Zpos d) 0 in
      binary_round_aux f64_prec f64_emax true m e l
  end.

Definition f64_zero : float64 := S754_zero false.
(** [math.MaxFloat64]. *)
Definition f64_max : float64 := S754_finite false (2 ^ 53 - 1) 971.

(** [math.Float64frombits]. *)
Definition f64_of_bits (bits : Z) : float64 :=
  let s := Z.testbit bits 63 in
  let e := Z.land (Z.shiftr bits 52) 2047 in
  let m := Z.land bits (2 ^ 52 - 1) in
  if e =? 2047 then if m =? 0 then S754_infinity s else S754_nan
  else if e =? 0 then
    match m with Zpos p => S754_finite s p (-1074) | _ => S754_zero s end
  else
    match m + 2 ^ 52 with Zpos p => S754_finite s p (e - 1075) | _ => S754_zero s end.

(** Truncation toward zero of a finite value. *)
Definition f64_trunc (x : float64) : Z :=
  match x with
  | S754_finite s m e => (if s then -1 else 1) * Z.shiftl (Zpos m) e
  | _ => 0
  end.

(** [int(x)] and [int64(x)].  The language leaves a value that does not fit
    to the implementation; amd64 gives the smallest integer. *)
Definition f64_to_int (x : float64) : Z :=
  match x with
  | S754_nan | S754_infinity _ => min_int64
  | _ => if decide (is_i64 (f64_trunc x)) then f64_trunc x else min_int64
  end.

(** [math.Round]: to the nearest integer, halves away from zero. *)
Definition f64_round (x : float64) : float64 :=
  match x with
  | S754_finite s m e =>
      if 0 <=? e then x
      else
        match Z.shiftr (Zpos m + Z.shiftl 1 (- e - 1)) (- e) with
        | Zpos q => binary_round f64_prec f64_emax s q 0
        | _ => S754_zero s
        end
  | _ => x
  end.

(** [math.Min] and [math.Max]. *)
Definition f64_min (x y : float64) : float64 :=
  match x, y with
  | S754_infinity true, _ | _, S754_infinity true => S754_infinity true
  | S754_nan, _ | _, S754_nan => S754_nan
  | S754_zero sx, S754_zero sy => if sx then x else y
  | _, _ => if fltb x y then x else y
  end.

Definition f64_max2 (x y : float64) : float64 :=
  match x, y with
  | S754_infinity false, _ | _, S754_infinity false => S754_infinity false
  | S754_nan, _ | _, S754_nan => S754_nan
  | S754_zero sx, S754_zero sy => if sx then y else x
  | _, _ => if fgtb x y then x else y
  end.

Example f64_of_bits_one : f64_of_bits 0x3FF0000000000000 = f64_of_Z 1.
Proof. reflexivity. Qed.
Example f64_tenth : f64_ratio 1 10 = f64_of_bits 0x3FB999999999999A.
Proof. reflexivity. Qed.
Example f64_round_half : f64_round (f64_ratio 5 2) = f64_of_Z 3 ∧
  f64_round (f64_ratio (-5) 2) = f64_of_Z (-3) ∧
  f64_round (f64_ratio 49 100) = f64_zero.
Proof. done. Qed.

(** * Exact values

    The value of a float in units of 2^-1074, the least positive one; an
    infinity counts as 2^1024, which is above every finite value. *)
Definition sgn (s : bool) : Z := if s then -1 else 1.

Definition finf : Z := 2 ^ 2098.

Definition fval (x : float64) : Z :=
  match x with
  | S754_finite s m e => sgn s * (Zpos m * 2 ^ (e + 1074))
  | S754_infinity s => sgn s * finf
  | _ => 0
  end.

(** A float that a Go variable can hold and that is not a NaN. *)
Definition num64 (x : float64) : Prop :=
  valid_binary f64_prec f64_emax x = true ∧ is_nan x = false.

(** Such a float that is finite as well. *)
Definition fin64 (x : float64) : Prop := num64 x ∧ is_inf x = false.

Lemma num64_zero : num64 f64_zero.
Proof. split; reflexivity. Qed.
Lemma fval_zero : fval f64_zero = 0.
Proof. reflexivity. Qed.

#[export] Instance num64_dec x : Decision (num64 x).
Proof. unfold num64. apply _. Defined.
#[export] Instance fin64_dec x : Decision (fin64 x).
Proof. unfold fin64. apply _. Defined.

Lemma digits2_pos_size p : digits2_pos p = Pos.size p.
Proof. induction p; cbn; congruence. Qed.

Definition digits (m : Z) : Z := Zdigits2 m.

Lemma digits_pos_bounds p :
  2 ^ (digits (Zpos p) - 1) <= Zpos p < 2 ^ digits (Zpos p).
Proof.
  unfold digits; cbn [Zdigits2]. rewrite digits2_pos_size.
  pose proof (Pos.size_gt p). pose proof (Pos.size_le p).
  assert (Hs : 2 ^ Zpos (Pos.size p) = Zpos (2 ^ Pos.size p)) by (by rewrite Pos2Z.inj_pow).
  rewrite Z.pow_sub_r by lia. split; [|lia].
  apply Z.div_le_upper_bound; lia.
Qed.

Lemma digits_pos_ge1 p : 1 <= digits (Zpos p).
Proof. unfold digits; cbn. lia. Qed.

Lemma digits_unique p d : 2 ^ (d - 1) <= Zpos p < 2 ^ d → 1 <= d → digits (Zpos p) = d.
Proof.
  intros H Hd. pose proof (digits_pos_bounds p) as B. pose proof (digits_pos_ge1 p).
  destruct (Z.lt_trichotomy (digits (Zpos p)) d) as [L|[L|L]]; [exfalso|done|exfalso].
  - pose proof (Z.pow_le_mono_r 2 (digits (Zpos p)) (d - 1)). lia.
  - pose proof (Z.pow_le_mono_r 2 d (digits (Zpos p) - 1)). lia.
Qed.

Lemma digits_le p d : 0 <= d → Zpos p < 2 ^ d → digits (Zpos p) <= d.
Proof.
  intros Hd H. pose proof (digits_pos_bounds p) as B.
  destruct (Z.le_gt_cases (digits (Zpos p)) d) as [|L]; [done|exfalso].
  pose proof (Z.pow_le_mono_r 2 d (digits (Zpos p) - 1)). lia.
Qed.

Lemma digits_shift p n : 0 <= n → digits (Zpos p * 2 ^ n) = digits (Zpos p) + n.
Proof.
  intros Hn. pose proof (digits_pos_bounds p) as B. pose proof (digits_pos_ge1 p).
  assert (0 < 2 ^ n) by lia.
  destruct (Zpos p * 2 ^ n) as [|q|q] eqn:E; [nia| |nia].
  apply digits_unique; [|lia]. rewrite <- E.
  replace (digits (Zpos p) + n - 1) with ((digits (Zpos p) - 1) + n) by lia.
  rewrite !Z.pow_add_r by lia. nia.
Qed.

(** The exponent and mantissa bounds of a valid finite float. *)
Lemma bounded_spec m e :
  bounded f64_prec f64_emax m e = true ↔
  e = fexp64 (digits (Zpos m) + e) ∧ e <= 971.
Proof.
  unfold bounded, canonical_mantissa, digits. cbn [Zdigits2].
  rewrite andb_true_iff, Z.eqb_eq, Z.leb_le. unfold f64_prec, f64_emax. split; intros []; split; lia.
Qed.

Lemma fexp64_eq e : fexp64 e = Z.max (e - 53) (-1074).
Proof. unfold fexp, emin, f64_prec, f64_emax. lia. Qed.

Lemma bounded_bounds m e :
  bounded f64_prec f64_emax m e = true →
  -1074 <= e <= 971 ∧ digits (Zpos m) <= 53 ∧ (e = -1074 ∨ digits (Zpos m) = 53).
Proof. rewrite bounded_spec, fexp64_eq. lia. Qed.

(** * Comparison is comparison of values *)

Section Compare.
Lemma pow_scale e1 e2 : -1074 <= e1 <= e2 →
  2 ^ (e2 + 1074) = 2 ^ (e1 + 1074) * 2 ^ (e2 - e1).
Proof. intros H. rewrite <- Z.pow_add_r by lia. f_equal. lia. Qed.

Lemma bounded_lt m1 e1 m2 e2 :
  bounded f64_prec f64_emax m1 e1 = true → bounded f64_prec f64_emax m2 e2 = true →
  e1 < e2 → Zpos m1 * 2 ^ (e1 + 1074) < Zpos m2 * 2 ^ (e2 + 1074).
Proof.
  intros B1%bounded_bounds B2%bounded_bounds He.
  pose proof (digits_pos_bounds m1). pose proof (digits_pos_bounds m2).
  destruct B2 as (? & ? & [|E2]); [lia|]. rewrite E2 in *.
  rewrite (pow_scale e1 e2) by lia.
  assert (2 ^ digits (Zpos m1) <= 2 ^ 53) by (apply Z.pow_le_mono_r; lia).
  assert (2 ^ 1 <= 2 ^ (e2 - e1)) by (apply Z.pow_le_mono_r; lia).
  set (B := 2 ^ (e2 - e1)) in *. set (D := 2 ^ digits (Zpos m1)) in *.
  change (2 ^ 1) with 2 in *. change (2 ^ (53 - 1)) with 4503599627370496 in *.
  change (2 ^ 53) with 9007199254740992 in *.
  assert (Zpos m1 < Zpos m2 * B) by nia.
  rewrite (Z.mul_comm (2 ^ _)), Z.mul_assoc. apply Z.mul_lt_mono_pos_r; lia.
Qed.

Lemma finite_compare m1 e1 m2 e2 :
  bounded f64_prec f64_emax m1 e1 = true → bounded f64_prec f64_emax m2 e2 = true →
  (Zpos m1 * 2 ^ (e1 + 1074) ?= Zpos m2 * 2 ^ (e2 + 1074)) =
  match e1 ?= e2 with Lt => Lt | Gt => Gt | Eq => Pos.compare m1 m2 end.
Proof.
  intros B1 B2. destruct (Z.compare_spec e1 e2) as [->|L|L].
  - apply bounded_bounds in B2. rewrite <- Zmult_compare_compat_r; [done|lia].
  - apply Z.compare_lt_iff. by apply bounded_lt.
  - apply Z.compare_gt_iff. by apply bounded_lt.
Qed.

Lemma fval_pos m e : -1074 <= e → 0 < Zpos m * 2 ^ (e + 1074).
Proof. intros. apply Z.mul_pos_pos; lia. Qed.

Lemma bounded_lt_inf m e :
  bounded f64_prec f64_emax m e = true → Zpos m * 2 ^ (e + 1074) < finf.
Proof.
  intros B%bounded_bounds. pose proof (digits_pos_bounds m) as D.
  assert (2 ^ digits (Zpos m) <= 2 ^ 53) by (apply Z.pow_le_mono_r; lia).
  assert (2 ^ (e + 1074) <= 2 ^ 2045) by (apply Z.pow_le_mono_r; lia).
  assert (0 < 2 ^ (e + 1074)) by lia.
  apply Z.lt_le_trans with (2 ^ 53 * 2 ^ (e + 1074)).
  - apply Z.mul_lt_mono_pos_r; lia.
  - unfold finf. replace 2098 with (53 + 2045) by lia. rewrite (Z.pow_add_r 2 53 2045) by lia.
    apply Z.mul_le_mono_nonneg_l; lia.
Qed.

Lemma fval_finite_bounds s m e :
  bounded f64_prec f64_emax m e = true →
  0 < Zpos m * 2 ^ (e + 1074) < finf ∧ - finf < fval (S754_finite s m e) < finf.
Proof.
  intros B. pose proof (bounded_lt_inf _ _ B).
  pose proof (fval_pos m e (proj1 (proj1 (bounded_bounds _ _ B)))).
  cbn [fval]. set (v := Zpos m * _) in *. destruct s; unfold sgn; lia.
Qed.

Lemma finf_pos : 0 < finf.
Proof. unfold finf. lia. Qed.

Lemma fval_bounds x : num64 x → - finf <= fval x <= finf.
Proof.
  intros [V N]. pose proof finf_pos.
  destruct x as [s|s| |s m e]; [cbn [fval]; lia| |done|]; cbn in V.
  - cbn [fval]; destruct s; unfold sgn; lia.
  - pose proof (fval_finite_bounds s m e V). lia.
Qed.

Lemma fin_lt_inf x : fin64 x → - finf < fval x < finf.
Proof.
  intros [[V N] I]. pose proof finf_pos. destruct x as [s|s| |s m e]; try discriminate.
  - cbn [fval]. lia.
  - by apply fval_finite_bounds.
Qed.

Lemma lt_inf_fin x : num64 x → - finf < fval x < finf → fin64 x.
Proof.
  intros Hx Hb. split; [done|]. destruct x as [s|s| |s m e]; try reflexivity.
  cbn [fval] in Hb. destruct s; unfold sgn in Hb; lia.
Qed.

(** The order of the values decides every comparison of Go. *)
Lemma fcompare_fval x y :
  num64 x → num64 y → SFcompare x y = Some (fval x ?= fval y).
Proof.
  intros [Vx Nx] [Vy Ny]. pose proof finf_pos.
  destruct x as [sx|sx| |sx mx ex]; try done; destruct y as [sy|sy| |sy my ey]; try done;
    cbn in Vx, Vy;
    try (pose proof (fval_finite_bounds sx mx ex Vx));
    try (pose proof (fval_finite_bounds sy my ey Vy)).
  8: { pose proof (finite_compare _ _ _ _ Vx Vy) as C. cbn [SFcompare fval].
    destruct sx, sy; unfold sgn; f_equal; rewrite ?Z.mul_1_l.
    - replace (-1 * (Zpos mx * 2 ^ (ex + 1074))) with (- (Zpos mx * 2 ^ (ex + 1074))) by lia.
      replace (-1 * (Zpos my * 2 ^ (ey + 1074))) with (- (Zpos my * 2 ^ (ey + 1074))) by lia.
      rewrite <- Zcompare_opp, (Z.compare_antisym (Zpos mx * _)), C.
      by destruct (ex ?= ey).
    - symmetry. apply Z.compare_lt_iff. lia.
    - symmetry. apply Z.compare_gt_iff. lia.
    - rewrite C. by destruct (ex ?= ey). }
  all: cbn [SFcompare]; f_equal; symmetry; cbn [fval] in *.
  all: try (destruct sx); try (destruct sy); unfold sgn in *;
    rewrite ?Z.compare_lt_iff, ?Z.compare_gt_iff, ?Z.compare_eq_iff; lia.
Qed.

Lemma fltb_fval x y : num64 x → num64 y → fltb x y = (fval x <? fval y).
Proof.
  intros Hx Hy. unfold fltb, SFltb. rewrite fcompare_fval by done.
  unfold Z.ltb. by destruct (_ ?= _).
Qed.

Lemma fgtb_fval x y : num64 x → num64 y → fgtb x y = (fval y <? fval x).
Proof. intros Hx Hy. unfold fgtb. by apply fltb_fval. Qed.

Lemma fleb_fval x y : num64 x → num64 y → fleb x y = (fval x <=? fval y).
Proof.
  intros Hx Hy. unfold fleb, SFleb. rewrite fcompare_fval by done.
  unfold Z.leb. by destruct (_ ?= _).
Qed.

Lemma feqb_fval x y : num64 x → num64 y → feqb x y = (fval x =? fval y).
Proof.
  intros Hx Hy. unfold feqb, SFeqb. rewrite fcompare_fval by done.
  destruct (Z.compare_spec (fval x) (fval y)); symmetry;
    rewrite ?Z.eqb_eq, ?Z.eqb_neq; lia.
Qed.
End Compare.

(** * Rounding respects representable bounds *)

Section Rounding.
Lemma iter_pos_nat {A} (f : A → A) n x : SpecFloat.iter_pos f n x = Nat.iter (Pos.to_nat n) f x.
Proof.
  revert x. induction n as [n IH|n IH|]; intros x; cbn [SpecFloat.iter_pos].
  - rewrite !IH, Pos2Nat.inj_xI, Nat.iter_succ_r, <- Nat.iter_add. f_equal. lia.
  - rewrite !IH, Pos2Nat.inj_xO, <- Nat.iter_add. f_equal. lia.
  - done.
Qed.

Lemma pos_iter_xO p n : Zpos (Pos.iter xO p n) = Zpos p * 2 ^ Zpos n.
Proof.
  induction n as [|n IH] using Pos.peano_ind; [rewrite Z.mul_comm; done|].
  rewrite Pos.iter_succ, Pos2Z.inj_succ, Z.pow_succ_r by lia.
  rewrite (Pos2Z.inj_xO (Pos.iter _ _ _)), IH. lia.
Qed.

(** What shifting right by n bits keeps of m0: a quotient, and whether the
    rest that was dropped is zero. *)
Definition shr_inv (m0 : Z) (n : nat) (r : shr_record) : Prop :=
  0 <= shr_m r ∧ ∃ rest, m0 = shr_m r * 2 ^ Z.of_nat n + rest ∧
    0 <= rest < 2 ^ Z.of_nat n ∧ (shr_r r || shr_s r = false ↔ rest = 0).

Lemma shr_1_inv m0 n r : shr_inv m0 n r → shr_inv m0 (S n) (shr_1 r).
Proof.
  intros (Hm & rest & -> & Hr & Hz). destruct r as [m br bs]; cbn in *.
  split; [by destruct m as [|[]|]|].
  rewrite Nat2Z.inj_succ, Z.pow_succ_r by lia.
  destruct m as [|[p|p|]|p]; cbn [shr_1 shr_m shr_r shr_s]; try lia.
  - exists rest. repeat split; [lia..|apply Hz|apply Hz].
  - exists (2 ^ Z.of_nat n + rest). repeat split; [rewrite Pos2Z.inj_xI; lia|lia..|done|lia].
  - exists rest. repeat split; [rewrite Pos2Z.inj_xO; lia|lia..|apply Hz|apply Hz].
  - exists (2 ^ Z.of_nat n + rest). repeat split; [lia..|done|lia].
Qed.

Lemma shr_exact_spec m0 e n :
  0 <= m0 → 0 <= n →
  ∃ r, shr (shr_record_of_loc m0 loc_Exact) e n = (r, e + n) ∧
       shr_inv m0 (Z.to_nat n) r.
Proof.
  intros Hm Hn.
  assert (H0 : shr_inv m0 0 (shr_record_of_loc m0 loc_Exact)).
  { split; [done|]. exists 0. cbn. repeat split; lia. }
  destruct n as [|n|n]; [| |lia]; cbn [shr].
  - rewrite Z.add_0_r. eauto.
  - eexists; split; [done|]. rewrite iter_pos_nat, Z2Nat.inj_pos.
    generalize (Pos.to_nat n). intros k. induction k; [done|]. by apply shr_1_inv.
Qed.

Lemma shr_negative r e n : n <= 0 → shr r e n = (r, e).
Proof. destruct n; [done|lia|done]. Qed.

(** The rounded quotient is the floor or the ceiling. *)
Lemma round_floor_ceil m0 n r :
  shr_inv m0 n r →
  let q := round_nearest_even (shr_m r) (loc_of_shr_record r) in
  0 <= q ∧ (q - 1) * 2 ^ Z.of_nat n < m0 < (q + 1) * 2 ^ Z.of_nat n.
Proof.
  intros (Hm & rest & -> & Hr & Hz). destruct r as [m [] []]; cbn in *;
    try (destruct (Z.even m)); first [assert (rest ≠ 0) by (intros ?%Hz; done)
                                     |assert (rest = 0) by (by apply Hz)]; lia.
Qed.

(** The float with mantissa q (at most 2^53) at exponent e. *)
Definition pack (s : bool) (q e : Z) : float64 :=
  match q with
  | Zpos p =>
      if q =? 2 ^ 53
      then if e + 1 <=? 971 then S754_finite s (2 ^ 52) (e + 1) else S754_infinity s
      else if e <=? 971 then S754_finite s p e else S754_infinity s
  | _ => S754_zero s
  end.

Lemma finish_pack s q e :
  0 <= q <= 2 ^ 53 → -1074 <= e →
  (let '(mrs, e'') := shr_fexp f64_prec f64_emax q e loc_Exact in
   match shr_m mrs with
   | Z0 => S754_zero s
   | Zpos m => if e'' <=? f64_emax - f64_prec then S754_finite s m e'' else S754_infinity s
   | _ => S754_nan
   end) = pack s q e.
Proof.
  intros Hq He. unfold shr_fexp. rewrite fexp64_eq.
  destruct q as [|p|p]; [| |lia].
  - rewrite shr_negative by (cbn [Zdigits2]; lia). done.
  - unfold pack. destruct (Zpos p =? 2 ^ 53) eqn:E.
    + apply Z.eqb_eq in E. injection E as ->.
      replace (_ - e) with 1 by (change (Zdigits2 _) with 54; lia).
      done.
    + apply Z.eqb_neq in E.
      pose proof (digits_le p 53) as Hd. unfold digits in Hd.
      rewrite shr_negative by lia. done.
Qed.

(** [binary_round_aux] packs the floor or the ceiling of the exact quotient
    at the exponent the magnitude asks for. *)
Lemma round_aux_pack s p e :
  e <= fexp64 (digits (Zpos p) + e) →
  ∃ q, let E := fexp64 (digits (Zpos p) + e) in
    binary_round_aux f64_prec f64_emax s (Zpos p) e loc_Exact = pack s q E ∧
    0 <= q <= 2 ^ 53 ∧
    (q - 1) * 2 ^ (E - e) < Zpos p < (q + 1) * 2 ^ (E - e).
Proof.
  intros He. cbv zeta. set (E := fexp64 _) in *.
  unfold binary_round_aux, shr_fexp at 1.
  change (fexp f64_prec f64_emax (Zdigits2 (Zpos p) + e)) with E.
  destruct (shr_exact_spec (Zpos p) e (E - e)) as (r & -> & Hr); [lia..|].
  pose proof (round_floor_ceil _ _ _ Hr) as Hq. cbv zeta in Hq.
  set (q := round_nearest_even _ _) in *. rewrite Z2Nat.id in Hq by lia.
  assert (-1074 <= E) by (unfold E; rewrite fexp64_eq; lia).
  assert (q <= 2 ^ 53).
  { pose proof (digits_pos_bounds p).
    assert (2 ^ digits (Zpos p) <= 2 ^ (53 + (E - e))).
    { apply Z.pow_le_mono_r; [lia|]. unfold E. rewrite fexp64_eq. lia. }
    rewrite Z.pow_add_r in * by lia. assert (0 < 2 ^ (E - e)) by lia. nia. }
  exists q. replace (e + (E - e)) with E by lia. split; [|lia].
  apply finish_pack; lia.
Qed.

(** The same for [binary_round], at any exponent; the bounds on the quotient
    are in units of 2^-1074. *)
Lemma round_pack s p e :
  -1074 <= e →
  ∃ q, let E := fexp64 (digits (Zpos p) + e) in
    binary_round f64_prec f64_emax s p e = pack s q E ∧ 0 <= q <= 2 ^ 53 ∧
    (q - 1) * 2 ^ (E + 1074) < Zpos p * 2 ^ (e + 1074) < (q + 1) * 2 ^ (E + 1074).
Proof.
  intros He. cbv zeta. unfold binary_round, shl_align.
  change (Zpos (digits2_pos p)) with (digits (Zpos p)).
  set (E := fexp64 (digits (Zpos p) + e)).
  assert (HE : -1074 <= E) by (unfold E; rewrite fexp64_eq; lia).
  destruct (E - e) as [|d|d] eqn:Hd.
  1,2: destruct (round_aux_pack s p e) as (q & Hq & Hb & Hlt); [fold E; lia|];
    fold E in Hq, Hlt; exists q; split_and!; [done|lia..| |];
    replace (E + 1074) with ((E - e) + (e + 1074)) by lia;
    rewrite (Z.pow_add_r 2 (E - e)), Z.mul_assoc by lia; apply Z.mul_lt_mono_pos_r; lia.
  set (p' := Pos.iter xO p d).
  assert (Hp : Zpos p' = Zpos p * 2 ^ (e - E)).
  { unfold p'. rewrite pos_iter_xO. do 2 f_equal. lia. }
  assert (HE' : fexp64 (digits (Zpos p') + E) = E).
  { rewrite Hp, digits_shift by lia. unfold E at 2. f_equal. lia. }
  destruct (round_aux_pack s p' E) as (q & Hq & Hb & Hlt); [lia|].
  rewrite HE', Z.sub_diag, Z.pow_0_r in Hlt. rewrite HE' in Hq.
  exists q. split_and!; [done|lia..| |];
    replace (e + 1074) with ((e - E) + (E + 1074)) by lia;
    rewrite (Z.pow_add_r 2 (e - E)), Z.mul_assoc, <- Hp by lia; apply Z.mul_lt_mono_pos_r; lia.
Qed.

(** The magnitude reaches 2^52 units of the chosen exponent, unless that is the
    least one; so does the quotient. *)
Lemma round_magnitude p e :
  -1074 <= e → let E := fexp64 (digits (Zpos p) + e) in
  -1074 < E → 2 ^ 52 * 2 ^ (E + 1074) <= Zpos p * 2 ^ (e + 1074).
Proof.
  intros He E HE. pose proof (digits_pos_bounds p) as D. pose proof (digits_pos_ge1 p).
  assert (HE2 : E + 53 = digits (Zpos p) + e) by (unfold E in *; rewrite fexp64_eq in *; lia).
  rewrite <- Z.pow_add_r by lia.
  replace (52 + (E + 1074)) with ((digits (Zpos p) - 1) + (e + 1074)) by lia.
  rewrite Z.pow_add_r by lia. apply Z.mul_le_mono_nonneg_r; lia.
Qed.

Lemma round_quotient_big p e q :
  -1074 <= e → let E := fexp64 (digits (Zpos p) + e) in
  Zpos p * 2 ^ (e + 1074) < (q + 1) * 2 ^ (E + 1074) → -1074 < E → 2 ^ 52 <= q.
Proof.
  intros He E Hlt HE. subst E. pose proof (round_magnitude p e He HE) as Hm. cbv zeta in Hm.
  apply Z.lt_succ_r. apply Z.mul_lt_mono_pos_r with (2 ^ (fexp64 (digits (Zpos p) + e) + 1074)); lia.
Qed.

Lemma pack_num s q E :
  0 <= q <= 2 ^ 53 → -1074 <= E → (-1074 < E → 2 ^ 52 <= q) → num64 (pack s q E).
Proof.
  intros Hq HE Hn. unfold pack. destruct q as [|p|p]; [done| |lia].
  destruct (Z.eqb_spec (Zpos p) (2 ^ 53)).
  - destruct (Z.leb_spec (E + 1) 971); [|done]. split; [|done]. cbn [valid_binary].
    rewrite bounded_spec, fexp64_eq. change (digits _) with 53. lia.
  - destruct (Z.leb_spec E 971); [|done]. split; [|done]. cbn [valid_binary].
    rewrite bounded_spec, fexp64_eq. pose proof (digits_le p 53).
    destruct (Z.eq_dec E (-1074)); [lia|].
    rewrite (digits_unique p 53) by lia. lia.
Qed.

(** The value of a packed float, unless it overflowed. *)
Lemma pack_fval q E :
  0 <= q <= 2 ^ 53 → -1074 <= E → (-1074 < E → 2 ^ 52 <= q) →
  (fval (pack false q E) = q * 2 ^ (E + 1074)) ∨
  (pack false q E = S754_infinity false ∧ finf <= q * 2 ^ (E + 1074)).
Proof.
  intros Hq HE Hn. unfold pack. destruct q as [|p|p]; [by left| |lia].
  assert (Hinf : ∀ k, 971 < k → finf <= 2 ^ 52 * 2 ^ (k + 1074)).
  { intros k Hk. unfold finf. rewrite <- Z.pow_add_r by lia. apply Z.pow_le_mono_r; lia. }
  destruct (Z.eqb_spec (Zpos p) (2 ^ 53)) as [->|].
  - assert (Hs : 2 ^ 53 * 2 ^ (E + 1074) = 2 ^ 52 * 2 ^ (E + 1 + 1074)).
    { rewrite <- !Z.pow_add_r by lia. f_equal. lia. }
    rewrite Hs. destruct (Z.leb_spec (E + 1) 971); [left|right; split; [done|]; by apply Hinf].
    cbn [fval]. unfold sgn. change (Zpos (2 ^ 52)) with (2 ^ 52). lia.
  - destruct (Z.leb_spec E 971); [left; cbn [fval]; unfold sgn; lia|right; split; [done|]].
    etransitivity; [apply (Hinf E); lia|]. apply Z.mul_le_mono_nonneg_r; lia.
Qed.

(** A representable positive value is a multiple of the unit 2^E, or it lies
    below 2^52 units. *)
Lemma representable_grid m e E :
  bounded f64_prec f64_emax m e = true → -1074 <= E →
  (∃ k, Zpos m * 2 ^ (e + 1074) = k * 2 ^ (E + 1074)) ∨
  (e < E ∧ Zpos m * 2 ^ (e + 1074) < 2 ^ 52 * 2 ^ (E + 1074)).
Proof.
  intros B%bounded_bounds HE. destruct (Z.le_gt_cases E e).
  - left. exists (Zpos m * 2 ^ (e - E)). rewrite <- Z.mul_assoc, <- Z.pow_add_r by lia.
    do 2 f_equal. lia.
  - right. split; [done|]. pose proof (digits_pos_bounds m).
    assert (2 ^ digits (Zpos m) <= 2 ^ 53) by (apply Z.pow_le_mono_r; lia).
    apply Z.lt_le_trans with (2 ^ 53 * 2 ^ (e + 1074)).
    + apply Z.mul_lt_mono_pos_r; lia.
    + rewrite <- !Z.pow_add_r by lia. apply Z.pow_le_mono_r; lia.
Qed.

Lemma grid_le k q U V : 0 < U → k * U <= V → V < (q + 1) * U → k * U <= q * U.
Proof.
  intros HU H1 H2. apply Z.mul_le_mono_nonneg_r; [lia|]. apply Z.lt_succ_r.
  apply Z.mul_lt_mono_pos_r with U; lia.
Qed.

Lemma grid_ge q k U V : 0 < U → V <= k * U → (q - 1) * U < V → q * U <= k * U.
Proof.
  intros HU H1 H2. apply Z.mul_le_mono_nonneg_r; [lia|].
  enough (q - 1 < k) by lia. apply Z.mul_lt_mono_pos_r with U; lia.
Qed.

(** The float [r] is a rounding of the exact value V. *)
Definition rounds (V : Z) (r : float64) : Prop :=
  num64 r ∧ (∀ x, num64 x → V <= fval x → fval r <= fval x) ∧
            (∀ x, num64 x → fval x <= V → fval x <= fval r).

Lemma rounds_exact x : num64 x → rounds (fval x) x.
Proof. by repeat split; try apply H. Qed.

Lemma rounds_unique_value x r : num64 x → rounds (fval x) r → fval r = fval x.
Proof. intros Hx (Hr & Hu & Hl). apply Z.le_antisymm; [by apply Hu|by apply Hl]. Qed.

Lemma round_pos_rounds p e :
  -1074 <= e → rounds (Zpos p * 2 ^ (e + 1074)) (binary_round f64_prec f64_emax false p e).
Proof.
  intros He. destruct (round_pack false p e He) as (q & -> & Hq & Hlo & Hhi).
  pose proof (round_quotient_big p e q He Hhi) as Hbig.
  pose proof (round_magnitude p e He) as Hmag. cbv zeta in Hmag.
  set (E := fexp64 _) in *. set (V := Zpos p * _) in *.
  assert (HE : -1074 <= E) by (unfold E; rewrite fexp64_eq; lia).
  assert (0 < V) by (apply fval_pos; lia).
  pose proof (pack_num false q E Hq HE Hbig) as Hnum.
  assert (Hval : fval (pack false q E) = q * 2 ^ (E + 1074) ∨
    (fval (pack false q E) = finf ∧ finf <= q * 2 ^ (E + 1074))).
  { destruct (pack_fval q E Hq HE Hbig) as [->|[-> ?]]; [by left|].
    right. cbn [fval]. unfold sgn. lia. }
  pose proof (fval_bounds _ Hnum).
  set (U := 2 ^ (E + 1074)) in *. assert (0 < U) by (unfold U; lia).
  assert (0 <= q * U) by (apply Z.mul_nonneg_nonneg; lia). pose proof finf_pos.
  assert (0 <= fval (pack false q E)) by lia.
  split; [done|]. split; intros x Hx HV; pose proof (fval_bounds x Hx).
  - destruct x as [s|s| |s m ex]; [cbn [fval] in *; lia| |by destruct Hx|].
    { cbn [fval] in *. destruct s; unfold sgn in *; lia. }
    pose proof (fval_finite_bounds s m ex (proj1 Hx)).
    destruct s; cbn [fval] in *; unfold sgn in *; [lia|].
    destruct (representable_grid m ex E (proj1 Hx) HE) as [[k Hk]|[HeE Hsmall]].
    + fold U in Hk. rewrite Z.mul_1_l, Hk in *.
      assert (q * U <= k * U) by (apply (grid_ge q k U V); lia). lia.
    + fold U in Hsmall. pose proof (bounded_bounds _ _ (proj1 Hx)). lia.
  - destruct x as [s|s| |s m ex]; [cbn [fval]; lia| |by destruct Hx|].
    { destruct s; cbn [fval] in *; unfold sgn in *; [lia|]. rewrite Z.mul_1_l in *.
      enough (finf <= q * U) by lia. destruct (Z.le_gt_cases (E + 1074) 2098) as [HE2|HE2].
      - assert (Hk : finf = 2 ^ (2098 - (E + 1074)) * U).
        { unfold finf, U. rewrite <- Z.pow_add_r by lia. f_equal. lia. }
        set (k := 2 ^ (2098 - (E + 1074))) in *. rewrite Hk. apply (grid_le k q U V); lia.
      - assert (finf <= U) by (apply Z.pow_le_mono_r; lia).
        assert (1 * U <= q * U) by (apply Z.mul_le_mono_nonneg_r; lia). lia. }
    pose proof (fval_finite_bounds s m ex (proj1 Hx)).
    destruct s; cbn [fval] in *; unfold sgn in *; [lia|].
    destruct (representable_grid m ex E (proj1 Hx) HE) as [[k Hk]|[HeE Hsmall]].
    + fold U in Hk. rewrite Z.mul_1_l, Hk in *.
      assert (k * U <= q * U) by (apply (grid_le k q U V); lia). lia.
    + fold U in Hsmall. pose proof (bounded_bounds _ _ (proj1 Hx)).
      assert (2 ^ 52 * U <= q * U) by (apply Z.mul_le_mono_nonneg_r; lia). lia.
Qed.

(** Negation mirrors everything. *)
Lemma fval_fopp x : fval (fopp x) = - fval x.
Proof. destruct x as [s|s| |s m e]; cbn [fopp SFopp fval]; try destruct s; cbn [negb]; unfold sgn; lia. Qed.

Lemma num64_fopp x : num64 x → num64 (fopp x).
Proof. by destruct x. Qed.

Lemma fopp_involutive x : fopp (fopp x) = x.
Proof. destruct x as [[]|[]| |[] m e]; done. Qed.

Lemma rounds_fopp V r : rounds V r → rounds (- V) (fopp r).
Proof.
  intros (Hr & Hu & Hl). split; [by apply num64_fopp|].
  split; intros x Hx HV; rewrite fval_fopp;
    [specialize (Hl (fopp x))|specialize (Hu (fopp x))]; rewrite fval_fopp in *;
    pose proof (num64_fopp x Hx); [enough (- fval x <= fval r)|enough (fval r <= - fval x)];
    try lia; [apply Hl|apply Hu]; lia || done.
Qed.

Lemma pack_true q E : pack true q E = fopp (pack false q E).
Proof. unfold pack. destruct q; try done. by repeat case_match. Qed.

Lemma round_neg p e : binary_round f64_prec f64_emax true p e =
                      fopp (binary_round f64_prec f64_emax false p e).
Proof.
  unfold binary_round, binary_round_aux.
  destruct (shl_align _ _ _) as [mz ez]. destruct (shr_fexp _ _ _ _ _) as [r e'].
  destruct (shr_fexp _ _ _ _ _) as [r' e''].
  destruct (shr_m r'); try done. by destruct (_ <=? _).
Qed.

Lemma round_neg_rounds p e :
  -1074 <= e → rounds (- (Zpos p * 2 ^ (e + 1074))) (binary_round f64_prec f64_emax true p e).
Proof. intros He. rewrite round_neg. by apply rounds_fopp, round_pos_rounds. Qed.

Lemma normalize_rounds M e s :
  -1074 <= e → rounds (M * 2 ^ (e + 1074)) (binary_normalize f64_prec f64_emax M e s).
Proof.
  intros He. destruct M as [|p|p]; cbn [binary_normalize].
  - by apply (rounds_exact (S754_zero s)).
  - by apply round_pos_rounds.
  - replace (Zneg p * 2 ^ (e + 1074)) with (- (Zpos p * 2 ^ (e + 1074))) by lia.
    by apply round_neg_rounds.
Qed.

Lemma shl_align_scale m e ez :
  -1074 <= ez <= e →
  Zpos (fst (shl_align m e ez)) * 2 ^ (ez + 1074) = Zpos m * 2 ^ (e + 1074).
Proof.
  intros H. unfold shl_align. destruct (ez - e) as [|d|d] eqn:E; cbn [fst].
  - do 2 f_equal. lia.
  - lia.
  - rewrite pos_iter_xO, <- Z.mul_assoc, <- Z.pow_add_r by lia. do 2 f_equal. lia.
Qed.
End Rounding.

#[export] Hint Resolve rounds_exact normalize_rounds num64_fopp : gofloat.

(** * Sums and differences of finite floats are roundings of the exact result *)

Section AddSub.
Lemma finite_scaled s m e ez :
  bounded f64_prec f64_emax m e = true → -1074 <= ez <= e →
  fval (S754_finite s m e) =
  cond_Zopp s (Zpos (fst (shl_align m e ez))) * 2 ^ (ez + 1074).
Proof.
  intros B H. cbn [fval]. rewrite <- (shl_align_scale m e ez) by done.
  destruct s; unfold cond_Zopp, sgn; lia.
Qed.

Lemma fadd_rounds x y : fin64 x → fin64 y → rounds (fval x + fval y) (fadd x y).
Proof.
  intros [[Vx Nx] Ix] [[Vy Ny] Iy].
  destruct x as [sx|sx| |sx mx ex], y as [sy|sy| |sy my ey]; try discriminate; cbn in Vx, Vy.
  - by destruct sx, sy; apply (rounds_exact (S754_zero _)).
  - apply (rounds_exact (S754_finite sy my ey)). done.
  - replace (fval _ + fval (S754_zero sy)) with (fval (S754_finite sx mx ex)) by (cbn [fval]; lia).
    by apply rounds_exact.
  - pose proof (bounded_bounds _ _ Vx). pose proof (bounded_bounds _ _ Vy).
    rewrite (finite_scaled sx mx ex (Z.min ex ey)), (finite_scaled sy my ey (Z.min ex ey))
      by (done || lia).
    rewrite <- Z.mul_add_distr_r. unfold fadd, SFadd. apply normalize_rounds. lia.
Qed.

Lemma fsub_rounds x y : fin64 x → fin64 y → rounds (fval x - fval y) (fsub x y).
Proof.
  intros [[Vx Nx] Ix] [[Vy Ny] Iy].
  destruct x as [sx|sx| |sx mx ex], y as [sy|sy| |sy my ey]; try discriminate; cbn in Vx, Vy.
  - by destruct sx, sy; apply (rounds_exact (S754_zero _)).
  - replace (fval (S754_zero sx) - fval (S754_finite sy my ey))
      with (fval (S754_finite (negb sy) my ey))
      by (cbn [fval]; destruct sy; unfold sgn; cbn [negb]; lia).
    by apply rounds_exact.
  - replace (fval _ - fval (S754_zero sy)) with (fval (S754_finite sx mx ex)) by (cbn [fval]; lia).
    by apply rounds_exact.
  - pose proof (bounded_bounds _ _ Vx). pose proof (bounded_bounds _ _ Vy).
    rewrite (finite_scaled sx mx ex (Z.min ex ey)), (finite_scaled sy my ey (Z.min ex ey))
      by (done || lia).
    rewrite <- Z.mul_sub_distr_r. unfold fsub, SFsub. apply normalize_rounds. lia.
Qed.

(** Adding a nonnegative amount never lowers a nonnegative value. *)
Lemma fadd_nonneg x y :
  num64 x → num64 y → 0 <= fval x → 0 <= fval y →
  num64 (fadd x y) ∧ fval x <= fval (fadd x y).
Proof.
  intros Hx Hy H0x H0y. pose proof finf_pos.
  assert (Hpos : ∀ z, num64 z → 0 <= fval z → is_inf z = true → z = S754_infinity false).
  { intros [|[]| |] Hz H0 Iz; try discriminate; [|done].
    exfalso. cbn [fval] in H0. unfold sgn in H0. lia. }
  destruct (is_inf x) eqn:Ix.
  { rewrite (Hpos x) in * by done. destruct (is_inf y) eqn:Iy; [by rewrite (Hpos y)|].
    by destruct y as [| | |]; try by destruct Hy. }
  destruct (is_inf y) eqn:Iy.
  { rewrite (Hpos y) in * by done. pose proof (fval_bounds x Hx).
    assert (fadd x (S754_infinity false) = S754_infinity false) as ->
      by (by destruct x; try by destruct Hx).
    split; [done|]. cbn [fval]. unfold sgn. lia. }
  destruct (fadd_rounds x y) as (Hn & _ & Hl); [done..|]. split; [done|].
  apply Hl; [done|lia].
Qed.

(** Subtracting a nonnegative amount never raises a finite value. *)
Lemma fsub_le x y :
  fin64 x → fin64 y → 0 <= fval y → num64 (fsub x y) ∧ fval (fsub x y) <= fval x.
Proof.
  intros Hx Hy H0. destruct (fsub_rounds x y Hx Hy) as (Hn & Hu & _).
  split; [done|]. apply Hu; [apply Hx|lia].
Qed.

(** A difference that is not negative stays so. *)
Lemma fsub_ge0 x y :
  fin64 x → fin64 y → fval y <= fval x → 0 <= fval (fsub x y).
Proof.
  intros Hx Hy H. destruct (fsub_rounds x y Hx Hy) as (_ & _ & Hl).
  apply (Hl f64_zero); [done|cbn [fval f64_zero]; lia].
Qed.
End AddSub.

(** * Integers below 2^53 are exact *)

Section OfZ.
Lemma f64_of_Z_rounds z : rounds (z * 2 ^ 1074) (f64_of_Z z).
Proof. apply (normalize_rounds z 0). lia. Qed.

Lemma round_exact p e :
  -1074 <= e → digits (Zpos p) <= 53 → e <= 900 →
  fval (binary_round f64_prec f64_emax false p e) = Zpos p * 2 ^ (e + 1074).
Proof.
  intros He Hd He2. destruct (round_pack false p e He) as (q & -> & Hq & Hlo & Hhi).
  pose proof (round_quotient_big p e q He Hhi) as Hbig.
  set (E := fexp64 _) in *. pose proof (digits_pos_bounds p).
  assert (HE : -1074 <= E <= e) by (unfold E; rewrite fexp64_eq; lia).
  assert (Hv : q * 2 ^ (E + 1074) = Zpos p * 2 ^ (e + 1074)).
  { rewrite (pow_scale E e) in * by lia. set (U := 2 ^ (E + 1074)) in *.
    assert (0 < U) by (unfold U; lia).
    rewrite (Z.mul_comm U), Z.mul_assoc in *.
    apply Z.mul_lt_mono_pos_r in Hlo; [|done]. apply Z.mul_lt_mono_pos_r in Hhi; [|done].
    f_equal. lia. }
  destruct (pack_fval q E Hq) as [->|[_ Hinf]]; [lia|done|done|].
  exfalso. assert (finf <= 2 ^ 53 * 2 ^ (e + 1074)).
  { rewrite Hv in Hinf. etransitivity; [done|]. apply Z.mul_le_mono_nonneg_r; [lia|].
    assert (2 ^ digits (Zpos p) <= 2 ^ 53) by (apply Z.pow_le_mono_r; lia). lia. }
  rewrite <- Z.pow_add_r in * by lia. unfold finf in *.
  apply Z.pow_le_mono_r_iff in H0; lia.
Qed.

Lemma f64_of_Z_exact z : Z.abs z < 2 ^ 53 →
  fin64 (f64_of_Z z) ∧ fval (f64_of_Z z) = z * 2 ^ 1074.
Proof.
  intros Hz. assert (Hv : fval (f64_of_Z z) = z * 2 ^ 1074).
  { destruct z as [|p|p]; [done| |].
    - apply (round_exact p 0); [lia|apply digits_le; lia|lia].
    - unfold f64_of_Z. cbn [binary_normalize].
      rewrite round_neg, fval_fopp, round_exact by (lia || (apply digits_le; lia)). lia. }
  split; [|done]. split; [apply f64_of_Z_rounds|].
  destruct (f64_of_Z z) as [|s| |]; try done. exfalso. cbn [fval] in Hv. unfold finf in Hv.
  assert (Z.abs z * 2 ^ 1074 < 2 ^ 53 * 2 ^ 1074) by (apply Z.mul_lt_mono_pos_r; lia).
  rewrite <- Z.pow_add_r in * by lia.
  assert (2 ^ (53 + 1074) < 2 ^ 2098) by (apply Z.pow_lt_mono_r; lia).
  destruct s; unfold sgn in Hv; lia.
Qed.

(** The conversion is monotone, exact or not. *)
Lemma f64_of_Z_nonneg z : 0 <= z → num64 (f64_of_Z z) ∧ 0 <= fval (f64_of_Z z).
Proof.
  intros Hz. destruct (f64_of_Z_rounds z) as (Hn & _ & Hl). split; [done|].
  apply (Hl f64_zero); [done|]. cbn [fval f64_zero]. lia.
Qed.
End OfZ.

(** * Products and quotients of nonnegative floats are nonnegative floats *)

Section MulDiv.
Lemma shr_1_m r : 0 <= shr_m r → shr_m (shr_1 r) = shr_m r / 2 ∧ 0 <= shr_m (shr_1 r).
Proof.
  destruct r as [m r s]; cbn. intros Hm.
  destruct m as [|[p|p|]|p]; cbn [shr_1 shr_m]; split; try lia; try done.
  - rewrite Pos2Z.inj_xI. apply Z.div_unique with 1; lia.
  - rewrite Pos2Z.inj_xO. apply Z.div_unique with 0; lia.
Qed.

Lemma shr_m_div r e n : 0 <= shr_m r → 0 <= n →
  ∃ r', shr r e n = (r', e + n) ∧ shr_m r' = shr_m r / 2 ^ n.
Proof.
  intros Hr Hn. destruct n as [|n|n]; [| |lia]; cbn [shr].
  - exists r. by rewrite Z.add_0_r, Z.div_1_r.
  - eexists; split; [done|]. rewrite iter_pos_nat, <- (positive_nat_Z n).
    generalize (Pos.to_nat n). intros k.
    enough (shr_m (Nat.iter k shr_1 r) = shr_m r / 2 ^ Z.of_nat k ∧
            0 <= shr_m (Nat.iter k shr_1 r)) by tauto.
    induction k as [|k [IH IH0]].
    + by rewrite Z.div_1_r.
    + rewrite Nat.iter_succ. destruct (shr_1_m _ IH0) as [-> ?]. split; [|done].
      rewrite IH, Nat2Z.inj_succ, Z.pow_succ_r, Z.div_div by lia. f_equal. lia.
Qed.

Lemma round_nearest_step m l :
  m <= round_nearest_even m l <= m + 1.
Proof. destruct l as [|[]]; cbn; try destruct (Z.even m); lia. Qed.

Lemma digits_bounds m : 0 < m → 2 ^ (digits m - 1) <= m < 2 ^ digits m.
Proof. destruct m; [lia| |lia]. intros _. apply digits_pos_bounds. Qed.

(** Whatever is known about the discarded rest, the result is a valid float
    of the given sign. *)
Lemma round_aux_num m e l :
  0 <= m → e <= fexp64 (digits m + e) →
  let r := binary_round_aux f64_prec f64_emax false m e l in
  num64 r ∧ 0 <= fval r <= 2 ^ 53 * 2 ^ (fexp64 (digits m + e) + 1074).
Proof.
  intros Hm He. cbv zeta. set (E := fexp64 (digits m + e)) in *.
  assert (HE : -1074 <= E) by (unfold E; rewrite fexp64_eq; lia).
  enough (∃ q, binary_round_aux f64_prec f64_emax false m e l = pack false q E ∧
               0 <= q <= 2 ^ 53 ∧ (-1074 < E → 2 ^ 52 <= q)) as (q & -> & Hq & Hbig).
  { split; [by apply pack_num|]. pose proof finf_pos.
    assert (0 <= q * 2 ^ (E + 1074) <= 2 ^ 53 * 2 ^ (E + 1074)).
    { split; [apply Z.mul_nonneg_nonneg; lia|apply Z.mul_le_mono_nonneg_r; lia]. }
    destruct (pack_fval q E) as [->|[-> Hi]]; [done..|]. cbn [fval]. unfold sgn. lia. }
  unfold binary_round_aux, shr_fexp at 1.
  change (fexp f64_prec f64_emax (Zdigits2 m + e)) with E.
  destruct (shr_m_div (shr_record_of_loc m l) e (E - e)) as (r & -> & Hr);
    [by destruct l as [|[]]|lia|].
  replace (shr_m (shr_record_of_loc m l)) with m in Hr by (by destruct l as [|[]]).
  replace (e + (E - e)) with E by lia.
  pose proof (round_nearest_step (shr_m r) (loc_of_shr_record r)) as Hq.
  set (q := round_nearest_even _ _) in *. rewrite Hr in Hq.
  assert (Hqb : 0 <= q <= 2 ^ 53 ∧ (-1074 < E → 2 ^ 52 <= q)).
  { destruct (Z.eq_dec m 0) as [->|Hm0].
    { rewrite Z.div_0_l in Hq by lia. unfold E in *. rewrite fexp64_eq in *. cbn in *. lia. }
    pose proof (digits_bounds m). pose proof (Z.div_pos m (2 ^ (E - e))).
    assert (m / 2 ^ (E - e) < 2 ^ 53).
    { apply Z.div_lt_upper_bound; [lia|]. rewrite <- Z.pow_add_r by lia.
      apply Z.lt_le_trans with (2 ^ digits m); [lia|]. apply Z.pow_le_mono_r; [lia|].
      unfold E. rewrite fexp64_eq. lia. }
    split; [lia|]. intros HE'. enough (2 ^ 52 <= m / 2 ^ (E - e)) by lia.
    apply Z.div_le_lower_bound; [lia|]. rewrite <- Z.pow_add_r by lia.
    replace (E - e + 52) with (digits m - 1); [lia|].
    unfold E in *. rewrite fexp64_eq in *. lia. }
  exists q. rewrite (finish_pack false q E) by lia. tauto.
Qed.

(** How many digits a quotient has. *)
Lemma div_digits mx my n q r :
  0 <= n → 0 <= q → Zpos mx * 2 ^ n = Zpos my * q + r → 0 <= r < Zpos my →
  let D := digits (Zpos mx) - digits (Zpos my) + n in
  (0 < D → D <= digits q) ∧ (0 < q → digits q <= D + 1).
Proof.
  intros Hn Hq Hdiv Hr D. pose proof (digits_pos_bounds mx) as Bx.
  pose proof (digits_pos_bounds my) as By.
  pose proof (digits_pos_ge1 mx). pose proof (digits_pos_ge1 my). split.
  - intros HD. assert (Hbig : 2 ^ (D - 1) < q + 1).
    { apply Z.mul_lt_mono_pos_r with (2 ^ digits (Zpos my)); [lia|].
      rewrite <- Z.pow_add_r by lia.
      replace (D - 1 + digits (Zpos my)) with ((digits (Zpos mx) - 1) + n) by lia.
      rewrite Z.pow_add_r by lia.
      apply Z.le_lt_trans with (Zpos mx * 2 ^ n); [apply Z.mul_le_mono_nonneg_r; lia|].
      apply Z.lt_le_trans with ((q + 1) * Zpos my); [lia|].
      apply Z.mul_le_mono_nonneg_l; lia. }
    assert (0 < 2 ^ (D - 1)) by lia. pose proof (digits_bounds q).
    destruct (Z.le_gt_cases D (digits q)) as [|L]; [done|exfalso].
    assert (2 ^ digits q <= 2 ^ (D - 1)) by (apply Z.pow_le_mono_r; lia). lia.
  - intros Hq'. pose proof (digits_bounds q Hq').
    destruct (Z.le_gt_cases (digits q) (D + 1)) as [|L]; [done|exfalso].
    assert (Hlt : q * Zpos my < 2 ^ digits (Zpos mx) * 2 ^ n).
    { apply Z.le_lt_trans with (Zpos mx * 2 ^ n); [lia|]. apply Z.mul_lt_mono_pos_r; lia. }
    assert (Hge : 2 ^ (digits q - 1) * 2 ^ (digits (Zpos my) - 1) <= q * Zpos my)
      by (apply Z.mul_le_mono_nonneg; lia).
    assert (1 <= digits q) by (destruct q; [lia|apply digits_pos_ge1|lia]).
    rewrite <- !Z.pow_add_r in * by lia.
    assert (Hp : 2 ^ (digits q - 1 + (digits (Zpos my) - 1)) < 2 ^ (digits (Zpos mx) + n)) by lia.
    apply Z.pow_lt_mono_r_iff in Hp; lia.
Qed.

Lemma fval_pos_finite s m e :
  0 <= fval (S754_finite s m e) → bounded f64_prec f64_emax m e = true → s = false.
Proof.
  intros H B. pose proof (fval_finite_bounds s m e B). cbn [fval] in *.
  destruct s; [unfold sgn in *; lia|done].
Qed.

Lemma fmul_nonneg x y :
  fin64 x → fin64 y → 0 <= fval x → 0 <= fval y →
  num64 (fmul x y) ∧ 0 <= fval (fmul x y).
Proof.
  intros [[Vx Nx] Ix] [[Vy Ny] Iy] Hx Hy.
  destruct x as [sx|sx| |sx mx ex], y as [sy|sy| |sy my ey]; try discriminate;
    [by split..|]; cbn in Vx, Vy.
  apply fval_pos_finite in Hx as ->; [|done]. apply fval_pos_finite in Hy as ->; [|done].
  enough (num64 (fmul (S754_finite false mx ex) (S754_finite false my ey)) ∧ 0 <=
    fval (fmul (S754_finite false mx ex) (S754_finite false my ey)) <=
    2 ^ 53 * 2 ^ (fexp64 (digits (Zpos (mx * my)) + (ex + ey)) + 1074)) by tauto.
  apply round_aux_num; [lia|]. pose proof (bounded_bounds _ _ Vx) as Bx.
  pose proof (bounded_bounds _ _ Vy) as By. rewrite fexp64_eq.
  pose proof (digits_pos_bounds mx). pose proof (digits_pos_bounds my).
  pose proof (digits_pos_ge1 mx). pose proof (digits_pos_ge1 my).
  assert (digits (Zpos mx) + digits (Zpos my) - 1 <= digits (Zpos (mx * my))).
  { pose proof (digits_pos_bounds (mx * my)) as B.
    destruct (Z.le_gt_cases (digits (Zpos mx) + digits (Zpos my) - 1) (digits (Zpos (mx * my))))
      as [|L]; [done|exfalso].
    assert (2 ^ digits (Zpos (mx * my)) <= 2 ^ ((digits (Zpos mx) - 1) + (digits (Zpos my) - 1)))
      by (apply Z.pow_le_mono_r; lia).
    rewrite Z.pow_add_r, Pos2Z.inj_mul in * by lia.
    assert (2 ^ (digits (Zpos mx) - 1) * 2 ^ (digits (Zpos my) - 1) <= Zpos mx * Zpos my)
      by (apply Z.mul_le_mono_nonneg; lia). lia. }
  lia.
Qed.

(** The quotient stays below 2^855 when the operands are less than 2^800 apart. *)
Lemma fdiv_nonneg x y :
  fin64 x → fin64 y → 0 <= fval x → 0 < fval y → fval x <= fval y * 2 ^ 800 →
  fin64 (fdiv x y) ∧ 0 <= fval (fdiv x y) <= 2 ^ 53 * 2 ^ (802 + 1074).
Proof.
  intros [[Vx Nx] Ix] [[Vy Ny] Iy] Hx Hy Hxy.
  assert (Hfin : ∀ r, num64 r ∧ 0 <= fval r <= 2 ^ 53 * 2 ^ (802 + 1074) →
                      fin64 r ∧ 0 <= fval r <= 2 ^ 53 * 2 ^ (802 + 1074)).
  { intros r [Hn Hr]. split; [|done]. split; [done|].
    destruct r as [|s| |]; try done. exfalso.
    assert (2 ^ 53 * 2 ^ (802 + 1074) < finf).
    { unfold finf. rewrite <- Z.pow_add_r by lia. apply Z.pow_lt_mono_r; lia. }
    pose proof finf_pos. cbn [fval] in Hr. destruct s; unfold sgn in Hr; lia. }
  destruct x as [sx|sx| |sx mx ex], y as [sy|sy| |sy my ey]; try discriminate;
    try (cbn [fval] in Hy; lia);
    [split; [by split|]; split; [done|]; by apply Z.mul_nonneg_nonneg|]; cbn in Vx, Vy.
  apply fval_pos_finite in Hx as ->; [|done].
  assert (sy = false) as -> by (apply (fval_pos_finite sy my ey); [lia|done]).
  apply Hfin. cbn [fval] in Hxy. unfold sgn in Hxy. rewrite !Z.mul_1_l in Hxy.
  unfold fdiv, SFdiv, SFdiv_core_binary.
  change (Zdigits2 (Zpos mx)) with (digits (Zpos mx)).
  change (Zdigits2 (Zpos my)) with (digits (Zpos my)).
  set (D := digits (Zpos mx) + ex - (digits (Zpos my) + ey)).
  set (e' := Z.min (fexp64 D) (ex - ey)). set (n := ex - ey - e').
  pose proof (digits_pos_bounds mx) as Bx. pose proof (digits_pos_bounds my) as By.
  pose proof (digits_pos_ge1 mx). pose proof (digits_pos_ge1 my).
  pose proof (bounded_bounds _ _ Vx). pose proof (bounded_bounds _ _ Vy).
  assert (HD801 : D <= 801).
  { apply Z.lt_succ_r, Z.lt_sub_lt_add_r. unfold D.
    assert (2 ^ ((digits (Zpos mx) - 1) + (ex + 1074)) <
            2 ^ (digits (Zpos my) + (ey + 1074) + 800)) as Hlt.
    { rewrite (Z.pow_add_r 2 (digits (Zpos mx) - 1) (ex + 1074)),
        (Z.pow_add_r 2 (digits (Zpos my) + (ey + 1074)) 800),
        (Z.pow_add_r 2 (digits (Zpos my)) (ey + 1074)) by lia.
      apply Z.le_lt_trans with (Zpos mx * 2 ^ (ex + 1074)).
      - apply Z.mul_le_mono_nonneg_r; lia.
      - eapply Z.le_lt_trans; [apply Hxy|]. apply Z.mul_lt_mono_pos_r; [lia|].
        apply Z.mul_lt_mono_pos_r; lia. }
    apply Z.pow_lt_mono_r_iff in Hlt; lia. }
  assert (Hn : 0 <= n) by lia.
  replace (match n with 0 => Zpos mx | Zpos _ => Z.shiftl (Zpos mx) n | Zneg _ => 0 end)
    with (Zpos mx * 2 ^ n) by (destruct n; [lia|by rewrite Z.shiftl_mul_pow2|lia]).
  pose proof (Z_div_mod (Zpos mx * 2 ^ n) (Zpos my) eq_refl) as Hdm.
  destruct (Z.div_eucl _ _) as [q r]. destruct Hdm as [Hq Hr].
  assert (Hq0 : 0 <= q) by nia.
  destruct (div_digits mx my n q r) as [Hlo Hhi]; [done..|].
  destruct (round_aux_num q e' (new_location (Zpos my) r)) as [? Hv]; [done| |].
  { rewrite fexp64_eq. destruct (Z.le_gt_cases e' (-1074)); [lia|].
    assert (e' <= D - 53) by (unfold e' in *; rewrite fexp64_eq in *; lia).
    assert (n = ex - ey - e') by done. clearbody n e'. lia. }
  split; [done|]. split; [apply Hv|]. etransitivity; [apply Hv|].
  apply Z.mul_le_mono_nonneg_l; [lia|]. apply Z.pow_le_mono_r; [lia|].
  rewrite fexp64_eq. destruct (Z.eq_dec q 0) as [->|].
  - change (digits 0) with 0. unfold e'. rewrite fexp64_eq. lia.
  - assert (n = ex - ey - e') by done. clearbody n e'. lia.
Qed.
End MulDiv.
