(* ===== verification/GoFloatInt.v ===== *)
(** Integer arithmetic in [float64]: while the results stay below 2^53, sums, differences,
    products and even quotients of whole numbers are exact.  [denotes z x] says that the float
    [x] is the integer [z]; the sign of a zero does not matter. *)

From Stdlib Require Import SpecFloat.
From S2P Require Import Prelude GoInt GoFloat.

Definition denotes (z : Z) (x : float64) : Prop := fin64 x ∧ fval x = z * 2 ^ 1074.

Section Denotes.
Lemma scale_lt_finf z : Z.abs z < 2 ^ 53 → - finf < z * 2 ^ 1074 < finf.
Proof.
  intros Hz. assert (2 ^ 53 * 2 ^ 1074 < finf).
  { unfold finf. rewrite <- Z.pow_add_r by lia. apply Z.pow_lt_mono_r; lia. }
  assert (0 < 2 ^ 1074) by lia. nia.
Qed.

Lemma denotes_of_Z z : Z.abs z < 2 ^ 53 → denotes z (f64_of_Z z).
Proof. apply f64_of_Z_exact. Qed.

Lemma denotes_zero s : denotes 0 (S754_zero s).
Proof. by repeat split. Qed.

Lemma num64_denotes z x : Z.abs z < 2 ^ 53 → num64 x → fval x = z * 2 ^ 1074 → denotes z x.
Proof. intros Hz Hx Hv. split; [|done]. apply lt_inf_fin; [done|]. rewrite Hv. by apply scale_lt_finf. Qed.

(** A rounding of an exact integer is that integer. *)
Lemma denotes_rounds z r : Z.abs z < 2 ^ 53 → rounds (z * 2 ^ 1074) r → denotes z r.
Proof.
  intros Hz Hr. destruct (denotes_of_Z z Hz) as [[Hn _] Hv]. apply num64_denotes; [done|apply Hr|].
  rewrite <- Hv in Hr |- *. by apply rounds_unique_value.
Qed.

Lemma denotes_add a b x y :
  denotes a x → denotes b y → Z.abs (a + b) < 2 ^ 53 → denotes (a + b) (fadd x y).
Proof.
  intros [Hx Vx] [Hy Vy] Hab. apply denotes_rounds; [done|].
  rewrite Z.mul_add_distr_r, <- Vx, <- Vy. by apply fadd_rounds.
Qed.

Lemma denotes_sub a b x y :
  denotes a x → denotes b y → Z.abs (a - b) < 2 ^ 53 → denotes (a - b) (fsub x y).
Proof.
  intros [Hx Vx] [Hy Vy] Hab. apply denotes_rounds; [done|].
  rewrite Z.mul_sub_distr_r, <- Vx, <- Vy. by apply fsub_rounds.
Qed.

Lemma denotes_opp a x : denotes a x → denotes (- a) (fopp x).
Proof.
  intros [[[Hv Hn] Hi] V]. split; [|rewrite fval_fopp; lia].
  by destruct x as [|[]| |].
Qed.
End Denotes.

(** * Exact products and quotients *)
Section Exact.
Lemma digits_eq_shift p c e : e <= 0 → Zpos p = Zpos c * 2 ^ (- e) →
  digits (Zpos p) + e = digits (Zpos c).
Proof. intros He Hp. rewrite Hp, digits_shift by lia. lia. Qed.

(** Rounding a mantissa that is a whole number below 2^53. *)
Lemma aux_exact p c e :
  e <= 0 → Zpos p = Zpos c * 2 ^ (- e) → Zpos c < 2 ^ 53 → e <= fexp64 (digits (Zpos p) + e) →
  denotes (Zpos c) (binary_round_aux f64_prec f64_emax false (Zpos p) e loc_Exact).
Proof.
  intros He Hp Hc Hf. pose proof (digits_eq_shift p c e He Hp) as Hd.
  destruct (round_aux_pack false p e Hf) as (q & -> & Hq & Hlo & Hhi). rewrite Hd in *.
  pose proof (digits_pos_ge1 c). pose proof (digits_le c 53).
  set (E := fexp64 (digits (Zpos c))) in *.
  assert (HE : -1074 <= E <= 0) by (unfold E; rewrite fexp64_eq; lia).
  assert (Hqc : q = Zpos c * 2 ^ (- E)).
  { replace (- e) with ((- E) + (E - e)) in Hp by lia.
    rewrite Z.pow_add_r, Z.mul_assoc in Hp by lia. set (U := 2 ^ (E - e)) in *.
    assert (0 < U) by (unfold U; lia). rewrite Hp in *. nia. }
  assert (Hn : -1074 < E → 2 ^ 52 <= q).
  { intros HE'. rewrite Hqc. pose proof (digits_pos_bounds c).
    assert (E = digits (Zpos c) - 53) as -> by (unfold E in *; rewrite fexp64_eq in *; lia).
    replace 52 with ((digits (Zpos c) - 1) + - (digits (Zpos c) - 53)) at 1 by lia.
    rewrite Z.pow_add_r by lia. apply Z.mul_le_mono_nonneg_r; lia. }
  assert (Hv : q * 2 ^ (E + 1074) = Zpos c * 2 ^ 1074).
  { rewrite Hqc, <- Z.mul_assoc, <- Z.pow_add_r by lia. do 2 f_equal. lia. }
  apply num64_denotes; [lia|by apply pack_num; lia|].
  destruct (pack_fval q E) as [->|[_ Hinf]]; [lia|lia|done|done|].
  pose proof (scale_lt_finf (Zpos c)). lia.
Qed.

Lemma aux_exact_scaled p c e n :
  0 <= n → 0 <= e + n → Zpos p * 2 ^ (e + n) = Zpos c * 2 ^ n → Zpos c < 2 ^ 53 →
  e <= fexp64 (digits (Zpos p) + e) →
  denotes (Zpos c) (binary_round_aux f64_prec f64_emax false (Zpos p) e loc_Exact).
Proof.
  intros Hn Hen Hp Hc Hf. destruct (Z.le_gt_cases e 0) as [He|He].
  - apply aux_exact; [done| |done..].
    assert (Hs : 2 ^ n = 2 ^ (e + n) * 2 ^ (- e)) by (rewrite <- Z.pow_add_r by lia; f_equal; lia).
    rewrite Hs in Hp. set (U := 2 ^ (e + n)) in *. assert (0 < U) by (unfold U; lia).
    apply (Z.mul_reg_r _ _ U); [lia|]. rewrite Hp. ring.
  - exfalso. rewrite Z.pow_add_r in Hp by lia. set (U := 2 ^ n) in *.
    assert (0 < U) by (unfold U; lia). assert (Hpc : Zpos c = Zpos p * 2 ^ e) by nia.
    pose proof (digits_le c 53) as Hd. rewrite Hpc, digits_shift in Hd by lia.
    rewrite fexp64_eq in Hf. lia.
Qed.

Lemma aux_sign s m e l :
  binary_round_aux f64_prec f64_emax s m e l =
    if s then fopp (binary_round_aux f64_prec f64_emax false m e l)
    else binary_round_aux f64_prec f64_emax false m e l.
Proof.
  destruct s; [|done]. unfold binary_round_aux. destruct (shr_fexp _ _ _ _ _) as [r e'].
  destruct (shr_fexp _ _ _ _ _) as [r' e'']. destruct (shr_m r'); try done. by destruct (_ <=? _).
Qed.

Lemma denotes_signed s c x : denotes c x → denotes (sgn s * c) (if s then fopp x else x).
Proof.
  intros Hx. destruct s; unfold sgn; [|by rewrite Z.mul_1_l].
  replace (-1 * c) with (- c) by lia. by apply denotes_opp.
Qed.

(** What a finite float denotes, by its mantissa and exponent. *)
Lemma denotes_finite z s m e :
  denotes z (S754_finite s m e) →
  ∃ c, z = sgn s * Zpos c ∧ Zpos m * 2 ^ (e + 1074) = Zpos c * 2 ^ 1074 ∧
    -1074 <= e ∧ digits (Zpos m) = 53.
Proof.
  intros [[[B _] _] V]. cbn [valid_binary] in B. rewrite bounded_spec, fexp64_eq in B. cbn [fval] in V. unfold sgn in *.
  pose proof (fval_pos m e ltac:(lia)) as Hpos.
  set (X := Zpos m * 2 ^ (e + 1074)) in *. assert (HU : 0 < 2 ^ 1074) by lia.
  set (U := 2 ^ 1074) in *.
  assert (∃ c, z = (if s then -1 else 1) * Zpos c ∧ X = Zpos c * U) as (c & Hz & Hcv).
  { destruct z as [|c|c]; [destruct s; lia| |]; exists c;
      (destruct s; [|]; [split; nia|split; nia]) || (destruct s; split; nia). }
  exists c. split_and!; [done..|lia|].
  destruct (Z.eq_dec e (-1074)) as [->|]; [|lia]. exfalso.
  pose proof (digits_pos_bounds m). assert (2 ^ digits (Zpos m) <= 2 ^ 53) by (apply Z.pow_le_mono_r; lia).
  assert (2 ^ 53 < U) by (apply Z.pow_lt_mono_r; lia).
  assert (X = Zpos m) by (unfold X; change (2 ^ (-1074 + 1074)) with 1; lia). nia.
Qed.

Lemma digits_mul m1 m2 :
  digits (Zpos m1) + digits (Zpos m2) - 1 <= digits (Zpos (m1 * m2)).
Proof.
  pose proof (digits_pos_bounds m1). pose proof (digits_pos_bounds m2).
  pose proof (digits_pos_ge1 m1). pose proof (digits_pos_ge1 m2).
  pose proof (digits_pos_bounds (m1 * m2)) as B.
  destruct (Z.le_gt_cases (digits (Zpos m1) + digits (Zpos m2) - 1) (digits (Zpos (m1 * m2))))
    as [|L]; [done|exfalso].
  assert (2 ^ digits (Zpos (m1 * m2)) <= 2 ^ ((digits (Zpos m1) - 1) + (digits (Zpos m2) - 1)))
    by (apply Z.pow_le_mono_r; lia).
  rewrite Z.pow_add_r, Pos2Z.inj_mul in * by lia.
  assert (2 ^ (digits (Zpos m1) - 1) * 2 ^ (digits (Zpos m2) - 1) <= Zpos m1 * Zpos m2)
    by (apply Z.mul_le_mono_nonneg; lia). lia.
Qed.
End Exact.

Section MulDiv.
Lemma denotes_mul a b x y :
  denotes a x → denotes b y → Z.abs (a * b) < 2 ^ 53 → denotes (a * b) (fmul x y).
Proof.
  intros Hx Hy Hab.
  destruct x as [sx|sx| |sx mx ex]; [| | |].
  2,3: by destruct Hx as [[[] ?] ?].
  { assert (a = 0) as -> by (destruct Hx as [_ V]; cbn [fval] in V; lia).
    destruct y; try apply denotes_zero; by destruct Hy as [[[] ?] ?]. }
  destruct y as [sy|sy| |sy my ey].
  2,3: by destruct Hy as [[[] ?] ?].
  { assert (b = 0) as -> by (destruct Hy as [_ V]; cbn [fval] in V; lia).
    rewrite Z.mul_0_r. apply denotes_zero. }
  pose proof (digits_mul mx my) as Hdm.
  destruct (denotes_finite _ _ _ _ Hx) as (c & -> & Hc & Hex & Hdx).
  destruct (denotes_finite _ _ _ _ Hy) as (d & -> & Hd & Hey & Hdy).
  assert (Hcd : Zpos (c * d) < 2 ^ 53) by (destruct sx, sy; unfold sgn in Hab; lia).
  replace (sgn sx * Zpos c * (sgn sy * Zpos d)) with (sgn (xorb sx sy) * Zpos (c * d))
    by (destruct sx, sy; unfold sgn; cbn [xorb]; lia).
  unfold fmul, SFmul. rewrite aux_sign. apply denotes_signed.
  assert (Hp : Zpos (mx * my) * 2 ^ (ex + ey + 2148) = Zpos (c * d) * 2 ^ 2148).
  { replace (ex + ey + 2148) with ((ex + 1074) + (ey + 1074)) by lia.
    rewrite (Z.pow_add_r 2 (ex + 1074)) by lia. change 2148 with (1074 + 1074).
    rewrite (Z.pow_add_r 2 1074 1074), !Pos2Z.inj_mul by lia.
    set (U := 2 ^ 1074) in *. set (X := 2 ^ (ex + 1074)) in *. set (Y := 2 ^ (ey + 1074)) in *.
    transitivity ((Zpos mx * X) * (Zpos my * Y)); [ring|]. rewrite Hc, Hd. ring. }
  apply (aux_exact_scaled _ _ _ 2148); try lia. rewrite fexp64_eq. lia.
Qed.

(** An even quotient; one digit of room is needed while dividing. *)
Lemma denotes_div k b x y :
  denotes (k * b) x → denotes b y → b ≠ 0 → Z.abs k < 2 ^ 52 → denotes k (fdiv x y).
Proof.
  intros Hx Hy Hb Hk. destruct y as [sy|sy| |sy my ey].
  { exfalso. destruct Hy as [_ V]. cbn [fval] in V. nia. }
  1,2: by destruct Hy as [[[] ?] ?].
  destruct x as [sx|sx| |sx mx ex].
  { assert (k = 0) as -> by (destruct Hx as [_ V]; cbn [fval] in V; nia). apply denotes_zero. }
  1,2: by destruct Hx as [[[] ?] ?].
  destruct (denotes_finite _ _ _ _ Hx) as (c & Ec & Hc & Hex & Hdx).
  destruct (denotes_finite _ _ _ _ Hy) as (d & -> & Hd & Hey & Hdy).
  assert (∃ q, k = sgn (xorb sx sy) * Zpos q ∧ Zpos c = Zpos q * Zpos d) as (q & -> & Hcq).
  { destruct k as [|q|q]; [destruct sx; unfold sgn in Ec; lia| |]; exists q;
      destruct sx, sy; unfold sgn in *; cbn [xorb] in *; split; lia. }
  assert (Hq : Zpos q < 2 ^ 52) by (destruct sx, sy; unfold sgn in Hk; cbn [xorb] in Hk; lia).
  assert (Hm : Zpos mx * 2 ^ (ex + 1074) = Zpos q * (Zpos my * 2 ^ (ey + 1074)))
    by (rewrite Hc, Hd, Hcq; ring).
  unfold fdiv, SFdiv, SFdiv_core_binary.
  change (Zdigits2 (Zpos mx)) with (digits (Zpos mx)).
  change (Zdigits2 (Zpos my)) with (digits (Zpos my)).
  set (e' := Z.min (fexp64 _) (ex - ey)). set (n := ex - ey - e').
  assert (He' : e' <= 0 ∧ e' <= digits (Zpos q) - 53).
  { assert (Hlt : 2 ^ (52 + (ex + 1074)) < 2 ^ (digits (Zpos q) + 53 + (ey + 1074))).
    { rewrite (Z.pow_add_r 2 52), (Z.pow_add_r 2 (digits (Zpos q) + 53)), (Z.pow_add_r 2 (digits (Zpos q)))
        by (pose proof (digits_pos_ge1 q); lia).
      pose proof (digits_pos_bounds mx) as Bx. pose proof (digits_pos_bounds my) as By.
      pose proof (digits_pos_bounds q) as Bq. rewrite Hdx in Bx. rewrite Hdy in By.
      set (X := 2 ^ (ex + 1074)) in *. set (Y := 2 ^ (ey + 1074)) in *.
      assert (0 < X ∧ 0 < Y) as [? ?] by (unfold X, Y; lia).
      apply Z.le_lt_trans with (Zpos mx * X); [apply Z.mul_le_mono_nonneg_r; lia|]. rewrite Hm, Z.mul_assoc.
      apply Z.mul_lt_mono_pos_r; [done|]. apply Z.mul_lt_mono_nonneg; lia. }
    pose proof (digits_le q 52 ltac:(lia) Hq) as Hq52. pose proof (digits_pos_ge1 q) as Hq1.
    apply Z.pow_lt_mono_r_iff in Hlt; [|lia..].
    unfold e'. rewrite fexp64_eq, Hdx, Hdy. clear - Hlt Hq52 Hq1. lia. }
  assert (Hn : 0 <= n) by lia.
  replace (match n with 0 => Zpos mx | Zpos _ => Z.shiftl (Zpos mx) n | Zneg _ => 0 end)
    with (Zpos mx * 2 ^ n) by (destruct n; [lia|by rewrite Z.shiftl_mul_pow2|lia]).
  assert (Hdm : Zpos mx * 2 ^ n = Zpos my * (Zpos q * 2 ^ (- e')) + 0).
  { assert (Hs : 2 ^ n * 2 ^ (ey + 1074) = 2 ^ (ex + 1074) * 2 ^ (- e'))
      by (rewrite <- !Z.pow_add_r by lia; f_equal; lia).
    set (Y := 2 ^ (ey + 1074)) in *. assert (0 < Y) by (unfold Y; lia).
    apply (Z.mul_reg_r _ _ Y); [lia|]. rewrite <- Z.mul_assoc, Hs, Z.mul_assoc, Hm. ring. }
  pose proof (Z_div_mod (Zpos mx * 2 ^ n) (Zpos my) eq_refl) as Hdiv.
  destruct (Z.div_eucl _ _) as [m r]. destruct Hdiv as [Hdiv Hr].
  assert (m = Zpos q * 2 ^ (- e') ∧ r = 0) as [-> ->].
  { apply (Z.div_mod_unique (Zpos my)); [lia|lia|]. rewrite <- Hdiv. lia. }
  change (new_location (Zpos my) 0) with (new_location (Zpos my) 0).
  assert (Hl : new_location (Zpos my) 0 = loc_Exact) by (unfold new_location; by destruct (Z.even _)).
  rewrite Hl. destruct (Zpos q * 2 ^ (- e')) as [|p|p] eqn:Ep; [lia| |lia].
  rewrite aux_sign. apply denotes_signed, aux_exact; [lia|lia|lia|].
  rewrite (digits_eq_shift p q e') by lia. rewrite fexp64_eq. pose proof (digits_pos_ge1 q). lia.
Qed.
End MulDiv.

(** * Comparisons and conversions of whole numbers *)
Section Convert.
Context (a b : Z) (x y : float64) (Hx : denotes a x) (Hy : denotes b y).

Lemma denotes_ltb : fltb x y = (a <? b).
Proof.
  rewrite fltb_fval by (apply Hx || apply Hy). rewrite (proj2 Hx), (proj2 Hy).
  set (U := 2 ^ 1074). assert (0 < U) by (unfold U; lia).
  destruct (Z.ltb_spec (a * U) (b * U)), (Z.ltb_spec a b); nia.
Qed.

Lemma denotes_leb : fleb x y = (a <=? b).
Proof.
  rewrite fleb_fval by (apply Hx || apply Hy). rewrite (proj2 Hx), (proj2 Hy).
  set (U := 2 ^ 1074). assert (0 < U) by (unfold U; lia).
  destruct (Z.leb_spec (a * U) (b * U)), (Z.leb_spec a b); nia.
Qed.

Lemma denotes_eqb : feqb x y = (a =? b).
Proof.
  rewrite feqb_fval by (apply Hx || apply Hy). rewrite (proj2 Hx), (proj2 Hy).
  set (U := 2 ^ 1074). assert (0 < U) by (unfold U; lia).
  destruct (Z.eqb_spec (a * U) (b * U)), (Z.eqb_spec a b); nia.
Qed.

(** The mantissa of a whole number with a negative exponent is a multiple. *)
Lemma denotes_mantissa s m e c :
  e <= 0 → -1074 <= e → Zpos m * 2 ^ (e + 1074) = Zpos c * 2 ^ 1074 → x = S754_finite s m e →
  Zpos m = Zpos c * 2 ^ (- e).
Proof.
  intros He He2 Hm _. assert (Hs : 2 ^ 1074 = 2 ^ (- e) * 2 ^ (e + 1074))
    by (rewrite <- Z.pow_add_r by lia; f_equal; lia).
  rewrite Hs in Hm. set (U := 2 ^ (e + 1074)) in *. assert (0 < U) by (unfold U; lia).
  apply (Z.mul_reg_r _ _ U); [lia|]. rewrite Hm. ring.
Qed.

Lemma denotes_trunc : f64_trunc x = a.
Proof.
  destruct x as [s|s| |s m e] eqn:Ex.
  { destruct Hx as [_ V]. cbn [fval f64_trunc] in *. lia. }
  1,2: by destruct Hx as [[[] ?] ?].
  destruct (denotes_finite _ _ _ _ Hx) as (c & -> & Hm & He & _). cbn [f64_trunc].
  change (if s then -1 else 1) with (sgn s). f_equal. destruct (Z.le_gt_cases e 0).
  - rewrite (denotes_mantissa s m e c) by done. rewrite Z.shiftl_div_pow2 by lia.
    apply Z.div_mul. lia.
  - rewrite Z.shiftl_mul_pow2 by lia. rewrite Z.pow_add_r, Z.mul_assoc in Hm by lia.
    set (U := 2 ^ 1074) in *. assert (0 < U) by (unfold U; lia). by apply (Z.mul_reg_r _ _ U); [lia|].
Qed.

Lemma denotes_to_int : is_i64 a → f64_to_int x = a.
Proof.
  intros Ha. pose proof denotes_trunc as Ht. unfold f64_to_int. rewrite Ht, decide_True by done.
  destruct x; [done| | |done]; by destruct Hx as [[[] ?] ?].
Qed.

Lemma denotes_round : Z.abs a < 2 ^ 53 → denotes a (f64_round x).
Proof.
  intros Ha. destruct x as [s|s| |s m e] eqn:Ex; [done|by destruct Hx as [[[] ?] ?]..|].
  cbn [f64_round]. destruct (Z.leb_spec 0 e) as [|He]; [done|].
  destruct (denotes_finite _ _ _ _ Hx) as (c & -> & Hm & He2 & _).
  rewrite (denotes_mantissa s m e c) by (done || lia).
  assert (Hc : Z.shiftr (Zpos c * 2 ^ (- e) + Z.shiftl 1 (- e - 1)) (- e) = Zpos c).
  { rewrite Z.shiftr_div_pow2, Z.shiftl_mul_pow2, Z.mul_1_l by lia.
    rewrite Z.add_comm, Z.div_add by lia. rewrite Z.div_small; [lia|].
    split; [lia|]. apply Z.pow_lt_mono_r; lia. }
  rewrite Hc. destruct s; unfold sgn in *.
  - replace (-1 * Zpos c) with (Zneg c) in * by lia. by apply (denotes_of_Z (Zneg c)).
  - rewrite Z.mul_1_l in *. by apply (denotes_of_Z (Zpos c)).
Qed.
End Convert.

(** * Squares and quotients *)
Section Squares.
(** A square is a number, even of an infinity. *)
Lemma fmul_square_num x : num64 x → num64 (fmul x x) ∧ 0 <= fval (fmul x x).
Proof.
  intros Hx. pose proof finf_pos. destruct x as [s|s| |s m e]; [by destruct s; split| |by destruct Hx|].
  { assert (fmul (S754_infinity s) (S754_infinity s) = S754_infinity false) as -> by (by destruct s).
    split; [done|]. cbn [fval]. unfold sgn. lia. }
  assert (Hs : fmul (S754_finite s m e) (S754_finite s m e) = fmul (S754_finite false m e) (S754_finite false m e))
    by (unfold fmul, SFmul; by destruct s).
  rewrite Hs. assert (Hf : fin64 (S754_finite false m e)) by (split; [split; apply Hx|done]).
  assert (0 <= fval (S754_finite false m e)).
  { pose proof (fval_finite_bounds false m e (proj1 Hx)). cbn [fval] in *. unfold sgn in *. lia. }
  by apply fmul_nonneg.
Qed.

Lemma fdiv_opp x y : fdiv (fopp x) y = fopp (fdiv x y).
Proof.
  destruct x as [s|s| |s m e], y as [t|t| |t m' e']; try done;
    try (by destruct s); try (by destruct s, t).
  cbn [fopp SFopp]. unfold fdiv, SFdiv. destruct (SFdiv_core_binary f64_prec f64_emax (Zpos m) e (Zpos m') e') as [[mz ez] lz].
  rewrite (aux_sign (xorb (negb s) t) mz ez lz), (aux_sign (xorb s t) mz ez lz).
  destruct s, t; cbn [negb xorb]; by rewrite ?fopp_involutive.
Qed.

(** A quotient of whole numbers is finite. *)
Lemma denotes_div_fin c n x y :
  denotes c x → denotes n y → 0 < n → Z.abs c < 2 ^ 53 → fin64 (fdiv x y).
Proof.
  assert (Hpos : ∀ c x, denotes c x → denotes n y → 0 < n → 0 <= c → c < 2 ^ 53 → fin64 (fdiv x y)).
  { intros c' x' [Hx Vx] [Hy Vy] Hn Hc Hb.
    destruct (fdiv_nonneg x' y Hx Hy) as [Hfin _]; [| | |done]; rewrite ?Vx, ?Vy.
    - apply Z.mul_nonneg_nonneg; lia.
    - apply Z.mul_pos_pos; lia.
    - assert (c' * 2 ^ 1074 <= n * 2 ^ 800 * 2 ^ 1074); [|nia].
      apply Z.mul_le_mono_nonneg_r; [lia|]. assert (2 ^ 53 <= 2 ^ 800) by (apply Z.pow_le_mono_r; lia). nia. }
  intros Hx Hy Hn Hc. destruct (Z.le_gt_cases 0 c); [by apply (Hpos c); [..|lia]|].
  rewrite <- (fopp_involutive x), fdiv_opp.
  destruct (Hpos (- c) (fopp x)) as [Hnum Hinf]; [by apply denotes_opp|done|done|lia|lia|].
  split; [by apply num64_fopp|]. by destruct (fdiv (fopp x) y).
Qed.

(** A whole number that is zero is a zero. *)
Lemma denotes_0_zero x : denotes 0 x → ∃ s, x = S754_zero s.
Proof.
  intros Hx. destruct x as [s|s| |s m e]; [by exists s|by destruct Hx as [[[] ?] ?]..|].
  destruct (denotes_finite _ _ _ _ Hx) as (c & Hc & _). destruct s; unfold sgn in Hc; lia.
Qed.

Lemma fdiv_zero_pos s y :
  num64 y → 0 <= fval y → feqb y f64_zero = false → ∃ t, fdiv (S754_zero s) y = S754_zero t.
Proof.
  intros Hy Hpos Hne. destruct y as [t|t| |t m e]; [done|by eexists|by destruct Hy|by eexists].
Qed.
End Squares.

(** * Products and quotients of any finite floats are numbers *)
Section Numbers.
Lemma fmul_opp x y : fmul (fopp x) y = fopp (fmul x y).
Proof.
  destruct x as [s|s| |s m e], y as [t|t| |t m' e']; try done;
    try (by destruct s); try (by destruct s, t).
  cbn [fopp SFopp]. unfold fmul, SFmul.
  rewrite (aux_sign (xorb (negb s) t) (Zpos (m * m')) (e + e') loc_Exact),
    (aux_sign (xorb s t) (Zpos (m * m')) (e + e') loc_Exact).
  destruct s, t; cbn [negb xorb]; by rewrite ?fopp_involutive.
Qed.

Lemma fval_fabs x : fval (fabs x) = Z.abs (fval x).
Proof.
  assert (H : 0 < finf) by apply finf_pos.
  destruct x as [s|s| |s m e]; cbn [fabs SFabs fval]; unfold sgn; [done|destruct s; lia|done|].
  assert (0 <= Zpos m * 2 ^ (e + 1074)) by (apply Z.mul_nonneg_nonneg; lia). destruct s; lia.
Qed.

Lemma num64_fabs x : num64 x → num64 (fabs x).
Proof. by destruct x. Qed.

(** Every number is one that is not negative, or the opposite of one. *)
Lemma by_sign (P : float64 → Prop) x :
  (∀ x, P x → P (fopp x)) → (0 <= fval x → P x) → (0 <= fval (fopp x) → P (fopp x)) → P x.
Proof.
  intros Hopp Hpos Hneg. destruct (Z.le_gt_cases 0 (fval x)); [by apply Hpos|].
  rewrite <- (fopp_involutive x). apply Hopp, Hneg. rewrite fval_fopp. lia.
Qed.

Lemma fin64_fopp x : fin64 x → fin64 (fopp x).
Proof. by destruct x. Qed.

Lemma fmul_num x y : fin64 x → fin64 y → 0 <= fval y → num64 (fmul x y).
Proof.
  intros Hx Hy H0. destruct (Z.le_gt_cases 0 (fval x)); [by apply fmul_nonneg|].
  rewrite <- (fopp_involutive x), fmul_opp. apply num64_fopp.
  apply fmul_nonneg; [by apply fin64_fopp|done| |done]. rewrite fval_fopp. lia.
Qed.

Lemma fdiv_num_nonneg x y :
  fin64 x → fin64 y → 0 <= fval x → 0 < fval y → num64 (fdiv x y).
Proof.
  intros [[Vx Nx] Ix] [[Vy Ny] Iy] Hx Hy.
  destruct x as [sx|sx| |sx mx ex], y as [sy|sy| |sy my ey]; try discriminate;
    try (cbn [fval] in Hy; lia); [done|]; cbn in Vx, Vy.
  apply fval_pos_finite in Hx as ->; [|done].
  assert (sy = false) as -> by (apply (fval_pos_finite sy my ey); [lia|done]).
  unfold fdiv, SFdiv, SFdiv_core_binary.
  change (Zdigits2 (Zpos mx)) with (digits (Zpos mx)). change (Zdigits2 (Zpos my)) with (digits (Zpos my)).
  set (D := digits (Zpos mx) + ex - (digits (Zpos my) + ey)).
  set (e' := Z.min (fexp64 D) (ex - ey)). set (n := ex - ey - e').
  pose proof (digits_pos_ge1 mx). pose proof (digits_pos_ge1 my).
  assert (Hn : 0 <= n) by lia.
  replace (match n with 0 => Zpos mx | Zpos _ => Z.shiftl (Zpos mx) n | Zneg _ => 0 end)
    with (Zpos mx * 2 ^ n) by (destruct n; [lia|by rewrite Z.shiftl_mul_pow2|lia]).
  pose proof (Z_div_mod (Zpos mx * 2 ^ n) (Zpos my) eq_refl) as Hdm.
  destruct (Z.div_eucl _ _) as [q r]. destruct Hdm as [Hq Hr].
  assert (Hq0 : 0 <= q) by nia.
  destruct (div_digits mx my n q r) as [Hlo Hhi]; [done..|].
  apply round_aux_num; [done|]. rewrite fexp64_eq. destruct (Z.le_gt_cases e' (-1074)); [lia|].
  assert (e' <= D - 53) by (unfold e' in *; rewrite fexp64_eq in *; lia).
  assert (n = ex - ey - e') by done. clearbody n e'. lia.
Qed.

Lemma fdiv_num x y : fin64 x → fin64 y → 0 < fval y → num64 (fdiv x y).
Proof.
  intros Hx Hy H0. destruct (Z.le_gt_cases 0 (fval x)); [by apply fdiv_num_nonneg|].
  rewrite <- (fopp_involutive x), fdiv_opp. apply num64_fopp.
  apply fdiv_num_nonneg; [by apply fin64_fopp|done| |done]. rewrite fval_fopp. lia.
Qed.

(** Also of an infinity by a finite number. *)
Lemma fdiv_num_inf x y : num64 x → fin64 y → 0 < fval y → num64 (fdiv x y).
Proof.
  intros Hx Hy H0. destruct (is_inf x) eqn:E; [|by apply fdiv_num].
  destruct x as [|s| |]; try done. destruct y as [t|t| |t m e]; [cbn [fval] in H0; lia|by destruct Hy|by destruct Hy as [[]]|done].
Qed.

Lemma fmul_num_inf x y : num64 x → fin64 y → 0 < fval y → num64 (fmul x y).
Proof.
  intros Hx Hy H0. destruct (is_inf x) eqn:E; [|apply fmul_num; [done..|lia]].
  destruct x as [|s| |]; try done. destruct y as [t|t| |t m e]; [cbn [fval] in H0; lia|by destruct Hy|by destruct Hy as [[]]|done].
Qed.

Lemma f64_round_num x : num64 x → num64 (f64_round x).
Proof.
  intros Hx. destruct x as [s|s| |s m e]; try done. cbn [f64_round]. destruct (0 <=? e); [done|].
  destruct (Z.shiftr _ _) as [|q|q]; [done| |done]. destruct s; [rewrite round_neg; apply num64_fopp|];
    by apply round_pos_rounds.
Qed.
End Numbers.
