(* ===== verification/GoSort.v ===== *)
(** What the language and its library leave open about order: [sort.Slice] on elements of equal
    rank, and the order in which a range loop visits a map.  The laws say what is
    documented; [MemOrder] has orders that meet them. *)

From Stdlib Require Import Sorted.
From S2P Require Import Prelude.

Class MapOrder := { map_order : ∀ {A : Type}, gmap string A → list (string * A) }.

Class MapOrderLaws (M : MapOrder) : Prop := {
  map_order_all A (m : gmap string A) : map_order m ≡ₚ map_to_list m;
}.

Class SortSlice := { sort_Slice : ∀ {A : Type}, (A → A → bool) → list A → list A }.

(** [less] has to be a strict weak order on the elements. *)
Definition weak_order {A} (less : A → A → bool) (l : list A) : Prop :=
  (∀ x y, x ∈ l → y ∈ l → less x y = true → less y x = false) ∧
  (∀ x y z, x ∈ l → y ∈ l → z ∈ l → less y x = false → less z y = false → less z x = false).

Class SortSliceLaws (S : SortSlice) : Prop := {
  sort_Slice_perm A (less : A → A → bool) l : sort_Slice less l ≡ₚ l;
  sort_Slice_ordered A (less : A → A → bool) l :
    weak_order less l → StronglySorted (λ x y, less y x = false) (sort_Slice less l);
}.

Lemma StronglySorted_impl {A} (R R' : A → A → Prop) l :
  (∀ x y, x ∈ l → y ∈ l → R x y → R' x y) → StronglySorted R l → StronglySorted R' l.
Proof.
  intros Himp Hs. induction Hs as [|x l Hs IH Hx]; constructor.
  - apply IH. intros y z Hy Hz. apply Himp; by right.
  - rewrite Forall_forall in *. intros y Hy. apply Himp; [by left|by right|by apply Hx].
Qed.

(** When [less] compares ranks the result is sorted by rank. *)
Lemma sort_Slice_sorted `{SortSliceLaws} A (less : A → A → bool) (rank : A → Z) l :
  (∀ x y, x ∈ l → y ∈ l → less x y = (rank x <? rank y)) →
  StronglySorted (λ x y, rank x <= rank y) (sort_Slice less l).
Proof.
  intros Hless. eapply StronglySorted_impl; [|apply sort_Slice_ordered].
  - intros x y. rewrite !sort_Slice_perm. intros Hx Hy. cbn. rewrite Hless by done. lia.
  - split.
    + intros x y Hx Hy. rewrite !Hless by done. lia.
    + intros x y z Hx Hy Hz. rewrite !Hless by done. lia.
Qed.

(** * An order for maps and a sort in memory *)
Module MemOrder.

#[export] Instance by_hash : MapOrder := {| map_order A m := map_to_list m |}.
#[export] Instance by_hash_laws : MapOrderLaws by_hash.
Proof. split. done. Qed.

Section Insertion.
Context {A : Type} (less : A → A → bool).

Fixpoint insert (x : A) (l : list A) : list A :=
  match l with
  | [] => [x]
  | y :: l' => if less y x then y :: insert x l' else x :: l
  end.

Definition insertion_sort (l : list A) : list A := foldr insert [] l.

Lemma insert_perm x l : insert x l ≡ₚ x :: l.
Proof.
  induction l as [|y l IH]; cbn; [done|]. destruct (less y x); [|done]. rewrite IH. constructor.
Qed.

Lemma insertion_sort_perm l : insertion_sort l ≡ₚ l.
Proof. induction l as [|x l IH]; cbn; [done|]. by rewrite insert_perm, IH. Qed.

Lemma weak_order_sub l l' : (∀ x, x ∈ l' → x ∈ l) → weak_order less l → weak_order less l'.
Proof. intros Hsub [Ha Ht]. split; [intros x y ??|intros x y z ???]; eauto. Qed.

Lemma insert_sorted x l :
  weak_order less (x :: l) → StronglySorted (λ x y, less y x = false) l →
  StronglySorted (λ x y, less y x = false) (insert x l).
Proof.
  intros Hw Hs. induction Hs as [|y l Hs IH Hy]; cbn; [by repeat constructor|].
  destruct (less y x) eqn:E.
  - constructor.
    + apply IH. eapply weak_order_sub; [|exact Hw]. intros z. rewrite !elem_of_cons. tauto.
    + rewrite insert_perm. constructor; [|done]. apply (proj1 Hw); [right; left|left|done].
  - constructor; [by constructor|]. constructor; [done|].
    apply Forall_forall. intros z Hz. apply (proj2 Hw x y z); [left|right; left|by right; right|done|].
    rewrite Forall_forall in Hy. by apply Hy.
Qed.

Lemma insertion_sort_sorted l :
  weak_order less l → StronglySorted (λ x y, less y x = false) (insertion_sort l).
Proof.
  induction l as [|x l IH]; intros Hw; cbn; [constructor|]. apply insert_sorted.
  - eapply weak_order_sub; [|exact Hw]. intros z. by rewrite !elem_of_cons, insertion_sort_perm.
  - apply IH. eapply weak_order_sub; [|exact Hw]. intros z. by right.
Qed.
End Insertion.

#[export] Instance insertion : SortSlice := {| sort_Slice A := insertion_sort |}.
#[export] Instance insertion_laws : SortSliceLaws insertion.
Proof.
  split; intros A less l; cbn.
  - apply insertion_sort_perm.
  - apply insertion_sort_sorted.
Qed.
End MemOrder.
