(* ===== verification/GoTime.v ===== *)
(** Times and durations of Go's [time] package.  A [time.Time] is its distance
    from the Unix epoch in nanoseconds, a [time.Duration] an [int64] number of
    nanoseconds.  One clock serves all readings, as the monotonic clock does
    for times taken with [time.Now]. *)

From Stdlib Require Import SpecFloat.
From S2P Require Import Prelude GoInt GoFloat.

Definition Nanosecond : Z := 1.
Definition Microsecond : Z := 1000 * Nanosecond.
Definition Millisecond : Z := 1000 * Microsecond.
Definition Second : Z := 1000 * Millisecond.
Definition Minute : Z := 60 * Second.
Definition Hour : Z := 60 * Minute.

(** The zero [time.Time]: January 1, year 1, 00:00:00 UTC. *)
Definition zero_time : Z := -62135596800 * Second.

(** [t.Sub(u)] saturates at the ends of the Duration range. *)
Definition time_Sub (t u : Z) : Z := Z.max min_int64 (Z.min max_int64 (t - u)).

(** [t.Add(d)]. *)
Definition time_Add (t d : Z) : Z := t + d.

(** [d.Seconds()]: whole seconds plus the fraction, both truncated toward zero. *)
Definition dur_Seconds (d : Z) : float64 :=
  fadd (f64_of_Z (Z.quot d Second)) (fdiv (f64_of_Z (Z.rem d Second)) (f64_of_Z 1000000000)).

(** [d.Hours()]. *)
Definition dur_Hours (d : Z) : float64 :=
  fadd (f64_of_Z (Z.quot d Hour)) (fdiv (f64_of_Z (Z.rem d Hour)) (f64_of_Z 3600000000000)).

Ltac unfold_time := unfold Hour, Minute, Second, Millisecond, Microsecond, Nanosecond in *.

Lemma time_Sub_range t u : is_i64 (time_Sub t u).
Proof. unfold time_Sub, is_i64, max_int64, min_int64. lia. Qed.

Lemma time_Sub_exact t u : is_i64 (t - u) → time_Sub t u = t - u.
Proof. unfold time_Sub, is_i64, max_int64, min_int64. lia. Qed.

Lemma time_Sub_nonneg t u : u <= t → 0 <= time_Sub t u.
Proof. unfold time_Sub, max_int64, min_int64. lia. Qed.

(** A nonnegative duration has a finite nonnegative number of seconds. *)
Lemma dur_Seconds_nonneg d :
  0 <= d → is_i64 d → fin64 (dur_Seconds d) ∧ 0 <= fval (dur_Seconds d).
Proof.
  intros Hd Hi. unfold dur_Seconds. unfold is_i64, max_int64, min_int64 in Hi.
  assert (Hs : 0 <= Z.quot d Second < 2 ^ 34).
  { unfold_time. rewrite Z.quot_div_nonneg by lia. split; [apply Z.div_pos; lia|].
    apply Z.div_lt_upper_bound; lia. }
  assert (Hr : 0 <= Z.rem d Second < 1000000000) by (unfold_time; apply Z.rem_bound_pos; lia).
  set (s := Z.quot d Second) in *. set (n := Z.rem d Second) in *.
  destruct (f64_of_Z_exact s) as [Fs Vs]; [lia|].
  destruct (f64_of_Z_exact n) as [Fn Vn]; [lia|].
  destruct (f64_of_Z_exact 1000000000) as [Fb Vb]; [lia|].
  assert (H800 : 0 < 2 ^ 800) by lia. assert (H1074 : 0 < 2 ^ 1074) by lia.
  destruct (fdiv_nonneg (f64_of_Z n) (f64_of_Z 1000000000)) as [Ff Vf]; [done..| | | |].
  { rewrite Vn. apply Z.mul_nonneg_nonneg; lia. }
  { rewrite Vb. apply Z.mul_pos_pos; lia. }
  { rewrite Vn, Vb. rewrite <- Z.mul_assoc.
    clearbody n. revert H800 H1074. generalize (2 ^ 800), (2 ^ 1074). intros. nia. }
  set (f := fdiv _ _) in *.
  destruct (fadd_rounds _ _ Fs Ff) as (Hn & Hu & Hl).
  assert (Hbig : fval (f64_of_Z s) + fval f <= fval (S754_finite false (2 ^ 52) 900)).
  { cbn [fval]. unfold sgn. rewrite Vs. change (Zpos (2 ^ 52)) with (2 ^ 52).
    assert (s * 2 ^ 1074 <= 2 ^ 34 * 2 ^ 1074) by (apply Z.mul_le_mono_nonneg_r; lia).
    rewrite <- !Z.pow_add_r in * by lia. rewrite Z.mul_1_l.
    assert (2 ^ (34 + 1074) <= 2 ^ (53 + (802 + 1074))) by (apply Z.pow_le_mono_r; lia).
    assert (2 * 2 ^ (53 + (802 + 1074)) <= 2 ^ (52 + (900 + 1074))).
    { rewrite <- (Z.pow_succ_r 2) by lia. apply Z.pow_le_mono_r; lia. }
    lia. }
  assert (H0 : 0 <= fval (fadd (f64_of_Z s) f)).
  { apply (Hl f64_zero); [exact num64_zero|]. rewrite fval_zero, Vs.
    assert (0 <= s * 2 ^ 1074) by (apply Z.mul_nonneg_nonneg; lia). lia. }
  specialize (Hu (S754_finite false (2 ^ 52) 900) (conj eq_refl eq_refl) Hbig).
  split; [|done]. split; [done|].
  destruct (fadd (f64_of_Z s) f) as [|sg| |]; try reflexivity. exfalso. clear Hbig Hl.
  assert (fval (S754_finite false (2 ^ 52) 900) < finf)
    by (apply (fval_finite_bounds false (2 ^ 52) 900); reflexivity).
  pose proof finf_pos. cbn [fval] in *. destruct sg; unfold sgn in *; lia.
Qed.
