(* ===== verification/GoString.v ===== *)
(** The functions of Go's [strings], [strconv] and [fmt] packages that the program
    uses.  A Go string is a sequence of bytes; a [string] of Rocq is one too. *)

From Stdlib Require Import Ascii SpecFloat.
From stdpp Require Import pretty.
From S2P Require Import Prelude GoInt GoFloat.

Definition slen (s : string) : Z := Z.of_nat (String.length s).

(** ** Bytes and prefixes *)
Definition byte_of (n : nat) : ascii := ascii_of_nat n.
Definition ascii_eqb : ascii → ascii → bool := Ascii.eqb.

Fixpoint HasPrefix (s p : string) {struct p} : bool :=
  match p, s with
  | EmptyString, _ => true
  | String a p', String b s' => ascii_eqb a b && HasPrefix s' p'
  | String _ _, EmptyString => false
  end.

(** [s[n:]] for 0 <= n <= len(s). *)
Fixpoint sdrop (n : nat) (s : string) : string :=
  match n, s with
  | S n', String _ s' => sdrop n' s'
  | _, _ => s
  end.

(** [s[:n]] for 0 <= n <= len(s). *)
Fixpoint stake (n : nat) (s : string) : string :=
  match n, s with
  | S n', String a s' => String a (stake n' s')
  | _, _ => ""
  end.

Definition HasSuffix (s p : string) : bool :=
  let n := String.length s in
  let m := String.length p in
  Nat.leb m n && String.eqb (sdrop (n - m) s) p.

Definition TrimPrefix (s p : string) : string :=
  if HasPrefix s p then sdrop (String.length p) s else s.

Definition TrimSuffix (s p : string) : string :=
  if HasSuffix s p then stake (String.length s - String.length p) s else s.

Fixpoint Contains (s sub : string) : bool :=
  HasPrefix s sub ||
  match s with
  | EmptyString => false
  | String _ s' => Contains s' sub
  end.

(** [strings.IndexByte]: -1 when the byte does not occur. *)
Fixpoint index_from (i : Z) (s : string) (c : ascii) : Z :=
  match s with
  | EmptyString => -1
  | String a s' => if ascii_eqb a c then i else index_from (i + 1) s' c
  end.
Definition IndexByte (s : string) (c : ascii) : Z := index_from 0 s c.

(** [strings.Split] and [strings.SplitN] at a separator of one byte. *)
Fixpoint Split (s : string) (c : ascii) : list string :=
  match s with
  | EmptyString => [""]
  | String a s' =>
      if ascii_eqb a c then "" :: Split s' c
      else match Split s' c with
           | [] => [String a ""]
           | x :: xs => String a x :: xs
           end
  end.

Fixpoint SplitN (n : nat) (s : string) (c : ascii) : list string :=
  match n with
  | O => []
  | S O => [s]
  | S n' =>
      let i := IndexByte s c in
      if i <? 0 then [s]
      else stake (Z.to_nat i) s :: SplitN n' (sdrop (Z.to_nat i + 1) s) c
  end.

Fixpoint Join (l : list string) (sep : string) : string :=
  match l with
  | [] => ""
  | [x] => x
  | x :: xs => x +:+ sep +:+ Join xs sep
  end.

(** [strings.ReplaceAll] of one byte by another. *)
Fixpoint ReplaceByte (s : string) (a b : ascii) : string :=
  match s with
  | EmptyString => ""
  | String c s' => String (if ascii_eqb c a then b else c) (ReplaceByte s' a b)
  end.

(** ** White space

    [unicode.IsSpace] on UTF-8: the ASCII spaces and the encodings of the others.
    A byte of 0xC2 or more starts a rune, so looking for the encodings at any
    position finds exactly the runes. *)
Definition bs (l : list nat) : string :=
  fold_right (λ n s, String (ascii_of_nat n) s) "" l.

Definition spaces : list string :=
  [bs [9]; bs [10]; bs [11]; bs [12]; bs [13]; bs [32]; bs [0xC2; 0x85]; bs [0xC2; 0xA0];
   bs [0xE1; 0x9A; 0x80]; bs [0xE2; 0x80; 0x80]; bs [0xE2; 0x80; 0x81]; bs [0xE2; 0x80; 0x82];
   bs [0xE2; 0x80; 0x83]; bs [0xE2; 0x80; 0x84]; bs [0xE2; 0x80; 0x85]; bs [0xE2; 0x80; 0x86];
   bs [0xE2; 0x80; 0x87]; bs [0xE2; 0x80; 0x88]; bs [0xE2; 0x80; 0x89]; bs [0xE2; 0x80; 0x8A];
   bs [0xE2; 0x80; 0xA8]; bs [0xE2; 0x80; 0xA9]; bs [0xE2; 0x80; 0xAF]; bs [0xE2; 0x81; 0x9F];
   bs [0xE3; 0x80; 0x80]]%nat.

(** How many bytes the space at the start of [s] takes; 0 if there is none. *)
Definition space_width (s : string) : nat :=
  match List.find (λ w, HasPrefix s w) spaces with
  | Some w => String.length w
  | None => 0
  end.

Fixpoint trim_left (fuel : nat) (s : string) : string :=
  match fuel with
  | O => s
  | S fuel' => match space_width s with O => s | w => trim_left fuel' (sdrop w s) end
  end.

Fixpoint trim_right (fuel : nat) (s : string) : string :=
  match fuel with
  | O => s
  | S fuel' =>
      match List.find (λ w, HasSuffix s w) spaces with
      | None => s
      | Some w => trim_right fuel' (stake (String.length s - String.length w) s)
      end
  end.

Definition TrimSpace (s : string) : string :=
  let s := trim_left (String.length s) s in trim_right (String.length s) s.

(** [strings.TrimRight] and [strings.Trim] with a cutset of one byte. *)
Fixpoint trim_left_byte (c : ascii) (s : string) : string :=
  match s with
  | String a s' => if ascii_eqb a c then trim_left_byte c s' else s
  | EmptyString => ""
  end.

Fixpoint TrimRight (s : string) (c : ascii) : string :=
  match s with
  | EmptyString => ""
  | String a s' =>
      match TrimRight s' c with
      | EmptyString => if ascii_eqb a c then "" else String a ""
      | r => String a r
      end
  end.

Definition Trim (s : string) (c : ascii) : string := TrimRight (trim_left_byte c s) c.

(** [strings.Fields]: the maximal runs without space. *)
Fixpoint fields_loop (fuel : nat) (cur s : string) : list string :=
  match fuel, s with
  | S fuel', String a s' =>
      match space_width s with
      | O => fields_loop fuel' (cur +:+ String a "") s'
      | w => (if String.eqb cur "" then [] else [cur]) ++ fields_loop fuel' "" (sdrop w s)
      end
  | _, _ => if String.eqb cur "" then [] else [cur]
  end.
Definition Fields (s : string) : list string := fields_loop (String.length s) "" s.

(** ** Case

    [strings.ToLower] of a string of ASCII bytes; on other strings the tables of
    [unicode] decide, which [Unicode] stands for. *)
Class Unicode := {
  unicode_ToLower : string → string;
  unicode_Quote : string → string;
}.

Definition is_ascii (s : string) : bool :=
  forallb (λ a, Nat.ltb (nat_of_ascii a) 128) (String.list_ascii_of_string s).

Definition lower_byte (a : ascii) : ascii :=
  let n := nat_of_ascii a in
  if (Nat.leb 65 n && Nat.leb n 90)%bool then ascii_of_nat (n + 32) else a.

Fixpoint lower_ascii (s : string) : string :=
  match s with
  | EmptyString => ""
  | String a s' => String (lower_byte a) (lower_ascii s')
  end.

Definition ToLower `{Unicode} (s : string) : string :=
  if is_ascii s then lower_ascii s else unicode_ToLower s.

(** ** Numbers *)
Definition is_digit (a : ascii) : bool :=
  let n := nat_of_ascii a in Nat.leb 48 n && Nat.leb n 57.
Definition digit_val (a : ascii) : Z := Z.of_nat (nat_of_ascii a) - 48.

(** [%d]. *)
Definition fmt_d (n : Z) : string := pretty n.

(** The value of a string of decimal digits. *)
Fixpoint digits_val (acc : Z) (s : string) : option Z :=
  match s with
  | EmptyString => Some acc
  | String a s' => if is_digit a then digits_val (acc * 10 + digit_val a) s' else None
  end.

(** [strconv.Atoi]: an optional sign and at least one digit, in the range of int. *)
Definition Atoi (s : string) : option Z :=
  let '(neg, d) :=
    match s with
    | String "-" s' => (true, s')
    | String "+" s' => (false, s')
    | _ => (false, s)
    end in
  if String.eqb d "" then None
  else
    n ← digits_val 0 d;
    let z := if neg then - n else n in
    if decide (is_i64 z) then Some z else None.

(** [n] in decimal with at least [w] digits. *)
Fixpoint zero_pad (w : nat) (s : string) : string :=
  if Nat.leb w (String.length s) then s
  else match w with O => s | S w' => "0" +:+ zero_pad w' s end.

(** The magnitude of a finite float times 10^k, rounded to an integer, halves to even:
    the digits that the verbs [%.kf] print. *)
Definition scaled_round (k : nat) (m : positive) (e : Z) : Z :=
  let num := Zpos m * 10 ^ Z.of_nat k in
  if 0 <=? e then num * 2 ^ e
  else
    let d := 2 ^ (- e) in
    let q := num / d in
    let r := num mod d in
    match (2 * r) ?= d with
    | Lt => q
    | Gt => q + 1
    | Eq => if Z.even q then q else q + 1
    end.

(** [fmt] of a float with [%.kf]. *)
Definition fmt_f (k : nat) (x : float64) : string :=
  let body (q : Z) :=
    let ip := q / 10 ^ Z.of_nat k in
    let fp := q mod 10 ^ Z.of_nat k in
    match k with
    | O => fmt_d ip
    | _ => fmt_d ip +:+ "." +:+ zero_pad k (fmt_d fp)
    end in
  match x with
  | S754_nan => "NaN"
  | S754_infinity s => if s then "-Inf" else "+Inf"
  | S754_zero s => (if s then "-" else "") +:+ body 0
  | S754_finite s m e => (if s then "-" else "") +:+ body (scaled_round k m e)
  end.

Example fmt_f_ex : fmt_f 1 (f64_ratio 1234567 1000) = "1234.6" ∧ fmt_f 0 (f64_ratio 5 2) = "2" ∧
  fmt_f 6 (f64_ratio (-1) 3) = "-0.333333" ∧ fmt_f 2 f64_zero = "0.00".
Proof. vm_compute. done. Qed.
Example TrimSpace_ex : TrimSpace (" 	a b" +:+ bs [0xC2; 0xA0]%nat) = "a b".
Proof. reflexivity. Qed.
Example Fields_ex : Fields "  node_load1  0.21 " = ["node_load1"; "0.21"].
Proof. reflexivity. Qed.
Example SplitN_ex : SplitN 4 "a,b,c,d,e" "," = ["a"; "b"; "c"; "d,e"].
Proof. reflexivity. Qed.
Example Atoi_ex : Atoi "-17" = Some (-17) ∧ Atoi "9223372036854775808" = None ∧ Atoi "1x" = None.
Proof. done. Qed.

(** * Facts about strings *)
#[local] Arguments String.append : simpl nomatch.
Lemma sapp_assoc (a b c : string) : (a +:+ b) +:+ c = a +:+ (b +:+ c).
Proof. induction a as [|x a IH]; cbn; [done|]. by rewrite IH. Qed.

Lemma sapp_nil (a : string) : a +:+ "" = a.
Proof. induction a as [|x a IH]; cbn; [done|]. by rewrite IH. Qed.

Lemma length_sapp (a b : string) : String.length (a +:+ b) = (String.length a + String.length b)%nat.
Proof. induction a as [|x a IH]; cbn; [done|]. by rewrite IH. Qed.

Lemma slen_nonneg s : 0 <= slen s.
Proof. unfold slen. lia. Qed.

Lemma slen_app a b : slen (a +:+ b) = slen a + slen b.
Proof. unfold slen. rewrite length_sapp. lia. Qed.

Lemma ascii_eqb_spec (a b : ascii) : reflect (a = b) (ascii_eqb a b).
Proof. apply Ascii.eqb_spec. Qed.

Lemma stake_app (a b : string) : stake (String.length a) (a +:+ b) = a.
Proof. induction a as [|x a IH]; cbn; [by destruct b|]. by rewrite IH. Qed.

Lemma sdrop_app (a b : string) : sdrop (String.length a) (a +:+ b) = b.
Proof. induction a as [|x a IH]; cbn; [by destruct b|]. done. Qed.

Lemma sdrop_app_plus n (a b : string) : sdrop (String.length a + n) (a +:+ b) = sdrop n b.
Proof. induction a as [|x a IH]; cbn; [done|]. done. Qed.

Lemma sdrop_length s : sdrop (String.length s) s = "".
Proof. induction s; done. Qed.

Lemma stake_sdrop n s : stake n s +:+ sdrop n s = s.
Proof. revert s. induction n as [|n IH]; intros [|a s]; cbn; try done. by rewrite IH. Qed.

(** A byte that does not occur. *)
Fixpoint lacks (c : ascii) (s : string) : bool :=
  match s with
  | EmptyString => true
  | String a s' => negb (ascii_eqb a c) && lacks c s'
  end.

Lemma lacks_app c a b : lacks c (a +:+ b) = lacks c a && lacks c b.
Proof. induction a as [|x a IH]; cbn; [done|]. by rewrite IH, andb_assoc. Qed.

Lemma index_from_app c i a b :
  lacks c a = true → index_from i (a +:+ b) c = index_from (i + slen a) b c.
Proof.
  revert i. induction a as [|x a IH]; intros i; cbn [String.app].
  - intros _. f_equal. unfold slen. cbn. lia.
  - cbn. intros [H1%negb_true_iff H2]%andb_true_iff. rewrite H1, IH by done.
    f_equal. unfold slen. cbn. lia.
Qed.

Lemma IndexByte_first c a b : lacks c a = true → IndexByte (a +:+ String c b) c = slen a.
Proof.
  intros H. unfold IndexByte. rewrite index_from_app by done. cbn.
  unfold ascii_eqb. by rewrite Ascii.eqb_refl.
Qed.

Lemma index_from_lacks c i s : lacks c s = true → index_from i s c = -1.
Proof.
  revert i. induction s as [|a s IH]; intros i; cbn; [done|].
  intros [->%negb_true_iff H]%andb_true_iff. by apply IH.
Qed.

Lemma HasPrefix_app s p : HasPrefix s p = true ↔ ∃ r, s = p +:+ r.
Proof.
  revert s. induction p as [|a p IH]; intros s; cbn.
  - split; [intros _; by eexists|done].
  - destruct s as [|b s]; cbn; [split; [done|by intros (r & ?)]|].
    rewrite andb_true_iff, IH. split.
    + intros [Hab (r & ->)]. destruct (ascii_eqb_spec a b) as [->|]; [|done]. by exists r.
    + intros (r & [= -> ->]). split; [by destruct (ascii_eqb_spec a a)|by exists r].
Qed.

Lemma HasSuffix_app s p : HasSuffix s p = true → ∃ r, s = r +:+ p.
Proof.
  unfold HasSuffix. intros [_ H%String.eqb_eq]%andb_true_iff.
  exists (stake (String.length s - String.length p) s). rewrite <- H at 2. by rewrite stake_sdrop.
Qed.

(** Visible ASCII. *)
Definition visible (a : ascii) : bool :=
  let n := nat_of_ascii a in Nat.leb 33 n && Nat.leb n 126.

Fixpoint all_bytes (f : ascii → bool) (s : string) : bool :=
  match s with EmptyString => true | String a s' => f a && all_bytes f s' end.

Lemma all_bytes_app f a b : all_bytes f (a +:+ b) = all_bytes f a && all_bytes f b.
Proof. induction a as [|x a IH]; cbn; [done|]. by rewrite IH, andb_assoc. Qed.

Fixpoint last_byte (s : string) : option ascii :=
  match s with
  | EmptyString => None
  | String a EmptyString => Some a
  | String _ s' => last_byte s'
  end.

Lemma last_byte_app a b : b ≠ "" → last_byte (a +:+ b) = last_byte b.
Proof.
  intros Hb. induction a as [|x a IH]; [done|]. cbn [String.app last_byte].
  destruct (a +:+ b) eqn:E; [|done]. apply (f_equal String.length) in E.
  rewrite length_sapp in E. destruct b; [done|cbn in E; lia].
Qed.

(** No space starts or ends with a visible byte. *)
Lemma spaces_ends w :
  w ∈ spaces → w ≠ "" ∧
  (∀ a s, w = String a s → visible a = false) ∧
  (∀ a, last_byte w = Some a → visible a = false).
Proof.
  intros H. revert w H. apply Forall_forall. repeat constructor; try done;
    intros; cbn in *; simplify_eq; done.
Qed.

Lemma find_none {A} (f : A → bool) l : (∀ x, x ∈ l → f x = false) → List.find f l = None.
Proof.
  induction l as [|x l IH]; intros H; cbn; [done|]. rewrite H by left.
  apply IH. intros. apply H. by right.
Qed.

Lemma space_width_visible a s : visible a = true → space_width (String a s) = 0%nat.
Proof.
  intros Ha. unfold space_width. rewrite find_none; [done|]. intros w Hw.
  destruct (spaces_ends w Hw) as (Hne & Hf & _). destruct (HasPrefix _ w) eqn:E; [|done].
  apply HasPrefix_app in E as (r & E). destruct w as [|b w]; [done|].
  injection E as <- _. specialize (Hf a w eq_refl). congruence.
Qed.

Lemma trim_right_visible fuel s a :
  last_byte s = Some a → visible a = true → trim_right fuel s = s.
Proof.
  intros Hl Ha. destruct fuel as [|fuel]; [done|]. cbn [trim_right].
  rewrite find_none; [done|]. intros w Hw.
  destruct (spaces_ends w Hw) as (Hne & _ & Hf). destruct (HasSuffix s w) eqn:E; [|done].
  apply HasSuffix_app in E as (r & ->). rewrite last_byte_app in Hl by done.
  specialize (Hf a Hl). congruence.
Qed.

(** A string that starts and ends with visible bytes is left alone. *)
Definition trimmed (s : string) : bool :=
  match s, last_byte s with
  | String a _, Some b => visible a && visible b
  | _, _ => false
  end.

Lemma TrimSpace_trimmed s : trimmed s = true → TrimSpace s = s.
Proof.
  destruct s as [|a s]; [done|]. intros H. unfold trimmed in H.
  destruct (last_byte (String a s)) as [b|] eqn:E; [|done]. apply andb_true_iff in H as [Ha Hb].
  unfold TrimSpace. cbn [String.length trim_left]. rewrite space_width_visible by done.
  by apply (trim_right_visible _ _ b).
Qed.

Lemma TrimSpace_space_trimmed s : trimmed s = true → TrimSpace (" " +:+ s) = s.
Proof.
  intros H. pose proof (TrimSpace_trimmed s H) as Ht. unfold TrimSpace in *.
  change (" " +:+ s) with (String " " s). cbn [String.length trim_left].
  replace (space_width (String " " s)) with 1%nat by done. cbn [sdrop]. exact Ht.
Qed.

(** ** The order of strings: [a < b] compares bytes *)

Definition str_le (s1 s2 : string) : Prop := String.leb s1 s2 = true.

#[export] Instance str_le_dec s1 s2 : Decision (str_le s1 s2).
Proof. unfold str_le. apply _. Defined.

#[export] Instance str_le_total : Total str_le.
Proof. intros s1 s2. apply String.leb_total. Qed.

#[export] Instance str_le_antisym : AntiSymm (=) str_le.
Proof. intros s1 s2. apply String.leb_antisym. Qed.

Lemma str_le_cons a s1 b s2 :
  str_le (String a s1) (String b s2) ↔ (N_of_ascii a < N_of_ascii b)%N ∨ a = b ∧ str_le s1 s2.
Proof.
  unfold str_le, String.leb. cbn [String.compare]. unfold Ascii.compare.
  destruct (N.compare_spec (N_of_ascii a) (N_of_ascii b)) as [E|E|E].
  - assert (a = b) as ->. { by rewrite <- (ascii_N_embedding a), E, ascii_N_embedding. }
    split; [by right|]. intros [H|[_ H]]; [lia|exact H].
  - split; [by left|done].
  - split; [done|]. intros [H|[-> _]]; lia.
Qed.

#[export] Instance str_le_trans : Transitive str_le.
Proof.
  intros s1. induction s1 as [|a s1 IH]; intros [|b s2] [|c s3] H1 H2; try done.
  rewrite str_le_cons in *. destruct H1 as [H1|[-> H1]], H2 as [H2|[-> H2]].
  - left. lia.
  - by left.
  - by left.
  - right. split; [done|]. by eapply IH.
Qed.

(** [a < b]. *)
Definition str_ltb (s1 s2 : string) : bool := String.ltb s1 s2.

Lemma str_ltb_le s1 s2 : str_ltb s1 s2 = true ↔ ¬ str_le s2 s1.
Proof.
  unfold str_ltb, str_le, String.ltb, String.leb. rewrite (String.compare_antisym s2 s1).
  by destruct (String.compare s1 s2).
Qed.
