(* ===== verification/GoScan.v ===== *)
(** Reading floating-point numbers: [strconv.ParseFloat] and [fmt.Sscanf] with the
    verb [%f].  A string is read as an exact rational, which is then rounded once. *)

From Stdlib Require Import Ascii SpecFloat.
From S2P Require Import Prelude GoInt GoFloat GoString.

(** ** [strconv.ParseFloat] *)
Definition lower_eq (s t : string) : bool := String.eqb (lower_ascii s) t.

Definition hex_val (a : ascii) : option Z :=
  let n := Z.of_nat (nat_of_ascii (lower_byte a)) in
  if is_digit a then Some (digit_val a)
  else if (97 <=? n) && (n <=? 102) then Some (n - 87)
  else None.

(** A sign at the start: negative or not, and the rest. *)
Definition read_sign (s : string) : bool * string :=
  match s with
  | String "-" s' => (true, s')
  | String "+" s' => (false, s')
  | _ => (false, s)
  end.

(** [special]: infinities and NaN, in any case; no sign before NaN. *)
Definition parse_special (s : string) : option float64 :=
  let '(neg, t) := read_sign s in
  if lower_eq t "inf" || lower_eq t "infinity" then Some (S754_infinity neg)
  else if lower_eq s "nan" then Some S754_nan
  else None.

(** The base prefix 0x. *)
Definition hex_prefix (s : string) : option string :=
  match s with
  | String "0" (String x s') => if ascii_eqb (lower_byte x) "x" then Some s' else None
  | _ => None
  end.

(** The mantissa: its digits as one number, how many of them follow the point, whether
    there was a digit, and the rest of the string.  Underscores are skipped. *)
Fixpoint read_mantissa (hex : bool) (s : string) (m frac : Z) (dot digits : bool)
    : Z * Z * bool * string :=
  match s with
  | EmptyString => (m, frac, digits, s)
  | String a s' =>
      let base := if hex then 16 else 10 in
      let digit := if hex then hex_val a else if is_digit a then Some (digit_val a) else None in
      if ascii_eqb a "_" then read_mantissa hex s' m frac dot digits
      else if ascii_eqb a "." then
        if dot then (m, frac, digits, s) else read_mantissa hex s' m frac true digits
      else match digit with
           | Some d => read_mantissa hex s' (m * base + d) (if dot then frac + 1 else frac) dot true
           | None => (m, frac, digits, s)
           end
  end.

(** The digits of the exponent (underscores are skipped); beyond 10000 they no longer count. *)
Fixpoint read_exponent (s : string) (e : Z) : Z * string :=
  match s with
  | EmptyString => (e, s)
  | String a s' =>
      if ascii_eqb a "_" then read_exponent s' e
      else if is_digit a
           then read_exponent s' (if e <? 10000 then e * 10 + digit_val a else e)
           else (e, s)
  end.

(** [underscoreOK]: an underscore stands between digits or after a base prefix. *)
Fixpoint underscore_loop (hex : bool) (saw : ascii) (s : string) : bool :=
  match s with
  | EmptyString => negb (ascii_eqb saw "_")
  | String a s' =>
      if is_digit a || (hex && bool_decide (is_Some (hex_val a))) then underscore_loop hex "0" s'
      else if ascii_eqb a "_" then
        if ascii_eqb saw "0" then underscore_loop hex "_" s' else false
      else if ascii_eqb saw "_" then false
      else underscore_loop hex "!" s'
  end.

Definition underscoreOK (s : string) : bool :=
  let '(_, s) := read_sign s in
  match s with
  | String "0" (String x s') =>
      let x := lower_byte x in
      if ascii_eqb x "x" then underscore_loop true "0" s'
      else if ascii_eqb x "b" || ascii_eqb x "o" then underscore_loop false "0" s'
      else underscore_loop false "^" s
  | _ => underscore_loop false "^" s
  end.

(** mantissa * base^e, correctly rounded. *)
Definition scale (neg : bool) (m : Z) (base e : Z) : float64 :=
  match m with
  | Z0 => S754_zero neg
  | _ =>
      let m := if neg then - m else m in
      if 0 <=? e then f64_ratio (m * base ^ e) 1
      else f64_ratio m (Z.to_pos (base ^ (- e)))
  end.

(** [strconv.ParseFloat(s, 64)]; [None] is its error, out of range included. *)
Definition ParseFloat (s : string) : option float64 :=
  match parse_special s with
  | Some f => Some f
  | None =>
      let '(neg, t) := read_sign s in
      let '(hex, t) := match hex_prefix t with Some t' => (true, t') | None => (false, t) end in
      let '(m, frac, digits, t) := read_mantissa hex t 0 0 false false in
      if negb digits then None
      else
        let expo :=
          match t with
          | String a t' =>
              if ascii_eqb (lower_byte a) (if hex then "p" else "e")%char then
                let '(eneg, t') := read_sign t' in
                match t' with
                | String d _ =>
                    if is_digit d then
                      let '(e, rest) := read_exponent t' 0 in
                      Some (if eneg then - e else e, rest)
                    else None
                | EmptyString => None
                end
              else if hex then None else Some (0, t)
          | EmptyString => if hex then None else Some (0, t)
          end in
        match expo with
        | Some (e, "") =>
            if Contains s "_" && negb (underscoreOK s) then None
            else
              let f := if hex then scale neg m 2 (e - 4 * frac) else scale neg m 10 (e - frac) in
              if is_inf f then None else Some f
        | _ => None
        end
  end.

(** ** [fmt.Sscanf(s, "%f", &f)]

    The longest prefix that looks like a number is read; what follows is ignored. *)
Definition member (a : ascii) (set : string) : bool := 0 <=? IndexByte set a.

(** [accept]: take the next byte if it is in the set. *)
Definition accept (set : string) (st : string * string) : bool * (string * string) :=
  match st with
  | (buf, String a s) => if member a set then (true, (buf +:+ String a "", s)) else (false, st)
  | (_, EmptyString) => (false, st)
  end.

Fixpoint accept_all (fuel : nat) (set : string) (st : string * string) : string * string :=
  match fuel with
  | O => st
  | S fuel' => let '(ok, st') := accept set st in if ok then accept_all fuel' set st' else st'
  end.

Definition accept3 (a b c : string) (st : string * string) : bool * (string * string) :=
  let '(ok, st) := accept a st in
  if ok then let '(ok, st) := accept b st in
    if ok then accept c st else (false, st)
  else (false, st).

Definition decimal_digits : string := "0123456789_".
Definition hex_digits : string := "0123456789aAbBcCdDeEfF_".

Definition floatToken (s : string) : string :=
  let all := accept_all (String.length s) in
  let '(ok, st) := accept3 "nN" "aA" "nN" ("", s) in
  if ok then fst st
  else
    let '(_, st) := accept "+-" st in
    let '(ok, st) := accept3 "iI" "nN" "fF" st in
    if ok then fst st
    else
      let '(ok0, st) := accept "0" st in
      let '(okx, st) := if ok0 then accept "xX" st else (false, st) in
      let digits := if okx then hex_digits else decimal_digits in
      let exp := if okx then "pP" else "eEpP" in
      let st := all digits st in
      let '(ok, st) := accept "." st in
      let st := if ok then all digits st else st in
      let '(ok, st) := accept exp st in
      let st := if ok then let '(_, st) := accept "+-" st in all decimal_digits st else st in
      fst st.

(** [math.Ldexp]. *)
Definition Ldexp (f : float64) (n : Z) : float64 :=
  match f with
  | S754_finite s m e =>
      binary_round f64_prec f64_emax s m (e + n)
  | _ => f
  end.

(** [convertFloat]: a decimal mantissa may carry a binary exponent. *)
Definition convertFloat (str : string) : option float64 :=
  let p := IndexByte str "p" in
  if (0 <=? p) && negb (Contains str "x" || Contains str "X") then
    f ← ParseFloat (stake (Z.to_nat p) str);
    n ← Atoi (sdrop (Z.to_nat p + 1) str);
    Some (Ldexp f n)
  else ParseFloat str.

Definition Sscanf_f (s : string) : option float64 :=
  if String.eqb s "" then None else convertFloat (floatToken s).

Example ParseFloat_ex :
  ParseFloat "12.5e-1" = Some (f64_ratio 5 4) ∧ ParseFloat "-0" = Some (S754_zero true) ∧
  ParseFloat "1_0.5" = Some (f64_ratio 21 2) ∧ ParseFloat "1__0" = None ∧
  ParseFloat "0x1.8p1" = Some (f64_of_Z 3) ∧ ParseFloat "1e400" = None ∧
  ParseFloat "Inf" = Some (S754_infinity false) ∧ ParseFloat "1e" = None ∧ ParseFloat "." = None ∧
  ParseFloat "0.1" = Some (f64_of_bits 0x3FB999999999999A).
Proof. vm_compute. done. Qed.
Example Sscanf_f_ex :
  Sscanf_f "1.5 1700000000000" = Some (f64_ratio 3 2) ∧ Sscanf_f "nan" = Some S754_nan ∧
  Sscanf_f "n1" = None ∧ Sscanf_f "3abc" = Some (f64_of_Z 3) ∧ Sscanf_f "1.5p1" = Some (f64_of_Z 3) ∧
  Sscanf_f "-inf" = Some (S754_infinity true) ∧ Sscanf_f "x" = None.
Proof. vm_compute. done. Qed.
