(* ===== verification/GoDuration.v ===== *)
(** Durations and timestamps as text: [time.ParseDuration], [time.Parse] for the layouts the
    program uses, and [Duration.String]. *)

From Stdlib Require Import Ascii SpecFloat.
From stdpp Require Import pretty.
From S2P Require Import Prelude GoInt GoFloat GoTime GoString GoScan.

(** * [time.ParseDuration] *)

(** [leadingInt]: the digits at the front as an integer of at most 2^63. *)
Fixpoint leadingInt (x : Z) (s : string) : option (Z * string) :=
  match s with
  | String c s' =>
      if is_digit c then
        if 2 ^ 63 / 10 <? x then None
        else
          let x := x * 10 + digit_val c in
          if 2 ^ 63 <? x then None else leadingInt x s'
      else Some (x, s)
  | EmptyString => Some (x, s)
  end.

(** [leadingFraction]: digits beyond the range are dropped; the scale is a float64. *)
Fixpoint leadingFraction (x : Z) (scale : float64) (overflow : bool) (s : string)
    : Z * float64 * string :=
  match s with
  | String c s' =>
      if is_digit c then
        if overflow then leadingFraction x scale overflow s'
        else if (2 ^ 63 - 1) / 10 <? x then leadingFraction x scale true s'
        else
          let y := x * 10 + digit_val c in
          if 2 ^ 63 <? y then leadingFraction x scale true s'
          else leadingFraction y (fmul scale (f64_of_Z 10)) false s'
      else (x, scale, s)
  | EmptyString => (x, scale, s)
  end.

(** The unit: everything up to the next point or digit. *)
Fixpoint leadingUnit (s : string) : string * string :=
  match s with
  | String c s' =>
      if ascii_eqb c "." || is_digit c then ("", s)
      else let '(u, rest) := leadingUnit s' in (String c u, rest)
  | EmptyString => ("", "")
  end.

(** [unitMap]; microseconds may be spelled with the micro sign or the letter mu. *)
Definition unitMap (u : string) : option Z :=
  if String.eqb u "ns" then Some Nanosecond
  else if String.eqb u "us" then Some Microsecond
  else if String.eqb u (bs [0xC2; 0xB5]%nat +:+ "s") then Some Microsecond
  else if String.eqb u (bs [0xCE; 0xBC]%nat +:+ "s") then Some Microsecond
  else if String.eqb u "ms" then Some Millisecond
  else if String.eqb u "s" then Some Second
  else if String.eqb u "m" then Some Minute
  else if String.eqb u "h" then Some Hour
  else None.

(** One number with its unit: the value in nanoseconds and the rest; [None] is an error (a
    number out of range, no digits, a missing or unknown unit). *)
Definition duration_term (s : string) : option (Z * string) :=
  match s with
  | EmptyString => None
  | String c _ =>
      if negb (ascii_eqb c "." || is_digit c) then None
      else
        '(v, s1) ← leadingInt 0 s;
        let pre := negb (slen s1 =? slen s) in
        let '(f, scale, s2, post) :=
          match s1 with
          | String "." s1' =>
              let '(f, scale, s2) := leadingFraction 0 (f64_of_Z 1) false s1' in
              (f, scale, s2, negb (slen s2 =? slen s1'))
          | _ => (0, f64_of_Z 1, s1, false)
          end in
        if negb pre && negb post then None
        else
          let '(u, s3) := leadingUnit s2 in
          unit ← unitMap u;
          if 2 ^ 63 / unit <? v then None
          else
            let v := v * unit in
            let v' :=
              if 0 <? f
              then v + f64_to_int (fmul (f64_of_Z f) (fdiv (f64_of_Z unit) scale))
              else v in
            if 2 ^ 63 <? v' then None else Some (v', s3)
  end.

Fixpoint duration_terms (fuel : nat) (d : Z) (s : string) : option Z :=
  match fuel, s with
  | _, EmptyString => Some d
  | O, _ => None
  | S fuel', _ =>
      '(v, s') ← duration_term s;
      let d := d + v in
      if 2 ^ 63 <? d then None else duration_terms fuel' d s'
  end.

(** Every term takes at least a byte, so that the length bounds the loop. *)
Definition ParseDuration (s : string) : option Z :=
  let '(neg, s) := read_sign s in
  if String.eqb s "0" then Some 0
  else if String.eqb s "" then None
  else
    d ← duration_terms (String.length s) 0 s;
    if neg then Some (i64 (- d))
    else if 2 ^ 63 - 1 <? d then None else Some d.

Example ParseDuration_ex :
  ParseDuration "1h30m" = Some (90 * Minute) ∧ ParseDuration "1.5h" = Some (90 * Minute) ∧
  ParseDuration "-15m" = Some (-15 * Minute) ∧ ParseDuration "0" = Some 0 ∧
  ParseDuration ".5s" = Some (500 * Millisecond) ∧ ParseDuration "7d" = None ∧
  ParseDuration "5" = None ∧ ParseDuration "2562047h" = Some (2562047 * Hour) ∧
  ParseDuration "2562048h" = None.
Proof. repeat split; vm_compute; reflexivity. Qed.

(** [Duration.String] of a whole number of seconds, not negative. *)
Definition Duration_String (d : Z) : string :=
  let u := d / Second in
  if u =? 0 then "0s"
  else
    let sec := fmt_d (u mod 60) +:+ "s" in
    let m := u / 60 in
    if m =? 0 then sec
    else
      let min_sec := fmt_d (m mod 60) +:+ "m" +:+ sec in
      let h := m / 60 in
      if h =? 0 then min_sec else fmt_d h +:+ "h" +:+ min_sec.

(** [d.Round(m)] for a positive [m]: to the nearest multiple, halves away from zero; values
    that would overflow saturate. *)
Definition Duration_Round (d m : Z) : Z :=
  let r := Z.rem d m in
  if d <? 0 then
    let r := - r in
    if r + r <? m then d + r
    else if min_int64 <=? d - m + r then d - m + r else min_int64
  else
    if r + r <? m then d - r
    else if d + m - r <=? max_int64 then d + m - r else max_int64.

Example Duration_String_ex :
  Duration_String (Duration_Round (Hour + 3) Minute) = "1h0m0s" ∧
  Duration_String (Duration_Round (30 * Minute + 7) Minute) = "30m0s" ∧
  Duration_String (Duration_Round (168 * Hour) Minute) = "168h0m0s" ∧ Duration_String 0 = "0s".
Proof. done. Qed.

(** * [time.Parse] *)

(** The chunks of a layout. *)
Inductive chunk :=
| Year4
| Month2
| Day2
| Hour2
| Minute2
| Second2
| Frac9
| ZoneISO
| Literal (c : ascii).

(** What has been read: the fields and the offset of the zone in seconds. *)
Record civil := mkCivil {
  year : Z;
  month : Z;
  day : Z;
  hour : Z;
  minute : Z;
  second : Z;
  nsec : Z;
  offset : Z;
}.

Definition civil0 : civil := mkCivil 0 1 1 0 0 0 0 0.

Definition digit_at (s : string) (i : nat) : option Z :=
  match String.get i s with
  | Some c => if is_digit c then Some (digit_val c) else None
  | None => None
  end.

(** [getnum]: two digits, or one when the field is not fixed. *)
Definition getnum (fixed : bool) (s : string) : option (Z * string) :=
  match digit_at s 0, digit_at s 1 with
  | Some a, Some b => Some (a * 10 + b, sdrop 2 s)
  | Some a, None => if fixed then None else Some (a, sdrop 1 s)
  | None, _ => None
  end.

(** Spaces in the layout stand for runs of spaces. *)
Fixpoint cutspace (s : string) : string :=
  match s with String " " s' => cutspace s' | _ => s end.

Definition skip_literal (c : ascii) (s : string) : option string :=
  if ascii_eqb c " " then
    match s with
    | String d _ => if ascii_eqb d " " then Some (cutspace s) else None
    | EmptyString => Some s
    end
  else
    match s with
    | String d s' => if ascii_eqb c d then Some s' else None
    | EmptyString => None
    end.

Fixpoint leading_digits (s : string) : string :=
  match s with
  | String c s' => if is_digit c then String c (leading_digits s') else ""
  | EmptyString => ""
  end.

(** A fraction, if the value has one: its digits after a point or comma, at most nine of
    them counting. *)
Definition fraction (s : string) : option (Z * string) :=
  match s with
  | String c s' =>
      let ds := leading_digits s' in
      if (ascii_eqb c "." || ascii_eqb c ",") && negb (String.eqb ds "") then
        let used := stake 9 ds in
        Some (default 0 (digits_val 0 used) * 10 ^ (9 - slen used), sdrop (String.length ds) s')
      else None
  | EmptyString => None
  end.

Definition in_range (lo hi x : Z) : bool := (lo <=? x) && (x <=? hi).

(** Reading one chunk. *)
Definition read_chunk (c : chunk) (next_is_frac : bool) (t : civil) (s : string)
    : option (civil * string) :=
  let '(mkCivil y mo d h mi sec ns off) := t in
  match c with
  | Literal a => s ← skip_literal a s; Some (t, s)
  | Year4 =>
      if slen s <? 4 then None
      else
        match digit_at s 0, digits_val 0 (stake 4 s) with
        | Some _, Some v => Some (mkCivil v mo d h mi sec ns off, sdrop 4 s)
        | _, _ => None
        end
  | Month2 =>
      '(v, s) ← getnum true s;
      if in_range 1 12 v then Some (mkCivil y v d h mi sec ns off, s) else None
  | Day2 => '(v, s) ← getnum true s; Some (mkCivil y mo v h mi sec ns off, s)
  | Hour2 =>
      '(v, s) ← getnum false s;
      if v <? 24 then Some (mkCivil y mo d v mi sec ns off, s) else None
  | Minute2 =>
      '(v, s) ← getnum true s;
      if v <? 60 then Some (mkCivil y mo d h v sec ns off, s) else None
  | Second2 =>
      '(v, s) ← getnum true s;
      if v <? 60 then
        (* a fraction that the layout does not have is accepted here *)
        match (if next_is_frac then None else fraction s) with
        | Some (n, s) => Some (mkCivil y mo d h mi v n off, s)
        | None => Some (mkCivil y mo d h mi v ns off, s)
        end
      else None
  | Frac9 =>
      match fraction s with
      | Some (n, s) => Some (mkCivil y mo d h mi sec n off, s)
      | None => Some (t, s)
      end
  | ZoneISO =>
      match s with
      | String "Z" s => Some (mkCivil y mo d h mi sec ns 0, s)
      | String sign s' =>
          if slen s <? 6 then None
          else if negb (bool_decide (String.get 3 s = Some ":"%char)) then None
          else
            '(hr, _) ← getnum true s';
            '(mm, _) ← getnum true (sdrop 4 s);
            if (24 <? hr) || (60 <? mm) then None
            else
              let o := (hr * 60 + mm) * 60 in
              if ascii_eqb sign "+" then Some (mkCivil y mo d h mi sec ns o, sdrop 6 s)
              else if ascii_eqb sign "-" then Some (mkCivil y mo d h mi sec ns (- o), sdrop 6 s)
              else None
      | EmptyString => None
      end
  end.

Fixpoint read_layout (layout : list chunk) (t : civil) (s : string) : option civil :=
  match layout with
  | [] => if String.eqb s "" then Some t else None
  | c :: layout =>
      let next_is_frac := match layout with Frac9 :: _ => true | _ => false end in
      '(t, s) ← read_chunk c next_is_frac t s;
      read_layout layout t s
  end.

(** ** The calendar *)
Definition is_leap (y : Z) : bool :=
  (y mod 4 =? 0) && (negb (y mod 100 =? 0) || (y mod 400 =? 0)).

Definition days_in (m y : Z) : Z :=
  if m =? 2 then if is_leap y then 29 else 28
  else if (m =? 4) || (m =? 6) || (m =? 9) || (m =? 11) then 30 else 31.

(** Days of the year before a month. *)
Definition days_before (m y : Z) : Z :=
  fold_right Z.add 0 (map (λ i, days_in (Z.of_nat i) y) (seq 1 (Z.to_nat (m - 1)))).

(** Days from the Epoch, for the Gregorian calendar. *)
Definition days_from_civil (y m d : Z) : Z :=
  365 * y + (y + 3) / 4 - (y + 99) / 100 + (y + 399) / 400 + days_before m y + (d - 1) - 719528.

Definition civil_time (t : civil) : Z :=
  (days_from_civil (year t) (month t) (day t) * 86400 + hour t * 3600 + minute t * 60 + second t
   - offset t) * Second + nsec t.

Definition time_Parse (layout : list chunk) (s : string) : option Z :=
  t ← read_layout layout civil0 s;
  if in_range 1 (days_in (month t) (year t)) (day t) then Some (civil_time t) else None.

Definition date_chunks : list chunk := [Year4; Literal "-"; Month2; Literal "-"; Day2].
Definition clock_chunks : list chunk := [Hour2; Literal ":"; Minute2; Literal ":"; Second2].

(** The layouts of [parseTimeArg], in its order. *)
Definition RFC3339 : list chunk := date_chunks ++ [Literal "T"] ++ clock_chunks ++ [ZoneISO].
Definition RFC3339Nano : list chunk := date_chunks ++ [Literal "T"] ++ clock_chunks ++ [Frac9; ZoneISO].
Definition DateTimeT : list chunk := date_chunks ++ [Literal "T"] ++ clock_chunks.
Definition DateTimeSpace : list chunk := date_chunks ++ [Literal " "] ++ clock_chunks.
Definition DateOnly : list chunk := date_chunks.

Example time_Parse_ex :
  time_Parse RFC3339 "1970-01-02T00:00:00Z" = Some (24 * Hour) ∧
  time_Parse RFC3339 "2024-02-29T12:34:56+02:00" = Some (1709202896 * Second) ∧
  time_Parse RFC3339 "2024-02-29T12:34:56.5+02:00" = Some (1709202896 * Second + 500 * Millisecond) ∧
  time_Parse DateOnly "2023-02-29" = None ∧ time_Parse DateOnly "2000-01-01" = Some (946684800 * Second) ∧
  time_Parse DateTimeSpace "2000-01-01  0:00:01" = Some (946684801 * Second) ∧
  time_Parse RFC3339 "2024-02-29" = None.
Proof. repeat split; vm_compute; reflexivity. Qed.

(** * [Time.Format] with RFC 3339, for a time in UTC and a year that is not negative *)
Definition civil_from_days (n : Z) : Z * Z * Z :=
  let z := n + 719468 in
  let era := z / 146097 in
  let doe := z mod 146097 in
  let yoe := (doe - doe / 1460 + doe / 36524 - doe / 146096) / 365 in
  let doy := doe - (365 * yoe + yoe / 4 - yoe / 100) in
  let mp := (5 * doy + 2) / 153 in
  let m := if mp <? 10 then mp + 3 else mp - 9 in
  (yoe + era * 400 + (if m <=? 2 then 1 else 0), m, doy - (153 * mp + 2) / 5 + 1).

Definition Format_RFC3339 (t : Z) : string :=
  let s := t / Second in
  let '(y, m, d) := civil_from_days (s / 86400) in
  let r := s mod 86400 in
  let two n := zero_pad 2 (fmt_d n) in
  zero_pad 4 (fmt_d y) +:+ "-" +:+ two m +:+ "-" +:+ two d +:+ "T" +:+
  two (r / 3600) +:+ ":" +:+ two (r / 60 mod 60) +:+ ":" +:+ two (r mod 60) +:+ "Z".

Example Format_RFC3339_ex :
  Format_RFC3339 0 = "1970-01-01T00:00:00Z" ∧
  Format_RFC3339 (1709202896 * Second + 5) = "2024-02-29T10:34:56Z" ∧
  Format_RFC3339 zero_time = "0001-01-01T00:00:00Z" ∧
  Format_RFC3339 (4102444799 * Second) = "2099-12-31T23:59:59Z".
Proof. repeat split; vm_compute; reflexivity. Qed.

(** * Numbers read back

    [%d] writes digits that the readers above turn into the number again. *)
Section Digits.
#[local] Arguments String.append : simpl nomatch.

(** A string of digits after which the reader stops. *)
Fixpoint digits_only (s : string) : bool :=
  match s with "" => true | String c s => is_digit c && digits_only s end%string.

Definition stops (s : string) : Prop :=
  match s with String c _ => is_digit c = false | EmptyString => True end.

Lemma digit_val_bounds c : is_digit c = true → 0 <= digit_val c <= 9.
Proof. unfold is_digit, digit_val. intros [H1%Nat.leb_le H2%Nat.leb_le]%andb_true_iff. lia. Qed.

Lemma digits_val_ge acc s v : 0 <= acc → digits_val acc s = Some v → acc <= v.
Proof.
  revert acc. induction s as [|c s IH]; intros acc Hacc H; cbn in H; [by simplify_eq|].
  destruct (is_digit c) eqn:Hc; [|done]. pose proof (digit_val_bounds c Hc).
  apply IH in H; lia.
Qed.

Lemma leadingInt_digits s rest acc v :
  0 <= acc → digits_only s = true → digits_val acc s = Some v → v <= 2 ^ 63 → stops rest →
  leadingInt acc (s +:+ rest) = Some (v, rest).
Proof.
  revert acc. induction s as [|c s IH]; intros acc Hacc Hd Hv Hmax Hrest; cbn in Hd, Hv |- *.
  - injection Hv as <-. destruct rest as [|c rest]; [done|]. cbn in Hrest |- *. by rewrite Hrest.
  - apply andb_true_iff in Hd as [Hc Hd]. rewrite Hc in Hv |- *.
    pose proof (digit_val_bounds c Hc) as Hb.
    pose proof (digits_val_ge (acc * 10 + digit_val c) s v ltac:(lia) Hv) as Hge.
    destruct (Z.ltb_spec (2 ^ 63 / 10) acc) as [Hlt|_].
    { pose proof (Z.div_mod (2 ^ 63) 10 ltac:(lia)).
      pose proof (Z.mod_pos_bound (2 ^ 63) 10 ltac:(lia)). lia. }
    destruct (Z.ltb_spec (2 ^ 63) (acc * 10 + digit_val c)); [lia|].
    apply IH; [lia|done..].
Qed.

Lemma pretty_char_digit x : (x < 10)%N →
  is_digit (pretty_N_char x) = true ∧ digit_val (pretty_N_char x) = Z.of_N x.
Proof.
  intros H. assert (Hx : x ∈ map N.of_nat (seq 0 10)).
  { apply list_elem_of_In, in_map_iff. exists (N.to_nat x). rewrite N2Nat.id.
    split; [done|]. apply in_seq. lia. }
  repeat (apply elem_of_cons in Hx as [->|Hx]; [done|]). by apply not_elem_of_nil in Hx.
Qed.

Lemma pretty_go_digits x s :
  digits_only s = true →
  digits_only (pretty_N_go x s) = true ∧ digits_val 0 (pretty_N_go x s) = digits_val (Z.of_N x) s ∧
  (s ≠ "" → pretty_N_go x s ≠ "").
Proof.
  revert s. induction (N.lt_wf_0 x) as [x _ IH]; intros s Hs.
  assert (x = 0 ∨ 0 < x)%N as [->|Hx] by lia; [by rewrite pretty_N_go_0|].
  rewrite pretty_N_go_step by done.
  destruct (pretty_char_digit (x mod 10)%N) as [Hd Hv]; [by apply N.mod_lt|].
  destruct (IH (x / 10)%N ltac:(by apply N.div_lt) (String (pretty_N_char (x mod 10)) s)) as (H1 & H2 & H3).
  { cbn. by rewrite Hd. }
  split; [done|]. split; [|by intros _; apply H3]. rewrite H2. cbn. rewrite Hd, Hv. f_equal.
  rewrite N2Z.inj_div, N2Z.inj_mod. pose proof (Z.div_mod (Z.of_N x) 10 ltac:(lia)).
  change (Z.of_N 10) with 10. lia.
Qed.

(** [%d] of a number that is not negative. *)
Lemma fmt_d_digits n : 0 <= n →
  digits_only (fmt_d n) = true ∧ digits_val 0 (fmt_d n) = Some n ∧ fmt_d n ≠ "".
Proof.
  intros Hn. destruct n as [|p|p]; [done| |lia].
  change (fmt_d (Z.pos p)) with (pretty_N (N.pos p)). unfold pretty_N.
  rewrite decide_False by done.
  pose proof (pretty_go_digits (N.pos p) "" eq_refl) as (H1 & H2 & _).
  split; [done|]. split; [done|].
  rewrite pretty_N_go_step by done.
  destruct (pretty_char_digit (N.pos p mod 10)%N) as [Hd _]; [by apply N.mod_lt|].
  apply (pretty_go_digits _ (String (pretty_N_char (N.pos p mod 10)) "")); [|done].
  cbn. by rewrite Hd.
Qed.

Lemma digits_only_app a b : digits_only (a +:+ b) = digits_only a && digits_only b.
Proof. induction a as [|c a IH]; cbn; [done|]. by rewrite IH, andb_assoc. Qed.

(** A number of a unit reads back as its value. *)
Lemma ParseDuration_units n u unit :
  0 <= n → unitMap u = Some unit → 0 < unit → n * unit <= max_int64 →
  leadingUnit u = (u, "") → stops u → u ≠ "" → (∀ s, u ≠ String "." s) →
  ParseDuration (fmt_d n +:+ u) = Some (n * unit).
Proof.
  intros Hn Hu Hpos Hmax Hlu Hstops Hne Hdot.
  destruct (fmt_d_digits n Hn) as (Hd & Hv & Hnil).
  destruct (fmt_d n) as [|c ds] eqn:Ef; [done|].
  assert (Hc : is_digit c = true) by (cbn in Hd; by apply andb_true_iff in Hd as [? _]).
  assert (Hterm : duration_term (String c ds +:+ u) = Some (n * unit, "")).
  { unfold duration_term. rewrite (leadingInt_digits _ u 0 n); try done.
    2:{ unfold max_int64 in Hmax. nia. }
    cbn [String.append mbind option_bind]. rewrite Hc, orb_true_r. cbn [negb].
    assert (Hpre : (slen u =? slen (String c (ds +:+ u))) = false).
    { apply Z.eqb_neq. unfold slen. cbn [String.length]. rewrite length_sapp. lia. }
    rewrite Hpre. cbn [negb andb].
    assert (Hm : (match u with
      | String "." s1' =>
          let '(f, scale, s2) := leadingFraction 0 (f64_of_Z 1) false s1' in
          (f, scale, s2, negb (slen s2 =? slen s1'))
      | _ => (0, f64_of_Z 1, u, false)
      end) = (0, f64_of_Z 1, u, false)).
    { destruct u as [|[[] [] [] [] [] [] [] []] u]; try done. }
    rewrite Hm, Hlu, Hu. cbn [mbind option_bind].
    destruct (Z.ltb_spec (2 ^ 63 / unit) n) as [Hlt|_].
    { unfold max_int64 in Hmax.
      pose proof (Z.div_mod (2 ^ 63) unit ltac:(lia)).
      pose proof (Z.mod_pos_bound (2 ^ 63) unit ltac:(lia)). nia. }
    cbn [Z.ltb Z.compare]. destruct (Z.ltb_spec (2 ^ 63) (n * unit)); [unfold max_int64 in Hmax; lia|done]. }
  unfold ParseDuration.
  assert (Hsign : read_sign (String c ds +:+ u) = (false, String c ds +:+ u)).
  { cbn. destruct c as [[] [] [] [] [] [] [] []]; try done. }
  rewrite Hsign. clear Hsign.
  destruct (String.eqb_spec (String c ds +:+ u) "0") as [E|_].
  { exfalso. cbn in E. injection E as _ E. destruct ds; [by cbn in E|done]. }
  destruct (String.eqb_spec (String c ds +:+ u) "") as [E|_]; [done|].
  assert (Hl : String.length (String c ds +:+ u) = S (String.length (ds +:+ u))) by done.
  rewrite Hl. cbn [duration_terms].
  change (String c ds +:+ u) with (String c (ds +:+ u)) in Hterm |- *. cbv iota. rewrite Hterm.
  cbn [mbind option_bind]. unfold max_int64 in Hmax.
  destruct (Z.ltb_spec (2 ^ 63) (0 + n * unit)); [lia|].
  assert (Hend : ∀ f d, duration_terms f d "" = Some d) by (by intros [|f]).
  rewrite Hend. cbn [mbind option_bind]. rewrite Z.add_0_l.
  destruct (Z.ltb_spec (2 ^ 63 - 1) (n * unit)); [lia|done].
Qed.
End Digits.
