(* ===== verification/Http.v ===== *)
(** The part of [net/http] that the handlers use: requests, responses, handlers as
    functions on the state of the process, and the JSON bodies of the error
    replies. *)

From Stdlib Require Import Ascii.
From S2P Require Import Prelude GoInt GoString.

(** A request: [Headers] and [Query] give the first value of each name, as
    [Header.Get] and [URL.Query().Get] do.  The body is what the connection
    delivers, followed by a read error if there is one. *)
Record request := mkRequest {
  Method : string;
  RemoteAddr : string;
  Headers : gmap string string;
  Query : gmap string string;
  Body : list Byte.byte;
  BodyErr : option string;
}.

Definition Header_Get (r : request) (name : string) : string := default "" (Headers r !! name).
Definition Query_Get (r : request) (name : string) : string := default "" (Query r !! name).

Record response := mkResponse {
  Status : Z;
  RespHeaders : list (string * string);
  RespBody : string;
}.

Definition StatusOK : Z := 200.
Definition StatusNoContent : Z := 204.
Definition StatusBadRequest : Z := 400.
Definition StatusUnauthorized : Z := 401.
Definition StatusMethodNotAllowed : Z := 405.
Definition StatusTooManyRequests : Z := 429.
Definition StatusInternalServerError : Z := 500.
Definition StatusServiceUnavailable : Z := 503.

(** A handler: the state of the process after it and the reply; a panic ends the
    connection, what was done before it stays. *)
Definition handler (S : Type) : Type := request → S → S * outcome response.

(** [io.ReadAll(io.LimitReader(r.Body, n))]: the error is met only when the limit is
    not. *)
Definition ReadAll_limit (n : Z) (r : request) : outcome (list Byte.byte) :=
  if n <=? zlen (Body r) then Ret (take (Z.to_nat n) (Body r))
  else match BodyErr r with Some e => Err e | None => Ret (Body r) end.

Lemma ReadAll_limit_cases n r :
  (∃ b, ReadAll_limit n r = Ret b) ∨ ∃ e, ReadAll_limit n r = Err e.
Proof. unfold ReadAll_limit. destruct (n <=? _); [|destruct (BodyErr r)]; eauto. Qed.

(** [net.SplitHostPort]: the host; [None] is its error. *)
Definition last_index (s : string) (c : ascii) : Z :=
  let fix go (i : Z) (s : string) : Z :=
    match s with
    | EmptyString => -1
    | String a s' =>
        let r := go (i + 1) s' in
        if 0 <=? r then r else if ascii_eqb a c then i else -1
    end in
  go 0 s.

Definition SplitHostPort (hp : string) : option string :=
  let from n := sdrop (Z.to_nat n) hp in
  let i := last_index hp ":" in
  if i <? 0 then None
  else
    let check host j k :=
      if 0 <=? IndexByte (from j) "[" then None
      else if 0 <=? IndexByte (from k) "]" then None
      else Some host in
    if HasPrefix hp "[" then
      let end_ := IndexByte hp "]" in
      if end_ <? 0 then None
      else if end_ + 1 =? slen hp then None
      else if end_ + 1 =? i then
        check (stake (Z.to_nat (end_ - 1)) (from 1)) 1 (end_ + 1)
      else None
    else
      let host := stake (Z.to_nat i) hp in
      if 0 <=? IndexByte host ":" then None else check host 0 0.

Example SplitHostPort_ex :
  SplitHostPort "10.1.2.3:443" = Some "10.1.2.3" ∧ SplitHostPort "[::1]:80" = Some "::1" ∧
  SplitHostPort "::1" = None ∧ SplitHostPort "host" = None ∧ SplitHostPort "[::1]" = None ∧
  SplitHostPort "a]:1" = None.
Proof. done. Qed.

(** [http.Error]. *)
Definition newline : string := String "010" "".
Definition http_Error (msg : string) (code : Z) : response :=
  mkResponse code [("Content-Type", "text/plain; charset=utf-8"); ("X-Content-Type-Options", "nosniff")]
    (msg +:+ newline).

(** [json.NewEncoder(w).Encode] of a map of strings (with keys in order), for printable
    text: quotes and backslashes are escaped, and so are [<], [>] and [&]. *)
Definition dquote : ascii := "034".
Definition backslash : ascii := "\".

Fixpoint json_escape (s : string) : string :=
  match s with
  | EmptyString => ""
  | String c s' =>
      (if ascii_eqb c dquote || ascii_eqb c backslash
       then String backslash (String c "")
       else if ascii_eqb c "<" then "\u003c"
       else if ascii_eqb c ">" then "\u003e"
       else if ascii_eqb c "&" then "\u0026"
       else String c "") +:+ json_escape s'
  end.

Definition json_string (s : string) : string :=
  String dquote (json_escape s +:+ String dquote "").

Definition json_object (kvs : list (string * string)) : string :=
  "{" +:+ Join (map (λ kv, json_string kv.1 +:+ ":" +:+ json_string kv.2) kvs) "," +:+ "}".

(** A JSON reply. *)
Definition json_response (headers : list (string * string)) (code : Z)
    (kvs : list (string * string)) : response :=
  mkResponse code (("Content-Type", "application/json") :: headers) (json_object kvs +:+ newline).
