(* ===== verification/Metrics.v ===== *)
(** The self-observability counters, internal/metrics/metrics.go: the one global
    [Metrics] value that the components thread through their steps, and the text
    of the /metrics endpoint. *)

From Stdlib Require Import Ascii.
From S2P Require Import Prelude GoInt GoFloat GoTime GoString Http.

Module Metrics.

(** [syncDuration]; its mutex makes a call one step. *)
Record syncDuration := mkDuration { last : Z; total : Z; count : Z }.

Definition Record_ (dur : Z) (d : syncDuration) : syncDuration :=
  mkDuration dur (add64 (total d) dur) (add64 (count d) 1).

(** Last, average and number of the recorded durations. *)
Definition Snapshot (d : syncDuration) : Z * Z * Z :=
  if count d =? 0 then (0, 0, 0)
  else (last d, i64 (Z.quot (total d) (count d)), count d).

(** [Metrics]: the counters are atomic int64s. *)
Record Metrics := mkMetrics {
  CollectionTotal : Z;
  CollectionErrors : Z;
  SamplesInserted : Z;
  RetentionDeleted : Z;
  CollectionDuration : syncDuration;
  MCPToolCalls : Z;
  MCPToolErrors : Z;
  AuthFailures : Z;
  RateLimitRejects : Z;
  RemoteWriteSamples : Z;
  RemoteWriteErrors : Z;
}.

(** [Global] at the start of the process. *)
Definition Global0 : Metrics := mkMetrics 0 0 0 0 (mkDuration 0 0 0) 0 0 0 0 0 0.

(** The [Add] of each counter. *)
Definition add_CollectionTotal (n : Z) (m : Metrics) : Metrics :=
  let '(mkMetrics a b c d e f g h i j k) := m in mkMetrics (add64 a n) b c d e f g h i j k.
Definition add_CollectionErrors (n : Z) (m : Metrics) : Metrics :=
  let '(mkMetrics a b c d e f g h i j k) := m in mkMetrics a (add64 b n) c d e f g h i j k.
Definition add_SamplesInserted (n : Z) (m : Metrics) : Metrics :=
  let '(mkMetrics a b c d e f g h i j k) := m in mkMetrics a b (add64 c n) d e f g h i j k.
Definition add_RetentionDeleted (n : Z) (m : Metrics) : Metrics :=
  let '(mkMetrics a b c d e f g h i j k) := m in mkMetrics a b c (add64 d n) e f g h i j k.
Definition record_CollectionDuration (dur : Z) (m : Metrics) : Metrics :=
  let '(mkMetrics a b c d e f g h i j k) := m in mkMetrics a b c d (Record_ dur e) f g h i j k.
Definition add_AuthFailures (n : Z) (m : Metrics) : Metrics :=
  let '(mkMetrics a b c d e f g h i j k) := m in mkMetrics a b c d e f g (add64 h n) i j k.
Definition add_RateLimitRejects (n : Z) (m : Metrics) : Metrics :=
  let '(mkMetrics a b c d e f g h i j k) := m in mkMetrics a b c d e f g h (add64 i n) j k.
Definition add_RemoteWriteSamples (n : Z) (m : Metrics) : Metrics :=
  let '(mkMetrics a b c d e f g h i j k) := m in mkMetrics a b c d e f g h i (add64 j n) k.
Definition add_RemoteWriteErrors (n : Z) (m : Metrics) : Metrics :=
  let '(mkMetrics a b c d e f g h i j k) := m in mkMetrics a b c d e f g h i j (add64 k n).

(** ** The body of [Handler] *)
Definition nl : string := String "010" "".
Definition quote : string := String "034" "".

Definition family (name help type : string) (samples : list (string * string)) : string :=
  "# HELP " +:+ name +:+ " " +:+ help +:+ nl +:+
  "# TYPE " +:+ name +:+ " " +:+ type +:+ nl +:+
  String.concat "" (map (λ p, name +:+ p.1 +:+ " " +:+ p.2 +:+ nl) samples) +:+ nl.

Definition counter (name help : string) (v : Z) : string :=
  family name help "counter" [("", fmt_d v)].

Definition stat (s : string) : string := "{stat=" +:+ quote +:+ s +:+ quote +:+ "}".

Definition exposition (m : Metrics) : string :=
  let '(last, avg, cnt) := Snapshot (CollectionDuration m) in
  counter "netdata_mcp_collections_total" "Total number of collection cycles."
    (CollectionTotal m) +:+
  counter "netdata_mcp_collection_errors_total" "Total number of failed collection cycles."
    (CollectionErrors m) +:+
  counter "netdata_mcp_samples_inserted_total"
    "Total number of metric samples inserted into PostgreSQL." (SamplesInserted m) +:+
  counter "netdata_mcp_retention_deleted_total"
    "Total number of expired samples deleted by retention cleanup." (RetentionDeleted m) +:+
  family "netdata_mcp_collection_duration_seconds"
    "Duration of the last collection cycle in seconds." "gauge"
    [(stat "last", fmt_f 6 (dur_Seconds last)); (stat "avg", fmt_f 6 (dur_Seconds avg));
     (stat "count", fmt_d cnt)] +:+
  counter "netdata_mcp_tool_calls_total" "Total MCP tool invocations." (MCPToolCalls m) +:+
  counter "netdata_mcp_tool_errors_total" "Total MCP tool errors." (MCPToolErrors m) +:+
  counter "netdata_mcp_auth_failures_total" "Total authentication failures."
    (AuthFailures m) +:+
  counter "netdata_mcp_ratelimit_rejects_total" "Total requests rejected by rate limiter."
    (RateLimitRejects m) +:+
  counter "netdata_mcp_remotewrite_samples_total" "Total samples ingested via remote-write."
    (RemoteWriteSamples m) +:+
  counter "netdata_mcp_remotewrite_errors_total" "Total remote-write ingest errors."
    (RemoteWriteErrors m).

Definition Handler (m : Metrics) : response :=
  mkResponse StatusOK [("Content-Type", "text/plain; version=0.0.4; charset=utf-8")]
    (exposition m).

End Metrics.

(** ** The average lies between the durations recorded *)
Section Durations.
Import Metrics.

Definition record_all (ds : list Z) : syncDuration :=
  fold_left (λ d x, Record_ x d) ds (mkDuration 0 0 0).

Definition sum_Z (ds : list Z) : Z := fold_right Z.add 0 ds.

Lemma sum_bounds lo hi ds :
  Forall (λ d, lo <= d <= hi) ds → zlen ds * lo <= sum_Z ds <= zlen ds * hi.
Proof.
  induction 1 as [|d ds Hd _ IH]; [done|]. rewrite zlen_cons. cbn [sum_Z fold_right].
  unfold sum_Z in IH. lia.
Qed.

Lemma sum_app ds1 ds2 : sum_Z (ds1 ++ ds2) = sum_Z ds1 + sum_Z ds2.
Proof. induction ds1 as [|d ds IH]; cbn; [done|]. unfold sum_Z in *. lia. Qed.

Lemma record_all_exact ds :
  Forall (λ d, 0 <= d) ds → is_i64 (sum_Z ds) → is_i64 (zlen ds) →
  total (record_all ds) = sum_Z ds ∧ count (record_all ds) = zlen ds ∧
  last (record_all ds) = List.last ds 0.
Proof.
  induction ds as [|d ds IH] using rev_ind; [done|].
  rewrite Forall_app, sum_app, zlen_app. intros [Hds Hd] Hs Hl.
  pose proof (proj1 (Forall_singleton _ _) Hd) as Hd0. cbn in Hd0.
  assert (Hb : 0 <= sum_Z ds).
  { clear -Hds. induction Hds as [|x l Hx _ IHl]; [done|]. cbn. unfold sum_Z in IHl. lia. }
  pose proof (zlen_nonneg ds).
  replace (sum_Z [d]) with d in * by (cbn; lia). rewrite zlen_cons, zlen_nil in Hl.
  destruct IH as (Ht & Hc & _); [done|unfold is_i64, min_int64, max_int64 in *; lia..|].
  unfold record_all in *. rewrite fold_left_app. cbn [fold_left].
  set (s := fold_left _ ds _) in *. unfold Record_. cbn [total count last].
  rewrite Ht, Hc. unfold add64. rewrite zlen_cons, zlen_nil.
  rewrite !i64_id by (unfold is_i64, min_int64, max_int64 in *; lia).
  split_and!; [done|lia|]. by rewrite List.last_last.
Qed.

(** The duration gauge reports what was recorded: after recording any durations
    between [lo] and [hi] (nanoseconds, with a total that fits in 64 bits) the
    snapshot gives the last of them, their number, and an average between [lo] and [hi]. *)
Theorem Snapshot_average ds lo hi :
  ds ≠ [] → 0 <= lo → Forall (λ d, lo <= d <= hi) ds →
  is_i64 (sum_Z ds) → is_i64 (zlen ds) →
  ∃ avg, Snapshot (record_all ds) = (List.last ds 0, avg, zlen ds) ∧ lo <= avg <= hi.
Proof.
  intros Hne Hlo Hds Hs Hl.
  pose proof (sum_bounds lo hi ds Hds) as Hb.
  destruct (record_all_exact ds) as (Ht & Hc & Hlast); [|done..|].
  { eapply Forall_impl; [exact Hds|]. cbn. lia. }
  assert (Hpos : 0 < zlen ds).
  { destruct ds; [done|]. rewrite zlen_cons. pose proof (zlen_nonneg ds). lia. }
  unfold Snapshot. rewrite Ht, Hc, Hlast. replace (zlen ds =? 0) with false by lia.
  eexists. split; [done|].
  assert (0 <= sum_Z ds) by nia.
  rewrite Z.quot_div_nonneg by lia.
  assert (Hq : lo <= sum_Z ds / zlen ds <= hi).
  { split; [apply Z.div_le_lower_bound; lia|].
    apply Z.lt_succ_r, Z.div_lt_upper_bound; [done|]. nia. }
  rewrite i64_id; [done|]. unfold is_i64, min_int64, max_int64 in *.
  assert (sum_Z ds / zlen ds <= sum_Z ds) by (apply Z.div_le_upper_bound; nia). lia.
Qed.

Lemma Snapshot_average_witness :
  ∃ avg, Snapshot (record_all [2 * Second; 5 * Second]) = (5 * Second, avg, 2) ∧
    2 * Second <= avg <= 5 * Second.
Proof.
  apply (Snapshot_average [2 * Second; 5 * Second] (2 * Second) (5 * Second));
    [discriminate| |repeat constructor|..]; apply (bool_decide_unpack _); vm_compute; exact I.
Defined.
End Durations.
