(* ===== verification/RateLimit.v ===== *)
(** The per-IP token bucket, internal/middleware/ratelimit.go.  The methods hold
    the mutex, so a run of the limiter is a sequence of requests and cleanups, each
    at a reading of the monotonic clock. *)

From Stdlib Require Import Ascii SpecFloat.
From S2P Require Import Prelude GoInt GoFloat GoTime GoString Http Metrics.

Module RateLimit.

Record bucket := mkBucket { tokens : float64; lastSeen : Z }.

Record RateLimiter := mkLimiter {
  visitors : gmap string bucket;
  rate : float64;
  burst : Z;
  cleanup : Z;
}.

Definition NewRateLimiter (rate : float64) (burst : Z) : RateLimiter :=
  mkLimiter ∅ rate burst (3 * Minute).

Definition set_visitor (ip : string) (b : bucket) (rl : RateLimiter) : RateLimiter :=
  mkLimiter (<[ip := b]> (visitors rl)) (rate rl) (burst rl) (cleanup rl).

Definition one : float64 := f64_of_Z 1.

(** The refilled tokens of a bucket. *)
Definition refill (rate : float64) (burst now : Z) (b : bucket) : float64 :=
  let elapsed := dur_Seconds (time_Sub now (lastSeen b)) in
  let t := fadd (tokens b) (fmul elapsed rate) in
  if fgtb t (f64_of_Z burst) then f64_of_Z burst else t.

Definition Allow (now : Z) (ip : string) (rl : RateLimiter) : RateLimiter * bool :=
  match visitors rl !! ip with
  | None => (set_visitor ip (mkBucket (fsub (f64_of_Z (burst rl)) one) now) rl, true)
  | Some b =>
      let t := refill (rate rl) (burst rl) now b in
      if fgeb t one then (set_visitor ip (mkBucket (fsub t one) now) rl, true)
      else (set_visitor ip (mkBucket t now) rl, false)
  end.

(** One tick of [cleanupLoop]. *)
Definition cleanup_tick (now : Z) (rl : RateLimiter) : RateLimiter :=
  let cutoff := time_Add now (i64 (- cleanup rl)) in
  mkLimiter (filter (λ p : string * bucket, (lastSeen p.2 <? cutoff) = false) (visitors rl))
    (rate rl) (burst rl) (cleanup rl).

(** [extractIP], for a setting of [TrustProxy]: the loop over the bytes of
    X-Forwarded-For stops at the first comma. *)
Definition extractIP (TrustProxy : bool) (r : request) : string :=
  let fallback := match SplitHostPort (RemoteAddr r) with Some ip => ip | None => RemoteAddr r end in
  if TrustProxy then
    let xff := Header_Get r "X-Forwarded-For" in
    if negb (String.eqb xff "") then
      let i := IndexByte xff "," in
      if 0 <=? i then TrimSpace (stake (Z.to_nat i) xff) else TrimSpace xff
    else
      let xri := Header_Get r "X-Real-IP" in
      if negb (String.eqb xri "") then xri else fallback
  else fallback.

Definition reject : response :=
  json_response [("Retry-After", "1")] StatusTooManyRequests
    [("error", "rate limit exceeded — try again later")].

(** The middleware around [next], on its own state, the counters and the state of
    [next]. *)
Definition Handler {S} (TrustProxy : bool) (now : Z) (next : handler (Metrics.Metrics * S))
    : handler (RateLimiter * (Metrics.Metrics * S)) := λ r st,
  let '(rl, (m, s)) := st in
  match Allow now (extractIP TrustProxy r) rl with
  | (rl', false) => ((rl', (Metrics.add_RateLimitRejects 1 m, s)), Ret reject)
  | (rl', true) => let '(ms', resp) := next r (m, s) in ((rl', ms'), resp)
  end.

(** ** Runs *)
Inductive event := Request (ip : string) (now : Z) | CleanupTick (now : Z).

Definition event_time (e : event) : Z :=
  match e with Request _ now => now | CleanupTick now => now end.

(** The limiter after the events, and the answers, newest last. *)
Fixpoint run (es : list event) (rl : RateLimiter) : RateLimiter * list (string * bool) :=
  match es with
  | [] => (rl, [])
  | Request ip now :: es =>
      let '(rl1, ok) := Allow now ip rl in
      let '(rl2, out) := run es rl1 in (rl2, (ip, ok) :: out)
  | CleanupTick now :: es => run es (cleanup_tick now rl)
  end.

End RateLimit.

(** * Invariant: between 0 and [burst] tokens *)
Section Invariant.
Import RateLimit.

(** The configuration: a finite, nonnegative rate and a burst of at least one. *)
Definition config_ok (rl : RateLimiter) : Prop :=
  fin64 (rate rl) ∧ 0 <= fval (rate rl) ∧ 1 <= burst rl < 2 ^ 53.

Definition bucket_ok (burst t : Z) (b : bucket) : Prop :=
  num64 (tokens b) ∧ 0 <= fval (tokens b) <= fval (f64_of_Z burst) ∧ lastSeen b <= t.

Definition inv (t : Z) (rl : RateLimiter) : Prop :=
  config_ok rl ∧ map_Forall (λ _ b, bucket_ok (burst rl) t b) (visitors rl).

Lemma num64_one : num64 one ∧ fval one = 2 ^ 1074.
Proof. split; [done|]. reflexivity. Qed.

Lemma burst_val n : 1 <= n < 2 ^ 53 → fin64 (f64_of_Z n) ∧ fval (f64_of_Z n) = n * 2 ^ 1074.
Proof. intros H. apply f64_of_Z_exact. lia. Qed.

Lemma one_le_burst n : 1 <= n < 2 ^ 53 → fval one <= fval (f64_of_Z n).
Proof.
  intros Hn. rewrite (proj2 num64_one), (proj2 (burst_val n Hn)).
  rewrite <- (Z.mul_1_l (2 ^ 1074)) at 1. apply Z.mul_le_mono_nonneg_r; lia.
Qed.

Lemma fin_below x n : num64 x → 1 <= n < 2 ^ 53 → 0 <= fval x <= fval (f64_of_Z n) → fin64 x.
Proof.
  intros Hx Hn Hb. apply lt_inf_fin; [done|].
  pose proof (fin_lt_inf _ (proj1 (burst_val n Hn))). pose proof finf_pos. lia.
Qed.

Lemma elapsed_rate_nonneg rl now b :
  config_ok rl → lastSeen b <= now →
  num64 (fmul (dur_Seconds (time_Sub now (lastSeen b))) (rate rl)) ∧
  0 <= fval (fmul (dur_Seconds (time_Sub now (lastSeen b))) (rate rl)).
Proof.
  intros (Hr & Hr0 & _) Hl.
  destruct (dur_Seconds_nonneg _ (time_Sub_nonneg _ _ Hl) (time_Sub_range now (lastSeen b)))
    as [Hf Hv].
  by apply fmul_nonneg.
Qed.

(** Refilling keeps a bucket in its bounds and loses nothing. *)
Lemma refill_bounds rl now b :
  config_ok rl → bucket_ok (burst rl) now b →
  let t := refill (rate rl) (burst rl) now b in
  num64 t ∧ fval (tokens b) <= fval t <= fval (f64_of_Z (burst rl)).
Proof.
  intros Hc (Hn & Ht & Hl). destruct (elapsed_rate_nonneg rl now b Hc Hl) as [He H0].
  destruct Hc as (_ & _ & Hb). destruct (burst_val _ Hb) as [[Hbn _] _].
  unfold refill. destruct (fadd_nonneg (tokens b) _ Hn He ltac:(lia) H0) as [Ha Hge].
  unfold fgtb. fold (fltb (f64_of_Z (burst rl)) (fadd (tokens b) (fmul
    (dur_Seconds (time_Sub now (lastSeen b))) (rate rl)))).
  rewrite fltb_fval by done. destruct (Z.ltb_spec (fval (f64_of_Z (burst rl)))
    (fval (fadd (tokens b) (fmul (dur_Seconds (time_Sub now (lastSeen b))) (rate rl)))));
    cbv zeta; split_and!; try done; lia.
Qed.

(** Taking a token. *)
Lemma take_token t n :
  num64 t → 1 <= n < 2 ^ 53 → fval one <= fval t <= fval (f64_of_Z n) →
  num64 (fsub t one) ∧ 0 <= fval (fsub t one) <= fval (f64_of_Z n).
Proof.
  intros Ht Hn Hb. destruct num64_one as [H1 H1v].
  assert (Hf1 : fin64 one) by done.
  assert (Hft : fin64 t) by (apply (fin_below t n); [done..|]; rewrite H1v in Hb; lia).
  destruct (fsub_le t one Hft Hf1) as [Hn' Hle]; [rewrite H1v; lia|].
  pose proof (fsub_ge0 t one Hft Hf1). split; [done|]. lia.
Qed.

Lemma inv_later t t' rl : t <= t' → inv t rl → inv t' rl.
Proof.
  intros Ht [Hc Hv]. split; [done|]. eapply map_Forall_impl; [exact Hv|].
  intros ip b (? & ? & ?). split_and!; try done; lia.
Qed.

Lemma Allow_inv now ip rl : inv now rl → inv now (Allow now ip rl).1.
Proof.
  intros [Hc Hv]. destruct (Hc) as (_ & _ & Hb).
  destruct num64_one as [H1 H1v]. destruct (burst_val _ Hb) as [[Hbn _] Hbv].
  unfold Allow. destruct (visitors rl !! ip) as [b|] eqn:E.
  - pose proof (map_Forall_lookup_1 _ _ _ _ Hv E) as Hok.
    destruct (refill_bounds rl now b Hc Hok) as [Htn Htb]. set (t := refill _ _ _ _) in *.
    destruct Hok as (_ & Hok & _).
    unfold fgeb. fold (fleb one t). rewrite fleb_fval by done.
    destruct (Z.leb_spec (fval one) (fval t)); (split; [done|]);
      apply map_Forall_insert_2; try done; unfold bucket_ok; cbn [tokens lastSeen burst set_visitor fst].
    + destruct (take_token t (burst rl)); [done..|lia|]. split_and!; try done; lia.
    + split_and!; try done; lia.
  - split; [done|]. apply map_Forall_insert_2; [|done]. unfold bucket_ok; cbn [tokens lastSeen burst set_visitor fst].
    destruct (take_token (f64_of_Z (burst rl)) (burst rl)); [done..| |].
    { split; [by apply one_le_burst|lia]. }
    split_and!; try done; lia.
Qed.

Lemma cleanup_inv now rl : inv now rl → inv now (cleanup_tick now rl).
Proof.
  intros [Hc Hv]. split; [done|]. intros ip b [Hb _]%map_lookup_filter_Some. exact (Hv ip b Hb).
Qed.

(** The clock readings of a run do not decrease. *)
Fixpoint clock_ok (t : Z) (es : list event) : Prop :=
  match es with
  | [] => True
  | e :: es => t <= event_time e ∧ clock_ok (event_time e) es
  end.

Fixpoint end_time (t : Z) (es : list event) : Z :=
  match es with [] => t | e :: es => end_time (event_time e) es end.

Lemma run_inv t es rl : clock_ok t es → inv t rl → inv (end_time t es) (run es rl).1.
Proof.
  revert t rl. induction es as [|e es IH]; intros t rl Hc Hi; [done|].
  destruct Hc as [Ht Hc]. apply (inv_later _ _ _ Ht) in Hi.
  destruct e as [ip now|now]; cbn in *.
  - apply (Allow_inv now ip) in Hi. destruct (Allow now ip rl) as [rl1 ok].
    specialize (IH now rl1 Hc Hi). by destruct (run es rl1).
  - apply IH; [done|]. by apply cleanup_inv.
Qed.
End Invariant.

(** * Requests of different visitors do not interfere *)
Section Isolation.
Import RateLimit.

(** The events that concern a visitor. *)
Definition concerns (ip : string) (e : event) : bool :=
  match e with Request ip' _ => bool_decide (ip' = ip) | CleanupTick _ => true end.

Definition answers_for (ip : string) (out : list (string * bool)) : list (string * bool) :=
  List.filter (λ a, bool_decide (a.1 = ip)) out.

Definition same_for (ip : string) (rl1 rl2 : RateLimiter) : Prop :=
  visitors rl1 !! ip = visitors rl2 !! ip ∧ rate rl1 = rate rl2 ∧ burst rl1 = burst rl2 ∧
  cleanup rl1 = cleanup rl2.

Lemma Allow_config now ip rl :
  rate (Allow now ip rl).1 = rate rl ∧ burst (Allow now ip rl).1 = burst rl ∧
  cleanup (Allow now ip rl).1 = cleanup rl.
Proof. unfold Allow. destruct (_ !! _); [destruct (fgeb _ _)|]; done. Qed.

Lemma Allow_same now ip rl1 rl2 :
  same_for ip rl1 rl2 →
  (Allow now ip rl1).2 = (Allow now ip rl2).2 ∧
  same_for ip (Allow now ip rl1).1 (Allow now ip rl2).1.
Proof.
  destruct rl1 as [v1 r b c], rl2 as [v2 r2 b2 c2]. unfold same_for. cbn.
  intros (Hv & -> & -> & ->). unfold Allow. cbn. rewrite Hv.
  destruct (v2 !! ip); [destruct (fgeb _ _)|]; cbn; rewrite !lookup_insert_eq; done.
Qed.

Lemma Allow_other now ip ip' rl1 rl2 :
  ip' ≠ ip → same_for ip rl1 rl2 → same_for ip (Allow now ip' rl1).1 rl2.
Proof.
  intros Hne (Hv & Hr & Hb & Hc). destruct (Allow_config now ip' rl1) as (Hr' & Hb' & Hc').
  unfold same_for. rewrite Hr', Hb', Hc'. split_and!; try done. rewrite <- Hv.
  unfold Allow. destruct (visitors rl1 !! ip'); [destruct (fgeb _ _)|]; cbn;
    by rewrite lookup_insert_ne.
Qed.

Lemma cleanup_same now ip rl1 rl2 :
  same_for ip rl1 rl2 → same_for ip (cleanup_tick now rl1) (cleanup_tick now rl2).
Proof.
  intros (Hv & Hr & Hb & Hc). unfold same_for, cleanup_tick. cbn. rewrite Hc.
  split_and!; try done. rewrite !map_lookup_filter, Hv. done.
Qed.

Lemma run_same ip es rl1 rl2 :
  same_for ip rl1 rl2 →
  answers_for ip (run es rl1).2 = (run (List.filter (concerns ip) es) rl2).2.
Proof.
  revert rl1 rl2. induction es as [|[ip' now|now] es IH]; intros rl1 rl2 Hs; [done| |].
  - cbn [List.filter concerns]. cbn [run]. case_bool_decide as Hip.
    + subst ip'. cbn [run]. destruct (Allow_same now ip rl1 rl2 Hs) as [Ho Hs'].
      destruct (Allow now ip rl1) as [r1 o1], (Allow now ip rl2) as [r2 o2]. cbn in Ho, Hs'.
      specialize (IH r1 r2 Hs'). subst o2.
      destruct (run es r1) as [s1 out1], (run (List.filter _ es) r2) as [s2 out2]. cbn in *.
      unfold answers_for. cbn. rewrite bool_decide_true by done. by f_equal.
    + pose proof (Allow_other now ip ip' rl1 rl2 Hip Hs) as Hs'.
      destruct (Allow now ip' rl1) as [r1 o1]. specialize (IH r1 rl2 Hs').
      destruct (run es r1) as [s1 out1]. cbn in *. unfold answers_for. cbn.
      by rewrite bool_decide_false.
  - cbn. apply IH. by apply cleanup_same.
Qed.

Lemma same_for_refl ip rl : same_for ip rl rl.
Proof. done. Qed.
End Isolation.

(** * The burst *)
Section Burst.
Import RateLimit.

Lemma rounds_value V r x : num64 x → fval x = V → rounds V r → fval r = V.
Proof. intros Hx <- Hr. by apply rounds_unique_value. Qed.

Lemma fmul_zero_l x : fin64 x → fval (fmul (dur_Seconds 0) x) = 0 ∧ fin64 (fmul (dur_Seconds 0) x).
Proof.
  change (dur_Seconds 0) with (S754_zero false).
  intros [[_ Hn] Hi]. destruct x as [s|s| |s m e]; done.
Qed.

(** A request at the very instant of the last one: nothing is refilled. *)
Lemma Allow_same_instant rl ip now k t :
  config_ok rl → 0 <= k <= burst rl → visitors rl !! ip = Some (mkBucket t now) → num64 t →
  fval t = k * 2 ^ 1074 →
  (Allow now ip rl).2 = (1 <=? k) ∧
  ∃ t', visitors (Allow now ip rl).1 !! ip = Some (mkBucket t' now) ∧ num64 t' ∧
    fval t' = (if 1 <=? k then k - 1 else k) * 2 ^ 1074.
Proof.
  intros (Hr & _ & Hb) Hk Hv Ht Hval.
  destruct num64_one as [H1 H1v]. destruct (burst_val _ Hb) as [[Hbn Hbi] Hbv].
  assert (Hpos : 0 < 2 ^ 1074) by lia.
  remember (2 ^ 1074) as K eqn:HK.
  assert (Hfin : fin64 t).
  { apply (fin_below t (burst rl)); [done..|]. rewrite Hval, Hbv.
    split; [|apply Z.mul_le_mono_nonneg_r]; nia. }
  destruct (fmul_zero_l (rate rl) Hr) as [Hz Hzf].
  set (u := refill (rate rl) (burst rl) now (mkBucket t now)).
  assert (Hu : num64 u ∧ fval u = k * K).
  { unfold u, refill. cbn [tokens lastSeen].
    rewrite time_Sub_exact, Z.sub_diag by (rewrite Z.sub_diag; apply (bool_decide_unpack _); exact I).
    pose proof (fadd_rounds t _ Hfin Hzf) as Hrd. rewrite Hz, Z.add_0_r in Hrd.
    pose proof (rounds_unique_value _ _ Ht Hrd) as Hv'. destruct Hrd as [Hrn _].
    unfold fgtb. fold (fltb (f64_of_Z (burst rl)) (fadd t (fmul (dur_Seconds 0) (rate rl)))).
    rewrite fltb_fval by done. rewrite Hv', Hval, Hbv.
    replace (_ <? _) with false by (symmetry; apply Z.ltb_ge, Z.mul_le_mono_nonneg_r; lia).
    rewrite Hv'. done. }
  destruct Hu as [Hun Huv]. unfold Allow. rewrite Hv. fold u.
  unfold fgeb. fold (fleb one u). rewrite fleb_fval, Huv, H1v by done.
  replace (K <=? k * K) with (1 <=? k).
  2:{ destruct (Z.leb_spec 1 k); symmetry; [apply Z.leb_le|apply Z.leb_gt]; nia. }
  destruct (Z.leb_spec 1 k); cbn [fst snd set_visitor visitors]; rewrite lookup_insert_eq;
    (split; [done|]); eexists; (split; [done|]); [|done].
  assert (Huf : fin64 u).
  { apply (fin_below u (burst rl)); [done..|]. rewrite Huv, Hbv.
    split; [nia|apply Z.mul_le_mono_nonneg_r; lia]. }
  pose proof (fsub_rounds u one Huf ltac:(done)) as Hrd. split; [apply Hrd|].
  destruct (f64_of_Z_exact (k - 1)) as [[Hx _] Hxv]; [lia|].
  rewrite Huv, H1v in Hrd. rewrite <- HK in Hxv.
  apply (rounds_value ((k - 1) * K) _ (f64_of_Z (k - 1))); [done|exact Hxv|].
  by replace ((k - 1) * K) with (k * K - K) by lia.
Qed.
End Burst.

Section BurstTheorem.
Import RateLimit.

Fixpoint same_instant (now : Z) (es : list event) : Prop :=
  match es with
  | [] => True
  | Request _ t :: es => t = now ∧ same_instant now es
  | CleanupTick _ :: _ => False
  end.

(** The first [k] of [n] are allowed. *)
Definition first_allowed (ip : string) (k n : nat) : list (string * bool) :=
  map (λ i, (ip, Nat.ltb i k)) (seq 0 n).

Lemma first_allowed_S ip k n :
  first_allowed ip k (S n) = (ip, Nat.ltb 0 k) :: first_allowed ip (pred k) n.
Proof.
  unfold first_allowed. cbn [seq map]. f_equal. rewrite <- seq_shift, map_map.
  apply map_ext. intros i. destruct k; [done|]. done.
Qed.

Lemma config_Allow now ip rl : config_ok rl → config_ok (Allow now ip rl).1.
Proof.
  unfold config_ok. destruct (Allow_config now ip rl) as (-> & -> & _). done.
Qed.

(** A visitor with [k] whole tokens. *)
Lemma run_same_instant ip now n rl k t :
  config_ok rl → Z.of_nat k <= burst rl → visitors rl !! ip = Some (mkBucket t now) →
  num64 t → fval t = Z.of_nat k * 2 ^ 1074 →
  (run (replicate n (Request ip now)) rl).2 = first_allowed ip k n.
Proof.
  revert rl k t. induction n as [|n IH]; intros rl k t Hc Hk Hv Ht Hval; [done|].
  rewrite first_allowed_S. cbn [replicate run].
  destruct (Allow_same_instant rl ip now (Z.of_nat k) t Hc ltac:(lia) Hv Ht Hval)
    as (Ho & t' & Hv' & Ht' & Hval').
  pose proof (config_Allow now ip rl Hc) as Hc'.
  destruct (Allow_config now ip rl) as (_ & Hb & _).
  destruct (Allow now ip rl) as [rl1 ok]. cbn [fst snd] in *. subst ok.
  specialize (IH rl1 (pred k) t' Hc' ltac:(lia) Hv' Ht').
  destruct (run (replicate n (Request ip now)) rl1) as [rl2 out]. cbn [snd] in *.
  rewrite IH.
  - do 2 f_equal. destruct k as [|k]; [done|]. by rewrite (proj2 (Z.leb_le 1 _)) by lia.
  - rewrite Hval'. f_equal. destruct k as [|k]; [done|].
    rewrite (proj2 (Z.leb_le 1 _)) by lia. lia.
Qed.

Lemma filter_same_instant ip now es :
  same_instant now es →
  ∃ n, List.filter (concerns ip) es = replicate n (Request ip now) ∧
    n = length (List.filter (concerns ip) es).
Proof.
  induction es as [|[ip' t|t] es IH]; cbn; [by exists 0%nat| |done].
  intros [-> (n & Hn & _)%IH]. case_bool_decide as Hip.
  - subst. exists (S n). cbn. rewrite Hn, length_replicate. done.
  - exists n. rewrite Hn, length_replicate. done.
Qed.

(** C5.  Of the requests that arrive at one instant at a new limiter, in any interleaving of
      any visitors, each visitor gets exactly its first [burst] through and is
      refused afterwards. *)
Theorem burst_per_visitor r b ip now es :
  fin64 r → 0 <= fval r → 1 <= b < 2 ^ 53 → same_instant now es →
  answers_for ip (run es (NewRateLimiter r b)).2 =
    first_allowed ip (Z.to_nat b) (length (List.filter (concerns ip) es)).
Proof.
  intros Hr Hr0 Hb Hes. set (rl := NewRateLimiter r b).
  assert (Hc : config_ok rl) by done.
  rewrite (run_same ip es rl rl (same_for_refl ip rl)).
  destruct (filter_same_instant ip now es Hes) as (n & Hn & <-). rewrite Hn.
  destruct n as [|n]; [done|]. rewrite first_allowed_S. cbn [replicate run].
  destruct (burst_val b Hb) as [Hbf Hbv]. destruct num64_one as [H1 H1v].
  change (Allow now ip rl) with (set_visitor ip (mkBucket (fsub (f64_of_Z b) one) now) rl, true).
  assert (Hrd : rounds ((b - 1) * 2 ^ 1074) (fsub (f64_of_Z b) one)).
  { pose proof (fsub_rounds (f64_of_Z b) one Hbf ltac:(done)) as Hrd.
    rewrite Hbv, H1v in Hrd. by rewrite Z.mul_sub_distr_r, Z.mul_1_l. }
  destruct (f64_of_Z_exact (b - 1)) as [[Hx _] Hxv]; [lia|].
  pose proof (run_same_instant ip now n (set_visitor ip (mkBucket (fsub (f64_of_Z b) one) now) rl)
    (Z.to_nat (b - 1)) (fsub (f64_of_Z b) one)) as Hrun.
  destruct (run (replicate n _) _) as [rl2 out]. cbn [snd] in *. rewrite Hrun.
  - f_equal; [|f_equal; lia]. f_equal. symmetry. apply Nat.ltb_lt. lia.
  - done.
  - cbn [burst set_visitor]. change (burst rl) with b. lia.
  - cbn [visitors set_visitor]. apply lookup_insert_eq.
  - apply Hrd.
  - rewrite Z2Nat.id by lia. by apply (rounds_value _ _ (f64_of_Z (b - 1))).
Qed.

Lemma burst_per_visitor_witness :
  answers_for "a" (run [Request "a" 5; Request "b" 5; Request "a" 5; Request "a" 5; Request "a" 5]
                     (NewRateLimiter one 3)).2 =
    [("a", true); ("a", true); ("a", true); ("a", false)].
Proof.
  refine (burst_per_visitor one 3 "a" 5 _ _ _ _ _).
  - apply (bool_decide_unpack _). vm_compute. exact I.
  - vm_compute. discriminate.
  - split; [discriminate|reflexivity].
  - cbn. tauto.
Defined.

Lemma run_burst es rl : burst (run es rl).1 = burst rl.
Proof.
  revert rl. induction es as [|[ip now|now] es IH]; intros rl; cbn; [done| |by rewrite IH].
  destruct (Allow_config now ip rl) as (_ & Hb & _).
  destruct (Allow now ip rl) as [rl1 o]. specialize (IH rl1). cbn in *.
  destruct (run es rl1). cbn in *. congruence.
Qed.

(** C6.  Whatever the requests, visitors and cleanups, as long as the clock does not run
      backwards, every bucket holds a number of tokens between 0 and [burst] (never
      a NaN), when the rate is finite and not negative and the burst between 1 and 2^53. *)
Theorem tokens_bounded r b t es ip bk :
  fin64 r → 0 <= fval r → 1 <= b < 2 ^ 53 → clock_ok t es →
  visitors (run es (NewRateLimiter r b)).1 !! ip = Some bk →
  fgeb (tokens bk) f64_zero = true ∧ fgeb (f64_of_Z b) (tokens bk) = true.
Proof.
  intros Hr Hr0 Hb Hes Hv.
  assert (Hi : inv t (NewRateLimiter r b)) by (split; [done|apply map_Forall_empty]).
  destruct (run_inv t es _ Hes Hi) as [Hc Hall].
  assert (Hburst : burst (run es (NewRateLimiter r b)).1 = b) by (by rewrite run_burst).
  pose proof (map_Forall_lookup_1 _ _ _ _ Hall Hv) as (Hn & Hbk & _). rewrite Hburst in Hbk.
  destruct (burst_val b Hb) as [[Hbn _] _].
  unfold fgeb. fold (fleb f64_zero (tokens bk)). fold (fleb (tokens bk) (f64_of_Z b)).
  rewrite !fleb_fval by done. rewrite fval_zero. split; apply Z.leb_le; lia.
Qed.

Lemma tokens_bounded_witness :
  let rl := (run [Request "a" 5; Request "a" 6; CleanupTick 7; Request "a" (Hour)]
               (NewRateLimiter one 3)).1 in
  ∃ bk, visitors rl !! "a" = Some bk ∧ fgeb (tokens bk) f64_zero = true.
Proof.
  cbv zeta. eexists. split; [vm_compute; reflexivity|].
  refine (proj1 (tokens_bounded one 3 5 _ "a" _ _ _ _ _ _)).
  - apply (bool_decide_unpack _). vm_compute. exact I.
  - vm_compute. discriminate.
  - split; [discriminate|reflexivity].
  - instantiate (1 := [Request "a" 5; Request "a" 6; CleanupTick 7; Request "a" (Hour)]).
    repeat split; vm_compute; discriminate.
  - vm_compute. reflexivity.
Defined.
End BurstTheorem.

(** * Isolation, refill, and the middleware *)
Section RateLimitTheorems.
Import RateLimit.

(** Visitors are independent: the answers an IP gets in any run are the answers it
      would get alone, with everyone else's requests removed and the cleanups kept. *)
Theorem visitors_independent r b es ip :
  answers_for ip (run es (NewRateLimiter r b)).2 =
    (run (List.filter (concerns ip) es) (NewRateLimiter r b)).2.
Proof. apply run_same, same_for_refl. Qed.

Lemma fadd_ge_r x y :
  fin64 x → num64 y → 0 <= fval x → 0 <= fval y → fval y <= fval (fadd x y).
Proof.
  intros Hx Hy Hx0 Hy0. destruct (is_inf y) eqn:Iy.
  - destruct Hx as [[Vx Nx] Ix]. pose proof finf_pos.
    destruct y as [|[]| |]; try discriminate;
      [cbn [fval] in Hy0; unfold sgn in Hy0; lia|].
    destruct x as [?|?| |? ? ?]; try discriminate; cbn [fadd SFadd]; done.
  - destruct (fadd_rounds x y Hx (conj Hy Iy)) as (_ & _ & Hl). apply Hl; [done|lia].
Qed.

(** C7.  A refusal does not last: a visitor of any reachable limiter is let through as soon
      as the time since its last request times the rate gives one token. *)
Theorem refilled_allowed r b t es ip bk now :
  fin64 r → 0 <= fval r → 1 <= b < 2 ^ 53 → clock_ok t es → end_time t es <= now →
  let rl := (run es (NewRateLimiter r b)).1 in
  visitors rl !! ip = Some bk →
  fgeb (fmul (dur_Seconds (time_Sub now (lastSeen bk))) r) one = true →
  (Allow now ip rl).2 = true.
Proof.
  intros Hr Hr0 Hb Hes Hnow rl Hv Hone.
  assert (Hi : inv t (NewRateLimiter r b)) by (split; [done|apply map_Forall_empty]).
  apply (run_inv t es _ Hes), (inv_later _ now _ Hnow) in Hi as [Hc Hall]. fold rl in Hc, Hall.
  assert (Hrate : rate rl = r ∧ burst rl = b).
  { unfold rl. split; [|apply run_burst]. clear. generalize (NewRateLimiter r b) (eq_refl : rate (NewRateLimiter r b) = r).
    induction es as [|[ip' n|n] es IH]; intros rl Hrl; [done| |by apply IH].
    cbn. destruct (Allow_config n ip' rl) as (Hr' & _).
    destruct (Allow n ip' rl) as [rl1 o]. specialize (IH rl1). cbn in *.
    destruct (run es rl1). apply IH. congruence. }
  destruct Hrate as [Hra Hbu].
  pose proof (map_Forall_lookup_1 _ _ _ _ Hall Hv) as Hok.
  destruct (refill_bounds rl now bk Hc Hok) as [Hun _].
  destruct (Hok) as (Hn & Htb & Hl).
  destruct (elapsed_rate_nonneg rl now bk Hc Hl) as [He He0].
  rewrite Hra, Hbu in *. destruct (burst_val b Hb) as [Hbf Hbv].
  unfold fgeb in Hone. fold (fleb one (fmul (dur_Seconds (time_Sub now (lastSeen bk))) r)) in Hone.
  rewrite fleb_fval in Hone by (done || apply num64_one). apply Z.leb_le in Hone.
  assert (Hu1 : fval one <= fval (refill r b now bk)).
  { unfold refill. destruct (fgtb _ _); [by apply one_le_burst|].
    etransitivity; [exact Hone|]. apply fadd_ge_r; try done; [|lia].
    by apply (fin_below (tokens bk) b). }
  unfold Allow. rewrite Hv, Hra, Hbu. unfold fgeb. fold (fleb one (refill r b now bk)).
  rewrite fleb_fval by (done || apply num64_one).
  by rewrite (proj2 (Z.leb_le _ _) Hu1).
Qed.

Lemma refilled_allowed_witness :
  let rl := (run [Request "a" 0; Request "a" 0; Request "a" 0] (NewRateLimiter one 1)).1 in
  (Allow 0 "a" rl).2 = false ∧ (Allow Second "a" rl).2 = true.
Proof.
  cbv zeta. split; [vm_compute; reflexivity|].
  apply (refilled_allowed one 1 0 [Request "a" 0; Request "a" 0; Request "a" 0] "a"
           (mkBucket (S754_zero false) 0) Second).
  - apply (bool_decide_unpack _). vm_compute. exact I.
  - vm_compute. discriminate.
  - split; [discriminate|reflexivity].
  - repeat split; vm_compute; discriminate.
  - vm_compute. discriminate.
  - vm_compute. reflexivity.
  - vm_compute. reflexivity.
Defined.

Lemma nan_stays now ip rl bk :
  visitors rl !! ip = Some bk → tokens bk = S754_nan →
  (Allow now ip rl).2 = false ∧ ∃ bk', visitors (Allow now ip rl).1 !! ip = Some bk' ∧
    tokens bk' = S754_nan.
Proof.
  intros Hv Ht. unfold Allow. rewrite Hv.
  assert (Hnan : refill (rate rl) (burst rl) now bk = S754_nan).
  { unfold refill. rewrite Ht. cbn [fadd SFadd].
    unfold fgtb. by destruct (f64_of_Z (burst rl)). }
  rewrite Hnan. change (fgeb S754_nan one) with false. cbn [fst snd set_visitor visitors].
  split; [done|]. eexists. rewrite lookup_insert_eq. done.
Qed.

(** With an infinite rate (RATE_LIMIT_RPS=Inf is accepted) two requests at the same
      instant poison the bucket with a NaN: the second and every later request of
      that IP is refused, however long it waits, until a cleanup removes the bucket. *)
Theorem infinite_rate_refuses b ip now ts :
  (run (Request ip now :: Request ip now :: map (Request ip) ts)
     (NewRateLimiter (S754_infinity false) b)).2 =
    (ip, true) :: (ip, false) :: map (λ _, (ip, false)) ts.
Proof.
  cbn [run]. set (rl := NewRateLimiter _ b).
  change (Allow now ip rl) with (set_visitor ip (mkBucket (fsub (f64_of_Z b) one) now) rl, true).
  cbn beta iota. set (rl1 := set_visitor _ _ rl).
  assert (Hv1 : visitors rl1 !! ip = Some (mkBucket (fsub (f64_of_Z b) one) now)) by apply lookup_insert_eq.
  assert (Hu : refill (rate rl1) (burst rl1) now (mkBucket (fsub (f64_of_Z b) one) now) = S754_nan).
  { unfold refill. cbn [tokens lastSeen].
    rewrite time_Sub_exact, Z.sub_diag by (rewrite Z.sub_diag; apply (bool_decide_unpack _); exact I).
    change (fmul (dur_Seconds 0) (rate rl1)) with S754_nan.
    assert (Hadd : fadd (fsub (f64_of_Z b) one) S754_nan = S754_nan) by (by destruct (fsub _ _)).
    rewrite Hadd. unfold fgtb. by destruct (f64_of_Z (burst rl1)). }
  assert (Ha : ∃ rl2, Allow now ip rl1 = (rl2, false) ∧
    ∃ bk, visitors rl2 !! ip = Some bk ∧ tokens bk = S754_nan).
  { unfold Allow. rewrite Hv1, Hu. change (fgeb S754_nan one) with false. eexists. split; [done|].
    cbn [set_visitor visitors]. eexists. rewrite lookup_insert_eq. done. }
  destruct Ha as (rl2 & -> & Hbk).
  assert (Hrest : ∀ ts rl2, (∃ bk, visitors rl2 !! ip = Some bk ∧ tokens bk = S754_nan) →
    (run (map (Request ip) ts) rl2).2 = map (λ _, (ip, false)) ts).
  { clear. induction ts as [|t ts IH]; intros rl2 (bk & Hv & Ht); [done|]. cbn.
    destruct (nan_stays t ip rl2 bk Hv Ht) as [Ho Hbk'].
    destruct (Allow t ip rl2) as [rl3 o]. cbn in Ho, Hbk'. subst o.
    specialize (IH rl3 Hbk'). destruct (run _ rl3) as [rl4 out]. cbn in *. by rewrite IH. }
  specialize (Hrest ts rl2 Hbk). destruct (run _ rl2) as [rl4 out]. cbn in *. by rewrite Hrest.
Qed.

(** The middleware: a refused request is answered 429 with the counter of rejects one
      higher and never reaches the wrapped handler; an allowed one is passed on
      unchanged.  Without [TrustProxy] the headers do not choose the bucket. *)
Theorem Handler_spec {S} trust now (next : handler (Metrics.Metrics * S)) r rl m s :
  let ip := extractIP trust r in
  let '((rl', ms'), resp) := Handler trust now next r (rl, (m, s)) in
  rl' = (Allow now ip rl).1 ∧
  (if (Allow now ip rl).2 then (ms', resp) = next r (m, s)
   else ms' = (Metrics.add_RateLimitRejects 1 m, s) ∧ resp = Ret reject ∧ Status reject = 429) ∧
  (trust = false → ∀ hs, ip = extractIP false
     (mkRequest (Method r) (RemoteAddr r) hs (Query r) (Body r) (BodyErr r))).
Proof.
  cbv zeta. unfold Handler. destruct (Allow now (extractIP trust r) rl) as [rl1 [|]].
  - destruct (next r (m, s)) as [ms' resp]. split_and!; try done. by intros ->.
  - split_and!; try done. by intros ->.
Qed.
End RateLimitTheorems.
