(* ===== verification/Breaker.v ===== *)
(** The circuit breaker, internal/circuitbreaker/breaker.go.

    [Breaker] is the code: a record of counters whose open state ends lazily, when
    some call looks at the clock.  [BreakerSpec] is the machine it is meant to
    be, with no counters but the ones that matter in each phase.  The code
    implements the machine for every sequence of calls.  The methods hold the
    mutex throughout, so a run is a sequence of calls. *)

From S2P Require Import Prelude GoInt GoTime.

Module Breaker.

Inductive State := Closed | Open | HalfOpen.

#[export] Instance State_eq_dec : EqDecision State.
Proof. solve_decision. Defined.

Record Breaker := mkBreaker {
  state : State;
  failures : Z;
  threshold : Z;
  resetTimeout : Z;
  lastFailure : Z;
  halfOpenMax : Z;
  halfOpenOK : Z;
}.

Definition set_state (s : State) (b : Breaker) : Breaker :=
  mkBreaker s (failures b) (threshold b) (resetTimeout b) (lastFailure b) (halfOpenMax b)
    (halfOpenOK b).
Definition set_failures (n : Z) (b : Breaker) : Breaker :=
  mkBreaker (state b) n (threshold b) (resetTimeout b) (lastFailure b) (halfOpenMax b)
    (halfOpenOK b).
Definition set_lastFailure (t : Z) (b : Breaker) : Breaker :=
  mkBreaker (state b) (failures b) (threshold b) (resetTimeout b) t (halfOpenMax b)
    (halfOpenOK b).
Definition set_halfOpenOK (n : Z) (b : Breaker) : Breaker :=
  mkBreaker (state b) (failures b) (threshold b) (resetTimeout b) (lastFailure b)
    (halfOpenMax b) n.

Definition ErrCircuitOpen : string := "circuit breaker is open".

Definition New (threshold resetTimeout : Z) : Breaker :=
  mkBreaker Closed 0 threshold resetTimeout zero_time 2 0.

(** [currentState] moves an open breaker on; the state is then the field. *)
Definition currentState (now : Z) (b : Breaker) : Breaker :=
  if bool_decide (state b = Open) && (resetTimeout b <? time_Sub now (lastFailure b))
  then set_halfOpenOK 0 (set_state HalfOpen b)
  else b.

Definition GetState (now : Z) (b : Breaker) : Breaker * State :=
  let b := currentState now b in (b, state b).

(** The new breaker and the error. *)
Definition Allow (now : Z) (b : Breaker) : Breaker * option string :=
  let b := currentState now b in
  match state b with
  | Closed => (b, None)
  | Open => (b, Some ErrCircuitOpen)
  | HalfOpen => (b, None)
  end.

Definition RecordSuccess (now : Z) (b : Breaker) : Breaker :=
  let b := currentState now b in
  match state b with
  | HalfOpen =>
      let b := set_halfOpenOK (add64 (halfOpenOK b) 1) b in
      if halfOpenMax b <=? halfOpenOK b then set_failures 0 (set_state Closed b) else b
  | Closed => set_failures 0 b
  | Open => b
  end.

(** The clock is read in [currentState] and again for [lastFailure]. *)
Definition RecordFailure (now1 now2 : Z) (b : Breaker) : Breaker :=
  let b := currentState now1 b in
  let st := state b in
  let b := set_lastFailure now2 (set_failures (add64 (failures b) 1) b) in
  if bool_decide (st = HalfOpen) then set_state Open b
  else if threshold b <=? failures b then set_state Open b
  else b.

Definition Reset (b : Breaker) : Breaker := set_failures 0 (set_state Closed b).

(** ** Sequences of calls, with the times the clock showed *)
Inductive call :=
| CallState (now : Z)
| CallAllow (now : Z)
| CallSuccess (now : Z)
| CallFailure (now1 now2 : Z)
| CallReset.

(** The breaker after a call, and whether [Allow] let the caller pass. *)
Definition do_call (c : call) (b : Breaker) : Breaker * option bool :=
  match c with
  | CallState now => ((GetState now b).1, None)
  | CallAllow now => let '(b, e) := Allow now b in (b, Some (bool_decide (e = None)))
  | CallSuccess now => (RecordSuccess now b, None)
  | CallFailure now1 now2 => (RecordFailure now1 now2 b, None)
  | CallReset => (Reset b, None)
  end.

Fixpoint run (cs : list call) (b : Breaker) : Breaker * list bool :=
  match cs with
  | [] => (b, [])
  | c :: cs =>
      let '(b1, o) := do_call c b in
      let '(b2, os) := run cs b1 in
      (b2, match o with Some x => x :: os | None => os end)
  end.

End Breaker.

(** * The machine it implements

    Closed with a number of consecutive failures, open since the last failure,
    or half-open with a number of successes. *)
Module BreakerSpec.

Inductive phase := PClosed (n : Z) | POpen (since : Z) | PHalfOpen (k : Z).

Section Spec.
Context (threshold resetTimeout : Z).

(** The open phase ends [resetTimeout] after the last failure. *)
Definition tick (now : Z) (p : phase) : phase :=
  match p with
  | POpen since => if resetTimeout <? time_Sub now since then PHalfOpen 0 else p
  | _ => p
  end.

Definition success (p : phase) : phase :=
  match p with
  | PClosed _ => PClosed 0
  | POpen _ => p
  | PHalfOpen k => if k =? 0 then PHalfOpen 1 else PClosed 0
  end.

Definition failure (now : Z) (p : phase) : phase :=
  match p with
  | PClosed n => if threshold <=? n + 1 then POpen now else PClosed (n + 1)
  | _ => POpen now
  end.

Definition passes (p : phase) : bool := match p with POpen _ => false | _ => true end.

Definition spec_call (c : Breaker.call) (p : phase) : phase * option bool :=
  match c with
  | Breaker.CallState now => (tick now p, None)
  | Breaker.CallAllow now => (tick now p, Some (passes (tick now p)))
  | Breaker.CallSuccess now => (success (tick now p), None)
  | Breaker.CallFailure now1 now2 => (failure now2 (tick now1 p), None)
  | Breaker.CallReset => (PClosed 0, None)
  end.

Fixpoint spec_run (cs : list Breaker.call) (p : phase) : phase * list bool :=
  match cs with
  | [] => (p, [])
  | c :: cs =>
      let '(p1, o) := spec_call c p in
      let '(p2, os) := spec_run cs p1 in
      (p2, match o with Some x => x :: os | None => os end)
  end.
End Spec.

Definition phase_of (b : Breaker.Breaker) : phase :=
  match Breaker.state b with
  | Breaker.Closed => PClosed (Breaker.failures b)
  | Breaker.Open => POpen (Breaker.lastFailure b)
  | Breaker.HalfOpen => PHalfOpen (Breaker.halfOpenOK b)
  end.

End BreakerSpec.

(** * The code implements the machine *)
Section Refinement.
Import Breaker BreakerSpec.

(** A closed breaker has fewer failures than the threshold (none when the threshold
    is not positive), a half-open one at most one success; counters that the
    phase does not use may hold anything. *)
Definition inv (b : Breaker) : Prop :=
  is_i64 (threshold b) ∧ halfOpenMax b = 2 ∧
  match state b with
  | Closed => failures b = 0 ∨ 0 <= failures b < threshold b
  | Open => True
  | HalfOpen => halfOpenOK b = 0 ∨ halfOpenOK b = 1
  end.

Ltac breaker b := destruct b as [[] f th rt last mx ok]; cbn in *.

Lemma New_inv th rt : is_i64 th → inv (New th rt).
Proof. unfold inv. cbn. auto. Qed.

Lemma currentState_tick now b :
  phase_of (currentState now b) = tick (resetTimeout b) now (phase_of b) ∧
  threshold (currentState now b) = threshold b ∧
  resetTimeout (currentState now b) = resetTimeout b.
Proof. breaker b; try done. unfold currentState. cbn. by destruct (_ <? _). Qed.

Lemma currentState_inv now b : inv b → inv (currentState now b).
Proof.
  intros Hi. unfold currentState. destruct (_ && _); [|done].
  breaker b; unfold inv in *; cbn in *; naive_solver.
Qed.

Lemma add64_1 n : is_i64 n → n < max_int64 → add64 n 1 = n + 1.
Proof. intros [] ?. apply i64_id. unfold is_i64. lia. Qed.

Lemma RecordSuccess_phase now b :
  inv b → phase_of (RecordSuccess now b) = success (tick (resetTimeout b) now (phase_of b)).
Proof.
  intros Hi%(currentState_inv now). destruct (currentState_tick now b) as [<- _].
  unfold RecordSuccess. set (c := currentState now b) in *. clearbody c.
  breaker c; unfold inv in Hi; cbn in *; try done.
  destruct Hi as (_ & -> & [-> | ->]); reflexivity.
Qed.

Lemma RecordFailure_phase now1 now2 b :
  inv b → phase_of (RecordFailure now1 now2 b) =
    failure (threshold b) now2 (tick (resetTimeout b) now1 (phase_of b)).
Proof.
  intros Hi%(currentState_inv now1). destruct (currentState_tick now1 b) as (<- & <- & _).
  unfold RecordFailure. set (c := currentState now1 b) in *. clearbody c.
  breaker c; unfold inv in Hi; cbn in *.
  - destruct Hi as ([Hlo Hhi] & _ & Hf).
    rewrite add64_1 by (unfold is_i64, max_int64, min_int64 in *; lia).
    destruct (_ <=? _); reflexivity.
  - destruct (_ <=? _); reflexivity.
  - reflexivity.
Qed.

(** Every call preserves the invariant and the configuration. *)
Lemma do_call_inv c b :
  inv b → inv (do_call c b).1 ∧ threshold (do_call c b).1 = threshold b ∧
    resetTimeout (do_call c b).1 = resetTimeout b.
Proof.
  intros Hi. assert (Hc : ∀ now, inv (currentState now b)) by auto using currentState_inv.
  assert (Hk := λ now, proj2 (currentState_tick now b)).
  destruct c as [now|now|now|now1 now2|]; cbn;
    [|unfold Allow|unfold RecordSuccess|unfold RecordFailure|];
    try (specialize (Hc now); specialize (Hk now); set (c := currentState now b) in *; clearbody c);
    try (specialize (Hc now1); specialize (Hk now1); set (c := currentState now1 b) in *; clearbody c).
  - done.
  - breaker c; done.
  - breaker c; unfold inv in *; cbn in *; [naive_solver..|].
    destruct Hk as [-> ->], Hc as (? & -> & [-> | ->]); cbn; naive_solver.
  - breaker c; unfold inv in *; cbn in *; [|destruct (_ <=? _); naive_solver|naive_solver].
    destruct Hk as [-> ->], Hc as ((? & ?) & -> & Hf).
    rewrite add64_1 by (unfold is_i64, max_int64, min_int64 in *; lia).
    rewrite (bool_decide_false (Closed = HalfOpen)) by done.
    destruct (Z.leb_spec (threshold b) (f + 1)); cbn; (split_and!; try done). unfold is_i64. lia.
  - breaker b; unfold inv in *; cbn in *; naive_solver.
Qed.

Lemma do_call_refines c b :
  inv b →
  phase_of (do_call c b).1 = (spec_call (threshold b) (resetTimeout b) c (phase_of b)).1 ∧
  (do_call c b).2 = (spec_call (threshold b) (resetTimeout b) c (phase_of b)).2.
Proof.
  intros Hi. destruct c as [now|now|now|now1 now2|]; cbn.
  - by destruct (currentState_tick now b) as [-> _].
  - destruct (currentState_tick now b) as [<- _].
    unfold Allow. set (c := currentState now b). clearbody c. breaker c; done.
  - by rewrite RecordSuccess_phase.
  - by rewrite RecordFailure_phase.
  - done.
Qed.

Lemma run_refines cs b :
  inv b →
  let '(b', os) := run cs b in
  inv b' ∧ spec_run (threshold b) (resetTimeout b) cs (phase_of b) = (phase_of b', os).
Proof.
  revert b. induction cs as [|c cs IH]; intros b Hi; cbn; [done|].
  destruct (do_call_inv c b Hi) as (Hi' & Ht & Hr).
  destruct (do_call_refines c b Hi) as [Hp Ho].
  destruct (do_call c b) as [b1 o], (spec_call _ _ c _) as [p1 o1]. cbn in *. subst.
  specialize (IH b1 Hi'). rewrite Ht, Hr in IH.
  destruct (run cs b1) as [b2 os]. destruct IH as [? ->]. done.
Qed.
End Refinement.

(** * Properties of the breaker *)
Section Properties.
Import Breaker BreakerSpec.

(** C14.  The breaker implements its machine: for every sequence of calls at any clock
    readings on a new breaker, the code and the machine give the same answers to
    [Allow] and end in the same phase (the same count of consecutive failures when closed, the same
    opening time when open, the same count of successes when half-open). *)
Theorem Breaker_refines th rt cs :
  is_i64 th →
  let '(b, os) := run cs (New th rt) in
  spec_run th rt cs (PClosed 0) = (phase_of b, os).
Proof.
  intros Hth. pose proof (run_refines cs (New th rt) (New_inv th rt Hth)) as H.
  destruct (run cs (New th rt)) as [b os]. by destruct H.
Qed.

Lemma Breaker_refines_witness :
  let cs := [CallFailure 10 11; CallFailure 12 13; CallAllow 14; CallAllow 200; CallSuccess 201;
             CallSuccess 202; CallAllow 203] in
  spec_run 2 100 cs (PClosed 0) = (PClosed 0, [false; true; true]).
Proof.
  cbv zeta.
  refine (Breaker_refines 2 100
            [CallFailure 10 11; CallFailure 12 13; CallAllow 14; CallAllow 200;
             CallSuccess 201; CallSuccess 202; CallAllow 203] _).
  apply (bool_decide_unpack _). vm_compute. exact I.
Defined.

Lemma run_app cs1 cs2 b :
  (run (cs1 ++ cs2) b).1 = (run cs2 (run cs1 b).1).1.
Proof.
  revert b. induction cs1 as [|c cs1 IH]; intros b; cbn; [done|].
  destruct (do_call c b) as [b1 o]. specialize (IH b1).
  destruct (run (cs1 ++ cs2) b1), (run cs1 b1). exact IH.
Qed.

(** The failures at the given times, on a closed breaker below its threshold. *)
Definition failures_at (ts : list (Z * Z)) : list call :=
  map (λ t, CallFailure t.1 t.2) ts.

Lemma spec_failures th rt ts n :
  n + zlen ts < th ∨ ts = [] →
  spec_run th rt (failures_at ts) (PClosed n) = (PClosed (n + zlen ts), []).
Proof.
  revert n. induction ts as [|[t1 t2] ts IH]; intros n H.
  - cbn. rewrite Z.add_0_r. done.
  - destruct H as [H|H]; [|done]. rewrite zlen_cons in *. pose proof (zlen_nonneg ts).
    cbn. replace (th <=? n + 1) with false by lia. unfold failures_at in IH.
    rewrite IH by lia. do 2 f_equal. lia.
Qed.

Lemma spec_run_app th rt cs1 cs2 p :
  (spec_run th rt (cs1 ++ cs2) p).1 = (spec_run th rt cs2 (spec_run th rt cs1 p).1).1.
Proof.
  revert p. induction cs1 as [|c cs1 IH]; intros p; cbn; [done|].
  destruct (spec_call _ _ c p) as [p1 o]. specialize (IH p1).
  destruct (spec_run _ _ (cs1 ++ cs2) p1), (spec_run _ _ cs1 p1). exact IH.
Qed.

Lemma run_phase th rt cs :
  is_i64 th → phase_of (run cs (New th rt)).1 = (spec_run th rt cs (PClosed 0)).1 ∧
    inv (run cs (New th rt)).1.
Proof.
  intros Hth. pose proof (run_refines cs (New th rt) (New_inv th rt Hth)) as H.
  destruct (run cs (New th rt)) as [b os]. cbn in *. destruct H as [? ->]. done.
Qed.

Lemma run_config th rt cs :
  is_i64 th → threshold (run cs (New th rt)).1 = th ∧ resetTimeout (run cs (New th rt)).1 = rt.
Proof.
  intros Hth. assert (H : ∀ b, inv b → threshold (run cs b).1 = threshold b ∧
    resetTimeout (run cs b).1 = resetTimeout b); [|exact (H (New th rt) (New_inv _ _ Hth))].
  induction cs as [|c cs IH]; intros b Hi; [done|]. cbn.
  destruct (do_call_inv c b Hi) as (Hi' & Ht & Hr).
  destruct (do_call c b) as [b1 o]. specialize (IH b1 Hi'). cbn in *.
  destruct (run cs b1). cbn in *. rewrite <- Ht, <- Hr. done.
Qed.

Lemma Allow_passes now b :
  ((Allow now b).2 = None ↔ passes (tick (resetTimeout b) now (phase_of b)) = true).
Proof.
  destruct (currentState_tick now b) as [<- _]. unfold Allow.
  set (c := currentState now b). clearbody c. by destruct c as [[]].
Qed.

Lemma Allow_cases now b : (Allow now b).2 = None ∨ (Allow now b).2 = Some ErrCircuitOpen.
Proof. unfold Allow. destruct (state (currentState now b)); auto. Qed.

Lemma Allow_open now b s :
  phase_of b = POpen s →
  ((Allow now b).2 = Some ErrCircuitOpen ↔ time_Sub now s <= resetTimeout b).
Proof.
  intros Hp. pose proof (Allow_passes now b) as Ha. rewrite Hp in Ha. cbn in Ha.
  destruct (Allow_cases now b) as [E|E]; rewrite E in *;
    destruct (Z.ltb_spec (resetTimeout b) (time_Sub now s)); cbn in Ha; split; try done; try lia.
  - by destruct Ha as [Ha _]; specialize (Ha eq_refl).
  - by destruct Ha as [_ Ha]; specialize (Ha eq_refl).
Qed.

(** Consecutive failures open the breaker exactly at the threshold: from any reachable
    breaker that is closed without failures, [ts] failures (fewer than the
    threshold) let the next call pass, and when one more failure reaches the
    threshold a call is refused exactly until [resetTimeout] has passed since
    that last failure. *)
Theorem consecutive_failures_open th rt cs ts t now :
  is_i64 th → phase_of (run cs (New th rt)).1 = PClosed 0 → zlen ts + 1 = th →
  (Allow now (run (cs ++ failures_at ts) (New th rt)).1).2 = None ∧
  ((Allow now (run (cs ++ failures_at (ts ++ [t])) (New th rt)).1).2 = Some ErrCircuitOpen
    ↔ time_Sub now t.2 <= rt).
Proof.
  intros Hth Hp Hlast.
  rewrite (proj1 (run_phase th rt cs Hth)) in Hp.
  assert (Hts : (spec_run th rt (cs ++ failures_at ts) (PClosed 0)).1 = PClosed (zlen ts)).
  { rewrite spec_run_app, Hp, spec_failures by lia. done. }
  split.
  - apply Allow_passes. by rewrite (proj1 (run_phase th rt _ Hth)), Hts.
  - unfold failures_at. rewrite map_app. fold (failures_at ts). rewrite app_assoc.
    rewrite (Allow_open now _ t.2); [by rewrite (proj2 (run_config th rt _ Hth))|].
    rewrite (proj1 (run_phase th rt _ Hth)), spec_run_app, Hts. cbn.
    by replace (th <=? zlen ts + 1) with true by lia.
Qed.

Lemma consecutive_failures_open_witness :
  let b := (run ([CallSuccess 5] ++ failures_at [(10, 11); (12, 13)]) (New 2 100)).1 in
  (Allow 113 b).2 = Some ErrCircuitOpen.
Proof.
  cbv zeta.
  apply (consecutive_failures_open 2 100 [CallSuccess 5] [(10, 11)] (12, 13) 113).
  - apply (bool_decide_unpack _). vm_compute. exact I.
  - reflexivity.
  - reflexivity.
  - vm_compute. discriminate.
Defined.

(** C15.  The breaker never stays open: once [resetTimeout] has passed since the last
    failure, every reachable breaker lets a call pass; if it was open, two
    successes then close it with its failures forgotten, and a failure opens it
    again for another [resetTimeout]. *)
Theorem Breaker_recovers th rt cs now t1 t2 :
  is_i64 th →
  let b := (run cs (New th rt)).1 in
  rt < time_Sub now (lastFailure b) →
  (Allow now b).2 = None ∧
  (state b = Open →
   phase_of (RecordSuccess t2 (RecordSuccess t1 (Allow now b).1)) = PClosed 0 ∧
   phase_of (RecordFailure t1 t2 (Allow now b).1) = POpen t2).
Proof.
  intros Hth b Ht. destruct (run_phase th rt cs Hth) as [_ Hi].
  destruct (run_config th rt cs Hth) as [_ Hrt]. fold b in Hi, Hrt.
  assert (Hopen : state b = Open → phase_of b = POpen (lastFailure b)).
  { intros Hs. unfold phase_of. by rewrite Hs. }
  assert (Htick : state b = Open → tick (resetTimeout b) now (phase_of b) = PHalfOpen 0).
  { intros Hs. rewrite (Hopen Hs), Hrt. cbn. by replace (rt <? _) with true by lia. }
  split.
  - apply Allow_passes. destruct (state b) eqn:Hs; [|by rewrite Htick|];
      unfold phase_of; by rewrite Hs.
  - intros Hs. specialize (Htick Hs).
    pose proof (do_call_inv (CallAllow now) b Hi) as (Hi' & Hth' & Hrt').
    pose proof (do_call_refines (CallAllow now) b Hi) as (Hp & _).
    cbn in Hi', Hp, Hth', Hrt'. rewrite Htick in Hp.
    destruct (Allow now b) as [b1 e]. cbn in *.
    assert (Hp1 : phase_of (RecordSuccess t1 b1) = PHalfOpen 1)
      by (rewrite RecordSuccess_phase, Hp; done).
    split.
    + pose proof (do_call_inv (CallSuccess t1) b1 Hi') as (Hi1 & _). cbn in Hi1.
      by rewrite RecordSuccess_phase, Hp1.
    + by rewrite RecordFailure_phase, Hp.
Qed.

Lemma Breaker_recovers_witness :
  let b := (run (failures_at [(10, 11); (12, 13)]) (New 2 100)).1 in
  phase_of (RecordSuccess 116 (RecordSuccess 115 (Allow 114 b).1)) = PClosed 0.
Proof.
  cbv zeta.
  apply (Breaker_recovers 2 100 (failures_at [(10, 11); (12, 13)]) 114 115 116).
  - apply (bool_decide_unpack _). vm_compute. exact I.
  - reflexivity.
  - reflexivity.
Defined.
End Properties.
