(* ===== verification/Store.v ===== *)
(** The PostgreSQL store, internal/store/store.go and internal/store/rollup.go.

    PostgreSQL is not part of the repository.  [Schema] gives the tables of
    internal/store/migrations and reads each SQL statement of the package as a
    function on them; the class [Postgres] is a connection to some server, whose
    calls may fail, and [PostgresLaws] says that a statement that succeeds did
    what its text says, that a transaction becomes visible when it commits, and that a
    commit or a statement of its own that returns an error had no effect or its full one (the
    reply may be what was lost).
    [MemPg] is a server in memory that meets the laws. *)

From Stdlib Require Import SpecFloat.
From S2P Require Import Prelude GoInt GoFloat GoTime.

(** ** [MetricSample] and [NodeInfo] *)

(** [store.MetricSample]; [None] is the nil map of labels. *)
Record MetricSample := mkSample {
  NodeID : string;
  CollectedAt : Z;
  Context_ : string;
  Chart : string;
  Family : string;
  Instance_ : string;
  Dimension : string;
  Unit_ : string;
  Value : float64;
  Labels : option (gmap string string);
}.

(** * The tables and the statements *)
Module Schema.

(** A row of hardware_metric_samples; [None] is NULL. *)
Record row := mkRow {
  node_id : string;
  collected_at : Z;
  context : string;
  chart : option string;
  family : option string;
  instance : option string;
  dimension : string;
  unit : option string;
  value : float64;
  labels : gmap string string;
}.

(** The unique index uq_metric_sample. *)
Definition key (r : row) : string * Z * string * string * string * string :=
  (node_id r, collected_at r, context r, dimension r,
   default "" (chart r), default "" (instance r)).

(** A row of netdata_nodes: hostname and netdata_base_url. *)
Record node := mkNode { hostname : string; netdata_base_url : string }.

(** The key (node_id, bucket, context, dimension, instance) and a row of the rollup
    tables. *)
Definition rkey : Type := string * Z * string * string * string.
Record rollup := mkRollup {
  r_unit : string;
  avg_value : float64;
  min_value : float64;
  max_value : float64;
  sample_count : Z;
}.

Record tables := mkTables {
  samples : list row;
  nodes : gmap string node;
  rollups_1h : gmap rkey rollup;
  rollups_1d : gmap rkey rollup;
}.

(** What the server computes for the aggregates over a group; their float
    summation order is the server's. *)
Record aggregates := mkAggregates {
  agg_avg : list float64 → float64;
  agg_min : list float64 → float64;
  agg_max : list float64 → float64;
  agg_wavg : list (float64 * Z) → float64;
  agg_max_text : list string → string;
}.

(** A timestamp column counts microseconds: a time is truncated when it is sent. *)
Definition pg_time (t : Z) : Z := t / 1000 * 1000.

Definition stored (r : row) : row :=
  mkRow (node_id r) (pg_time (collected_at r)) (context r) (chart r) (family r) (instance r)
    (dimension r) (unit r) (value r) (labels r).

(** INSERT ... ON CONFLICT DO NOTHING, row after row. *)
Definition has_key (t : list row) (r : row) : bool :=
  existsb (λ r', bool_decide (key r' = key r)) t.

Definition insert_row (t : list row) (r : row) : list row :=
  if has_key t r then t else t ++ [r].

Definition insert_rows (t : list row) (rs : list row) : list row :=
  fold_left insert_row rs t.

Definition known_nodes (T : tables) (rs : list row) : bool :=
  forallb (λ r, bool_decide (is_Some (nodes T !! node_id r))) rs.

(** The insert statement: the foreign key on node_id must hold; the second
    component is the number of rows affected. *)
Definition sql_insert (rs : list row) (T : tables) : option (tables * Z) :=
  if known_nodes T rs then
    let t' := insert_rows (samples T) (map stored rs) in
    Some (mkTables t' (nodes T) (rollups_1h T) (rollups_1d T),
          zlen t' - zlen (samples T))
  else None.

Definition sql_upsert_node (id h u : string) (T : tables) : option (tables * Z) :=
  Some (mkTables (samples T) (<[id := mkNode h u]> (nodes T)) (rollups_1h T) (rollups_1d T), 1).

Definition sql_delete_samples (cutoff : Z) (T : tables) : option (tables * Z) :=
  let keep := List.filter (λ r, negb (collected_at r <? cutoff)) (samples T) in
  Some (mkTables keep (nodes T) (rollups_1h T) (rollups_1d T),
        zlen (samples T) - zlen keep).

(** date_trunc for a session in UTC. *)
Definition date_trunc (width t : Z) : Z := t / width * width.

Definition hour_key (r : row) : rkey :=
  (node_id r, date_trunc Hour (collected_at r), context r, dimension r,
   default "" (instance r)).

(** GROUP BY: the rows of each key, in table order. *)
Definition group_by {A K} `{Countable K} (k : A → K) (l : list A) : gmap K (list A) :=
  fold_left (λ m a, <[k a := default [] (m !! k a) ++ [a]]> m) l ∅.

Definition hourly (ag : aggregates) (g : list row) : rollup :=
  mkRollup (agg_max_text ag (map (λ r, default "" (unit r)) g))
    (agg_avg ag (map value g)) (agg_min ag (map value g)) (agg_max ag (map value g)) (zlen g).

(** ON CONFLICT ... DO UPDATE: every column but the unit is replaced. *)
Definition upsert_rollup (new old : option rollup) : option rollup :=
  match new, old with
  | Some n, Some o =>
      Some (mkRollup (r_unit o) (avg_value n) (min_value n) (max_value n) (sample_count n))
  | Some n, None => Some n
  | None, o => o
  end.

Definition sql_aggregate_hourly (ag : aggregates) (lo hi : Z) (T : tables)
    : option (tables * Z) :=
  let window := List.filter (λ r, (lo <=? collected_at r) && (collected_at r <? hi)) (samples T) in
  let new := hourly ag <$> group_by hour_key window in
  Some (mkTables (samples T) (nodes T) (merge upsert_rollup new (rollups_1h T)) (rollups_1d T),
        Z.of_nat (size new)).

Definition day_key (k : rkey) : rkey :=
  let '(n, b, c, d, i) := k in (n, date_trunc (24 * Hour) b, c, d, i).

Definition daily (ag : aggregates) (g : list (rkey * rollup)) : rollup :=
  mkRollup (agg_max_text ag (map (r_unit ∘ snd) g))
    (agg_wavg ag (map (λ p, (avg_value p.2, sample_count p.2)) g))
    (agg_min ag (map (min_value ∘ snd) g)) (agg_max ag (map (max_value ∘ snd) g))
    (fold_right Z.add 0 (map (sample_count ∘ snd) g)).

Definition sql_aggregate_daily (ag : aggregates) (before : Z) (T : tables)
    : option (tables * Z) :=
  let old := List.filter (λ p : rkey * rollup, p.1.1.1.1.2 <? before)
               (map_to_list (rollups_1h T)) in
  let new := daily ag <$> group_by (day_key ∘ fst) old in
  Some (mkTables (samples T) (nodes T) (rollups_1h T) (merge upsert_rollup new (rollups_1d T)),
        Z.of_nat (size new)).

Definition delete_rollups (cutoff : Z) (m : gmap rkey rollup) : gmap rkey rollup :=
  filter (λ p : rkey * rollup, negb (p.1.1.1.1.2 <? cutoff) = true) m.

Definition sql_delete_rollups_1h (cutoff : Z) (T : tables) : option (tables * Z) :=
  let m := delete_rollups cutoff (rollups_1h T) in
  Some (mkTables (samples T) (nodes T) m (rollups_1d T),
        Z.of_nat (size (rollups_1h T)) - Z.of_nat (size m)).

Definition sql_delete_rollups_1d (cutoff : Z) (T : tables) : option (tables * Z) :=
  let m := delete_rollups cutoff (rollups_1d T) in
  Some (mkTables (samples T) (nodes T) (rollups_1h T) m,
        Z.of_nat (size (rollups_1d T)) - Z.of_nat (size m)).

(** The statements of the package. *)
Inductive stmt :=
| InsertStmt (rs : list row)
| UpsertNodeStmt (id h u : string)
| DeleteSamplesStmt (cutoff : Z)
| AggregateHourlyStmt (lo hi : Z)
| AggregateDailyStmt (before : Z)
| DeleteRollups1hStmt (cutoff : Z)
| DeleteRollups1dStmt (cutoff : Z).

Definition run_stmt (ag : aggregates) (s : stmt) : tables → option (tables * Z) :=
  match s with
  | InsertStmt rs => sql_insert rs
  | UpsertNodeStmt id h u => sql_upsert_node id h u
  | DeleteSamplesStmt c => sql_delete_samples (pg_time c)
  | AggregateHourlyStmt lo hi => sql_aggregate_hourly ag (pg_time lo) (pg_time hi)
  | AggregateDailyStmt b => sql_aggregate_daily ag (pg_time b)
  | DeleteRollups1hStmt c => sql_delete_rollups_1h (pg_time c)
  | DeleteRollups1dStmt c => sql_delete_rollups_1d (pg_time c)
  end.

End Schema.
Import Schema.

(** * The server *)
Class Postgres := {
  db : Type;
  tx : Type;
  db_tables : db → tables;
  (** What a transaction sees, and what was committed when it began. *)
  tx_tables : tx → tables;
  tx_base : tx → tables;
  pg_aggregates : aggregates;
  pool_exec : db → stmt → db * (string + Z);
  begin_tx : db → (db * string) + tx;
  tx_exec : tx → stmt → tx * (string + Z);
  commit_tx : tx → db * option string;
  rollback_tx : tx → db;
}.

(** The documented behaviour the program relies on.  A statement that fails in an open
    transaction is undone with it; but an error of a commit, or of a statement that is its own
    transaction, may also mean that the reply was lost or came too late, and then the effect is
    there.  Concurrent sessions are not modelled: between two calls of one operation the tables
    stay as they are. *)
Class PostgresLaws `(PG : Postgres) : Prop := {
  pool_exec_ok d s d' n :
    pool_exec d s = (d', inr n) → run_stmt pg_aggregates s (db_tables d) = Some (db_tables d', n);
  pool_exec_err d s d' e :
    pool_exec d s = (d', inl e) →
    db_tables d' = db_tables d ∨ ∃ n, run_stmt pg_aggregates s (db_tables d) = Some (db_tables d', n);
  begin_ok d t : begin_tx d = inr t → tx_tables t = db_tables d ∧ tx_base t = db_tables d;
  begin_err d d' e : begin_tx d = inl (d', e) → db_tables d' = db_tables d;
  tx_exec_ok t s t' n :
    tx_exec t s = (t', inr n) →
    run_stmt pg_aggregates s (tx_tables t) = Some (tx_tables t', n) ∧ tx_base t' = tx_base t;
  tx_exec_err t s t' e : tx_exec t s = (t', inl e) → tx_base t' = tx_base t;
  commit_ok t d' : commit_tx t = (d', None) → db_tables d' = tx_tables t;
  commit_err t d' e :
    commit_tx t = (d', Some e) → db_tables d' = tx_base t ∨ db_tables d' = tx_tables t;
  rollback_restores t : db_tables (rollback_tx t) = tx_base t;
}.

(** * The batch loop

    [for i := 0; i < len(l); i += batchSize], shared by the two bulk inserts:
    the transaction, the running total, and the offset and error of a failed
    batch. *)
Section BatchLoop.
Context {A T : Type} (batchSize : Z) (exec : T → list A → T * (string + Z)).

Fixpoint batch_loop (fuel : nat) (i total : Z) (l : list A) (t : T)
    : outcome (T * Z * option (Z * string)) :=
  if zlen l <=? i then Ret (t, total, None)
  else
    match fuel with
    | O => Diverge
    | S fuel' =>
        let end_ := if zlen l <? i + batchSize then zlen l else i + batchSize in
        batch ← slice l i end_;
        match exec t batch with
        | (t', inl e) => Ret (t', total, Some (i, e))
        | (t', inr n) => batch_loop fuel' (i + batchSize) (total + n) l t'
        end
    end.

(** The same over the list of batches. *)
Fixpoint run_batches (cs : list (list A)) (i total : Z) (t : T)
    : T * Z * option (Z * string) :=
  match cs with
  | [] => (t, total, None)
  | c :: cs' =>
      match exec t c with
      | (t', inl e) => (t', total, Some (i, e))
      | (t', inr n) => run_batches cs' (i + batchSize) (total + n) t'
      end
  end.

Lemma batch_loop_chunks_aux fuel i total l t :
  0 < batchSize → 0 <= i → (length (drop (Z.to_nat i) l) ≤ fuel)%nat →
  batch_loop fuel i total l t =
    Ret (run_batches (chunks_aux (Z.to_nat batchSize) fuel (drop (Z.to_nat i) l)) i total t).
Proof.
  intros Hb. revert i total t. induction fuel as [|fuel IH]; intros i total t Hi Hl.
  - cbn [batch_loop chunks_aux run_batches].
    rewrite length_drop in Hl. replace (zlen l <=? i) with true by (unfold zlen; lia). done.
  - cbn [batch_loop chunks_aux]. rewrite length_drop in Hl.
    destruct (Z.leb_spec (zlen l) i) as [Hend|Hlt].
    { rewrite drop_ge by (unfold zlen in *; lia). done. }
    destruct (drop (Z.to_nat i) l) as [|a r] eqn:E.
    { apply (f_equal length) in E. rewrite length_drop in E. unfold zlen in *. cbn in E. lia. }
    cbn [run_batches]. rewrite <- E.
    assert (Hs : slice l i (if zlen l <? i + batchSize then zlen l else i + batchSize)
                 = Ret (take (Z.to_nat batchSize) (drop (Z.to_nat i) l))).
    { unfold slice. destruct (Z.ltb_spec (zlen l) (i + batchSize)).
      - replace (_ && _) with true by lia. f_equal.
        rewrite !take_ge; [done|..]; rewrite length_drop; unfold zlen in *; lia.
      - replace (_ && _) with true by lia. do 2 f_equal. lia. }
    rewrite Hs. cbn [mbind outcome_bind].
    destruct (exec t _) as [t' [e|n]]; [done|].
    rewrite drop_drop, <- Z2Nat.inj_add by lia. apply IH; [lia|].
    rewrite length_drop. rewrite Z2Nat.inj_add by lia. lia.
Qed.

(** The loop terminates, and runs the batches one after the other. *)
Lemma batch_loop_chunks l t :
  0 < batchSize →
  batch_loop (length l) 0 0 l t = Ret (run_batches (chunks (Z.to_nat batchSize) l) 0 0 t).
Proof. intros Hb. rewrite batch_loop_chunks_aux by (done || lia). done. Qed.
End BatchLoop.

(** * The operations of the store *)
Module Ops.
Section Ops.
Context `{PG : Postgres}.

(** The row [insertBatch] writes for a sample: every text column is set, a nil
    map of labels is written as the empty object. *)
Definition row_of (s : MetricSample) : row :=
  mkRow (NodeID s) (CollectedAt s) (Context_ s) (Some (Chart s)) (Some (Family s))
    (Some (Instance_ s)) (Dimension s) (Some (Unit_ s)) (Value s)
    (match Labels s with None => ∅ | Some m => m end).

Definition insertBatch (t : tx) (samples : list MetricSample) : tx * (string + Z) :=
  if zlen samples =? 0 then (t, inr 0)
  else tx_exec t (InsertStmt (map row_of samples)).

Definition batchSize : Z := 500.

(** [InsertSamples]: the number of rows inserted and the error. *)
Definition InsertSamples (d : db) (samples : list MetricSample)
    : outcome (db * (Z * option string)) :=
  if zlen samples =? 0 then Ret (d, (0, None))
  else
    match begin_tx d with
    | inl (d', e) => Ret (d', (0, Some ("beginning transaction: " +:+ e)))
    | inr t =>
        r ← batch_loop batchSize insertBatch (length samples) 0 0 samples t;
        match r with
        | (t', total, Some (i, e)) =>
            Ret (rollback_tx t',
                 (total, Some ("inserting batch at offset " +:+ pretty.pretty i +:+ ": " +:+ e)))
        | (t', total, None) =>
            match commit_tx t' with
            | (d', Some e) => Ret (d', (0, Some ("committing transaction: " +:+ e)))
            | (d', None) => Ret (d', (total, None))
            end
        end
    end.

Definition UpsertNode (d : db) (nodeID hostname baseURL : string) : db * option string :=
  match pool_exec d (UpsertNodeStmt nodeID hostname baseURL) with
  | (d', inl e) => (d', Some ("upserting node " +:+ nodeID +:+ ": " +:+ e))
  | (d', inr _) => (d', None)
  end.

Definition DeleteOldSamples (now : Z) (d : db) (olderThan : Z) : db * (Z * option string) :=
  let cutoff := time_Add now (i64 (- olderThan)) in
  match pool_exec d (DeleteSamplesStmt cutoff) with
  | (d', inl e) => (d', (0, Some ("deleting old samples: " +:+ e)))
  | (d', inr n) => (d', (n, None))
  end.

Definition AggregateHourly (d : db) (before : Z) : db * (Z * option string) :=
  let lowerBound := time_Add before (-3 * Hour) in
  match pool_exec d (AggregateHourlyStmt lowerBound before) with
  | (d', inl e) => (d', (0, Some ("aggregating hourly rollups: " +:+ e)))
  | (d', inr n) => (d', (n, None))
  end.

Definition AggregateDaily (d : db) (before : Z) : db * (Z * option string) :=
  match pool_exec d (AggregateDailyStmt before) with
  | (d', inl e) => (d', (0, Some ("aggregating daily rollups: " +:+ e)))
  | (d', inr n) => (d', (n, None))
  end.

Definition DeleteOldRollups (now1 now2 : Z) (d : db) (hourlyRetention dailyRetention : Z)
    : db * (Z * option string) :=
  let hourly :=
    if 0 <? hourlyRetention then
      match pool_exec d (DeleteRollups1hStmt (time_Add now1 (i64 (- hourlyRetention)))) with
      | (d', inl e) => (d', inl ("deleting old hourly rollups: " +:+ e))
      | (d', inr n) => (d', inr n)
      end
    else (d, inr 0) in
  match hourly with
  | (d1, inl e) => (d1, (0, Some e))
  | (d1, inr total) =>
      if 0 <? dailyRetention then
        match pool_exec d1 (DeleteRollups1dStmt (time_Add now2 (i64 (- dailyRetention)))) with
        | (d', inl e) => (d', (total, Some ("deleting old daily rollups: " +:+ e)))
        | (d', inr n) => (d', (total + n, None))
        end
      else (d1, (total, None))
  end.
End Ops.
End Ops.

(** * Insert without duplicates *)
Section InsertRows.
Implicit Types (t rs : list row) (r : row).

Lemma has_key_spec t r : has_key t r = true ↔ key r ∈ map key t.
Proof.
  unfold has_key. rewrite existsb_exists, list_elem_of_In, in_map_iff.
  split; intros (x & H1 & H2); exists x; [rewrite bool_decide_eq_true in H2|]; auto.
  split; [done|]. by apply bool_decide_eq_true.
Qed.

Lemma insert_row_has t r : has_key (insert_row t r) r = true.
Proof.
  unfold insert_row. destruct (has_key t r) eqn:E; [done|].
  apply has_key_spec. rewrite map_app, elem_of_app. right. by left.
Qed.

Lemma insert_row_mono t r r' : has_key t r' = true → has_key (insert_row t r) r' = true.
Proof.
  rewrite !has_key_spec. unfold insert_row. destruct (has_key t r); [done|].
  rewrite map_app, elem_of_app. by left.
Qed.

Lemma insert_rows_app t rs1 rs2 :
  insert_rows t (rs1 ++ rs2) = insert_rows (insert_rows t rs1) rs2.
Proof. apply fold_left_app. Qed.

Lemma insert_rows_mono t rs r : has_key t r = true → has_key (insert_rows t rs) r = true.
Proof.
  revert t. induction rs as [|r' rs IH]; [done|]. intros t H. apply IH.
  by apply insert_row_mono.
Qed.

(** Inserting rows whose keys are present changes nothing. *)
Lemma insert_rows_present t rs :
  Forall (λ r, has_key t r = true) rs → insert_rows t rs = t.
Proof.
  induction 1 as [|r rs Hr _ IH]; [done|]. unfold insert_rows in *. cbn.
  unfold insert_row at 2. by rewrite Hr.
Qed.

Lemma insert_rows_has t rs : Forall (λ r, has_key (insert_rows t rs) r = true) rs.
Proof.
  revert t. induction rs as [|r rs IH]; intros t; constructor; [|apply IH].
  apply (insert_rows_mono (insert_row t r) rs), insert_row_has.
Qed.

Lemma insert_rows_idemp t rs : insert_rows (insert_rows t rs) rs = insert_rows t rs.
Proof. apply insert_rows_present, insert_rows_has. Qed.

(** The unique index holds after every insert. *)
Lemma insert_rows_unique t rs : NoDup (map key t) → NoDup (map key (insert_rows t rs)).
Proof.
  revert t. induction rs as [|r rs IH]; [done|]. intros t H. apply IH.
  unfold insert_row. destruct (has_key t r) eqn:E; [done|].
  rewrite map_app. apply NoDup_app. split_and!; [done| |apply NoDup_singleton].
  intros k Hk ->%list_elem_of_singleton. apply has_key_spec in Hk. congruence.
Qed.

(** Old rows stay, in front. *)
Lemma insert_rows_prefix t rs : t `prefix_of` insert_rows t rs.
Proof.
  revert t. induction rs as [|r rs IH]; intros t; [done|].
  etransitivity; [|apply IH]. unfold insert_row. destruct (has_key t r); [done|].
  by apply prefix_app_r.
Qed.

Lemma known_nodes_app T rs1 rs2 :
  known_nodes T (rs1 ++ rs2) = known_nodes T rs1 && known_nodes T rs2.
Proof. apply forallb_app. Qed.
End InsertRows.

(** * The bulk insert is atomic and equals one insert of everything *)
Section InsertSamplesProofs.
Context `{PL : PostgresLaws}.
Import Ops.

(** The tables after inserting all the rows. *)
Definition with_rows (T : tables) (rs : list row) : tables :=
  mkTables (insert_rows (samples T) (map stored rs)) (nodes T) (rollups_1h T) (rollups_1d T).

Lemma with_rows_app T rs1 rs2 : with_rows (with_rows T rs1) rs2 = with_rows T (rs1 ++ rs2).
Proof. unfold with_rows. cbn. by rewrite map_app, insert_rows_app. Qed.

Lemma with_rows_idemp T rs : with_rows (with_rows T rs) rs = with_rows T rs.
Proof. unfold with_rows. cbn. by rewrite insert_rows_idemp. Qed.

Lemma insertBatch_spec t ss t' r :
  insertBatch t ss = (t', r) → tx_base t' = tx_base t ∧
  ∀ n, r = inr n → known_nodes (tx_tables t) (map row_of ss) = true ∧
    tx_tables t' = with_rows (tx_tables t) (map row_of ss) ∧
    n = zlen (samples (tx_tables t')) - zlen (samples (tx_tables t)).
Proof.
  unfold insertBatch. destruct ss as [|s ss].
  { cbn. intros [= <- <-]. split; [done|]. intros n [= <-]. split; [done|].
    split; [by destruct (tx_tables t)|lia]. }
  replace (zlen (s :: ss) =? 0) with false
    by (rewrite zlen_cons; pose proof (zlen_nonneg ss); lia).
  destruct r as [e|n]; intros H.
  { split; [by eapply tx_exec_err|done]. }
  apply tx_exec_ok in H as [H ->]. split; [done|]. intros n' [= <-].
  cbn [run_stmt] in H. unfold sql_insert in H.
  destruct (known_nodes _ _); [|done]. injection H as <- <-. done.
Qed.

(** Batches through an [exec] that inserts the rows of a batch and reports [w]: the
    rows affected for one bulk insert, the length of the batch for the other. *)
Section Batches.
Context {A : Type} (size : Z) (exec : tx → list A → tx * (string + Z)) (rows : A → row)
  (w : tables → list A → tables → Z).
Hypothesis exec_spec : ∀ t c t' r, exec t c = (t', r) →
  tx_base t' = tx_base t ∧
  ∀ n, r = inr n → known_nodes (tx_tables t) (map rows c) = true ∧
    tx_tables t' = with_rows (tx_tables t) (map rows c) ∧
    n = w (tx_tables t) c (tx_tables t').
Hypothesis w_nil : ∀ T, w T [] T = 0.
Hypothesis w_app : ∀ T1 T2 T3 c1 c2, w T1 (c1 ++ c2) T3 = w T1 c1 T2 + w T2 c2 T3.

Lemma run_batches_spec cs i total t t' total' r :
  run_batches size exec cs i total t = (t', total', r) →
  tx_base t' = tx_base t ∧
  (r = None → known_nodes (tx_tables t) (map rows (concat cs)) = true ∧
    tx_tables t' = with_rows (tx_tables t) (map rows (concat cs)) ∧
    total' = total + w (tx_tables t) (concat cs) (tx_tables t')).
Proof.
  revert i total t. induction cs as [|c cs IH]; intros i total t; cbn [run_batches concat].
  { intros [= <- <- <-]. split; [done|]. intros _. split; [done|].
    rewrite w_nil. split; [by destruct (tx_tables t)|lia]. }
  destruct (exec t c) as [t1 [e|n]] eqn:E; apply exec_spec in E as [Hb Hi].
  { intros [= <- <- <-]. done. }
  destruct (Hi n eq_refl) as (Hk & Ht & ->). clear Hi.
  intros [Hb' Hr]%IH. split; [congruence|]. intros Hnone.
  destruct (Hr Hnone) as (Hk' & Ht' & ->). rewrite map_app, known_nodes_app, Hk.
  rewrite (w_app _ (tx_tables t1)). rewrite Ht', Ht, with_rows_app in *.
  split; [done|]. split; [done|]. lia.
Qed.

(** The whole loop in a transaction: it returns, and when no batch failed the
    transaction sees all the rows. *)
Lemma batch_insert_spec l t :
  0 < size →
  ∃ t' total r, batch_loop size exec (length l) 0 0 l t = Ret (t', total, r) ∧
    tx_base t' = tx_base t ∧
    (r = None → known_nodes (tx_tables t) (map rows l) = true ∧
      tx_tables t' = with_rows (tx_tables t) (map rows l) ∧
      total = w (tx_tables t) l (tx_tables t')).
Proof.
  intros Hs. rewrite batch_loop_chunks by done.
  destruct (run_batches _ _ _ _ _ _) as [[t' total] r] eqn:Er.
  apply run_batches_spec in Er as [Hb Hr]. rewrite chunks_concat in Hr by lia.
  exists t', total, r. split; [done|]. split; [done|]. intros Hn.
  destruct (Hr Hn) as (? & ? & ->). split_and!; [done..|lia].
Qed.
End Batches.

(** The error of [InsertSamples] that leaves open whether the rows were stored. *)
Definition commit_failed (err : string) : Prop := ∃ e, err = "committing transaction: " +:+ e.

(** All the samples are stored, in one commit. *)
Definition all_stored (T T' : tables) (ss : list MetricSample) : Prop :=
  known_nodes T (map row_of ss) = true ∧ T' = with_rows T (map row_of ss).

Lemma InsertSamples_spec d ss :
  ∃ d' n err, InsertSamples d ss = Ret (d', (n, err)) ∧
    match err with
    | Some e =>
        db_tables d' = db_tables d ∨ commit_failed e ∧ all_stored (db_tables d) (db_tables d') ss
    | None =>
        all_stored (db_tables d) (db_tables d') ss ∧
        n = zlen (samples (db_tables d')) - zlen (samples (db_tables d))
    end.
Proof.
  unfold InsertSamples. destruct (Z.eqb_spec (zlen ss) 0) as [H0|H0].
  { destruct ss as [|s ss]; [|rewrite zlen_cons in H0; pose proof (zlen_nonneg ss); lia].
    exists d, 0, None. split; [done|]. split; [|lia]. split; [done|]. by destruct (db_tables d). }
  destruct (begin_tx d) as [[d' e]|t] eqn:Eb.
  { eexists _, _, _. split; [done|]. left. by eapply begin_err. }
  apply begin_ok in Eb as [Ht Hbase].
  destruct (batch_insert_spec batchSize insertBatch row_of
              (λ T _ T', zlen (samples T') - zlen (samples T)) insertBatch_spec
              ltac:(cbn; intros; lia) ltac:(cbn; intros; lia) ss t ltac:(done))
    as (t' & total & r & Er & Hb' & Hr).
  rewrite Er. cbn [mbind outcome_bind]. clear Er. destruct r as [[i e]|].
  { eexists _, _, _. split; [done|]. left. rewrite rollback_restores. congruence. }
  destruct (Hr eq_refl) as (Hk & Htab & Htotal). unfold all_stored.
  destruct (commit_tx t') as [d' [e|]] eqn:Ec; (eexists _, _, _; split; [done|]).
  - apply commit_err in Ec as [Ec|Ec]; [left; congruence|right]. split; [by eexists|].
    rewrite <- Ht, Ec, Htab in *. done.
  - apply commit_ok in Ec. rewrite <- Ht, Ec, Htab in *. done.
Qed.

(** C10.  [InsertSamples] is atomic: it always returns; when it reports no error the tables
    hold, in one commit, the old rows followed by every sample whose key (node, time,
    context, dimension, chart, instance) was new, exactly as one insert of the
    whole slice would leave them, with the number of rows added as result; when it reports an
    error nothing was stored, except that after an error of the commit itself all the samples
    may have been; and whatever the outcome, the tables after a second call that succeeds
    are those of a single insert. *)
Theorem InsertSamples_atomic d ss :
  ∃ d' n err, InsertSamples d ss = Ret (d', (n, err)) ∧
    match err with
    | Some e =>
        db_tables d' = db_tables d ∨ commit_failed e ∧ all_stored (db_tables d) (db_tables d') ss
    | None =>
        all_stored (db_tables d) (db_tables d') ss ∧
        n = zlen (samples (db_tables d')) - zlen (samples (db_tables d))
    end ∧
    ∀ d2 n2, InsertSamples d' ss = Ret (d2, (n2, None)) →
      db_tables d2 = with_rows (db_tables d) (map row_of ss).
Proof.
  destruct (InsertSamples_spec d ss) as (d' & n & err & E & H). exists d', n, err.
  split; [done|]. split; [done|]. intros d2 n2 E2.
  destruct (InsertSamples_spec d' ss) as (d2' & n2' & e2 & E2' & H2). rewrite E2 in E2'.
  injection E2' as <- <- <-. destruct H2 as [[_ ->] _].
  assert (db_tables d' = db_tables d ∨ db_tables d' = with_rows (db_tables d) (map row_of ss)) as [-> | ->].
  { destruct err; [destruct H as [|(_ & _ & ?)]|destruct H as [[_ ?] _]]; auto. }
  - done.
  - apply with_rows_idemp.
Qed.

(** Storing the same samples again is harmless: a second successful call adds no
    row and reports 0. *)
Theorem InsertSamples_idempotent d ss d1 n1 d2 n2 :
  InsertSamples d ss = Ret (d1, (n1, None)) →
  InsertSamples d1 ss = Ret (d2, (n2, None)) →
  db_tables d2 = db_tables d1 ∧ n2 = 0.
Proof.
  intros H1 H2.
  destruct (InsertSamples_spec d ss) as (d1' & n1' & e1 & E1 & S1).
  destruct (InsertSamples_spec d1 ss) as (d2' & n2' & e2 & E2 & S2).
  rewrite H1 in E1. injection E1 as <- <- <-. rewrite H2 in E2. injection E2 as <- <- <-.
  destruct S1 as [[_ T1] _], S2 as [[_ T2] N2].
  assert (db_tables d2 = db_tables d1) as HT.
  { by rewrite T2, T1, with_rows_idemp. }
  split; [done|]. rewrite N2, HT. lia.
Qed.
End InsertSamplesProofs.

(** * A server in memory

    A call fails when the schedule [faults] gives an error for its position, or
    when the statement violates a constraint.  At the positions that are [lost] the call had its
    effect and only the reply failed. *)
Module MemPg.
Record state := mkState { mem_tables : tables; calls : nat }.
Record mtx := mkTx { base : tables; cur : tables; tcalls : nat }.

Definition simple_aggregates : aggregates := {|
  agg_avg l := fdiv (fold_left fadd l f64_zero) (f64_of_Z (zlen l));
  agg_min l := match l with [] => f64_zero | x :: l => fold_left f64_min l x end;
  agg_max l := match l with [] => f64_zero | x :: l => fold_left f64_max2 l x end;
  agg_wavg l := fdiv (fold_left (λ a p, fadd a (fmul p.1 (f64_of_Z p.2))) l f64_zero)
                  (f64_of_Z (fold_right Z.add 0 (map snd l)));
  agg_max_text l := fold_left (λ a s, if String.ltb a s then s else a) l "";
|}.

Definition exec (faults : nat → option string) (lost : nat → bool) (k : nat) (s : stmt) (T : tables)
    : tables * (string + Z) :=
  let done := match run_stmt simple_aggregates s T with
              | Some (T', n) => (T', inr n)
              | None => (T, inl "constraint violation")
              end in
  match faults k with
  | Some e => (if lost k then done.1 else T, inl e)
  | None => done
  end.

Definition lossy_server (faults : nat → option string) (lost : nat → bool) : Postgres := {|
  db := state;
  tx := mtx;
  db_tables := mem_tables;
  tx_tables := cur;
  tx_base := base;
  pg_aggregates := simple_aggregates;
  pool_exec d s :=
    let '(T, r) := exec faults lost (calls d) s (mem_tables d) in (mkState T (S (calls d)), r);
  begin_tx d :=
    match faults (calls d) with
    | Some e => inl (mkState (mem_tables d) (S (calls d)), e)
    | None => inr (mkTx (mem_tables d) (mem_tables d) (S (calls d)))
    end;
  tx_exec t s :=
    let '(T, r) := exec faults lost (tcalls t) s (cur t) in (mkTx (base t) T (S (tcalls t)), r);
  commit_tx t :=
    match faults (tcalls t) with
    | Some e => (mkState (if lost (tcalls t) then cur t else base t) (S (tcalls t)), Some e)
    | None => (mkState (cur t) (S (tcalls t)), None)
    end;
  rollback_tx t := mkState (base t) (tcalls t);
|}.

Lemma exec_spec faults lost k s T T' r :
  exec faults lost k s T = (T', r) →
  match r with
  | inr n => run_stmt simple_aggregates s T = Some (T', n)
  | inl _ => T' = T ∨ ∃ n, run_stmt simple_aggregates s T = Some (T', n)
  end.
Proof.
  unfold exec. destruct (run_stmt _ s T) as [[T1 n]|]; cbn; destruct (faults k); intros [= <- <-];
    try done; destruct (lost k); eauto.
Qed.

#[export] Instance lossy_laws faults lost : @PostgresLaws (lossy_server faults lost).
Proof.
  split; cbn.
  1,2: intros [T k] s d' r; cbn; destruct (exec _ _ _ _ _) as [T1 r1] eqn:E;
    apply exec_spec in E; intros H; simplify_eq/=; done.
  1,2: intros [T k] *; cbn; destruct (faults k); intros H; simplify_eq/=; done.
  1,2: intros [b c k] s t' r; cbn; destruct (exec _ _ _ _ _) as [T1 r1] eqn:E;
    apply exec_spec in E; intros H; simplify_eq/=; done.
  1,2: intros [b c k] *; cbn; destruct (faults k); intros H; simplify_eq/=; try done.
  { destruct (lost k); auto. }
  done.
Qed.

Definition server (faults : nat → option string) : Postgres := lossy_server faults (λ _, false).

#[export] Instance server_laws faults : @PostgresLaws (server faults).
Proof. apply lossy_laws. Qed.

Definition no_faults : nat → option string := λ _, None.
Definition empty_tables : tables := mkTables [] ∅ ∅ ∅.
End MemPg.

(** ** Examples: 501 samples are two batches; a fault in the second undoes the first *)
Section Examples.
Import Ops MemPg.

Definition sample_at (t : Z) : MetricSample :=
  mkSample "n1" t "system.cpu" "" "" "" "user" "" f64_zero None.
Definition one_node : tables := mkTables [] {[ "n1" := mkNode "h" "u" ]} ∅ ∅.

Example two_batches :
  (r ← InsertSamples (PG := server no_faults) (mkState one_node 0)
         (map sample_at (map (λ i, 1000 * Z.of_nat i) (seq 0 501)));
   Ret (zlen (samples (mem_tables r.1)), r.2)) = Ret (501, (501, None)).
Proof. vm_compute. reflexivity. Qed.

Example second_batch_fails :
  (r ← InsertSamples (PG := server (λ k, if Nat.eqb k 2 then Some "boom" else None))
         (mkState one_node 0) (map sample_at (map (λ i, 1000 * Z.of_nat i) (seq 0 501)));
   Ret (zlen (samples (mem_tables r.1)), r.2)) =
  Ret (0, (500, Some "inserting batch at offset 500: boom")).
Proof. vm_compute. reflexivity. Qed.

Lemma InsertSamples_idempotent_witness :
  let d2 := (mkState (with_rows one_node (map row_of [sample_at 1])) 6 : @db (server no_faults)) in
  mem_tables d2 = with_rows one_node (map row_of [sample_at 1]) ∧ 0 = 0.
Proof.
  cbv zeta.
  apply (InsertSamples_idempotent (PG := server no_faults) (mkState one_node 0) [sample_at 1]
           (mkState (with_rows one_node (map row_of [sample_at 1])) 3) 1);
    vm_compute; reflexivity.
Defined.
End Examples.

(** * Grouping *)
Section GroupBy.
Context {A K : Type} `{Countable K} (k : A → K).

Definition of_key (x : K) (l : list A) : list A :=
  List.filter (λ a, bool_decide (k a = x)) l.

Lemma of_key_app x l1 l2 : of_key x (l1 ++ l2) = of_key x l1 ++ of_key x l2.
Proof. apply List.filter_app. Qed.

Lemma group_by_snoc l a :
  group_by k (l ++ [a]) =
  <[k a := default [] (group_by k l !! k a) ++ [a]]> (group_by k l).
Proof. unfold group_by. by rewrite fold_left_app. Qed.

(** A key's group is the list of its elements; a key without any has no group. *)
Lemma group_by_lookup l x :
  group_by k l !! x = match of_key x l with [] => None | g => Some g end.
Proof.
  induction l as [|a l IH] using rev_ind; [apply lookup_empty|].
  rewrite group_by_snoc, of_key_app. destruct (decide (k a = x)) as [<-|Hne].
  - rewrite lookup_insert_eq, IH. unfold of_key at 3. cbn. rewrite bool_decide_true by done.
    by destruct (of_key (k a) l).
  - rewrite lookup_insert_ne, IH by done. unfold of_key at 3. cbn.
    rewrite bool_decide_false by done. by rewrite app_nil_r.
Qed.
End GroupBy.

(** * Hourly rollups *)
Section Rollups.
Context `{PL : PostgresLaws}.
Import Ops.

(** The samples of a rollup key in the table, and those of them in a window. *)
Definition samples_of (T : tables) (x : rkey) : list row := of_key hour_key x (samples T).
Definition in_window (lo hi : Z) (r : row) : bool :=
  (lo <=? collected_at r) && (collected_at r <? hi).
Definition window_of (T : tables) (lo hi : Z) (x : rkey) : list row :=
  of_key hour_key x (List.filter (in_window lo hi) (samples T)).

Lemma window_of_filter T lo hi x :
  window_of T lo hi x = List.filter (in_window lo hi) (samples_of T x).
Proof.
  unfold window_of, samples_of, of_key. induction (samples T) as [|r l IH]; [done|].
  cbn. destruct (in_window lo hi r) eqn:E1, (bool_decide (hour_key r = x)) eqn:E2;
    cbn; rewrite ?E1, ?E2, ?IH; done.
Qed.

(** The new state of one rollup row, given the samples of its key in the window. *)
Definition rolled (w : list row) (old : option rollup) : option rollup :=
  match w with
  | [] => old
  | _ => let new := hourly pg_aggregates w in
         Some (mkRollup (match old with Some o => r_unit o | None => r_unit new end)
                 (avg_value new) (min_value new) (max_value new) (sample_count new))
  end.

Lemma pg_time_hours before : pg_time (time_Add before (-3 * Hour)) = pg_time before - 3 * Hour.
Proof.
  unfold pg_time, time_Add. unfold_time.
  replace (before + _) with (before + (-3 * 3600000000) * 1000) by lia.
  rewrite Z.div_add by lia. lia.
Qed.

Lemma pg_time_bounds t : pg_time t <= t < pg_time t + 1000.
Proof. unfold pg_time. pose proof (Z.div_mod t 1000). pose proof (Z.mod_pos_bound t 1000). lia. Qed.

Lemma sql_aggregate_hourly_spec before T T' n :
  run_stmt pg_aggregates (AggregateHourlyStmt (time_Add before (-3 * Hour)) before) T = Some (T', n) →
  samples T' = samples T ∧ nodes T' = nodes T ∧ rollups_1d T' = rollups_1d T ∧
  ∀ x, rollups_1h T' !! x =
       rolled (window_of T (pg_time before - 3 * Hour) (pg_time before) x) (rollups_1h T !! x).
Proof.
  cbn [run_stmt]. unfold sql_aggregate_hourly. intros E.
  injection E as <- _. cbn [samples nodes rollups_1d rollups_1h].
  split_and!; [done..|]. intros x. rewrite lookup_merge, lookup_fmap, group_by_lookup.
  rewrite pg_time_hours.
  fold (in_window (pg_time before - 3 * Hour) (pg_time before)).
  unfold window_of, rolled. destruct (of_key _ _ _) as [|r w]; cbn;
    by destruct (rollups_1h _ !! x).
Qed.

Lemma AggregateHourly_tables d before d' n :
  AggregateHourly d before = (d', (n, None)) →
  let T := db_tables d in let T' := db_tables d' in
  samples T' = samples T ∧ nodes T' = nodes T ∧ rollups_1d T' = rollups_1d T ∧
  ∀ x, rollups_1h T' !! x =
       rolled (window_of T (pg_time before - 3 * Hour) (pg_time before) x) (rollups_1h T !! x).
Proof.
  unfold AggregateHourly. intros H.
  destruct (pool_exec d _) as [d1 [e|m]] eqn:E; [done|]. simplify_eq.
  apply pool_exec_ok in E. by eapply sql_aggregate_hourly_spec.
Qed.

(** What an hourly aggregation does: raw samples, nodes and daily rollups never
    change; a rollup row is replaced by the aggregate of the samples of its key
    in the three hours before [before] when there are any (the unit of an
    existing row stays), and is left alone otherwise. *)
Theorem AggregateHourly_row d before d' n x :
  AggregateHourly d before = (d', (n, None)) →
  let T := db_tables d in let T' := db_tables d' in
  samples T' = samples T ∧ nodes T' = nodes T ∧ rollups_1d T' = rollups_1d T ∧
  rollups_1h T' !! x =
    rolled (window_of T (pg_time before - 3 * Hour) (pg_time before) x) (rollups_1h T !! x).
Proof. intros (? & ? & ? & Hx)%AggregateHourly_tables. by split_and!. Qed.

Lemma hour_key_bucket r x : hour_key r = x → x.1.1.1.2 = date_trunc Hour (collected_at r).
Proof. by intros <-. Qed.

Lemma date_trunc_bounds w t : 0 < w → date_trunc w t <= t < date_trunc w t + w.
Proof.
  intros Hw. unfold date_trunc. pose proof (Z.div_mod t w). pose proof (Z.mod_pos_bound t w). lia.
Qed.

Lemma filter_all {A} (f : A → bool) l : (∀ a, a ∈ l → f a = true) → List.filter f l = l.
Proof.
  induction l as [|a l IH]; intros Hf; [done|]. cbn. rewrite Hf by left.
  by rewrite IH by (intros; apply Hf; by right).
Qed.

Lemma elem_of_samples_of T x r : r ∈ samples_of T x → hour_key r = x.
Proof.
  unfold samples_of, of_key. rewrite list_elem_of_In, filter_In.
  intros [_ ?%bool_decide_eq_true]. done.
Qed.

(** C16.  An hour that lies wholly inside the three-hour window is rolled up correctly: its
    row counts every stored sample of the key in that hour and carries their
    average, minimum and maximum. *)
Theorem AggregateHourly_complete_hour d before d' n x r :
  AggregateHourly d before = (d', (n, None)) →
  r ∈ samples_of (db_tables d) x →
  pg_time before - 3 * Hour <= x.1.1.1.2 → x.1.1.1.2 + Hour <= pg_time before →
  ∃ roll, rollups_1h (db_tables d') !! x = Some roll ∧
    let all := samples_of (db_tables d) x in
    sample_count roll = zlen all ∧
    avg_value roll = agg_avg pg_aggregates (map value all) ∧
    min_value roll = agg_min pg_aggregates (map value all) ∧
    max_value roll = agg_max pg_aggregates (map value all).
Proof.
  intros (_ & _ & _ & Hx)%AggregateHourly_tables Hr Hlo Hhi. rewrite Hx.
  assert (Hw : window_of (db_tables d) (pg_time before - 3 * Hour) (pg_time before) x =
               samples_of (db_tables d) x).
  { rewrite window_of_filter. apply filter_all. intros r' Hr'.
    apply elem_of_samples_of, hour_key_bucket in Hr'. unfold in_window.
    pose proof (date_trunc_bounds Hour (collected_at r')). unfold_time. lia. }
  rewrite Hw. destruct (samples_of (db_tables d) x) as [|r0 l] eqn:E; [by apply not_elem_of_nil in Hr|].
  cbn [rolled]. eexists. split; [done|]. done.
Qed.

(** An hour that the window cuts loses data: when a sample of the key lies before
    the window and another one inside it, the rollup row afterwards counts only
    those inside, whatever an earlier run had stored for that hour. *)
Theorem AggregateHourly_cut_hour d before d' n x r1 r2 :
  AggregateHourly d before = (d', (n, None)) →
  r1 ∈ samples_of (db_tables d) x → r2 ∈ samples_of (db_tables d) x →
  collected_at r1 < pg_time before - 3 * Hour <= collected_at r2 →
  collected_at r2 < pg_time before →
  ∃ roll, rollups_1h (db_tables d') !! x = Some roll ∧
    0 < sample_count roll < zlen (samples_of (db_tables d) x).
Proof.
  intros (_ & _ & _ & Hx)%AggregateHourly_tables H1 H2 Ht1 Ht2. rewrite Hx.
  set (l := samples_of (db_tables d) x) in *.
  rewrite window_of_filter. fold l.
  set (f := in_window (pg_time before - 3 * Hour) (pg_time before)) in *.
  assert (Hin : r2 ∈ List.filter f l).
  { rewrite list_elem_of_In, filter_In, <- list_elem_of_In. split; [done|].
    unfold f, in_window. lia. }
  assert (Hlt : (length (List.filter f l) < length l)%nat).
  { clear Hx Hin H2. induction l as [|r l IH]; [by apply not_elem_of_nil in H1|]. cbn.
    pose proof (List.filter_length_le f l). apply elem_of_cons in H1 as [->|H1].
    - replace (f r) with false; [lia|]. unfold f, in_window. lia.
    - specialize (IH H1). destruct (f r); cbn; lia. }
  destruct (List.filter f l) as [|r0 w] eqn:E; [by apply not_elem_of_nil in Hin|].
  cbn [rolled]. eexists. split; [done|]. cbn [sample_count hourly]. unfold zlen in *.
  cbn in *. lia.
Qed.

(** Running the hourly aggregation again with the same bound changes nothing: the
    upsert makes it idempotent. *)
Theorem AggregateHourly_idempotent d before d1 n1 d2 n2 :
  AggregateHourly d before = (d1, (n1, None)) →
  AggregateHourly d1 before = (d2, (n2, None)) →
  rollups_1h (db_tables d2) = rollups_1h (db_tables d1).
Proof.
  intros (S1 & _ & _ & X1)%AggregateHourly_tables (_ & _ & _ & X2)%AggregateHourly_tables.
  apply map_eq. intros x. rewrite X2. unfold window_of. rewrite S1.
  fold (window_of (db_tables d) (pg_time before - 3 * Hour) (pg_time before) x).
  specialize (X1 x). destruct (window_of _ _ _ x) as [|r w]; [done|].
  cbn [rolled] in *. rewrite X1. by destruct (rollups_1h (db_tables d) !! x).
Qed.

(** What the other operations do to the tables, whether they succeed or not. *)
Lemma pool_exec_any d s d' r :
  pool_exec d s = (d', r) →
  db_tables d' = db_tables d ∨ ∃ n, run_stmt pg_aggregates s (db_tables d) = Some (db_tables d', n).
Proof. destruct r; [apply pool_exec_err|]. intros E%pool_exec_ok. eauto. Qed.

Lemma UpsertNode_tables d id h u d' err :
  UpsertNode d id h u = (d', err) →
  samples (db_tables d') = samples (db_tables d) ∧
  rollups_1h (db_tables d') = rollups_1h (db_tables d) ∧
  rollups_1d (db_tables d') = rollups_1d (db_tables d) ∧
  (nodes (db_tables d') = <[id := mkNode h u]> (nodes (db_tables d)) ∨
   err ≠ None ∧ nodes (db_tables d') = nodes (db_tables d)).
Proof.
  unfold UpsertNode. destruct (pool_exec d _) as [d1 [e|n]] eqn:E; intros [= <- <-].
  - apply pool_exec_err in E as [-> |[m Em]]; [naive_solver|]. cbn [run_stmt] in Em. injection Em as <- _. auto.
  - apply pool_exec_ok in E. cbn [run_stmt] in E. injection E as <- _. auto.
Qed.

Lemma AggregateHourly_any d before d' r :
  AggregateHourly d before = (d', r) →
  samples (db_tables d') = samples (db_tables d) ∧ nodes (db_tables d') = nodes (db_tables d) ∧
  ∀ x, rollups_1h (db_tables d') !! x = rollups_1h (db_tables d) !! x ∨
       rollups_1h (db_tables d') !! x =
         rolled (window_of (db_tables d) (pg_time before - 3 * Hour) (pg_time before) x)
           (rollups_1h (db_tables d) !! x).
Proof.
  unfold AggregateHourly. destruct (pool_exec d _) as [d1 r1] eqn:E. intros H.
  assert (d' = d1) as -> by (by destruct r1; injection H as <- _). clear H.
  apply pool_exec_any in E as [-> |[n En]]; [auto|].
  apply sql_aggregate_hourly_spec in En as (-> & -> & _ & Hx). auto.
Qed.

Lemma AggregateDaily_tables d before d' r :
  AggregateDaily d before = (d', r) →
  samples (db_tables d') = samples (db_tables d) ∧ nodes (db_tables d') = nodes (db_tables d) ∧
  rollups_1h (db_tables d') = rollups_1h (db_tables d).
Proof.
  unfold AggregateDaily. destruct (pool_exec d _) as [d1 r1] eqn:E. intros H.
  assert (d' = d1) as -> by (by destruct r1; injection H as <- _). clear H.
  apply pool_exec_any in E as [-> |[n En]]; [done|]. cbn [run_stmt] in En. by injection En as <- _.
Qed.

Lemma DeleteOldSamples_any now d olderThan d' r :
  DeleteOldSamples now d olderThan = (d', r) →
  rollups_1h (db_tables d') = rollups_1h (db_tables d) ∧ nodes (db_tables d') = nodes (db_tables d) ∧
  (r.2 ≠ None ∧ samples (db_tables d') = samples (db_tables d) ∨
   samples (db_tables d') =
      List.filter (λ x, negb (collected_at x <? pg_time (now + i64 (- olderThan))))
        (samples (db_tables d)) ∧
   (r.2 = None → r.1 = zlen (samples (db_tables d)) - zlen (samples (db_tables d')))).
Proof.
  unfold DeleteOldSamples. destruct (pool_exec d _) as [d1 [e|n]] eqn:E; intros [= <- <-]; cbn.
  - apply pool_exec_err in E as [-> |[m Em]]; [naive_solver|]. cbn [run_stmt] in Em. injection Em as <- _.
    cbn. split_and!; [done..|]. by right.
  - apply pool_exec_ok in E. cbn [run_stmt] in E. injection E as <- <-. cbn. auto.
Qed.

(** C18.  Retention keeps exactly the samples that are not older than the cutoff, in
    order, and reports how many it removed; rollups and nodes stay. *)
Theorem DeleteOldSamples_spec now d olderThan d' n :
  is_i64 (- olderThan) →
  DeleteOldSamples now d olderThan = (d', (n, None)) →
  let T := db_tables d in let T' := db_tables d' in
  samples T' = List.filter (λ r, pg_time (now - olderThan) <=? collected_at r) (samples T) ∧
  n = zlen (samples T) - zlen (samples T') ∧
  nodes T' = nodes T ∧ rollups_1h T' = rollups_1h T ∧ rollups_1d T' = rollups_1d T.
Proof.
  unfold DeleteOldSamples. intros Hi H. rewrite i64_id in H by done.
  destruct (pool_exec d _) as [d1 [e|m]] eqn:E; [done|]. simplify_eq.
  apply pool_exec_ok in E. cbn [run_stmt] in E. injection E as <- <-.
  cbn [samples nodes rollups_1h rollups_1d]. split_and!; try done.
  apply List.filter_ext. intros r. unfold time_Add.
  replace (now + - olderThan) with (now - olderThan) by lia. lia.
Qed.
End Rollups.

(** ** The theorems at work on the server in memory *)
Section Witnesses.
Import Ops MemPg.

#[local] Instance reliable : Postgres := server no_faults.

(** A sample of the dimension "user" at [t] with value 1. *)
Definition stored_at (t : Z) : row := stored (row_of (sample_at t)).
Definition table_of (ts : list Z) : tables := with_rows one_node (map (row_of ∘ sample_at) ts).
Definition start (ts : list Z) : @db reliable := mkState (table_of ts) 0.

(** The reply to the commit is lost: the error comes with the rows stored. *)
Lemma InsertSamples_atomic_witness :
  let pg := lossy_server (λ k, if Nat.eqb k 2 then Some "timeout" else None) (λ _, true) in
  ∃ d', InsertSamples (PG := pg) (mkState one_node 0) [sample_at 1] =
      Ret (d', (0, Some "committing transaction: timeout")) ∧
    mem_tables d' = table_of [1].
Proof.
  cbv zeta.
  pose proof (InsertSamples_atomic
    (PG := lossy_server (λ k, if Nat.eqb k 2 then Some "timeout" else None) (λ _, true))
    (mkState one_node 0) [sample_at 1]) as (d' & n & err & E & H & _).
  vm_compute in E. injection E as <- <- <-. eexists. split; [vm_compute; reflexivity|].
  destruct H as [H|(_ & _ & H)]; [discriminate H|exact H].
Defined.

Definition key_at (h : Z) : rkey := ("n1", h * Hour, "system.cpu", "user", "").

Lemma AggregateHourly_row_witness :
  rollups_1h (mem_tables (AggregateHourly (start [1000; 2000]) Hour).1) !! key_at 0 =
    rolled (PG := reliable) [stored_at 1000; stored_at 2000] None.
Proof.
  destruct (AggregateHourly_row (PG := reliable) (start [1000; 2000]) Hour
              (AggregateHourly (start [1000; 2000]) Hour).1 1 (key_at 0)) as (_ & _ & _ & H).
  - vm_compute. reflexivity.
  - exact H.
Defined.

Lemma AggregateHourly_complete_hour_witness :
  ∃ roll, rollups_1h (mem_tables (AggregateHourly (start [1000; 2000]) Hour).1) !! key_at 0 = Some roll ∧
    sample_count roll = 2.
Proof.
  destruct (AggregateHourly_complete_hour (PG := reliable) (start [1000; 2000]) Hour
              (AggregateHourly (start [1000; 2000]) Hour).1 1 (key_at 0) (stored_at 1000))
    as (roll & H & Hc & _).
  - vm_compute. reflexivity.
  - left.
  - vm_compute. discriminate.
  - vm_compute. discriminate.
  - exists roll. split; [exact H|exact Hc].
Defined.

(** At 3:00:00.000002 the window starts inside the hour of the two samples. *)
Lemma AggregateHourly_cut_hour_witness :
  ∃ roll, rollups_1h (mem_tables (AggregateHourly (start [1000; 2000]) (3 * Hour + 2000)).1) !! key_at 0
            = Some roll ∧ 0 < sample_count roll < 2.
Proof.
  apply (AggregateHourly_cut_hour (PG := reliable) (start [1000; 2000]) (3 * Hour + 2000)
           (AggregateHourly (start [1000; 2000]) (3 * Hour + 2000)).1 1 (key_at 0) (stored_at 1000) (stored_at 2000)).
  - vm_compute. reflexivity.
  - left.
  - right. left.
  - vm_compute. split; [reflexivity|discriminate].
  - vm_compute. reflexivity.
Defined.

Lemma AggregateHourly_idempotent_witness :
  let d1 := (AggregateHourly (start [1000; 2000]) Hour).1 in
  rollups_1h (mem_tables (AggregateHourly d1 Hour).1) = rollups_1h (mem_tables d1).
Proof.
  cbv zeta.
  apply (AggregateHourly_idempotent (PG := reliable) (start [1000; 2000]) Hour _ 1 _ 1);
    vm_compute; reflexivity.
Defined.

Lemma DeleteOldSamples_spec_witness :
  samples (mem_tables (DeleteOldSamples (10 * Hour) (start [1; 9 * Hour]) (5 * Hour)).1) =
    [stored_at (9 * Hour)].
Proof.
  destruct (DeleteOldSamples_spec (PG := reliable) (10 * Hour) (start [1; 9 * Hour]) (5 * Hour)
              (DeleteOldSamples (10 * Hour) (start [1; 9 * Hour]) (5 * Hour)).1 1) as (H & _).
  - apply (bool_decide_unpack _). vm_compute. exact I.
  - vm_compute. reflexivity.
  - refine (eq_trans H _). vm_compute. reflexivity.
Defined.
End Witnesses.
