(* ===== verification/Migrate.v ===== *)
(** Schema migrations, [Migrate] of internal/store/store.go.

    [Migrate] is a program that sends statements and continues with the replies; so one
    definition gives both a run by itself ([run]) and the interleavings of several
    instances against one server ([step]), with replies lost, statements failing,
    processes dying and connections closing.  The scripts are an argument: what a script does to the database is
    PostgreSQL's business. *)

From stdpp Require Import relations sorting.
From Stdlib Require Import Sorted.
From S2P Require Import Prelude GoSort GoString.

Module Migrations.

(** ** Statements and programs *)

(** The statements of [Migrate]; [Lock] and [Unlock] are pg_advisory_lock and
    pg_advisory_unlock. *)
Inductive stmt :=
| Lock (id : Z)
| Unlock (id : Z)
| CreateVersions
| Script (text : string)
| RecordVersion (version : string).

(** A program that sends statements; a reply is an error or none, to the query for a version an
    error or whether it is there. *)
Inductive prog (A : Type) :=
| Return (a : A)
| Exec (s : stmt) (k : option string → prog A)
| Ask (version : string) (k : string + bool → prog A).
Arguments Return {A} a.
Arguments Exec {A} s k.
Arguments Ask {A} version k.

#[export] Instance prog_ret : MRet prog := λ A a, Return a.
#[export] Instance prog_bind : MBind prog := λ A B f,
  fix bind (p : prog A) : prog B :=
    match p with
    | Return a => f a
    | Exec s k => Exec s (λ r, bind (k r))
    | Ask v k => Ask v (λ r, bind (k r))
    end.

Definition exec (s : stmt) : prog (option string) := Exec s Return.
Definition exists_version (v : string) : prog (string + bool) := Ask v Return.

(** ** [Migrate] *)
Definition lockID : Z := 0x4e444d43.

(** The embedded files: an entry is its name and whether it is a directory. *)
Record FS := mkFS {
  ReadDir : string + list (string * bool);
  ReadFile : string → string + string;
}.

Definition skipped (entry : string * bool) : bool := entry.2 || negb (HasSuffix entry.1 ".sql").

Section Migrate.
Context `{SortSlice} (migrationsFS : FS).

(** The loop over the entries. *)
Fixpoint apply_entries (entries : list (string * bool)) : prog (option string) :=
  match entries with
  | [] => mret None
  | entry :: entries =>
      if skipped entry then apply_entries entries
      else
        let version := entry.1 in
        r ← exists_version version;
        match r with
        | inl e => mret (Some ("checking migration " +:+ version +:+ ": " +:+ e))
        | inr true => apply_entries entries
        | inr false =>
            match ReadFile migrationsFS ("migrations/" +:+ version) with
            | inl e => mret (Some ("reading migration " +:+ version +:+ ": " +:+ e))
            | inr data =>
                r ← exec (Script data);
                match r with
                | Some e => mret (Some ("applying migration " +:+ version +:+ ": " +:+ e))
                | None =>
                    r ← exec (RecordVersion version);
                    match r with
                    | Some e => mret (Some ("recording migration " +:+ version +:+ ": " +:+ e))
                    | None => apply_entries entries
                    end
                end
            end
        end
  end.

Definition by_name (a b : string * bool) : bool := str_ltb a.1 b.1.

(** What happens between the lock and the deferred unlock. *)
Definition locked : prog (option string) :=
  r ← exec CreateVersions;
  match r with
  | Some e => mret (Some ("creating migrations table: " +:+ e))
  | None =>
      match ReadDir migrationsFS with
      | inl e => mret (Some ("reading embedded migrations: " +:+ e))
      | inr entries => apply_entries (sort_Slice by_name entries)
      end
  end.

(** The deferred unlock; its reply is dropped. *)
Definition finish (body : prog (option string)) : prog (option string) :=
  err ← body; _ ← exec (Unlock lockID); mret err.

Definition Migrate : prog (option string) :=
  r ← exec (Lock lockID);
  match r with
  | Some e => mret (Some ("acquiring migration lock: " +:+ e))
  | None => finish locked
  end.
End Migrate.

(** ** The server *)

(** A connection: the instance it belongs to and its number there. *)
Definition session : Type := nat * nat.

Section Server.
Context {S : Type} (script : string → S → option S).

(** What the scripts make, and the table schema_migrations. *)
Record database := mkDatabase {
  contents : S;
  versions : option (gset string);
}.

(** The server: its database, and who holds advisory locks, once for every time one was taken. *)
Record server := mkServer {
  data : database;
  holders : list (Z * session);
}.

(** A lock waits while another session holds it. *)
Definition blocked (c : session) (s : stmt) (st : server) : bool :=
  match s with
  | Lock id => existsb (λ h, (h.1 =? id) && bool_decide (h.2 ≠ c)) (holders st)
  | _ => false
  end.

Fixpoint release (h : Z * session) (l : list (Z * session)) : list (Z * session) :=
  match l with
  | [] => []
  | h' :: l => if decide (h' = h) then l else h' :: release h l
  end.

(** What a statement does to the locks; unlocking what the session does not hold only gives a
    warning. *)
Definition run_locks (c : session) (s : stmt) (l : list (Z * session)) : list (Z * session) :=
  match s with
  | Lock id => (id, c) :: l
  | Unlock id => release (id, c) l
  | _ => l
  end.

(** What it does to the database; [None] when it is refused. *)
Definition run_data (s : stmt) (d : database) : option database :=
  match s with
  | Lock _ | Unlock _ => Some d
  | CreateVersions => Some (mkDatabase (contents d) (Some (default ∅ (versions d))))
  | Script t => s' ← script t (contents d); Some (mkDatabase s' (versions d))
  | RecordVersion v =>
      vs ← versions d;
      if decide (v ∈ vs) then None else Some (mkDatabase (contents d) (Some ({[v]} ∪ vs)))
  end.

Definition run_stmt (c : session) (s : stmt) (st : server) : option server :=
  d ← run_data s (data st); Some (mkServer d (run_locks c s (holders st))).

Definition query_version (v : string) (d : database) : string + bool :=
  match versions d with
  | Some vs => inr (bool_decide (v ∈ vs))
  | None => inl "relation schema_migrations does not exist"
  end.

(** A run of instance [i] by itself: the [n]th statement uses the connection [conn n], and only
    refused statements fail.  The result has the number of statements sent. *)
Fixpoint run {A} (i : nat) (conn : nat → nat) (n : nat) (p : prog A) (st : server) : nat * server * A :=
  match p with
  | Return a => (n, st, a)
  | Exec s k =>
      match run_stmt (i, conn n) s st with
      | Some st' => run i conn (Datatypes.S n) (k None) st'
      | None => run i conn (Datatypes.S n) (k (Some "refused")) st
      end
  | Ask v k => run i conn (Datatypes.S n) (k (query_version v (data st))) st
  end.

(** ** Several instances *)
Definition world : Type := server * list (prog (option string)).

Definition inside (p : prog (option string)) : Prop := ∃ q, p = finish q.

Definition drop_sessions (gone : session → bool) (st : server) : server :=
  mkServer (data st) (List.filter (λ h, negb (gone h.2)) (holders st)).

(** [closes] says which connections may be closed in the course of things. *)
Inductive step (closes : world → session → Prop) : world → world → Prop :=
(** A statement is executed, on any connection of the instance. *)
| Step_ok st st' ps i c s k :
    ps !! i = Some (Exec s k) → blocked (i, c) s st = false → run_stmt (i, c) s st = Some st' →
    step closes (st, ps) (st', <[i := k None]> ps)
(** It is executed, but the reply is lost. *)
| Step_lost st st' ps i c s k e :
    ps !! i = Some (Exec s k) → blocked (i, c) s st = false → run_stmt (i, c) s st = Some st' →
    step closes (st, ps) (st', <[i := k (Some e)]> ps)
(** It fails, without effect. *)
| Step_err st ps i s k e :
    ps !! i = Some (Exec s k) → step closes (st, ps) (st, <[i := k (Some e)]> ps)
| Step_ask st ps i v k :
    ps !! i = Some (Ask v k) → step closes (st, ps) (st, <[i := k (query_version v (data st))]> ps)
| Step_ask_err st ps i v k e :
    ps !! i = Some (Ask v k) → step closes (st, ps) (st, <[i := k (inl e)]> ps)
(** The process dies, with its connections. *)
| Step_crash st ps i p :
    ps !! i = Some p →
    step closes (st, ps) (drop_sessions (λ c, (c.1 =? i)%nat) st, <[i := Return (Some "killed")]> ps)
(** A connection is closed, by the pool, the server or the network. *)
| Step_close st ps i c :
    closes (st, ps) (i, c) →
    step closes (st, ps) (drop_sessions (λ c', bool_decide (c' = (i, c))) st, ps).
End Server.
Arguments database S : clear implicits.
Arguments server S : clear implicits.
Arguments world S : clear implicits.
End Migrations.

(** * Migrations are safe and complete *)
Section MigrateProofs.
Import Migrations.
Context `{SortSliceLaws} {S : Type} (script : string → S → option S) (fs : FS).
Context (entries : list (string * bool)) (after : nat → S).

(** The migrations: the names of the SQL files, in the order of the loop. *)
Definition names_of (es : list (string * bool)) : list string :=
  map fst (base.filter (λ e, skipped e = false) es).

Definition files : list string := names_of (sort_Slice by_name entries).

(** What the migrations rely on: the directory can be read, its names differ, and the scripts,
    run in order from [after 0], succeed and lead to [after 1], [after 2], ..., where
    running the last one again changes nothing. *)
Record runnable : Prop := {
  dir_read : ReadDir fs = inr entries;
  names_differ : NoDup (map fst entries);
  scripts_run k f : files !! k = Some f →
    ∃ text, ReadFile fs ("migrations/" +:+ f) = inr text ∧
      script text (after k) = Some (after (Datatypes.S k)) ∧
      script text (after (Datatypes.S k)) = Some (after (Datatypes.S k));
}.

Definition first_names (k : nat) : gset string := list_to_set (take k files).

(** The first [k] migrations are recorded; the next may have run unrecorded. *)
Definition between (k : nat) (d : database S) : Prop :=
  contents d = after k ∨ (k < length files)%nat ∧ contents d = after (Datatypes.S k).

Definition partial (d : database S) : Prop :=
  ∃ k, (k ≤ length files)%nat ∧ between k d ∧
    (versions d = Some (first_names k) ∨ k = 0%nat ∧ versions d = None).

(** All migrations have run, each in its turn, and are recorded. *)
Definition complete (d : database S) : Prop :=
  contents d = after (length files) ∧ versions d = Some (first_names (length files)).

Hypothesis Hrun : runnable.

Lemma names_of_sub es : map fst (base.filter (λ e, skipped e = false) es) `sublist_of` map fst es.
Proof.
  induction es as [|e es IH]; [done|]. rewrite filter_cons. case_decide; cbn; by constructor.
Qed.

Lemma by_name_sorted es : StronglySorted (λ a b, str_le a.1 b.1) (sort_Slice by_name es).
Proof.
  assert (Hle : ∀ a b, by_name b a = false ↔ str_le a.1 b.1).
  { intros a b. unfold by_name. pose proof (str_ltb_le b.1 a.1) as Hlt.
    destruct (str_ltb b.1 a.1); split; intros E; try done.
    - by destruct (proj1 Hlt eq_refl).
    - destruct (decide (str_le a.1 b.1)) as [|Hn]; [done|]. by apply Hlt in Hn. }
  eapply StronglySorted_impl; [|apply sort_Slice_ordered].
  - intros x y _ _. apply Hle.
  - split.
    + intros x y _ _ Hxy. apply Hle. unfold by_name in Hxy. apply str_ltb_le in Hxy.
      by destruct (total str_le x.1 y.1).
    + intros x y z _ _ _ Hxy Hyz. apply Hle in Hxy, Hyz. apply Hle. by etransitivity.
Qed.

(** The migrations are the SQL files of the directory, by name. *)
Lemma files_spec :
  StronglySorted str_le files ∧
  ∀ f, f ∈ files ↔ (f, false) ∈ entries ∧ HasSuffix f ".sql" = true.
Proof.
  split.
  - unfold files, names_of. induction (by_name_sorted entries) as [|e es Hs IH Hall]; [constructor|].
    rewrite filter_cons. case_decide; [|done]. cbn. constructor; [done|].
    apply Forall_fmap, Forall_forall. intros x Hx%list_elem_of_filter. cbn.
    rewrite Forall_forall in Hall. apply Hall, Hx.
  - intros f. unfold files, names_of. rewrite list_elem_of_fmap.
    setoid_rewrite list_elem_of_filter. setoid_rewrite (sort_Slice_perm _ by_name entries).
    unfold skipped. split.
    + intros ([g dir] & -> & Hsk & Hin). cbn in *. apply orb_false_iff in Hsk as [-> Hsk].
      split; [done|]. by apply negb_false_iff in Hsk.
    + intros [Hin Hsuf]. exists (f, false). split; [done|]. cbn. by rewrite Hsuf.
Qed.

Lemma files_NoDup : NoDup files.
Proof.
  eapply sublist_NoDup; [|apply names_of_sub].
  rewrite (sort_Slice_perm _ by_name entries). apply Hrun.
Qed.

Lemma first_names_S k f : files !! k = Some f → first_names (Datatypes.S k) = {[f]} ∪ first_names k.
Proof.
  intros Hf. unfold first_names. rewrite (take_S_r _ _ f) by done. rewrite list_to_set_app_L. cbn. set_solver.
Qed.

(** Whether a migration is recorded tells how far the others are. *)
Lemma first_names_lookup k j f : files !! j = Some f → f ∈ first_names k ↔ (j < k)%nat.
Proof.
  intros Hf. unfold first_names. rewrite elem_of_list_to_set, list_elem_of_lookup. split.
  - intros (i & Hi). apply lookup_take_Some in Hi as [Hi Hlt].
    pose proof (NoDup_lookup _ _ _ _ files_NoDup Hf Hi). lia.
  - intros Hlt. exists j. by rewrite lookup_take_lt.
Qed.

(** ** Concurrent migrations *)
Section Concurrent.
(** A script that runs again after later ones, as it can when two instances migrate at once, is
    refused or changes nothing: the scripts are written with IF NOT EXISTS. *)
Hypothesis Hrep : ∀ k f text j,
  files !! k = Some f → ReadFile fs ("migrations/" +:+ f) = inr text → (k < j ≤ length files)%nat →
  script text (after j) = None ∨ script text (after j) = Some (after j).

(** ** A program that keeps the database partially migrated

    [level w c d]: what the table of versions ([0]: not there, [w + 1]: the first [w]
    migrations) and the contents have come to. *)
Definition level (w c : nat) (d : database S) : Prop :=
  versions d = match w with 0%nat => None | Datatypes.S v => Some (first_names v) end ∧
  contents d = after c ∧ (pred w ≤ c ≤ Datatypes.S (pred w))%nat ∧ (c ≤ length files)%nat.

Lemma partial_level d : partial d ↔ ∃ w c, level w c d.
Proof.
  split.
  - intros (k & Hk & Hb & Hv). assert (Hw : ∃ w, pred w = k ∧
      versions d = match w with 0%nat => None | Datatypes.S v => Some (first_names v) end).
    { destruct Hv as [Hv|[-> Hv]]; [by exists (Datatypes.S k)|by exists 0%nat]. }
    destruct Hw as (w & <- & Hw), Hb as [Hc|[Hlt Hc]].
    + exists w, (pred w). by split_and!; try lia.
    + exists w, (Datatypes.S (pred w)). by split_and!; try lia.
  - intros (w & c & Hv & Hc & Hwc & Hl). exists (pred w). split; [lia|]. split.
    + destruct (decide (c = pred w)) as [->|Hne]; [by left|]. right. split; [lia|].
      rewrite Hc. f_equal. lia.
    + destruct w as [|v]; [by right|by left].
Qed.

Definition is_data (s : stmt) : Prop := match s with Lock _ | Unlock _ => False | _ => True end.

(** [safe Q p w c]: at level [w], [c] or any further one to which other instances take the
    database before a statement of [p] runs, the statement leaves it at a level that is no
    lower, and does not touch the lock; so it goes on, whatever fails and whatever replies are
    lost, and [Q] holds of the result. *)
Fixpoint safe {A} (Q : A → nat → Prop) (p : prog A) (w c : nat) : Prop :=
  match p with
  | Return a => Q a w
  | Exec s k =>
      is_data s ∧ (∀ e, safe Q (k (Some e)) w c) ∧
      ∀ w1 c1 d d', (w ≤ w1)%nat → (c ≤ c1)%nat → level w1 c1 d → run_data script s d = Some d' →
        ∃ w2 c2, (w1 ≤ w2)%nat ∧ (c1 ≤ c2)%nat ∧ level w2 c2 d' ∧ ∀ r, safe Q (k r) w2 c2
  | Ask v k =>
      (∀ e, safe Q (k (inl e)) w c) ∧
      ∀ w1 c1 d, (w ≤ w1)%nat → (c ≤ c1)%nat → level w1 c1 d → safe Q (k (query_version v d)) w1 c1
  end.

Definition finished (err : option string) (w : nat) : Prop :=
  err = None → (Datatypes.S (length files) ≤ w)%nat.

(** Other instances do no harm. *)
Lemma safe_further p w c w' c' :
  (w ≤ w')%nat → (c ≤ c')%nat → safe finished p w c → safe finished p w' c'.
Proof.
  intros Hw Hc. revert w c w' c' Hw Hc. induction p as [err|s k IH|v k IH]; intros w c w' c' Hw Hc; cbn.
  - intros Hf He. specialize (Hf He). lia.
  - intros (Hs & He & Hd). split; [done|]. split; [by eauto|]. intros w1 c1 d d' Hw1 Hc1.
    apply Hd; lia.
  - intros [He Hd]. split; [by eauto|]. intros w1 c1 d Hw1 Hc1. apply Hd; lia.
Qed.

Lemma level_complete w c d : level w c d → (Datatypes.S (length files) ≤ w)%nat → complete d.
Proof.
  intros (Hv & Hc & Hwc & Hl) Hw. assert (w = Datatypes.S (length files)) as -> by lia.
  split; [|done]. rewrite Hc. f_equal. cbn in Hwc. lia.
Qed.

(** One migration, when those before it are recorded: its script runs, is recorded, and the
    rest follows. *)
Lemma apply_one_safe k f text rest (e1 e2 : string → string) w c :
  files !! k = Some f → ReadFile fs ("migrations/" +:+ f) = inr text →
  (Datatypes.S k ≤ w)%nat → (∀ w' c', (Datatypes.S (Datatypes.S k) ≤ w')%nat → safe finished rest w' c') →
  safe finished
    (r ← exec (Script text);
     match r with
     | Some e => mret (Some (e1 e))
     | None =>
         r ← exec (RecordVersion f);
         match r with Some e => mret (Some (e2 e)) | None => rest end
     end) w c.
Proof.
  intros Hf Hread Hw Hrest. assert (Hlt : (k < length files)%nat) by (by eapply lookup_lt_Some).
  cbn. split; [done|]. split; [done|]. intros w1 c1 d d' Hw1 Hc1 (Hv & Hcs & Hwc & Hl) Hd.
  assert (Hd' : ∃ c2, (c1 ≤ c2)%nat ∧ (Datatypes.S k ≤ c2)%nat ∧ level w1 c2 d').
  { rewrite Hcs in Hd. destruct (decide (c1 = k)) as [->|Hne].
    - destruct (scripts_run Hrun k f Hf) as (text' & Hread' & Hs & _). rewrite Hread in Hread'.
      injection Hread' as <-. rewrite Hs in Hd. injection Hd as <-. exists (Datatypes.S k).
      split_and!; try lia. split; [done|]. by split_and!; cbn; try lia.
    - destruct (Hrep k f text c1 Hf Hread) as [E|E]; [lia|by rewrite E in Hd|].
      rewrite E in Hd. injection Hd as <-. exists c1. split_and!; try lia. by split_and!; cbn; try lia. }
  destruct Hd' as (c2 & Hc2 & Hk & Hlev). exists w1, c2. split_and!; try done.
  intros [e|]; [done|]. cbn. split; [done|]. split; [done|].
  clear Hv Hcs Hwc Hl Hlev Hd. intros w2 c3 d1 d2 Hw2 Hc3 (Hv & Hcs & Hwc & Hl) Hd.
  destruct w2 as [|v]; [lia|]. rewrite Hv in Hd. cbn in Hd. destruct (decide _) as [|Hin]; [done|].
  rewrite (first_names_lookup v k f Hf) in Hin. assert (v = k) as -> by lia. injection Hd as <-.
  cbn in Hwc. exists (Datatypes.S (Datatypes.S k)), c3. split_and!; try lia.
  - split; cbn; [by rewrite (first_names_S k f Hf)|]. by split_and!; try lia.
  - intros [e|]; [done|]. by apply Hrest.
Qed.

Lemma apply_entries_safe es j w c :
  names_of es = drop j files → (Datatypes.S j ≤ w)%nat → safe finished (apply_entries fs es) w c.
Proof.
  revert j w c. induction es as [|e es IH]; intros j w c Hes Hj.
  - intros _. assert (Hl : length (drop j files) = 0%nat) by (by rewrite <- Hes).
    rewrite length_drop in Hl. lia.
  - unfold names_of in Hes. rewrite filter_cons in Hes. cbn [apply_entries].
    destruct (skipped e) eqn:Hsk; [by apply (IH j)|]. rewrite decide_True in Hes by done. cbn in Hes.
    assert (Hf : files !! j = Some e.1).
    { rewrite <- (Nat.add_0_r j), <- lookup_drop, <- Hes. done. }
    assert (Hrest : names_of es = drop (Datatypes.S j) files).
    { rewrite <- Nat.add_1_r, <- drop_drop, <- Hes. done. }
    cbn. split; [done|]. intros w1 c1 d Hw1 Hc1 (Hv & _). unfold query_version.
    destruct w1 as [|v]; [lia|]. rewrite Hv.
    destruct (bool_decide_reflect (e.1 ∈ first_names v)) as [Hin|Hin].
    + apply (first_names_lookup v j) in Hin; [|done]. apply (IH (Datatypes.S j)); [done|lia].
    + destruct (scripts_run Hrun j _ Hf) as (text & Hread & _). rewrite Hread.
      refine (apply_one_safe j e.1 text (apply_entries fs es)
        (λ err, "applying migration " +:+ e.1 +:+ ": " +:+ err)
        (λ err, "recording migration " +:+ e.1 +:+ ": " +:+ err) _ _ Hf Hread _ _); [lia|].
      intros w' c' Hw'. by apply (IH (Datatypes.S j)).
Qed.

Lemma locked_safe w c : safe finished (locked fs) w c.
Proof.
  cbn. split; [done|]. split; [done|]. intros w1 c1 d d' Hw1 Hc1 (Hv & Hcs & Hwc & Hl) [= <-].
  exists (Datatypes.S (pred w1)), c1. split; [lia|]. split; [lia|]. split.
  - split; [cbn; destruct w1; by rewrite Hv|]. by split_and!; cbn [contents]; rewrite ?Nat.pred_succ; try lia.
  - intros [e|]; [done|]. rewrite (dir_read Hrun). apply (apply_entries_safe _ 0); [done|lia].
Qed.

(** ** Several instances *)
Lemma finish_Exec q s k :
  finish q = Exec s k →
  (∃ err, q = Return err ∧ s = Unlock lockID ∧ k = λ _, Return err) ∨
  ∃ k', q = Exec s k' ∧ k = λ r, finish (k' r).
Proof.
  destruct q as [err|s' k'|v k']; cbn; intros E; [left|right|done].
  - injection E as <- <-. by eexists.
  - injection E as <- <-. by eexists.
Qed.

Lemma finish_Ask q v k : finish q = Ask v k → ∃ k', q = Ask v k' ∧ k = λ r, finish (k' r).
Proof. destruct q as [err|s' k'|v' k']; cbn; intros E; [done..|]. injection E as <- <-. by eexists. Qed.

Lemma finish_not_Return q err : finish q ≠ Return err.
Proof. by destruct q. Qed.

Lemma Return_not_inside err : ¬ inside (Return err).
Proof. intros [q E]. by destruct (finish_not_Return q err). Qed.

Lemma Migrate_not_inside : ¬ inside (Migrate fs).
Proof.
  intros [q E]. symmetry in E. apply finish_Exec in E as [(err & _ & E & _)|(k' & -> & E)]; [done|].
  apply (f_equal (λ k, k (Some ""))) in E. by destruct (finish_not_Return (k' (Some "")) _ (eq_sym E)).
Qed.

(** Where an instance can be. *)
Inductive stage (w c : nat) : prog (option string) → Prop :=
| Stage_begin : stage w c (Migrate fs)
| Stage_locked q : safe finished q w c → stage w c (finish q)
| Stage_end err : finished err w → stage w c (Return err).

Lemma stage_Exec w c s k :
  stage w c (Exec s k) → Exec s k = Migrate fs ∨ ∃ q, finish q = Exec s k ∧ safe finished q w c.
Proof.
  remember (Exec s k) as p eqn:E. intros Hs. revert E.
  destruct Hs as [|q Hq|err Hf]; [by left|right; by exists q|done].
Qed.

Lemma stage_Ask w c v k : stage w c (Ask v k) → ∃ q, finish q = Ask v k ∧ safe finished q w c.
Proof.
  remember (Ask v k) as p eqn:E. intros Hs. revert E.
  destruct Hs as [|q Hq|err Hf]; [done|by exists q|done].
Qed.

Lemma stage_further w c w' c' p : (w ≤ w')%nat → (c ≤ c')%nat → stage w c p → stage w' c' p.
Proof.
  intros Hw Hc [|q Hq|err Hf]; constructor.
  - by eapply safe_further.
  - intros He. specialize (Hf He). lia.
Qed.

Lemma stage_fails w c s k e : stage w c (Exec s k) → stage w c (k (Some e)).
Proof.
  intros [[= -> ->]|(q & E & Hq)]%stage_Exec; [by constructor|].
  apply finish_Exec in E as [(err & -> & -> & ->)|(k' & -> & ->)]; constructor; [done|apply Hq].
Qed.

Lemma stage_executes w c s k d d' :
  stage w c (Exec s k) → level w c d → run_data script s d = Some d' →
  ∃ w' c', (w ≤ w')%nat ∧ (c ≤ c')%nat ∧ level w' c' d' ∧ ∀ r, stage w' c' (k r).
Proof.
  intros [[= -> ->]|(q & E & Hq)]%stage_Exec Hl Hd.
  - injection Hd as <-. exists w, c. split_and!; try done.
    intros [e|]; [by constructor|]. exact (Stage_locked w c (locked fs) (locked_safe w c)).
  - apply finish_Exec in E as [(err & -> & -> & ->)|(k' & -> & ->)].
    + injection Hd as <-. exists w, c. split_and!; try done. by constructor.
    + destruct Hq as (_ & _ & Hq). destruct (Hq w c d d') as (w' & c' & ? & ? & ? & Hr); try done.
      exists w', c'. split_and!; try done. intros r. by constructor.
Qed.

Lemma stage_asks w c v k d :
  stage w c (Ask v k) → level w c d →
  stage w c (k (query_version v d)) ∧ ∀ e, stage w c (k (inl e)).
Proof.
  intros (q & E & Hq)%stage_Ask Hl. apply finish_Ask in E as (k' & -> & ->). destruct Hq as [He Hq]. split; [|intros e]; constructor; eauto.
Qed.

(** However connections are closed, the database is at a level every instance can go on from. *)
Definition consistent (x : world S) : Prop :=
  ∃ w c, level w c (data x.1) ∧ ∀ i p, x.2 !! i = Some p → stage w c p.

Lemma consistent_moves ps i p' w c w' c' (st' : server S) :
  (∀ i p, ps !! i = Some p → stage w c p) → (w ≤ w')%nat → (c ≤ c')%nat →
  level w' c' (data st') → stage w' c' p' → consistent (st', <[i := p']> ps).
Proof.
  intros Hps Hw Hc Hl Hp'. exists w', c'. split; [done|]. cbn. intros j pj Hj.
  apply list_lookup_insert_Some in Hj as [(-> & -> & _)|[_ Hj]]; [done|]. eapply stage_further; eauto.
Qed.

Context (closes : world S → session → Prop).

Lemma step_consistent x x' : step script closes x x' → consistent x → consistent x'.
Proof.
  intros Hs (w & c & Hl & Hps).
  destruct Hs as [st st' ps i n s k Hi _ Hst|st st' ps i n s k e Hi _ Hst|st ps i s k e Hi|
    st ps i v k Hi|st ps i v k e Hi|st ps i p Hi|st ps i n _]; cbn in Hps, Hl;
    try (specialize (Hps i _ Hi) as Hp).
  1, 2: unfold run_stmt in Hst; destruct (run_data script s (data st)) as [d'|] eqn:Hd; [|done];
    injection Hst as <-; destruct (stage_executes w c s k _ _ Hp Hl Hd) as (w' & c' & ? & ? & ? & Hr);
    by eapply consistent_moves; eauto.
  - eapply consistent_moves; eauto using stage_fails.
  - eapply consistent_moves; eauto. by eapply stage_asks.
  - eapply consistent_moves; eauto. by eapply stage_asks.
  - eapply consistent_moves; eauto. by constructor.
  - by exists w, c.
Qed.

(** ** The lock *)
Definition one_holder (l : list (Z * session)) : Prop :=
  ∀ h h', h ∈ l → h' ∈ l → h.1 = lockID → h'.1 = lockID → h = h'.

Lemma release_sub h l x : x ∈ release h l → x ∈ l.
Proof.
  induction l as [|h' l IH]; cbn; [done|]. destruct (decide (h' = h)); [by right|].
  intros [->|Hx]%elem_of_cons; [by left|right; auto].
Qed.

Lemma release_other h l x : x ≠ h → x ∈ l → x ∈ release h l.
Proof.
  intros Hne. induction l as [|h' l IH]; cbn; [done|]. intros [->|Hx]%elem_of_cons.
  - rewrite decide_False by done. by left.
  - destruct (decide (h' = h)); [done|]. right. auto.
Qed.

Lemma not_blocked c (st : server S) h :
  blocked c (Lock lockID) st = false → h ∈ holders st → h.1 = lockID → h = (lockID, c).
Proof.
  intros Hb Hh Hl. destruct h as [id c']. cbn in Hl. subst id. cbn [blocked] in Hb.
  destruct (decide (c' = c)) as [->|Hne]; [done|].
  assert (Ht : existsb (λ h, (h.1 =? lockID) && bool_decide (h.2 ≠ c)) (holders st) = true).
  { apply existsb_exists. exists (lockID, c'). split; [by apply list_elem_of_In|].
    cbn [fst snd]. rewrite Z.eqb_refl. by rewrite bool_decide_eq_true_2. }
  congruence.
Qed.

Lemma run_locks_holder c s (st : server S) :
  blocked c s st = false → one_holder (holders st) → one_holder (run_locks c s (holders st)).
Proof.
  intros Hb Ho. destruct s as [id|id| | |]; cbn [run_locks]; try done.
  - intros h h' Hh Hh' Hl Hl'. destruct (decide (id = lockID)) as [->|Hne].
    + assert (Hall : ∀ h, h ∈ (lockID, c) :: holders st → h.1 = lockID → h = (lockID, c)).
      { intros h0 [->|Hin]%elem_of_cons Hl0; [done|by eapply not_blocked]. }
      by rewrite (Hall h), (Hall h').
    + apply elem_of_cons in Hh as [->|Hh]; [done|]. apply elem_of_cons in Hh' as [->|Hh']; [done|]. by apply Ho.
  - intros h h' Hh%release_sub Hh'%release_sub. by apply Ho.
Qed.

Lemma drop_elem gone (st : server S) h : h ∈ holders (drop_sessions gone st) ↔ h ∈ holders st ∧ gone h.2 = false.
Proof. cbn. rewrite !list_elem_of_In, filter_In, negb_true_iff. done. Qed.

Lemma drop_holder gone (st : server S) :
  one_holder (holders st) → one_holder (holders (drop_sessions gone st)).
Proof. intros Ho h h' [Hh _]%drop_elem [Hh' _]%drop_elem. by apply Ho. Qed.

Lemma run_stmt_holders c s st st' :
  run_stmt script c s st = Some st' → holders st' = run_locks c s (holders st).
Proof. unfold run_stmt. destruct (run_data script s (data st)); [|done]. by intros [= <-]. Qed.

Lemma step_one_holder x x' :
  step script closes x x' → one_holder (holders x.1) → one_holder (holders x'.1).
Proof.
  intros [st st' ps i n s k _ Hb Hst|st st' ps i n s k e _ Hb Hst| | | | |] Ho; cbn [fst] in *; try done.
  1, 2: rewrite (run_stmt_holders _ _ _ _ Hst); by apply run_locks_holder.
  all: by apply drop_holder.
Qed.

(** An instance that migrates holds the lock. *)
Definition holds_lock (x : world S) : Prop :=
  ∀ i p, x.2 !! i = Some p → inside p → ∃ n, (lockID, (i, n)) ∈ holders x.1.

(** While an instance migrates, the connection that holds its lock stays open. *)
Definition keeps_locks : Prop :=
  ∀ st ps i n p, closes (st, ps) (i, n) → (lockID, (i, n)) ∈ holders st →
    ps !! i = Some p → ¬ inside p.

Lemma holds_lock_moves st st' ps i p p' :
  holds_lock (st, ps) → ps !! i = Some p →
  (∀ j n, j ≠ i → (lockID, (j, n)) ∈ holders st → (lockID, (j, n)) ∈ holders st') →
  (inside p' → ∃ n, (lockID, (i, n)) ∈ holders st') →
  holds_lock (st', <[i := p']> ps).
Proof.
  intros Hh Hi Hothers Hp' j pj Hj Hin. cbn in *.
  apply list_lookup_insert_Some in Hj as [(-> & -> & _)|[Hne Hj]]; [by apply Hp'|].
  destruct (Hh j pj Hj Hin) as [n Hn]. exists n. by apply Hothers.
Qed.

(** The locks after a statement an instance has executed, and after its reply. *)
Lemma executes_holds w c st st' ps i n s k r :
  holds_lock (st, ps) → ps !! i = Some (Exec s k) → stage w c (Exec s k) →
  run_stmt script (i, n) s st = Some st' → holds_lock (st', <[i := k r]> ps).
Proof.
  intros Hh Hi Hs Hst. pose proof (run_stmt_holders _ _ _ _ Hst) as El.
  eapply holds_lock_moves; [done..| |].
  - intros j m Hne Hj. rewrite El. destruct s; cbn; [by right|apply release_other; [by intros [= _ ? _]|done]|done..].
  - intros Hin. apply stage_Exec in Hs as [[= -> ->]|(q & E & Hq)].
    + exists n. rewrite El. by left.
    + apply finish_Exec in E as [(err & -> & -> & ->)|(k' & -> & ->)]; [by apply Return_not_inside in Hin|].
      destruct (Hh i _ Hi) as [m Hm]; [by exists (Exec s k')|]. exists m. rewrite El. destruct Hq as [Hd _].
      by destruct s.
Qed.

Lemma fails_holds w c st ps i p p' :
  holds_lock (st, ps) → ps !! i = Some p → stage w c p → (inside p' → inside p) →
  holds_lock (st, <[i := p']> ps).
Proof. intros Hh Hi Hs Hp'. eapply holds_lock_moves; eauto. Qed.

Lemma stage_reply_inside w c s k e : stage w c (Exec s k) → inside (k (Some e)) → inside (Exec s k).
Proof.
  intros [[= -> ->]|(q & <- & _)]%stage_Exec Hin; [by apply Return_not_inside in Hin|]. by exists q.
Qed.

Lemma stage_ask_inside w c v k : stage w c (Ask v k) → inside (Ask v k).
Proof. intros (q & <- & _)%stage_Ask. by exists q. Qed.

Lemma step_holds_lock x x' :
  keeps_locks → step script closes x x' → consistent x → holds_lock x → holds_lock x'.
Proof.
  intros Hk Hs (w & c & _ & Hps) Hh.
  destruct Hs as [st st' ps i n s k Hi _ Hst|st st' ps i n s k e Hi _ Hst|st ps i s k e Hi|
    st ps i v k Hi|st ps i v k e Hi|st ps i p Hi|st ps i n Hc]; cbn in Hps;
    try (specialize (Hps i _ Hi) as Hp).
  - by eapply executes_holds.
  - by eapply executes_holds.
  - eapply fails_holds; eauto using stage_reply_inside.
  - eapply fails_holds; eauto using stage_ask_inside.
  - eapply fails_holds; eauto using stage_ask_inside.
  - eapply holds_lock_moves; [done..| |by intros ?%Return_not_inside].
    intros j n Hne Hj. apply drop_elem. split; [done|]. cbn. by apply Nat.eqb_neq.
  - intros j p Hj Hin. cbn in Hj. destruct (Hh j p Hj Hin) as [m Hm]. exists m. apply drop_elem.
    split; [done|]. apply bool_decide_eq_false_2. intros [= -> ->]. by apply (Hk _ _ _ _ _ Hc Hm Hj).
Qed.

Lemma start_consistent d m : partial d → consistent (mkServer d [], replicate m (Migrate fs)).
Proof.
  intros (w & c & Hl)%partial_level. exists w, c. split; [done|].
  intros i p [-> _]%lookup_replicate. constructor.
Qed.

Lemma start_holds d m : holds_lock (mkServer d [], replicate m (Migrate fs)).
Proof. intros i p [-> _]%lookup_replicate Hin. by destruct Migrate_not_inside. Qed.

Lemma reachable_consistent x x' : rtc (step script closes) x x' → consistent x → consistent x'.
Proof. induction 1; eauto using step_consistent. Qed.

Lemma reachable_one_holder x x' :
  rtc (step script closes) x x' → one_holder (holders x.1) → one_holder (holders x'.1).
Proof. induction 1; eauto using step_one_holder. Qed.

Lemma reachable_holds x x' :
  keeps_locks → rtc (step script closes) x x' → consistent x → holds_lock x → holds_lock x'.
Proof. intros Hk. induction 1; eauto using step_consistent, step_holds_lock. Qed.

(** C12.  Migrations are safe, whatever happens, when the scripts succeed in order and, run again
    after later ones, are refused or change nothing: any number of instances migrate one
    database concurrently, statements fail, replies get lost, processes die, connections are
    closed, at any moment, and with them go the locks they hold ([closes] says which may be) -
    always the database is at a point of the one sequence of migrations, at most one connection
    holds the migration lock, and once [Migrate] has returned no error to some instance, every
    script has run and every migration is recorded.  As the start may be any such point,
    running [Migrate] again resumes.  At most one instance is between lock and unlock as long as
    no connection is closed that holds the lock for an instance there; for that the code does
    not provide, it sends lock and unlock to the pool ([two_migrate_at_once]). *)
Theorem concurrent_migrations d m st ps :
  partial d → rtc (step script closes) (mkServer d [], replicate m (Migrate fs)) (st, ps) →
  partial (data st) ∧
  (∀ i, ps !! i = Some (Return None) → complete (data st)) ∧
  (∀ c c', (lockID, c) ∈ holders st → (lockID, c') ∈ holders st → c = c') ∧
  (keeps_locks → ∀ i j p p', ps !! i = Some p → ps !! j = Some p' → inside p → inside p' → i = j).
Proof.
  intros Hp Hr. pose proof (start_consistent d m Hp) as H0.
  assert (Ho : one_holder (holders st)).
  { apply (reachable_one_holder _ _ Hr). by intros h h' ?%not_elem_of_nil. }
  destruct (reachable_consistent _ _ Hr H0) as (w & c & Hl & Hps). cbn in Hl, Hps. split_and!.
  - apply partial_level. eauto.
  - intros i Hi. apply (level_complete w c); [done|]. specialize (Hps i _ Hi).
    inversion Hps as [|q _ E|err Hf]; [by destruct (finish_not_Return q None)|by apply Hf].
  - intros n n' Hn Hn'. assert (E : (lockID, n) = (lockID, n')) by (by apply Ho). congruence.
  - intros Hk i j p p' Hi Hj Hin Hin'. pose proof (reachable_holds _ _ Hk Hr H0 (start_holds d m)) as Hh.
    destruct (Hh i p Hi Hin) as [n Hn], (Hh j p' Hj Hin') as [n' Hn'].
    assert (E : (lockID, (i, n)) = (lockID, (j, n'))) by (by apply Ho). congruence.
Qed.

End Concurrent.

(** ** A run by itself *)
Lemma run_bind {A B} i conn n (p : prog A) (f : A → prog B) st :
  run script i conn n (p ≫= f) st =
    let '(n', st', a) := run script i conn n p st in run script i conn n' (f a) st'.
Proof.
  revert n st. induction p as [a|s k IH|v k IH]; intros n st; cbn; [done|..].
  - destruct (run_stmt _ _ _ _); apply IH.
  - apply IH.
Qed.

Lemma run_entries i conn n es j k d hs :
  names_of es = drop j files → (j ≤ k ≤ length files)%nat →
  between k d → versions d = Some (first_names k) →
  ∃ d', run script i conn n (apply_entries fs es) (mkServer d hs) =
      ((n + (length files - j) + 2 * (length files - k))%nat, mkServer d' hs, None) ∧ complete d'.
Proof.
  revert n j k d. induction es as [|e es IH]; intros n j k d Hes Hjk Hb Hv.
  - assert (Hl : length (drop j files) = 0%nat) by (by rewrite <- Hes). rewrite length_drop in Hl.
    exists d. cbn. split; [do 2 f_equal; lia|]. assert (k = length files) as -> by lia.
    split; [|done]. destruct Hb as [|[Hlt _]]; [done|lia].
  - unfold names_of in Hes. rewrite filter_cons in Hes. cbn [apply_entries].
    destruct (skipped e) eqn:Hsk; [by apply (IH n j k)|]. rewrite decide_True in Hes by done. cbn in Hes.
    assert (Hf : files !! j = Some e.1).
    { rewrite <- (Nat.add_0_r j), <- lookup_drop, <- Hes. done. }
    assert (Hrest : names_of es = drop (Datatypes.S j) files).
    { rewrite <- Nat.add_1_r, <- drop_drop, <- Hes. done. }
    assert (Hlt : (j < length files)%nat) by (by eapply lookup_lt_Some).
    rewrite run_bind. cbn [run exists_version data]. unfold query_version. rewrite Hv.
    destruct (bool_decide_reflect (e.1 ∈ first_names k)) as [Hin|Hin].
    { apply (first_names_lookup k j) in Hin; [|done].
      destruct (IH (Datatypes.S n) (Datatypes.S j) k d) as (d' & -> & Hc); [done|lia|done..|].
      exists d'. split; [do 2 f_equal; lia|done]. }
    assert (k = j) as -> by (rewrite (first_names_lookup k j) in Hin by done; lia).
    destruct (scripts_run Hrun j _ Hf) as (text & -> & Hs1 & Hs2).
    assert (Hs : script text (contents d) = Some (after (Datatypes.S j))).
    { destruct Hb as [E|[_ E]]; by rewrite E. }
    rewrite run_bind. cbn [run exec]. unfold run_stmt. cbn [run_data data]. rewrite Hs.
    cbn [mbind option_bind run_locks holders]. rewrite run_bind. cbn [run exec]. unfold run_stmt.
    cbn [run_data data versions]. rewrite Hv. cbn [mbind option_bind]. rewrite decide_False by done.
    cbn [mbind option_bind run_locks holders contents]. rewrite <- (first_names_S j _ Hf).
    destruct (IH (3 + n)%nat (Datatypes.S j) (Datatypes.S j)
      (mkDatabase (after (Datatypes.S j)) (Some (first_names (Datatypes.S j))))) as (d' & E & Hc);
      [done|lia|by left|done|].
    exists d'. split; [|done]. etransitivity; [exact E|]. do 2 f_equal; lia.
Qed.

(** C13.  A run by itself ends and succeeds: with no one holding the lock it asks once for every
      migration, sends two more statements for each one not recorded (none when all are),
      and returns no error with all of them, the SQL files of the directory by name, applied.
      The lock is free again when lock
      and unlock went over the same connection; but the statements go to the pool, and
      when the unlock is sent over another connection the lock stays, and every other
      instance waits. *)
Theorem Migrate_completes d k i conn n :
  (k ≤ length files)%nat → between k d →
  versions d = Some (first_names k) ∨ k = 0%nat ∧ versions d = None →
  let n' := (n + 3 + length files + 2 * (length files - k))%nat in
  (StronglySorted str_le files ∧ ∀ f, f ∈ files ↔ (f, false) ∈ entries ∧ HasSuffix f ".sql" = true) ∧
  ∃ d' hs, run script i conn n (Migrate fs) (mkServer d []) = (n', mkServer d' hs, None) ∧
    complete d' ∧
    if decide (conn n = conn (n' - 1)%nat) then hs = []
    else ∀ c, c ≠ (i, conn n) → blocked c (Lock lockID) (mkServer d' hs) = true.
Proof.
  intros Hk Hb Hv n'. split; [apply files_spec|]. unfold Migrate. rewrite run_bind. cbn [run exec]. unfold run_stmt.
  cbn [run_data data mbind option_bind run_locks holders]. unfold finish. rewrite run_bind.
  unfold locked. rewrite run_bind. cbn [run exec]. unfold run_stmt.
  cbn [run_data data mbind option_bind run_locks holders].
  assert (default ∅ (versions d) = first_names k) as -> by (destruct Hv as [-> |[-> ->]]; done).
  rewrite (dir_read Hrun).
  destruct (run_entries i conn (2 + n) (sort_Slice by_name entries) 0 k
    (mkDatabase (contents d) (Some (first_names k))) [(lockID, (i, conn n))]) as (d' & E & Hc);
    [done|lia|done..|].
  match goal with |- context [run script i conn ?m (apply_entries fs ?es) ?s] =>
    rewrite (E : run script i conn m (apply_entries fs es) s = _) end.
  assert (En : (2 + n + (length files - 0) + 2 * (length files - k))%nat = (n' - 1)%nat) by (unfold n'; lia).
  rewrite En, run_bind. cbn [run exec]. unfold run_stmt.
  cbn [run_data data mbind option_bind run_locks holders release mret prog_ret run].
  exists d'. replace (Datatypes.S (n' - 1)) with n' by (unfold n'; lia).
  destruct (decide (conn n = conn (n' - 1)%nat)) as [Hsame|Hother].
  - exists []. split; [|done]. by rewrite decide_True by (by rewrite Hsame).
  - exists [(lockID, (i, conn n))]. split; [by rewrite decide_False by congruence|]. split; [done|].
    intros c Hne. cbn. by rewrite bool_decide_eq_true_2 by congruence.
Qed.
End MigrateProofs.

(** * The theorems at work

    The four files of the repository; in place of PostgreSQL, a script leaves its mark once. *)
Section MigrateWitnesses.
Import Migrations MemOrder.

Definition the_files : list string :=
  ["001_initial_schema.sql"; "002_optional_timescaledb.sql"; "003_rollup_tables.sql"; "004_tenants.sql"].

Definition the_dir : list (string * bool) := reverse (map (λ f, (f, false)) the_files).

Definition embedded : FS :=
  mkFS (inr the_dir) (λ path, inr (String.substring 11 (String.length path) path)).

Definition mark (text : string) (l : list string) : option (list string) :=
  Some (if decide (text ∈ l) then l else l ++ [text]).

Definition marked (k : nat) : list string := take k the_files.

Lemma the_files_sorted : files the_dir = the_files.
Proof. vm_compute. reflexivity. Qed.

Lemma embedded_runnable : runnable mark embedded the_dir marked.
Proof.
  split.
  - reflexivity.
  - apply (bool_decide_unpack _). vm_compute. exact I.
  - intros k f. rewrite the_files_sorted. intros Hf.
    destruct k as [|[|[|[|k]]]]; [injection Hf as <-..|done];
      (eexists; split; [reflexivity|]; split; vm_compute; reflexivity).
Qed.

(** Three migrations are recorded. *)
Definition three_done : database (list string) :=
  mkDatabase (marked 3) (Some (list_to_set (take 3 the_files))).

Lemma three_between : between the_dir marked 3 three_done.
Proof. left. reflexivity. Qed.

Lemma three_recorded : versions three_done = Some (first_names the_dir 3).
Proof. unfold first_names. by rewrite the_files_sorted. Qed.

Lemma Migrate_completes_witness :
  ∃ d' hs, run mark 0 (λ _, 0%nat) 0 (Migrate embedded) (mkServer three_done []) = (9%nat, mkServer d' hs, None) ∧
    complete the_dir marked d' ∧ hs = [].
Proof.
  assert (Hl : length (files the_dir) = 4%nat) by (by rewrite the_files_sorted).
  destruct (Migrate_completes mark embedded the_dir marked embedded_runnable three_done 3 0 (λ _, 0%nat) 0)
    as (_ & d' & hs & E & Hc & Hh).
  - rewrite Hl. lia.
  - exact three_between.
  - left. exact three_recorded.
  - rewrite Hl in E. exists d', hs. split; [exact E|]. split; [exact Hc|]. exact Hh.
Defined.

Lemma embedded_repeats k f text j :
  files the_dir !! k = Some f → ReadFile embedded ("migrations/" +:+ f) = inr text →
  (k < j ≤ length (files the_dir))%nat →
  mark text (marked j) = None ∨ mark text (marked j) = Some (marked j).
Proof.
  rewrite the_files_sorted. intros Hf Ht Hj. right. cbn [length the_files] in Hj.
  destruct k as [|[|[|[|k]]]]; [injection Hf as <-..|done]; injection Ht as <-;
    destruct j as [|[|[|[|[|j]]]]]; try lia; vm_compute; reflexivity.
Qed.

(** Connections may be closed at any time. *)
Definition any_closes (_ : world (list string)) (_ : session) : Prop := True.

#[local] Ltac ok_step i c :=
  eapply rtc_l; [eapply (Step_ok _ _ _ _ _ i c); [reflexivity|vm_compute; reflexivity|vm_compute; reflexivity]|].
#[local] Ltac ask_step i := eapply rtc_l; [eapply (Step_ask _ _ _ _ i); reflexivity|].

(** The pool closes the connection that holds the lock, and two instances migrate at once. *)
Lemma two_migrate_at_once :
  ∃ st p p', rtc (step mark any_closes) (mkServer three_done [], replicate 2 (Migrate embedded)) (st, [p; p']) ∧
    inside p ∧ inside p'.
Proof.
  eexists _, _, _. split.
  - ok_step 0%nat 7%nat.
    eapply rtc_l; [eapply (Step_close _ _ _ _ 0%nat 7%nat); exact I|].
    ok_step 1%nat 0%nat. exact (rtc_refl _ _).
  - split; by exists (locked embedded).
Qed.

(** Then one gets a version recorded before the other, which fails; all migrations have run. *)
Lemma concurrent_migrations_witness :
  ∃ st e, rtc (step mark any_closes) (mkServer three_done [], replicate 2 (Migrate embedded))
    (st, [Return None; Return (Some e)]) ∧
    complete the_dir marked (data st).
Proof.
  assert (Hruns : ∃ st e, rtc (step mark any_closes) (mkServer three_done [], replicate 2 (Migrate embedded))
    (st, [Return None; Return (Some e)])).
  { eexists _, _. ok_step 0%nat 7%nat.
    eapply rtc_l; [eapply (Step_close _ _ _ _ 0%nat 7%nat); exact I|].
    ok_step 1%nat 0%nat. ok_step 0%nat 0%nat. do 4 ask_step 0%nat. ok_step 1%nat 0%nat. do 4 ask_step 1%nat.
    ok_step 0%nat 0%nat. ok_step 1%nat 0%nat. ok_step 0%nat 0%nat.
    eapply rtc_l; [eapply (Step_err _ _ _ _ 1%nat _ _ "duplicate key"); reflexivity|].
    ok_step 0%nat 0%nat. ok_step 1%nat 0%nat. exact (rtc_refl _ _). }
  destruct Hruns as (st & e & Hruns). exists st, e. split; [exact Hruns|].
  refine (proj1 (proj2 (concurrent_migrations mark embedded the_dir marked embedded_runnable embedded_repeats
    any_closes three_done 2 st _ _ Hruns)) 0%nat _).
  - exists 3%nat. rewrite the_files_sorted. split; [cbn; lia|]. split; [exact three_between|].
    left. exact three_recorded.
  - reflexivity.
Defined.
End MigrateWitnesses.
