(* ===== verification/Collector.v ===== *)
(** The collector, internal/collector/collector.go: the parsers of Netdata's JSON
    and Prometheus answers and [Collect], which tries the one and falls back to the other.

    The syntax of JSON is read by encoding/json into [json] (the class
    [Environment]); what [Unmarshal] does with the value for the types the
    program declares is modelled here. *)

From Stdlib Require Import Ascii SpecFloat.
From S2P Require Import Prelude GoInt GoFloat GoTime GoString GoScan Store.

(** ** JSON values; an object keeps its members in order *)
Inductive json :=
| JNull
| JBool (b : bool)
| JNum (f : float64)
| JStr (s : string)
| JArr (l : list json)
| JObj (l : list (string * json)).

(** ** UTF-8

    The width of the rune at the start of a string; 0 when the bytes are not a valid
    encoding (a range loop then yields U+FFFD and moves on by one byte). *)
Definition byte_in (lo hi : Z) (s : string) (i : nat) : bool :=
  match String.get i s with
  | Some a => let n := Z.of_nat (nat_of_ascii a) in (lo <=? n) && (n <=? hi)
  | None => false
  end.

Definition rune_width (s : string) : nat :=
  let cont := byte_in 0x80 0xBF s in
  if byte_in 0 0x7F s 0 then 1
  else if byte_in 0xC2 0xDF s 0 && cont 1%nat then 2
  else if byte_in 0xE0 0xE0 s 0 && byte_in 0xA0 0xBF s 1 && cont 2%nat then 3
  else if byte_in 0xED 0xED s 0 && byte_in 0x80 0x9F s 1 && cont 2%nat then 3
  else if byte_in 0xE1 0xEF s 0 && negb (byte_in 0xED 0xED s 0) && cont 1%nat && cont 2%nat then 3
  else if byte_in 0xF0 0xF0 s 0 && byte_in 0x90 0xBF s 1 && cont 2%nat && cont 3%nat then 4
  else if byte_in 0xF1 0xF3 s 0 && cont 1%nat && cont 2%nat && cont 3%nat then 4
  else if byte_in 0xF4 0xF4 s 0 && byte_in 0x80 0x8F s 1 && cont 2%nat && cont 3%nat then 4
  else 0.

Definition replacement : string := bs [0xEF; 0xBF; 0xBD]%nat.

(** The runes of a string, each encoded again. *)
Fixpoint runes (fuel : nat) (s : string) : list string :=
  match fuel, s with
  | S fuel', String _ s' =>
      match rune_width s with
      | O => replacement :: runes fuel' s'
      | w => stake w s :: runes fuel' (sdrop w s)
      end
  | _, _ => []
  end.

Module Collector.

(** [Collector]; the HTTP client is the environment's. *)
Record Collector := mkCollector {
  baseURL : string;
  apiKey : string;
  nodeID : string;
  contexts : list string;
  interval : Z;
}.

Definition New (baseURL apiKey nodeID : string) (contexts : list string) (intervalSec : Z) : Collector :=
  mkCollector (TrimRight baseURL "/") apiKey nodeID contexts intervalSec.

(** ** The Prometheus text format *)

(** [parseFloat]. *)
Definition parseFloat (s : string) : option float64 :=
  let s := TrimSpace s in
  if String.eqb s "+Inf" || String.eqb s "Inf" then None
  else if String.eqb s "-Inf" then None
  else if String.eqb s "NaN" then None
  else Sscanf_f s.

Definition dquote : ascii := "034".

(** The loop of [splitLabels]: the labels so far, the one being read, and whether it is
    inside quotes and after a backslash. *)
Record label_state := mkLS {
  ls_result : list string;
  ls_current : string;
  ls_inQuote : bool;
  ls_escaped : bool;
}.

Definition splitLabels_step (st : label_state) (ch : string) : label_state :=
  let '(mkLS result current inQuote escaped) := st in
  if escaped then mkLS result (current +:+ ch) inQuote false
  else if String.eqb ch "\" then mkLS result (current +:+ ch) inQuote true
  else if String.eqb ch (String dquote "") then mkLS result (current +:+ ch) (negb inQuote) false
  else if String.eqb ch "," && negb inQuote then
    if 0 <? slen current then mkLS (result ++ [current]) "" inQuote false
    else mkLS result current inQuote false
  else mkLS result (current +:+ ch) inQuote false.

Definition splitLabels (s : string) : list string :=
  let st := fold_left splitLabels_step (runes (String.length s) s) (mkLS [] "" false false) in
  if 0 <? slen (ls_current st) then ls_result st ++ [ls_current st] else ls_result st.

(** [prometheusNameToContext]. *)
Definition prometheusNameToContext (name : string) : string :=
  let name := fold_left TrimSuffix ["_average"; "_total"; "_sum"] name in
  let fix strip (suffixes : list string) : string :=
    match suffixes with
    | [] => name
    | suffix :: rest => if HasSuffix name suffix then TrimSuffix name suffix else strip rest
    end in
  strip ["_percentage"; "_bytes"; "_kilobytes"; "_megabytes";
         "_seconds"; "_operations"; "_requests"; "_count"].

(** One label [key=value] of a line. *)
Definition set_label (s : MetricSample) (pair : string) : MetricSample :=
  let eqIdx := IndexByte pair "=" in
  if eqIdx <? 0 then s
  else
    let key := TrimSpace (stake (Z.to_nat eqIdx) pair) in
    let val := Trim (TrimSpace (sdrop (Z.to_nat eqIdx + 1) pair)) dquote in
    let '(mkSample nid t ctx chart fam inst dim u v labels) := s in
    let labels := Some (<[key := val]> (default ∅ labels)) in
    if String.eqb key "chart" then mkSample nid t ctx val fam inst dim u v labels
    else if String.eqb key "family" then mkSample nid t ctx chart val inst dim u v labels
    else if String.eqb key "dimension" then mkSample nid t ctx chart fam inst val u v labels
    else if String.eqb key "instance" then mkSample nid t ctx chart fam val dim u v labels
    else if String.eqb key "units" then mkSample nid t ctx chart fam inst dim val v labels
    else mkSample nid t ctx chart fam inst dim u v labels.

Definition set_Context (s : MetricSample) (c : string) : MetricSample :=
  mkSample (NodeID s) (CollectedAt s) c (Chart s) (Family s) (Instance_ s) (Dimension s) (Unit_ s)
    (Value s) (Labels s).
Definition set_Dimension (s : MetricSample) (d : string) : MetricSample :=
  mkSample (NodeID s) (CollectedAt s) (Context_ s) (Chart s) (Family s) (Instance_ s) d (Unit_ s)
    (Value s) (Labels s).
Definition set_Value (s : MetricSample) (v : float64) : MetricSample :=
  mkSample (NodeID s) (CollectedAt s) (Context_ s) (Chart s) (Family s) (Instance_ s) (Dimension s)
    (Unit_ s) v (Labels s).

(** [parsePrometheusLine]; [None] is the result [false]. *)
Definition parsePrometheusLine (line nodeID : string) (collectedAt : Z) : option MetricSample :=
  let sample := mkSample nodeID collectedAt "" "" "" "" "" "" f64_zero (Some ∅) in
  let labelStart := IndexByte line "{" in
  let labelEnd := IndexByte line "}" in
  let parsed :=
    if (0 <=? labelStart) && (labelStart <? labelEnd) then
      let metricName := stake (Z.to_nat labelStart) line in
      let labelsStr := stake (Z.to_nat (labelEnd - (labelStart + 1)))
                         (sdrop (Z.to_nat (labelStart + 1)) line) in
      let valueStr := TrimSpace (sdrop (Z.to_nat (labelEnd + 1)) line) in
      Some (metricName, valueStr, fold_left set_label (splitLabels labelsStr) sample)
    else
      match Fields line with
      | metricName :: valueStr :: _ => Some (metricName, valueStr, sample)
      | _ => None
      end in
  '(metricName, valueStr, sample) ← parsed;
  let sample := set_Context sample (prometheusNameToContext metricName) in
  let sample := if String.eqb (Dimension sample) "" then set_Dimension sample metricName else sample in
  val ← parseFloat valueStr;
  Some (set_Value sample val).

(** The prefixes of [enabledSet]; the loop over the map asks whether any of them fits. *)
Definition enabledSet (contexts : list string) : list string :=
  flat_map (λ ctx, ["netdata_" +:+ ReplaceByte ctx "." "_"; ctx]) contexts.

Definition newline : ascii := "010".

(** The loop of [parsePrometheusResponse] over the lines. *)
Fixpoint prometheus_lines (c : Collector) (collectedAt : Z) (lines : list string) : list MetricSample :=
  match lines with
  | [] => []
  | line :: lines =>
      let rest := prometheus_lines c collectedAt lines in
      let line := TrimSpace line in
      if String.eqb line "" || HasPrefix line "#" then rest
      else
        match parsePrometheusLine line (nodeID c) collectedAt with
        | None => rest
        | Some sample =>
            if existsb (HasPrefix (Context_ sample)) (enabledSet (contexts c))
            then sample :: rest else rest
        end
  end.

Definition parsePrometheusResponse (c : Collector) (body : string) (collectedAt : Z)
    : list MetricSample :=
  prometheus_lines c collectedAt (Split body newline).

(** ** The JSON formats *)

(** [toFloat64] of a decoded value. *)
Definition toFloat64 (v : json) : option float64 :=
  match v with JNum f => Some f | _ => None end.

(** [Unmarshal] into a list, a map of strings, a string: null leaves the zero value, a
    value of another type is an error. *)
Definition as_string (v : json) : option string :=
  match v with JStr s => Some s | JNull => Some "" | _ => None end.

Definition as_list (v : json) : option (list json) :=
  match v with JArr l => Some l | JNull => Some [] | _ => None end.

Definition as_string_map (v : json) : option (option (gmap string string)) :=
  match v with
  | JNull => Some None
  | JObj l =>
      m ← foldr (λ kv acc, m ← acc; s ← as_string kv.2; Some (<[kv.1 := s]> m)) (Some ∅) (rev l);
      Some (Some m)
  | _ => None
  end.

(** The members of an object that go into the struct field [name]: matched without
    regard to (ASCII) case. *)
Definition field (name : string) (l : list (string * json)) : list json :=
  map snd (List.filter (λ kv, String.eqb (lower_ascii kv.1) name) l).

(** An entry of the grouped answer. *)
Record entry := mkEntry { e_labels : option (gmap string string); e_point : list json }.

(** A member that occurs again overwrites the field (labels: adds to the map). *)
Definition as_entry (v : json) : option entry :=
  match v with
  | JNull => Some (mkEntry None [])
  | JObj l =>
      labels ← foldl (λ acc v, m ← acc; m' ← as_string_map v;
                        Some (match m' with None => None | Some m' => Some (m' ∪ default ∅ m) end))
                 (Some None) (field "labels" l);
      point ← foldl (λ acc v, _ ← acc; as_list v) (Some []) (field "point" l);
      Some (mkEntry labels point)
  | _ => None
  end.

(** Strategy 1: the [result] map. *)
Definition as_grouped (v : json) : option (gmap string entry) :=
  match v with
  | JNull => Some ∅
  | JObj l =>
      foldl (λ acc v, m ← acc;
        match v with
        | JNull => Some ∅
        | JObj es => foldl (λ acc kv, m ← acc; e ← as_entry kv.2; Some (<[kv.1 := e]> m)) (Some m) es
        | _ => None
        end) (Some ∅) (field "result" l)
  | _ => None
  end.

(** Strategy 2: column labels and rows. *)
Definition as_flat (v : json) : option (list string * list (list json)) :=
  match v with
  | JNull => Some ([], [])
  | JObj l =>
      labels ← foldl (λ acc v, _ ← acc; l ← as_list v; mapM as_string l) (Some []) (field "labels" l);
      data ← foldl (λ acc v, _ ← acc; l ← as_list v; mapM as_list l) (Some []) (field "data" l);
      Some (labels, data)
  | _ => None
  end.

(** Strategy 3: a list of objects. *)
Definition as_object (v : json) : option (gmap string json) :=
  match v with
  | JNull => Some ∅
  | JObj l => Some (foldl (λ m kv, <[kv.1 := kv.2]> m) ∅ l)
  | _ => None
  end.

Definition as_objects (v : json) : option (list (gmap string json)) :=
  match v with
  | JNull => Some []
  | JArr l => mapM as_object l
  | _ => None
  end.

(** [time.Unix(sec, 0)]: the seconds since the year 1 are an int64. *)
Definition time_Unix (sec : Z) : Z := (i64 (sec + 62135596800) - 62135596800) * Second.

Definition grouped_sample (c : Collector) (collectedAt : Z) (p : string * entry)
    : option MetricSample :=
  let '(key, e) := p in
  match e_point e with
  | [] => None
  | v :: _ =>
      val ← toFloat64 v;
      let part (i : nat) := TrimSpace (default "" (SplitN 4 key "," !! i)) in
      let context := part 0%nat in
      let dimension := part 1%nat in
      if negb (String.eqb context "") && negb (String.eqb dimension "")
      then Some (mkSample (nodeID c) collectedAt context "" "" (part 3%nat) dimension "" val (e_labels e))
      else None
  end.

Definition flat_row (c : Collector) (collectedAt : Z) (labels : list string) (row : list json)
    : list MetricSample :=
  match row with
  | t :: (_ :: _) as row' =>
      let ts :=
        match toFloat64 t with
        | Some tsFloat => if fgtb tsFloat f64_zero then time_Unix (f64_to_int tsFloat) else collectedAt
        | None => collectedAt
        end in
      omap (λ p : string * json, val ← toFloat64 p.2;
              Some (mkSample (nodeID c) ts "unknown" "" "" "" p.1 "" val None))
        (zip (tail labels) (tail row))
  | _ => []
  end.

Definition object_sample (c : Collector) (collectedAt : Z) (obj : gmap string json)
    : option MetricSample :=
  let str k := match obj !! k with Some (JStr s) => s | _ => "" end in
  let value := match obj !! "value" with Some v => default f64_zero (toFloat64 v) | None => f64_zero end in
  if negb (String.eqb (str "context") "") && negb (String.eqb (str "dimension") "")
  then Some (mkSample (nodeID c) collectedAt (str "context") (str "chart") (str "family")
               (str "instance") (str "dimension") (str "unit") value None)
  else None.

(** What the collector uses of the outside: the order in which a range loop visits a
    map, the JSON syntax ([json_parse] of a whole text as in [Unmarshal], [json_decode] of the first
    value of a stream as in [Decoder.Decode], whatever follows it), the HTTP client (a GET with
    an Authorization header: status and body, or an error), and the clock. *)
Class Environment := {
  map_range : ∀ {A}, gmap string A → list (string * A);
  json_parse : string → option json;
  json_decode : string → option json;
  http_state : Type;
  http_get : http_state → string → string → http_state * (string + (Z * string));
  url_QueryEscape : string → string;
}.

Section Collect.
Context `{EN : Environment}.

(** [parseJSONResponse]: the three strategies in turn. *)
Definition parseJSONResponse (c : Collector) (body : string) (collectedAt : Z)
    : string + list MetricSample :=
  let unmarshal {A} (f : json → option A) : option A := v ← json_parse body; f v in
  let fail := inl ("could not parse JSON response (body length: " +:+ fmt_d (slen body) +:+ ")") in
  let strategy3 :=
    match unmarshal as_objects with
    | Some ((_ :: _) as objects) => inr (omap (object_sample c collectedAt) objects)
    | _ => fail
    end in
  let strategy2 :=
    match unmarshal as_flat with
    | Some ((_ :: _) as labels, (_ :: _) as data) =>
        inr (flat_map (flat_row c collectedAt labels) data)
    | _ => strategy3
    end in
  match unmarshal as_grouped with
  | Some result =>
      if (0 <? size result)%nat
      then inr (omap (grouped_sample c collectedAt) (map_range result))
      else strategy2
  | None => strategy2
  end.

(** [doGet]: a status other than 200 is an error that quotes 512 bytes of the body; a
    body is cut at 50 MiB. *)
Definition doGet (c : Collector) (rawURL : string) (h : http_state)
    : http_state * (string + string) :=
  let auth := if String.eqb (apiKey c) "" then "" else "Bearer " +:+ apiKey c in
  match http_get h rawURL auth with
  | (h', inl e) => (h', inl e)
  | (h', inr (status, body)) =>
      if negb (status =? 200)
      then (h', inl ("HTTP " +:+ fmt_d status +:+ ": " +:+ stake 512 body))
      else (h', inr (if 50 * 1024 * 1024 <? slen body then stake (Z.to_nat (50 * 1024 * 1024)) body
                     else body))
  end.

Definition json_url (c : Collector) : string :=
  baseURL c +:+ "/api/v3/data?contexts=" +:+ url_QueryEscape (Join (contexts c) ",") +:+
  "&after=-" +:+ fmt_d (interval c) +:+
  "&points=1&time_group=avg&group_by=dimension,node,instance&format=json".

Definition collectJSON (c : Collector) (now : Z) (h : http_state)
    : http_state * (list MetricSample * option string) :=
  match doGet c (json_url c) h with
  | (h', inl e) => (h', ([], Some ("querying JSON API: " +:+ e)))
  | (h', inr body) =>
      match parseJSONResponse c body now with
      | inl e => (h', ([], Some e))
      | inr ss => (h', (ss, None))
      end
  end.

Definition collectPrometheus (c : Collector) (now : Z) (h : http_state)
    : http_state * (list MetricSample * option string) :=
  match doGet c (baseURL c +:+ "/api/v3/allmetrics?format=prometheus&source=average") h with
  | (h', inl e) => (h', ([], Some ("querying Prometheus API: " +:+ e)))
  | (h', inr body) => (h', (parsePrometheusResponse c body now, None))
  end.

(** [Collect], with the clock readings of the two parsers. *)
Definition Collect (c : Collector) (now1 now2 : Z) (h : http_state)
    : http_state * (list MetricSample * option string) :=
  match collectJSON c now1 h with
  | (h', (_, Some _)) => collectPrometheus c now2 h'
  | (h', (samples, None)) =>
      if zlen samples =? 0 then collectPrometheus c now2 h' else (h', (samples, None))
  end.

(** [ResolveNodeID]: the configured id, else what /api/v1/info says (uid before
    hostname), else the host's name.  The collector remembers the answer. *)
Definition ResolveNodeID (c : Collector) (os_Hostname : string + string) (h : http_state)
    : http_state * Collector * (string + string) :=
  let set id := mkCollector (baseURL c) (apiKey c) id (contexts c) (interval c) in
  let fallback h :=
    match os_Hostname with
    | inl e => (h, c, inl ("resolving node ID: " +:+ e))
    | inr hostname => (h, set hostname, inr hostname)
    end in
  if negb (String.eqb (nodeID c) "") then (h, c, inr (nodeID c))
  else
    let auth := if String.eqb (apiKey c) "" then "" else "Bearer " +:+ apiKey c in
    match http_get h (baseURL c +:+ "/api/v1/info") auth with
    | (h', inl _) => fallback h'
    | (h', inr (status, body)) =>
        if negb (status =? 200) then fallback h'
        else
          let str name l := foldl (λ acc v, s ← acc; match v with JNull => Some s | _ => as_string v end)
                              (Some "") (field name l) in
          let info :=
            match json_decode body with
            | Some (JObj l) => h ← str "hostname" l; u ← str "uid" l; Some (h, u)
            | Some JNull => Some ("", "")
            | _ => None
            end in
          match info with
          | Some (hostname, uid) =>
              if negb (String.eqb uid "") then (h', set uid, inr uid)
              else if negb (String.eqb hostname "") then (h', set hostname, inr hostname)
              else fallback h'
          | None => fallback h'
          end
    end.
End Collect.
End Collector.

(** * The Prometheus text the parser is meant to read *)
Module PromSpec.

Definition quoted (s : string) : string := String Collector.dquote (s +:+ String Collector.dquote "").

Definition render_label (kv : string * string) : string := kv.1 +:+ "=" +:+ quoted kv.2.

Definition render_line (name : string) (labels : list (string * string)) (value : string) : string :=
  name +:+ "{" +:+ Join (map render_label labels) "," +:+ "} " +:+ value.

(** Letters, digits, underscore, colon, point, dash, slash: what names are made of. *)
Definition name_byte (a : ascii) : bool :=
  let n := nat_of_ascii a in
  (Nat.leb 48 n && Nat.leb n 58) || (Nat.leb 65 n && Nat.leb n 90) || (Nat.leb 97 n && Nat.leb n 122) ||
  ascii_eqb a "_" || ascii_eqb a "." || ascii_eqb a "-" || ascii_eqb a "/".

Definition name_ok (s : string) : bool := negb (String.eqb s "") && all_bytes name_byte s.

(** Label values: printable ASCII without quotes, backslashes and closing braces. *)
Definition value_byte (a : ascii) : bool :=
  let n := nat_of_ascii a in
  (Nat.leb 32 n && Nat.leb n 126) && negb (ascii_eqb a Collector.dquote) && negb (ascii_eqb a "\") &&
  negb (ascii_eqb a "}").

Definition label_ok (kv : string * string) : bool := name_ok kv.1 && all_bytes value_byte kv.2.

(** The sample of a line: every label is kept, and some of them are fields too. *)
Definition sample_for (nodeID : string) (t : Z) (name : string) (labels : list (string * string))
    (v : float64) : MetricSample :=
  let m := fold_left (λ m kv, <[kv.1 := kv.2]> m) labels (∅ : gmap string string) in
  let get k := default "" (m !! k) in
  mkSample nodeID t (Collector.prometheusNameToContext name) (get "chart") (get "family")
    (get "instance") (if String.eqb (get "dimension") "" then name else get "dimension")
    (get "units") v (Some m).

(** A context name that one of the configured contexts covers. *)
Definition enabled (ctxs : list string) (name : string) : Prop :=
  Exists (λ ctx, HasPrefix name ctx = true ∨
                 HasPrefix name ("netdata_" +:+ ReplaceByte ctx "." "_") = true) ctxs.
#[export] Instance enabled_dec ctxs name : Decision (enabled ctxs name).
Proof. apply Exists_dec. intros ctx. apply _. Defined.

End PromSpec.

Section PromRoundTrip.
Import Collector PromSpec.
#[local] Arguments String.append : simpl nomatch.

Lemma all_bytes_impl (f g : ascii → bool) s :
  (∀ a, f a = true → g a = true) → all_bytes f s = true → all_bytes g s = true.
Proof.
  intros Hfg. induction s as [|a s IH]; [done|]. cbn.
  intros [H1 H2]%andb_true_iff. by rewrite Hfg, IH.
Qed.

Lemma all_bytes_lacks (f : ascii → bool) c s :
  f c = false → all_bytes f s = true → lacks c s = true.
Proof.
  intros Hc. induction s as [|a s IH]; [done|]. cbn. intros [H1 H2]%andb_true_iff.
  rewrite IH by done. destruct (ascii_eqb_spec a c) as [->|]; [congruence|done].
Qed.

Lemma name_byte_visible a : name_byte a = true → visible a = true.
Proof. by destruct a as [[] [] [] [] [] [] [] []]. Qed.

Lemma name_byte_ascii a : name_byte a = true → (nat_of_ascii a < 128)%nat.
Proof. intros H. destruct a as [[] [] [] [] [] [] [] []]; try discriminate H; by apply Nat.ltb_lt. Qed.

Lemma value_byte_ascii a : value_byte a = true → (nat_of_ascii a < 128)%nat.
Proof.
  unfold value_byte. rewrite !andb_true_iff, !Nat.leb_le. lia.
Qed.

Lemma last_byte_all (f : ascii → bool) s :
  s ≠ "" → all_bytes f s = true → ∃ a, last_byte s = Some a ∧ f a = true.
Proof.
  induction s as [|a s IH]; [done|]. intros _. cbn [all_bytes]. intros [H1 H2]%andb_true_iff.
  cbn [last_byte]. destruct s as [|b s]; [by exists a|]. by apply IH.
Qed.

Lemma name_trimmed s : name_ok s = true → trimmed s = true.
Proof.
  unfold name_ok. intros [Hne Hall]%andb_true_iff. destruct s as [|a s]; [done|].
  destruct (last_byte_all name_byte (String a s) ltac:(done) Hall) as (b & Hl & Hb).
  unfold trimmed. rewrite Hl. cbn in Hall. apply andb_true_iff in Hall as [Ha _].
  by rewrite (name_byte_visible _ Ha), (name_byte_visible _ Hb).
Qed.

Lemma quoted_trimmed s : trimmed (quoted s) = true.
Proof.
  unfold trimmed, quoted. change (String dquote (s +:+ String dquote "")) with
    (String dquote s +:+ String dquote ""). by rewrite last_byte_app.
Qed.

(** Runes of ASCII are bytes. *)
Definition is_7bit (a : ascii) : bool := Nat.ltb (nat_of_ascii a) 128.

Fixpoint bytes_of (s : string) : list string :=
  match s with EmptyString => [] | String a s' => String a "" :: bytes_of s' end.

Lemma runes_ascii s fuel :
  all_bytes is_7bit s = true → (String.length s ≤ fuel)%nat → runes fuel s = bytes_of s.
Proof.
  revert fuel. induction s as [|a s IH]; intros [|fuel] Ha Hf; cbn in Hf; try done; try lia.
  cbn [all_bytes] in Ha. apply andb_true_iff in Ha as [H7 Ha]. unfold is_7bit in H7. apply Nat.ltb_lt in H7.
  cbn [runes bytes_of].
  assert (Hw : rune_width (String a s) = 1%nat).
  { assert (Hb : byte_in 0 0x7F (String a s) 0 = true).
    { unfold byte_in. cbn [String.get]. apply andb_true_iff. rewrite !Z.leb_le. lia. }
    unfold rune_width. by rewrite Hb. }
  rewrite Hw. cbn. rewrite IH by (done || lia). by destruct s.
Qed.

Lemma bytes_of_app a b : bytes_of (a +:+ b) = bytes_of a ++ bytes_of b.
Proof. induction a as [|x a IH]; cbn; [done|]. by rewrite IH. Qed.

(** Bytes that the splitter copies. *)
Lemma split_plain (f : ascii → bool) s r cur q :
  (∀ a, f a = true → a ≠ "\"%char ∧ a ≠ dquote ∧ (q = false → a ≠ ","%char)) →
  all_bytes f s = true →
  fold_left splitLabels_step (bytes_of s) (mkLS r cur q false) = mkLS r (cur +:+ s) q false.
Proof.
  intros Hf. revert cur. induction s as [|a s IH]; intros cur Hall; cbn [bytes_of fold_left].
  { by rewrite sapp_nil. }
  cbn in Hall. apply andb_true_iff in Hall as [Ha Hall]. destruct (Hf a Ha) as (H1 & H2 & H3).
  assert (Hstep : splitLabels_step (mkLS r cur q false) (String a "") =
                  mkLS r (cur +:+ String a "") q false).
  { unfold splitLabels_step. cbn [String.eqb].
    destruct (Ascii.eqb_spec a "\"); [done|]. destruct (Ascii.eqb_spec a dquote); [done|].
    destruct (Ascii.eqb_spec a ","); [|done]. destruct q; [done|]. by destruct (H3 eq_refl). }
  rewrite Hstep, IH by done. by rewrite sapp_assoc.
Qed.

Lemma split_label r kv :
  label_ok kv = true →
  fold_left splitLabels_step (bytes_of (render_label kv)) (mkLS r "" false false) =
    mkLS r (render_label kv) false false.
Proof.
  intros [Hk Hv]%andb_true_iff. destruct kv as [k v]. cbn [fst snd] in *.
  apply andb_true_iff in Hk as [_ Hk]. unfold render_label, quoted. cbn [fst snd].
  rewrite !bytes_of_app, fold_left_app.
  rewrite (split_plain name_byte); [|intros a Ha; split_and!; intros; by intros ->|done].
  cbn [bytes_of app fold_left].
  change (splitLabels_step (mkLS r ("" +:+ k) false false) "=") with
    (mkLS r (("" +:+ k) +:+ "=") false false).
  change (splitLabels_step (mkLS r (("" +:+ k) +:+ "=") false false) (String dquote "")) with
    (mkLS r ((("" +:+ k) +:+ "=") +:+ String dquote "") true false).
  rewrite (bytes_of_app v (String dquote "")), fold_left_app.
  rewrite (split_plain value_byte); [|intros a Ha; split_and!; [by intros ->..|done]|done].
  cbn. unfold splitLabels_step. cbn. f_equal. by rewrite !sapp_assoc.
Qed.

Lemma slen_pos a s : 0 <? slen (String a s) = true.
Proof. apply Z.ltb_lt. unfold slen. cbn [String.length]. lia. Qed.

Lemma split_comma r cur :
  cur ≠ "" → splitLabels_step (mkLS r cur false false) "," = mkLS (r ++ [cur]) "" false false.
Proof.
  intros Hne. unfold splitLabels_step. cbn. destruct cur as [|a cur]; [done|].
  by rewrite slen_pos.
Qed.

Lemma render_label_ne kv : render_label kv ≠ "".
Proof. unfold render_label. by destruct kv as [[|a k] v]. Qed.

Lemma split_labels_loop r kvs :
  kvs ≠ [] → Forall (λ kv, label_ok kv = true) kvs →
  fold_left splitLabels_step (bytes_of (Join (map render_label kvs) ",")) (mkLS r "" false false) =
    mkLS (r ++ map render_label (removelast kvs)) (render_label (List.last kvs ("", ""))) false false.
Proof.
  revert r. induction kvs as [|kv kvs IH]; intros r Hne Hok; [done|].
  apply Forall_cons in Hok as [Hkv Hok]. destruct kvs as [|kv' kvs].
  { cbn. rewrite split_label by done. by rewrite app_nil_r. }
  change (Join (map render_label (kv :: kv' :: kvs)) ",") with
    (render_label kv +:+ "," +:+ Join (map render_label (kv' :: kvs)) ",").
  rewrite !bytes_of_app, fold_left_app, split_label by done.
  cbn [bytes_of app fold_left]. rewrite split_comma by apply render_label_ne.
  rewrite IH by done. rewrite <- app_assoc. done.
Qed.

Lemma label_7bit kv : label_ok kv = true → all_bytes is_7bit (render_label kv) = true.
Proof.
  intros [Hk Hv]%andb_true_iff. apply andb_true_iff in Hk as [_ Hk].
  unfold render_label, quoted. rewrite all_bytes_app. cbn.
  rewrite all_bytes_app. cbn. rewrite andb_true_r. apply andb_true_iff. split.
  - eapply all_bytes_impl; [|exact Hk]. intros a Ha. apply Nat.ltb_lt. by apply name_byte_ascii.
  - eapply all_bytes_impl; [|exact Hv]. intros a Ha. apply Nat.ltb_lt. by apply value_byte_ascii.
Qed.

Lemma join_7bit kvs :
  Forall (λ kv, label_ok kv = true) kvs →
  all_bytes is_7bit (Join (map render_label kvs) ",") = true.
Proof.
  induction 1 as [|kv kvs Hkv _ IH]; [done|]. destruct kvs as [|kv' kvs].
  - by apply label_7bit.
  - change (Join (map render_label (kv :: kv' :: kvs)) ",") with
      (render_label kv +:+ "," +:+ Join (map render_label (kv' :: kvs)) ",").
    rewrite !all_bytes_app, label_7bit by done. exact IH.
Qed.

Lemma splitLabels_render kvs :
  Forall (λ kv, label_ok kv = true) kvs →
  splitLabels (Join (map render_label kvs) ",") = map render_label kvs.
Proof.
  intros Hok. destruct kvs as [|kv kvs]; [done|].
  unfold splitLabels. rewrite runes_ascii by (done || by apply join_7bit).
  rewrite split_labels_loop by done. cbn [ls_current ls_result].
  pose proof (render_label_ne (List.last (kv :: kvs) ("", ""))) as Hne.
  destruct (render_label _) as [|a l] eqn:E; [done|].
  rewrite slen_pos, <- E. change [render_label (List.last (kv :: kvs) ("", ""))] with
    (map render_label [List.last (kv :: kvs) ("", "")]).
  rewrite app_nil_l, <- map_app. f_equal. symmetry. by apply app_removelast_last.
Qed.

Lemma Trim_quoted v : lacks dquote v = true → Trim (quoted v) dquote = v.
Proof.
  intros Hv. unfold Trim, quoted. cbn [trim_left_byte].
  replace (ascii_eqb dquote dquote) with true by done.
  assert (Hl : trim_left_byte dquote (v +:+ String dquote "") =
               match v with EmptyString => "" | _ => v +:+ String dquote "" end).
  { destruct v as [|a v]; [done|]. cbn in *. apply andb_true_iff in Hv as [->%negb_true_iff _]. done. }
  rewrite Hl. destruct v as [|a v]; [done|]. revert Hv. generalize (String a v). clear.
  induction s as [|a s IH]; [done|]. cbn [lacks String.append].
  intros [Ha%negb_true_iff Hs]%andb_true_iff.
  change (String.append (String a s) (String dquote "")) with (String a (s +:+ String dquote "")).
  cbn [TrimRight]. rewrite IH by done. destruct s; [by rewrite Ha|done].
Qed.

Lemma set_label_render s kv :
  label_ok kv = true →
  set_label s (render_label kv) =
    let '(mkSample nid t ctx chart fam inst dim u v labels) := s in
    let upd k old := if String.eqb kv.1 k then kv.2 else old in
    mkSample nid t ctx (upd "chart" chart) (upd "family" fam) (upd "instance" inst)
      (upd "dimension" dim) (upd "units" u) v (Some (<[kv.1 := kv.2]> (default ∅ labels))).
Proof.
  intros [Hk Hv]%andb_true_iff. destruct kv as [k v]. cbn [fst snd] in *.
  pose proof (name_trimmed k Hk) as Hkt. apply andb_true_iff in Hk as [_ Hk].
  unfold set_label, render_label. cbn [fst snd].
  change ("=" +:+ quoted v) with (String "=" (quoted v)).
  rewrite IndexByte_first by (by eapply all_bytes_lacks; [|exact Hk]).
  pose proof (slen_nonneg k). replace (slen k <? 0) with false by lia.
  unfold slen. rewrite Nat2Z.id, stake_app, sdrop_app_plus. cbn [sdrop].
  rewrite (TrimSpace_trimmed k), (TrimSpace_trimmed (quoted v)) by (done || apply quoted_trimmed).
  rewrite Trim_quoted by (by eapply all_bytes_lacks; [|exact Hv]).
  destruct s as [nid t ctx chart fam inst dim u val labels].
  destruct (String.eqb_spec k "chart") as [->|]; [done|].
  destruct (String.eqb_spec k "family") as [->|]; [done|].
  destruct (String.eqb_spec k "dimension") as [->|]; [done|].
  destruct (String.eqb_spec k "instance") as [->|]; [done|].
  by destruct (String.eqb_spec k "units") as [->|].
Qed.
End PromRoundTrip.

Section PromLine.
Import Collector PromSpec.
#[local] Arguments String.append : simpl nomatch.

Lemma fold_set_label kvs nid t ctx chart fam inst dim u v m :
  Forall (λ kv, label_ok kv = true) kvs →
  chart = default "" (m !! "chart") → fam = default "" (m !! "family") →
  inst = default "" (m !! "instance") → dim = default "" (m !! "dimension") →
  u = default "" (m !! "units") →
  fold_left set_label (map render_label kvs) (mkSample nid t ctx chart fam inst dim u v (Some m)) =
    let m' := fold_left (λ m kv, <[kv.1 := kv.2]> m) kvs m in
    let get k := default "" (m' !! k) in
    mkSample nid t ctx (get "chart") (get "family") (get "instance") (get "dimension") (get "units")
      v (Some m').
Proof.
  intros Hok. revert chart fam inst dim u m.
  induction Hok as [|kv kvs Hkv _ IH]; intros chart fam inst dim u m -> -> -> -> ->; [done|].
  cbn [map fold_left]. rewrite set_label_render by done. cbv zeta. cbn [default].
  assert (Hget : ∀ k, (if String.eqb kv.1 k then kv.2 else default "" (m !! k)) =
                      default "" (<[kv.1 := kv.2]> m !! k)).
  { intros k. destruct (String.eqb_spec kv.1 k) as [<-|Hne].
    - by rewrite lookup_insert_eq.
    - by rewrite lookup_insert_ne. }
  apply (IH _ _ _ _ _ (<[kv.1 := kv.2]> m)); apply Hget.
Qed.

Lemma lacks_join kvs :
  Forall (λ kv, label_ok kv = true) kvs → lacks "}" (Join (map render_label kvs) ",") = true.
Proof.
  assert (Hl : ∀ kv, label_ok kv = true → lacks "}" (render_label kv) = true).
  { intros [k v] [Hk Hv]%andb_true_iff. cbn [fst snd] in *. apply andb_true_iff in Hk as [_ Hk].
    unfold render_label, quoted. cbn [fst snd]. rewrite lacks_app.
    rewrite (all_bytes_lacks name_byte _ k) by done. cbn.
    rewrite lacks_app, (all_bytes_lacks value_byte _ v) by done. done. }
  induction 1 as [|kv kvs Hkv _ IH]; [done|]. destruct kvs as [|kv' kvs]; [by apply Hl|].
  change (Join (map render_label (kv :: kv' :: kvs)) ",") with
    (render_label kv +:+ "," +:+ Join (map render_label (kv' :: kvs)) ",").
  rewrite !lacks_app, Hl by done. exact IH.
Qed.

Lemma parsePrometheusLine_parses nodeID t name labels value v :
  name_ok name = true → Forall (λ kv, label_ok kv = true) labels →
  trimmed value = true → parseFloat value = Some v →
  parsePrometheusLine (render_line name labels value) nodeID t =
    Some (sample_for nodeID t name labels v).
Proof.
  intros Hname Hok Hval Hv. apply andb_true_iff in Hname as [_ Hname].
  unfold parsePrometheusLine, render_line. set (L := Join (map render_label labels) ",").
  change ("{" +:+ L +:+ "} " +:+ value) with (String "{" (L +:+ String "}" (" " +:+ value))).
  assert (Hstart : IndexByte (name +:+ String "{" (L +:+ String "}" (" " +:+ value))) "{" = slen name)
    by (apply IndexByte_first; by eapply all_bytes_lacks; [|exact Hname]).
  assert (Hend : IndexByte (name +:+ String "{" (L +:+ String "}" (" " +:+ value))) "}" =
                 slen name + 1 + slen L).
  { change (String "{" (L +:+ String "}" (" " +:+ value))) with
      (("{" +:+ L) +:+ String "}" (" " +:+ value)).
    rewrite <- sapp_assoc, IndexByte_first.
    - rewrite !slen_app. unfold slen at 2. cbn. lia.
    - rewrite !lacks_app, (all_bytes_lacks name_byte _ name), (lacks_join labels Hok : lacks _ L = true) by done.
      done. }
  rewrite Hstart, Hend. pose proof (slen_nonneg name). pose proof (slen_nonneg L).
  replace ((0 <=? slen name) && (slen name <? slen name + 1 + slen L)) with true by lia.
  replace (slen name + 1 + slen L - (slen name + 1)) with (slen L) by lia.
  assert (H1 : stake (Z.to_nat (slen name)) (name +:+ String "{" (L +:+ String "}" (" " +:+ value))) = name).
  { unfold slen. by rewrite Nat2Z.id, stake_app. }
  assert (H2 : sdrop (Z.to_nat (slen name + 1)) (name +:+ String "{" (L +:+ String "}" (" " +:+ value)))
               = L +:+ String "}" (" " +:+ value)).
  { unfold slen. replace (Z.to_nat _) with (String.length name + 1)%nat by lia.
    by rewrite sdrop_app_plus. }
  assert (H3 : sdrop (Z.to_nat (slen name + 1 + slen L + 1))
                 (name +:+ String "{" (L +:+ String "}" (" " +:+ value))) = " " +:+ value).
  { unfold slen. replace (Z.to_nat _) with (String.length name + (1 + (String.length L + 1)))%nat by lia.
    rewrite sdrop_app_plus. cbn [sdrop Nat.add]. by rewrite sdrop_app_plus. }
  assert (H4 : stake (Z.to_nat (slen L)) (L +:+ String "}" (" " +:+ value)) = L).
  { unfold slen. by rewrite Nat2Z.id, stake_app. }
  rewrite H1, H2, H3, H4, TrimSpace_space_trimmed by done.
  unfold L. rewrite splitLabels_render, (fold_set_label labels) by done.
  cbn [mbind option_bind]. rewrite Hv. cbn [mbind option_bind]. unfold sample_for.
  set (m := fold_left _ labels ∅). unfold set_Context. cbn [Dimension].
  by destruct (String.eqb (default "" (m !! "dimension")) "").
Qed.

(** C19.  A line of the exposition format is read back: for a metric name, any number of
      labels (names of letters, digits and _:.-/, values of printable ASCII without
      quotes, backslashes and closing braces, with commas, equal signs and opening
      braces allowed) and a value that the number scanner accepts, the parser gives
      the sample with every label, the labels chart, family, dimension, instance and
      units as fields (the last of each), the metric name as the dimension where
      there is none, and the context derived from the name. *)
Theorem parsePrometheusLine_render nodeID t name labels value v :
  name_ok name = true → Forall (λ kv, label_ok kv = true) labels →
  trimmed value = true → parseFloat value = Some v →
  parsePrometheusLine (render_line name labels value) nodeID t =
    Some (sample_for nodeID t name labels v).
Proof. apply parsePrometheusLine_parses. Qed.

Lemma parsePrometheusLine_render_witness :
  parsePrometheusLine
    (render_line "netdata_system_cpu_percentage_average"
       [("chart", "system.cpu"); ("dimension", "user"); ("note", "a, b = {c")] "1.5")
    "n1" 7 =
    Some (sample_for "n1" 7 "netdata_system_cpu_percentage_average"
            [("chart", "system.cpu"); ("dimension", "user"); ("note", "a, b = {c")] (f64_ratio 3 2)).
Proof.
  apply parsePrometheusLine_render;
    [reflexivity|repeat constructor|reflexivity|vm_compute; reflexivity].
Defined.

(** A closing brace inside a value cuts the labels short, and the line is dropped or
    misread; lower-case nan and inf get past the filter of special values. *)
Example brace_in_value_drops :
  parsePrometheusLine (render_line "m" [("path", "/a}b")] "5") "n" 0 = None ∧
  option_map Value (parsePrometheusLine (render_line "m" [("a", "}9")] "5") "n" 0) = Some (f64_of_Z 9).
Proof. vm_compute. done. Qed.

Example lower_case_specials :
  parseFloat "NaN" = None ∧ parseFloat "nan" = Some S754_nan ∧
  parseFloat "-inf" = Some (S754_infinity true).
Proof. vm_compute. done. Qed.

Lemma parsePrometheusLine_fields line nid t s :
  parsePrometheusLine line nid t = Some s → NodeID s = nid ∧ CollectedAt s = t.
Proof.
  unfold parsePrometheusLine.
  assert (Hset : ∀ s pair, NodeID (set_label s pair) = NodeID s ∧
    CollectedAt (set_label s pair) = CollectedAt s).
  { intros [] pair. unfold set_label. by repeat case_match. }
  assert (Hfold : ∀ pairs s, NodeID (fold_left set_label pairs s) = NodeID s ∧
    CollectedAt (fold_left set_label pairs s) = CollectedAt s).
  { induction pairs as [|p pairs IH]; intros s0; [done|]. cbn.
    destruct (IH (set_label s0 p)) as [-> ->]. apply Hset. }
  intros H. repeat (case_match; simplify_option_eq); cbn;
    try (unfold set_Dimension, set_Context; cbn); try (split; apply Hfold); done.
Qed.

Lemma enabledSet_spec ctxs name :
  existsb (HasPrefix name) (enabledSet ctxs) = bool_decide (enabled ctxs name).
Proof.
  apply eq_true_iff_eq. rewrite bool_decide_eq_true, existsb_exists. unfold enabled.
  rewrite Exists_exists. split.
  - intros (p & (ctx & Hctx & Hp)%in_flat_map & Hpre). exists ctx.
    split; [by apply list_elem_of_In|]. destruct Hp as [<-|[<-|[]]]; auto.
  - intros (ctx & Hctx & [Hp|Hp]); eexists; (split; [apply in_flat_map; exists ctx; split;
      [by apply list_elem_of_In|]|exact Hp]); cbn; auto.
Qed.

(** C20.  Of an answer in the Prometheus format exactly the samples of the enabled contexts
      are kept: the result is, line by line and in order, the sample of every line that
      is not blank, is no comment, parses, and names a context that starts with an
      enabled one (as configured, or in Netdata's spelling: netdata_ and underscores);
      each carries the configured node and the time of the answer. *)
Theorem parsePrometheusResponse_enabled c body t :
  let samples := parsePrometheusResponse c body t in
  samples =
    omap (λ line, let line := TrimSpace line in
            if String.eqb line "" || HasPrefix line "#" then None
            else s ← parsePrometheusLine line (nodeID c) t;
                 if decide (enabled (contexts c) (Context_ s)) then Some s else None)
      (Split body newline) ∧
  Forall (λ s, NodeID s = nodeID c ∧ CollectedAt s = t) samples.
Proof.
  cbv zeta. unfold parsePrometheusResponse.
  induction (Split body newline) as [|l ls [IH1 IH2]]; [by split|].
  cbn [prometheus_lines list_omap omap]. cbv zeta. destruct (_ || _); [done|].
  destruct (parsePrometheusLine _ _ _) as [s|] eqn:E; cbn [mbind option_bind]; [|done].
  rewrite enabledSet_spec. case_decide as Hd.
  - rewrite bool_decide_true by done. split; [by f_equal|].
    constructor; [|done]. by eapply parsePrometheusLine_fields.
  - by rewrite bool_decide_false by done.
Qed.
End PromLine.

(** * [Collect] *)
Section CollectProofs.
Context `{EN : Collector.Environment}.
Import Collector.

Lemma collectPrometheus_err c now h h' ss e :
  collectPrometheus c now h = (h', (ss, Some e)) → ss = [].
Proof.
  unfold collectPrometheus. destruct (doGet _ _ _) as [h1 [e1|body]]; by intros [= <- <- <-].
Qed.

Lemma Collect_error_empty c now1 now2 h h' ss e :
  Collect c now1 now2 h = (h', (ss, Some e)) → ss = [].
Proof.
  unfold Collect. destruct (collectJSON c now1 h) as [h1 [ss1 [e1|]]].
  - apply collectPrometheus_err.
  - destruct (zlen ss1 =? 0); [apply collectPrometheus_err|done].
Qed.
End CollectProofs.
