(* ===== verification/CollectSpec.v ===== *)
(** What [Collect] of internal/collector/collector.go answers to a Netdata agent that speaks its own
    formats: the grouped JSON answer and the Prometheus exposition format as the agent writes
    them, and the samples they stand for. *)

From Stdlib Require Import Ascii SpecFloat.
From S2P Require Import Prelude GoInt GoFloat GoTime GoString GoScan Store Collector.

Module CollectSpec.
Import Collector PromSpec.

(** ** The grouped JSON answer

    One series: its labels in order, and its last value, null in a gap. *)
Record series := mkSeries {
  g_context : string;
  g_dimension : string;
  g_node : string;
  g_instance : string;
  g_labels : list (string * string);
  g_value : option float64;
}.

Definition key_of (s : series) : string :=
  g_context s +:+ "," +:+ g_dimension s +:+ "," +:+ g_node s +:+ "," +:+ g_instance s.

Definition series_json (s : series) : json :=
  JObj [("labels", JObj (map (λ kv, (kv.1, JStr kv.2)) (g_labels s)));
        ("point", JArr [match g_value s with Some v => JNum v | None => JNull end])].

Definition grouped_answer (l : list series) : json :=
  JObj [("result", JObj (map (λ s, (key_of s, series_json s)) l))].

(** Context and dimension are names, the node may be empty, the instance any text without spaces at
    its ends. *)
Definition series_ok (s : series) : Prop :=
  name_ok (g_context s) = true ∧ name_ok (g_dimension s) = true ∧
  (g_node s = "" ∨ name_ok (g_node s) = true) ∧ (g_instance s = "" ∨ trimmed (g_instance s) = true).

(** The sample a series stands for: none in a gap. *)
Definition label_map (l : list (string * string)) : gmap string string :=
  fold_left (λ m kv, <[kv.1 := kv.2]> m) l ∅.

Definition series_sample (nodeID : string) (t : Z) (s : series) : option MetricSample :=
  v ← g_value s;
  Some (mkSample nodeID t (g_context s) "" "" (g_instance s) (g_dimension s) "" v
          (Some (label_map (g_labels s)))).

(** ** The exposition format: one reading per line *)
Record reading := mkReading {
  p_name : string;
  p_labels : list (string * string);
  p_text : string;
  p_value : float64;
}.

Definition reading_ok (r : reading) : Prop :=
  name_ok (p_name r) = true ∧ Forall (λ kv, label_ok kv = true) (p_labels r) ∧
  trimmed (p_text r) = true ∧ lacks newline (p_text r) = true ∧ parseFloat (p_text r) = Some (p_value r).

Definition exposition (rs : list reading) : string :=
  Join (map (λ r, render_line (p_name r) (p_labels r) (p_text r)) rs) (String newline "").

Definition reading_sample (nodeID : string) (t : Z) (r : reading) : MetricSample :=
  sample_for nodeID t (p_name r) (p_labels r) (p_value r).

(** ** Replies *)
Definition fits (body : string) : Prop := slen body <= 50 * 1024 * 1024.

(** A JSON reply from which no sample can be had: an error, another status, a text that is not JSON,
    an empty value, or only gaps. *)
Definition no_series `{Environment} (reply : string + (Z * string)) : Prop :=
  match reply with
  | inl _ => True
  | inr (status, body) =>
      status ≠ 200 ∨
      fits body ∧ (json_parse body = None ∨ json_parse body = Some JNull ∨ json_parse body = Some (JObj []) ∨
        json_parse body = Some (JArr []) ∨
        ∃ l, json_parse body = Some (grouped_answer l) ∧ Forall (λ s, g_value s = None) l)
  end.

Definition failed (reply : string + (Z * string)) : Prop :=
  match reply with inl _ => True | inr (status, _) => status ≠ 200 end.

(** A range loop visits every entry of a map once. *)
Class RangeLaws `(EN : Environment) : Prop := {
  map_range_perm {A} (m : gmap string A) : map_range m ≡ₚ map_to_list m;
}.
End CollectSpec.

Section JsonProofs.
Import Collector PromSpec CollectSpec.

Lemma name_ok_ne s : name_ok s = true → s ≠ "".
Proof. unfold name_ok. by destruct s. Qed.

Lemma name_ok_lacks c s : name_byte c = false → name_ok s = true → lacks c s = true.
Proof. intros Hc [_ H]%andb_true_iff. by apply (all_bytes_lacks name_byte). Qed.

Lemma SplitN_first n c a b :
  lacks c a = true → SplitN (S (S n)) (a +:+ String c b) c = a :: SplitN (S n) b c.
Proof.
  intros Ha. cbn [SplitN]. rewrite IndexByte_first by done. pose proof (slen_nonneg a).
  replace (slen a <? 0) with false by lia. unfold slen. rewrite Nat2Z.id, stake_app.
  replace (Z.to_nat (Z.of_nat (String.length a) + 1)) with (String.length a + 1)%nat by lia.
  rewrite sdrop_app_plus. reflexivity.
Qed.

Lemma key_parts s : series_ok s → SplitN 4 (key_of s) "," = [g_context s; g_dimension s; g_node s; g_instance s].
Proof.
  intros (Hc & Hd & Hn & _). unfold key_of.
  assert (Hlacks : ∀ x, name_ok x = true → lacks "," x = true) by (intros; by apply name_ok_lacks).
  change ("," +:+ g_instance s) with (String "," (g_instance s)).
  change ("," +:+ g_node s +:+ String "," (g_instance s)) with (String "," (g_node s +:+ String "," (g_instance s))).
  change ("," +:+ g_dimension s +:+ String "," (g_node s +:+ String "," (g_instance s))) with
    (String "," (g_dimension s +:+ String "," (g_node s +:+ String "," (g_instance s)))).
  rewrite !SplitN_first; [done|destruct Hn as [->|Hn]; auto|auto|auto].
Qed.

Lemma as_string_map_labels l :
  as_string_map (JObj (map (λ kv, (kv.1, JStr kv.2)) l)) = Some (Some (label_map l)).
Proof.
  unfold as_string_map, label_map. assert (H : foldr (λ kv acc, m ← acc; s ← as_string kv.2; Some (<[kv.1 := s]> m)) (Some ∅)
    (rev (map (λ kv : string * string, (kv.1, JStr kv.2)) l)) =
    Some (fold_left (λ m kv, <[kv.1 := kv.2]> m) l (∅ : gmap string string))).
  { induction l as [|kv l IH] using rev_ind; [done|].
    rewrite map_app, rev_app_distr, fold_left_app. cbn [map rev app foldr]. rewrite IH. done. }
  by rewrite H.
Qed.

Lemma as_entry_series s :
  as_entry (series_json s) =
    Some (mkEntry (Some (label_map (g_labels s))) [match g_value s with Some v => JNum v | None => JNull end]).
Proof.
  unfold as_entry, series_json. set (pt := JArr _). set (lb := JObj _).
  change (field "labels" [("labels", lb); ("point", pt)]) with [lb].
  change (field "point" [("labels", lb); ("point", pt)]) with [pt].
  cbn [foldl]. unfold lb at 1. cbn [mbind option_bind]. rewrite as_string_map_labels.
  cbn [mbind option_bind default as_list pt]. by rewrite map_union_empty.
Qed.

(** The entries of the answer, as the decoder collects them. *)
Definition entry_of (s : series) : entry :=
  mkEntry (Some (label_map (g_labels s))) [match g_value s with Some v => JNum v | None => JNull end].

Lemma as_grouped_answer l :
  as_grouped (grouped_answer l) = Some (fold_left (λ m s, <[key_of s := entry_of s]> m) l ∅).
Proof.
  unfold as_grouped, grouped_answer. set (es := JObj (map _ l)).
  change (field "result" [("result", es)]) with [es]. unfold es. clear es. cbn [foldl].
  cbn [mbind option_bind]. generalize (∅ : gmap string entry). induction l as [|s l IH]; intros m; [done|].
  cbn [map foldl fold_left fst snd]. cbn [mbind option_bind]. rewrite as_entry_series.
  cbn [mbind option_bind]. apply IH.
Qed.

Lemma entries_map l :
  NoDup (map key_of l) →
  map_to_list (fold_left (λ m s, <[key_of s := entry_of s]> m) l (∅ : gmap string entry)) ≡ₚ
    map (λ s, (key_of s, entry_of s)) l.
Proof.
  induction l as [|s l IH] using rev_ind; [cbn; by rewrite map_to_list_empty|].
  rewrite !map_app, fold_left_app. cbn [map fold_left].
  intros (Hl & Hs & _)%NoDup_app. specialize (IH Hl). rewrite map_to_list_insert.
  - rewrite IH. apply (Permutation_cons_append (map (λ s, (key_of s, entry_of s)) l)).
  - apply eq_None_not_Some. intros [e He%elem_of_map_to_list]. rewrite IH in He.
    apply list_elem_of_fmap in He as (s' & [= Hk _] & Hs'). apply (Hs (key_of s)); [|by left].
    apply list_elem_of_fmap. by exists s'.
Qed.

Lemma grouped_sample_series c t s :
  series_ok s → grouped_sample c t (key_of s, entry_of s) = series_sample (nodeID c) t s.
Proof.
  intros Hok. unfold grouped_sample, entry_of, series_sample. cbn [e_point e_labels].
  rewrite (key_parts s Hok). destruct Hok as (Hc & Hd & _ & Hi). destruct (g_value s) as [v|]; [|done].
  cbn -[TrimSpace String.eqb label_map].
  rewrite (TrimSpace_trimmed _ (name_trimmed _ Hc)), (TrimSpace_trimmed _ (name_trimmed _ Hd)).
  rewrite !(proj2 (String.eqb_neq _ _)) by (by apply name_ok_ne). cbn [negb andb].
  destruct Hi as [->|Hi]; [done|by rewrite TrimSpace_trimmed].
Qed.

Context `{RL : RangeLaws}.

(** The samples of a grouped answer. *)
Lemma parseJSONResponse_grouped c body t l :
  json_parse body = Some (grouped_answer l) → l ≠ [] → Forall series_ok l → NoDup (map key_of l) →
  ∃ ss, parseJSONResponse c body t = inr ss ∧ ss ≡ₚ omap (series_sample (nodeID c) t) l.
Proof.
  intros Hp Hne Hok Hnd. unfold parseJSONResponse. rewrite Hp. cbn [mbind option_bind].
  rewrite as_grouped_answer. set (m := fold_left _ l ∅). pose proof (entries_map l Hnd) as Hm. fold m in Hm.
  assert (Hsize : (0 <? size m)%nat = true).
  { apply Nat.ltb_lt. rewrite <- length_map_to_list, Hm, length_map. destruct l; [done|cbn; lia]. }
  rewrite Hsize. eexists. split; [reflexivity|]. rewrite map_range_perm, Hm.
  clear -Hok. induction Hok as [|s l Hs _ IH]; [done|]. cbn [map omap list_omap].
  rewrite (grouped_sample_series c t s Hs). destruct (series_sample _ _ s); by rewrite IH.
Qed.

(** An answer without samples. *)
Lemma gaps_no_samples c body t l :
  json_parse body = Some (grouped_answer l) → Forall (λ s, g_value s = None) l →
  (∃ e, parseJSONResponse c body t = inl e) ∨ parseJSONResponse c body t = inr [].
Proof.
  intros Hp Hgaps. unfold parseJSONResponse. rewrite Hp. cbn [mbind option_bind].
  rewrite as_grouped_answer. set (m := fold_left _ l ∅). destruct (0 <? size m)%nat; [|left; by eexists].
  right. f_equal. assert (Hall : ∀ k e, m !! k = Some e → e_point e = [JNull]).
  { unfold m. clear m Hp. induction l as [|s l IH] using rev_ind; intros k e; [cbn; by rewrite lookup_empty|].
    apply Forall_app in Hgaps as [Hl Hs]. rewrite fold_left_app. cbn [fold_left].
    intros [[_ <-]|[_ He]]%lookup_insert_Some; [|by eapply IH]. apply Forall_cons in Hs as [Hs _].
    unfold entry_of. cbn. by rewrite Hs. }
  assert (Hr : ∀ p, p ∈ map_range m → e_point p.2 = [JNull]).
  { intros [k e] He. rewrite map_range_perm in He. apply elem_of_map_to_list in He. by eapply Hall. }
  induction (map_range m) as [|[k e] r IH]; [done|]. cbn [omap list_omap].
  assert (grouped_sample c t (k, e) = None) as ->.
  { unfold grouped_sample. pose proof (Hr (k, e) (list_elem_of_here _ _)) as Hke. cbn in Hke. by rewrite Hke. }
  apply IH. intros p Hp'. apply Hr. by right.
Qed.
End JsonProofs.

Section PrometheusProofs.
Import Collector PromSpec CollectSpec.

Lemma Split_cons c a b : lacks c a = true → Split (a +:+ String c b) c = a :: Split b c.
Proof.
  induction a as [|x a IH]; cbn [lacks].
  - intros _. change ("" +:+ String c b) with (String c b). cbn [Split]. by destruct (ascii_eqb_spec c c).
  - intros [Hx%negb_true_iff Ha]%andb_true_iff. change (String x a +:+ String c b) with (String x (a +:+ String c b)).
    cbn [Split]. by rewrite Hx, IH.
Qed.

Lemma Split_single c a : lacks c a = true → Split a c = [a].
Proof.
  induction a as [|x a IH]; [done|]. cbn [lacks]. intros [Hx%negb_true_iff Ha]%andb_true_iff.
  cbn [Split]. by rewrite Hx, IH.
Qed.

Lemma Split_Join c ls :
  ls ≠ [] → Forall (λ l, lacks c l = true) ls → Split (Join ls (String c "")) c = ls.
Proof.
  induction ls as [|l ls IH]; [done|]. intros _ [Hl Hls]%Forall_cons.
  destruct ls as [|l' ls]; [by apply Split_single|].
  change (Join (l :: l' :: ls) (String c "")) with (l +:+ String c (Join (l' :: ls) (String c ""))).
  rewrite Split_cons by done. by rewrite IH.
Qed.

Definition line_of (r : reading) : string := render_line (p_name r) (p_labels r) (p_text r).

Lemma quoted_lacks_newline v : all_bytes value_byte v = true → lacks newline (quoted v) = true.
Proof.
  intros Hv. unfold quoted. change (String dquote (v +:+ String dquote "")) with (String dquote "" +:+ (v +:+ String dquote "")).
  rewrite !lacks_app, (all_bytes_lacks value_byte newline v eq_refl Hv). reflexivity.
Qed.

Lemma labels_lack_newline kvs :
  Forall (λ kv, label_ok kv = true) kvs → lacks newline (Join (map render_label kvs) ",") = true.
Proof.
  assert (Hone : ∀ kv, label_ok kv = true → lacks newline (render_label kv) = true).
  { intros [k v] [Hk Hv]%andb_true_iff. unfold render_label. cbn [fst snd] in *.
    rewrite !lacks_app, (name_ok_lacks newline k eq_refl Hk), (quoted_lacks_newline v Hv). reflexivity. }
  induction 1 as [|kv kvs Hkv Hkvs IH]; [done|]. cbn [map]. destruct (map render_label kvs) eqn:E.
  - cbn [Join]. by apply Hone.
  - change (Join (render_label kv :: s :: l) ",") with (render_label kv +:+ "," +:+ Join (s :: l) ",").
    by rewrite !lacks_app, Hone, IH.
Qed.

Lemma line_lacks_newline r : reading_ok r → lacks newline (line_of r) = true.
Proof.
  intros (Hn & Hl & _ & Ht & _). unfold line_of, render_line.
  rewrite !lacks_app, (name_ok_lacks newline _ eq_refl Hn), (labels_lack_newline _ Hl), Ht. reflexivity.
Qed.

Lemma line_trimmed r : reading_ok r → trimmed (line_of r) = true ∧ HasPrefix (line_of r) "#" = false ∧ line_of r ≠ "".
Proof.
  intros (Hn & _ & Ht & _). unfold line_of, render_line. apply andb_true_iff in Hn as [Hne Hall].
  destruct (p_name r) as [|a name]; [done|]. cbn in Hall. apply andb_true_iff in Hall as [Ha _].
  set (rest := "{" +:+ _). change (String a name +:+ rest) with (String a (name +:+ rest)).
  assert (Hlast : last_byte (String a (name +:+ rest)) = last_byte (p_text r)).
  { assert (Hp : p_text r ≠ "") by (by destruct (p_text r)).
    change (String a (name +:+ rest)) with (String a name +:+ rest). unfold rest.
    rewrite !last_byte_app; [done|..]; try done; by destruct (Join _ _). }
  split_and!; [| |done].
  - unfold trimmed in *. destruct (p_text r) as [|b t]; [done|].
    rewrite Hlast, (name_byte_visible _ Ha). destruct (last_byte (String b t)); [|done].
    by apply andb_true_iff in Ht as [_ Ht].
  - destruct (HasPrefix _ "#") eqn:E; [|done]. apply HasPrefix_app in E as [r' E].
    injection E as -> _. discriminate Ha.
Qed.

Lemma prometheus_lines_readings c t rs :
  Forall reading_ok rs →
  prometheus_lines c t (map line_of rs) =
    base.filter (λ s, enabled (contexts c) (Context_ s)) (map (reading_sample (nodeID c) t) rs).
Proof.
  induction 1 as [|r rs Hr _ IH]; [done|]. cbn [map prometheus_lines]. rewrite IH.
  destruct (line_trimmed r Hr) as (Htr & Hhash & Hne). rewrite TrimSpace_trimmed, Hhash by done.
  rewrite (proj2 (String.eqb_neq _ _) Hne). cbn [orb].
  destruct Hr as (Hn & Hl & Ht & _ & Hv). unfold line_of.
  rewrite (parsePrometheusLine_parses (nodeID c) t (p_name r) (p_labels r) (p_text r) (p_value r) Hn Hl Ht Hv).
  rewrite enabledSet_spec, filter_cons. unfold reading_sample at 2.
  case_decide as Hd; [by rewrite bool_decide_true|by rewrite bool_decide_false].
Qed.

Lemma parsePrometheusResponse_exposition c t rs :
  Forall reading_ok rs →
  parsePrometheusResponse c (exposition rs) t =
    base.filter (λ s, enabled (contexts c) (Context_ s)) (map (reading_sample (nodeID c) t) rs).
Proof.
  intros Hrs. unfold parsePrometheusResponse, exposition. destruct rs as [|r rs]; [done|].
  rewrite Split_Join; [by apply (prometheus_lines_readings c t (r :: rs))|done|].
  apply Forall_map. eapply Forall_impl; [exact Hrs|]. intros x. apply line_lacks_newline.
Qed.
End PrometheusProofs.

(** * [Collect] *)
Section CollectAnswers.
Import Collector PromSpec CollectSpec.
Context `{RL : RangeLaws}.

Definition auth_of (c : Collector) : string := if String.eqb (apiKey c) "" then "" else "Bearer " +:+ apiKey c.
Definition prometheus_url (c : Collector) : string := baseURL c +:+ "/api/v3/allmetrics?format=prometheus&source=average".

Lemma doGet_ok c url h h' body :
  http_get h url (auth_of c) = (h', inr (200, body)) → fits body → doGet c url h = (h', inr body).
Proof.
  intros Hg Hf. unfold doGet. fold (auth_of c). rewrite Hg. cbn [Z.eqb negb Pos.eqb].
  unfold fits in Hf. by replace (50 * 1024 * 1024 <? slen body) with false by lia.
Qed.

Lemma doGet_failed c url h h' reply :
  http_get h url (auth_of c) = (h', reply) → failed reply → ∃ e, doGet c url h = (h', inl e).
Proof.
  intros Hg Hf. unfold doGet. fold (auth_of c). rewrite Hg. destruct reply as [e|[status body]]; [by eexists|].
  cbn in Hf. rewrite (proj2 (Z.eqb_neq _ _) Hf). by eexists.
Qed.

(** Without a series [Collect] is the Prometheus endpoint. *)
Lemma Collect_falls_back c now1 now2 h h1 reply :
  http_get h (json_url c) (auth_of c) = (h1, reply) → no_series reply →
  Collect c now1 now2 h = collectPrometheus c now2 h1.
Proof.
  intros Hg Hno. unfold Collect, collectJSON.
  assert (Hcases : (∃ e, doGet c (json_url c) h = (h1, inl e)) ∨ ∃ body, doGet c (json_url c) h = (h1, inr body) ∧
    ((∃ e, parseJSONResponse c body now1 = inl e) ∨ parseJSONResponse c body now1 = inr [])).
  { destruct reply as [e|[status body]]; [left; by eapply doGet_failed|]. cbn in Hno.
    destruct (decide (status = 200)) as [->|Hst]; [right|left; by eapply doGet_failed].
    destruct Hno as [?|[Hf Hp]]; [done|]. exists body. split; [by apply doGet_ok|].
    destruct Hp as [Hp|[Hp|[Hp|[Hp|(l & Hp & Hl)]]]]; [..|by eapply gaps_no_samples];
      left; unfold parseJSONResponse; rewrite Hp; by eexists. }
  destruct Hcases as [[e ->]|(body & -> & [[e ->]| ->])]; done.
Qed.

(** C21.  What a collection returns, from the replies of the agent to its samples: when the JSON
      endpoint answers 200 with a grouped answer in which some series has a value, the result is
      one sample for every series with a value (context, dimension and instance from the key, the
      labels of the series, the configured node, in any order) and the Prometheus endpoint is not asked;
      when it gives no series (an error, another status, no JSON, nothing or only gaps) the
      result is that of the Prometheus endpoint, asked after it: the
      samples of the readings of enabled contexts in order, or, when that endpoint fails too, an
      error without samples. *)
Theorem Collect_answers c now1 now2 h h1 json_reply h2 prom_reply :
  http_get h (json_url c) (auth_of c) = (h1, json_reply) →
  http_get h1 (prometheus_url c) (auth_of c) = (h2, prom_reply) →
  (∀ body l, json_reply = inr (200, body) → fits body → json_parse body = Some (grouped_answer l) →
     Forall series_ok l → NoDup (map key_of l) → ¬ Forall (λ s, g_value s = None) l →
     ∃ ss, Collect c now1 now2 h = (h1, (ss, None)) ∧ ss ≡ₚ omap (series_sample (nodeID c) now1) l) ∧
  (no_series json_reply →
     (∀ rs, prom_reply = inr (200, exposition rs) → fits (exposition rs) → Forall reading_ok rs →
        Collect c now1 now2 h =
          (h2, (base.filter (λ s, enabled (contexts c) (Context_ s)) (map (reading_sample (nodeID c) now2) rs), None))) ∧
     (failed prom_reply → ∃ e, Collect c now1 now2 h = (h2, ([], Some e)))).
Proof.
  intros Hj Hp. split.
  - intros body l -> Hf Hparse Hok Hnd Hval. assert (Hne : l ≠ []) by (intros ->; by apply Hval).
    destruct (parseJSONResponse_grouped c body now1 l Hparse Hne Hok Hnd) as (ss & Hss & Hperm).
    exists ss. split; [|done]. unfold Collect, collectJSON. rewrite (doGet_ok _ _ _ _ _ Hj Hf), Hss.
    destruct ss as [|s ss]; [|rewrite zlen_cons; pose proof (zlen_nonneg ss); by replace (1 + zlen ss =? 0) with false by lia].
    exfalso. apply Hval, Forall_forall. intros s Hs. destruct (g_value s) as [v|] eqn:Ev; [|done].
    apply Permutation_nil_l in Hperm. assert (Hin : ∃ x, series_sample (nodeID c) now1 s = Some x).
    { unfold series_sample. rewrite Ev. by eexists. }
    destruct Hin as [x Hx]. assert (x ∈ omap (series_sample (nodeID c) now1) l) as Hin by (apply list_elem_of_omap; by exists s).
    rewrite <- Hperm in Hin. by apply not_elem_of_nil in Hin.
  - intros Hno. rewrite (Collect_falls_back _ now1 now2 _ _ _ Hj Hno). unfold collectPrometheus. split.
    + intros rs -> Hf Hrs. fold (prometheus_url c). rewrite (doGet_ok _ _ _ _ _ Hp Hf).
      by rewrite parsePrometheusResponse_exposition.
    + intros Hfail. destruct (doGet_failed _ _ _ _ _ Hp Hfail) as [e He]. fold (prometheus_url c). rewrite He.
      by eexists.
Qed.
End CollectAnswers.

(** ** The two endpoints at work *)
Section CollectWitness.
Import Collector PromSpec CollectSpec.

Definition two_series : list series :=
  [mkSeries "system.cpu" "user" "n" "" [("dimension", "user")] (Some (f64_of_Z 5));
   mkSeries "disk.io" "reads" "" "sda" [] None].

(** An agent whose JSON endpoint answers [reply] and whose Prometheus endpoint has one reading. *)
Definition agent (reply : string) : Environment := {|
  map_range A m := map_to_list m;
  json_parse s := if String.eqb s "grouped" then Some (grouped_answer two_series) else None;
  json_decode s := None;
  http_state := ();
  http_get h url auth :=
    (h, inr (200, if HasSuffix url "source=average"
                  then exposition [mkReading "netdata_system_cpu_average" [("dimension", "user")] "1.5" (f64_ratio 3 2)]
                  else reply));
  url_QueryEscape s := s;
|}.

#[local] Instance agent_laws reply : RangeLaws (agent reply).
Proof. by split. Qed.

Definition some_collector : Collector := New "http://a/" "" "n1" ["system.cpu"] 10.

Lemma Collect_answers_witness :
  (∃ ss, Collect (EN := agent "grouped") some_collector 7 8 tt = (tt, (ss, None)) ∧
     ss ≡ₚ [mkSample "n1" 7 "system.cpu" "" "" "" "user" "" (f64_of_Z 5) (Some {["dimension" := "user"]})]) ∧
  Collect (EN := agent "<html>") some_collector 7 8 tt =
    (tt, ([sample_for "n1" 8 "netdata_system_cpu_average" [("dimension", "user")] (f64_ratio 3 2)], None)).
Proof.
  split.
  - destruct (Collect_answers (EN := agent "grouped") some_collector 7 8 tt tt (inr (200, "grouped")) tt
      (http_get (Environment := agent "grouped") tt (prometheus_url some_collector) "").2 eq_refl eq_refl)
      as [H _].
    destruct (H "grouped" two_series) as (ss & E & Hp).
    + reflexivity.
    + vm_compute. discriminate.
    + reflexivity.
    + repeat (apply Forall_cons; split; [split_and!; auto|]); apply Forall_nil; exact I.
    + apply (bool_decide_unpack _). vm_compute. exact I.
    + intros [Hn _]%Forall_cons. discriminate Hn.
    + exists ss. split; [exact E|]. etransitivity; [exact Hp|]. vm_compute. reflexivity.
  - destruct (Collect_answers (EN := agent "<html>") some_collector 7 8 tt tt (inr (200, "<html>")) tt
      (http_get (Environment := agent "<html>") tt (prometheus_url some_collector) "").2 eq_refl eq_refl)
      as [_ H].
    destruct H as [H _]; [right; split; [vm_compute; discriminate|left; reflexivity]|].
    etransitivity; [apply (H [mkReading "netdata_system_cpu_average" [("dimension", "user")] "1.5" (f64_ratio 3 2)])|].
    + reflexivity.
    + vm_compute. discriminate.
    + apply Forall_cons. split; [|apply Forall_nil; exact I]. split_and!; vm_compute; try reflexivity.
      apply Forall_cons. split; [reflexivity|apply Forall_nil; exact I].
    + vm_compute. reflexivity.
Defined.
End CollectWitness.
