(* ===== verification/Config.v ===== *)
(** Configuration, internal/config (config.go, pool.go, derived.go), and the settings
    that a running process reloads, internal/reload/reload.go. *)

From Stdlib Require Import Ascii SpecFloat.
From S2P Require Import Prelude GoInt GoFloat GoTime GoString GoScan RateLimit.

Module Config.

Record NodeConfig := mkNode { BaseURL : string; APIKey : string; NodeID : string }.

Record DerivedContext := mkDerived {
  DName : string;
  Expression : string;
  InputA : string;
  InputB : string;
  DUnit : string;
}.

Record PoolConfig := mkPool {
  MinConns : Z;
  MaxConns : Z;
  MaxConnLifetime : Z;
  MaxConnIdleTime : Z;
  HealthCheckPeriod : Z;
}.

Record Config := mkConfig {
  NetdataBaseURL : string;
  NetdataAPIKey : string;
  PostgresDSN : string;
  CollectionIntervalSeconds : Z;
  NodeID_ : string;
  EnabledContexts : list string;
  MCPBindAddr : string;
  LogLevel : string;
  LogFormat : string;
  RetentionDays : Z;
  MCPAuthToken : string;
  RateLimitRPS : float64;
  TLSCertFile : string;
  TLSKeyFile : string;
  Nodes : list NodeConfig;
  DerivedContexts : list DerivedContext;
  Pool : PoolConfig;
}.

Definition DefaultContexts : list string :=
  ["system.cpu"; "system.ram"; "system.swap"; "system.io"; "system.pgpgio"; "system.ip"; "disk.io";
   "disk.ops"; "disk.util"; "disk.space"; "disk.inodes"; "apps.cpu"; "apps.mem"].

Definition DefaultPoolConfig : PoolConfig :=
  mkPool 2 10 (30 * Minute) (5 * Minute) (30 * Second).

Definition Defaults : Config :=
  {| NetdataBaseURL := "http://localhost:19999";
     NetdataAPIKey := "";
     PostgresDSN := "";
     CollectionIntervalSeconds := 60;
     NodeID_ := "";
     EnabledContexts := DefaultContexts;
     MCPBindAddr := "127.0.0.1:8765";
     LogLevel := "info";
     LogFormat := "text";
     RetentionDays := 30;
     MCPAuthToken := "";
     RateLimitRPS := f64_zero;
     TLSCertFile := "";
     TLSKeyFile := "";
     Nodes := [];
     DerivedContexts := [];
     Pool := DefaultPoolConfig |}.

(** [Validate]; [None] is no error. *)
Definition Validate (c : Config) : option string :=
  if String.eqb (PostgresDSN c) "" then
    Some "postgres_dsn is required (set POSTGRES_DSN or postgres_dsn in config)"
  else if CollectionIntervalSeconds c <? 1 then
    Some ("collection_interval_seconds must be >= 1, got " +:+ fmt_d (CollectionIntervalSeconds c))
  else if zlen (EnabledContexts c) =? 0 then Some "enabled_contexts must not be empty"
  else None.

Definition EffectiveNodes (c : Config) : list NodeConfig :=
  if 0 <? zlen (Nodes c) then Nodes c
  else [mkNode (NetdataBaseURL c) (NetdataAPIKey c) (NodeID_ c)].

(** The trimmed, nonempty parts of a comma-separated value. *)
Definition list_parts (v : string) : list string :=
  List.filter (λ t, negb (String.eqb t "")) (map TrimSpace (Split v ",")).

(** [applyEnv], for an environment ([os.Getenv] gives the empty string for an unset
    variable): every field in the order of the code. *)
Definition applyEnv (Getenv : string → string) (c : Config) : Config :=
  let str k old := let v := Getenv k in if String.eqb v "" then old else v in
  let int k old := let v := Getenv k in if String.eqb v "" then old else default old (Atoi v) in
  {| NetdataBaseURL := str "NETDATA_BASE_URL" (NetdataBaseURL c);
     NetdataAPIKey := str "NETDATA_API_KEY" (NetdataAPIKey c);
     PostgresDSN := str "POSTGRES_DSN" (PostgresDSN c);
     CollectionIntervalSeconds := int "COLLECTION_INTERVAL_SECONDS" (CollectionIntervalSeconds c);
     NodeID_ := str "NODE_ID" (NodeID_ c);
     EnabledContexts :=
       (let v := Getenv "ENABLED_CONTEXTS" in
        if String.eqb v "" then EnabledContexts c
        else let contexts := list_parts v in
             if 0 <? zlen contexts then contexts else EnabledContexts c);
     MCPBindAddr := str "MCP_BIND_ADDR" (MCPBindAddr c);
     LogLevel := str "LOG_LEVEL" (LogLevel c);
     LogFormat := str "LOG_FORMAT" (LogFormat c);
     RetentionDays := int "RETENTION_DAYS" (RetentionDays c);
     MCPAuthToken := str "MCP_AUTH_TOKEN" (MCPAuthToken c);
     RateLimitRPS :=
       (let v := Getenv "RATE_LIMIT_RPS" in
        if String.eqb v "" then RateLimitRPS c else default (RateLimitRPS c) (ParseFloat v));
     TLSCertFile := str "TLS_CERT_FILE" (TLSCertFile c);
     TLSKeyFile := str "TLS_KEY_FILE" (TLSKeyFile c);
     Nodes :=
       (let v := Getenv "NETDATA_NODES" in
        if String.eqb v "" then Nodes c
        else let nodes := map (λ u, mkNode u "" "") (list_parts v) in
             if 0 <? zlen nodes then nodes else Nodes c);
     DerivedContexts := DerivedContexts c;
     Pool := Pool c |}.

(** [Load]: the file is read and decoded over the defaults by the operating system and the
    YAML library, which may fail. *)
Section Load.
Context (ReadFile : string → string + string).
Context (yaml_Unmarshal : string → Config → Config * option string).

Definition Load (Getenv : string → string) (path : string) : Config * option string :=
  let cfg := Defaults in
  let finish cfg :=
    let cfg := applyEnv Getenv cfg in
    match Validate cfg with Some e => (cfg, Some e) | None => (cfg, None) end in
  if negb (String.eqb path "") then
    match ReadFile path with
    | inl e => (cfg, Some ("reading config file " +:+ path +:+ ": " +:+ e))
    | inr data =>
        match yaml_Unmarshal data cfg with
        | (cfg, Some e) => (cfg, Some ("parsing config file " +:+ path +:+ ": " +:+ e))
        | (cfg, None) => finish cfg
        end
    end
  else finish cfg.
End Load.
End Config.

(** * Reloading *)
Module Reload.

(** [ReloadableConfig]: the values stored in its atomics. *)
Record ReloadableConfig := mkReloadable {
  logLevel : string;
  rateLimiter : option RateLimit.RateLimiter;
  authToken : string;
}.

Definition New : ReloadableConfig := mkReloadable "info" None "".

(** The limiter for a rate: a burst of twice the rate and one. *)
Definition limiter_for (rps : float64) : RateLimit.RateLimiter :=
  RateLimit.NewRateLimiter rps (add64 (mul64 (f64_to_int rps) 2) 1).

Definition Reload (Getenv : string → string) (rc : ReloadableConfig) : ReloadableConfig :=
  let rc :=
    let v := Getenv "LOG_LEVEL" in
    if negb (String.eqb v "") && negb (String.eqb (logLevel rc) v)
    then mkReloadable v (rateLimiter rc) (authToken rc) else rc in
  let rc :=
    let v := Getenv "MCP_AUTH_TOKEN" in
    if negb (String.eqb v "") then mkReloadable (logLevel rc) (rateLimiter rc) v else rc in
  let v := Getenv "RATE_LIMIT_RPS" in
  if negb (String.eqb v "") then
    match ParseFloat v with
    | Some rps =>
        if fgtb rps f64_zero
        then mkReloadable (logLevel rc) (Some (limiter_for rps)) (authToken rc) else rc
    | None => rc
    end
  else rc.

Inductive Level := LevelDebug | LevelInfo | LevelWarn | LevelError.

Definition ParseLogLevel `{Unicode} (level : string) : Level :=
  let l := ToLower level in
  if String.eqb l "debug" then LevelDebug
  else if String.eqb l "warn" || String.eqb l "warning" then LevelWarn
  else if String.eqb l "error" then LevelError
  else LevelInfo.

End Reload.

(** * Properties *)
Section ConfigProofs.
Import Config.

(** What an override does to one setting: the variable wins when it is set and readable. *)
Definition overridden {A} (v : string) (read : string → option A) (old new : A) : Prop :=
  new = if String.eqb v "" then old else default old (read v).

Definition nonempty_list {A} (l : list A) : option (list A) :=
  match l with [] => None | _ => Some l end.

(** The rules of precedence. *)
Definition env_wins (Getenv : string → string) (c c' : Config) : Prop :=
  overridden (Getenv "POSTGRES_DSN") Some (PostgresDSN c) (PostgresDSN c') ∧
  overridden (Getenv "NETDATA_BASE_URL") Some (NetdataBaseURL c) (NetdataBaseURL c') ∧
  overridden (Getenv "NETDATA_API_KEY") Some (NetdataAPIKey c) (NetdataAPIKey c') ∧
  overridden (Getenv "NODE_ID") Some (NodeID_ c) (NodeID_ c') ∧
  overridden (Getenv "MCP_BIND_ADDR") Some (MCPBindAddr c) (MCPBindAddr c') ∧
  overridden (Getenv "LOG_LEVEL") Some (LogLevel c) (LogLevel c') ∧
  overridden (Getenv "LOG_FORMAT") Some (LogFormat c) (LogFormat c') ∧
  overridden (Getenv "TLS_CERT_FILE") Some (TLSCertFile c) (TLSCertFile c') ∧
  overridden (Getenv "TLS_KEY_FILE") Some (TLSKeyFile c) (TLSKeyFile c') ∧
  overridden (Getenv "MCP_AUTH_TOKEN") Some (MCPAuthToken c) (MCPAuthToken c') ∧
  overridden (Getenv "COLLECTION_INTERVAL_SECONDS") Atoi (CollectionIntervalSeconds c)
    (CollectionIntervalSeconds c') ∧
  overridden (Getenv "RETENTION_DAYS") Atoi (RetentionDays c) (RetentionDays c') ∧
  overridden (Getenv "RATE_LIMIT_RPS") ParseFloat (RateLimitRPS c) (RateLimitRPS c') ∧
  overridden (Getenv "ENABLED_CONTEXTS") (nonempty_list ∘ list_parts) (EnabledContexts c)
    (EnabledContexts c') ∧
  overridden (Getenv "NETDATA_NODES") (nonempty_list ∘ map (λ u, mkNode u "" "") ∘ list_parts)
    (Nodes c) (Nodes c') ∧
  DerivedContexts c' = DerivedContexts c ∧ Pool c' = Pool c.

Lemma nonempty_default {A} (l old : list A) :
  (if 0 <? zlen l then l else old) = default old (nonempty_list l).
Proof.
  destruct l as [|a l]; [done|]. rewrite zlen_cons. pose proof (zlen_nonneg l).
  by replace (0 <? 1 + zlen l) with true by lia.
Qed.

Lemma applyEnv_wins Getenv c : env_wins Getenv c (applyEnv Getenv c).
Proof.
  unfold env_wins, overridden, applyEnv. cbn -[list_parts].
  rewrite !nonempty_default. by repeat (split; [done|]).
Qed.

Context (ReadFile : string → string + string)
  (yaml_Unmarshal : string → Config → Config * option string).

(** C22.  A configuration that loads is usable, and the environment has the last word: the
      result has a DSN, an interval of at least one second, at least one context and at
      least one node to collect from; every setting is that of its variable when it is
      set and readable, else that of the file, else the default. *)
Theorem Load_valid Getenv path c :
  Load ReadFile yaml_Unmarshal Getenv path = (c, None) →
  PostgresDSN c ≠ "" ∧ 1 <= CollectionIntervalSeconds c ∧ EnabledContexts c ≠ [] ∧
  EffectiveNodes c ≠ [] ∧
  ∃ file, env_wins Getenv file c ∧
    (path = "" → file = Defaults) ∧
    (path ≠ "" → ∃ data, ReadFile path = inr data ∧ yaml_Unmarshal data Defaults = (file, None)).
Proof.
  unfold Load. intros H.
  assert (∃ file, c = applyEnv Getenv file ∧ Validate c = None ∧
    (path = "" → file = Defaults) ∧
    (path ≠ "" → ∃ data, ReadFile path = inr data ∧ yaml_Unmarshal data Defaults = (file, None)))
    as (file & Hc & Hval & Hfile).
  { destruct (String.eqb_spec path "") as [->|Hne]; cbn [negb] in H.
    - exists Defaults. destruct (Validate _) eqn:E; [done|]. injection H as <-. done.
    - destruct (ReadFile path) as [e|data]; [done|].
      destruct (yaml_Unmarshal data Defaults) as [file [e|]] eqn:Ey; [done|].
      exists file. destruct (Validate _) eqn:E; [done|]. injection H as <-.
      split_and!; [done..|]. intros _. by exists data. }
  unfold Validate in Hval.
  destruct (String.eqb_spec (PostgresDSN c) ""); [done|].
  destruct (Z.ltb_spec (CollectionIntervalSeconds c) 1); [done|].
  destruct (Z.eqb_spec (zlen (EnabledContexts c)) 0) as [|Hctx]; [done|].
  split_and!; [done|done|by intros E; rewrite E in Hctx| |].
  - unfold EffectiveNodes. destruct (Nodes c); [done|]. by destruct (0 <? _).
  - exists file. split; [|done]. rewrite Hc. apply applyEnv_wins.
Qed.
End ConfigProofs.

Section ReloadProofs.
Import Reload.

(** A reload never clears a setting: the token, the level and the limiter are replaced
      only by values from variables that are set; a rate that does not parse or is not
      positive keeps the limiter; a new limiter starts with empty buckets, so
      reloading also forgets who was being limited. *)
Theorem Reload_keeps Getenv rc :
  let rc' := Reload Getenv rc in
  authToken rc' = (if String.eqb (Getenv "MCP_AUTH_TOKEN") "" then authToken rc
                   else Getenv "MCP_AUTH_TOKEN") ∧
  logLevel rc' = (if String.eqb (Getenv "LOG_LEVEL") "" then logLevel rc else Getenv "LOG_LEVEL") ∧
  (rateLimiter rc' = rateLimiter rc ∨
   ∃ rps, ParseFloat (Getenv "RATE_LIMIT_RPS") = Some rps ∧ fgtb rps f64_zero = true ∧
     rateLimiter rc' = Some (limiter_for rps) ∧ RateLimit.visitors (limiter_for rps) = ∅).
Proof.
  cbv zeta. unfold Reload.
  set (lvl := Getenv "LOG_LEVEL"). set (tok := Getenv "MCP_AUTH_TOKEN").
  set (rps := Getenv "RATE_LIMIT_RPS").
  destruct (String.eqb_spec lvl ""), (String.eqb_spec tok ""), (String.eqb_spec rps "");
    cbn [negb andb];
    try destruct (ParseFloat rps) as [f|] eqn:Ef;
    try destruct (fgtb f f64_zero) eqn:Eg;
    try destruct (String.eqb_spec (logLevel rc) lvl); cbn; eauto 10.
Qed.
End ReloadProofs.

Section ConfigWitness.
Import Config.

Definition example_env (k : string) : string :=
  if String.eqb k "POSTGRES_DSN" then "postgres://db"
  else if String.eqb k "COLLECTION_INTERVAL_SECONDS" then "15"
  else if String.eqb k "RETENTION_DAYS" then "soon"
  else if String.eqb k "ENABLED_CONTEXTS" then " system.cpu, ,disk.io"
  else "".

Definition no_file (p : string) : string + string := inl "no such file".
Definition no_yaml (d : string) (c : Config) : Config * option string := (c, Some "not YAML").

Lemma Load_valid_witness :
  let c := applyEnv example_env Defaults in
  PostgresDSN c ≠ "" ∧ 1 <= CollectionIntervalSeconds c ∧ EnabledContexts c ≠ [] ∧
  EffectiveNodes c ≠ [] ∧
  ∃ file, env_wins example_env file c ∧
    ("" = "" → file = Defaults) ∧
    ("" ≠ "" → ∃ data, no_file "" = inr data ∧ no_yaml data Defaults = (file, None)).
Proof.
  apply (Load_valid no_file no_yaml example_env ""). vm_compute. reflexivity.
Defined.
End ConfigWitness.
