(* ===== verification/Scheduler.v ===== *)
(** The scheduler, internal/scheduler/scheduler.go: the collection cycle with its
    retries and its circuit breaker, and the daily retention run.  The collector is
    used through the interface [Collecting], the database through [Postgres]. *)

From Stdlib Require Import SpecFloat.
From S2P Require Import Prelude GoInt GoFloat GoTime GoString Metrics Breaker Store Collector.

(** What the scheduler needs of a collector: [Collect] returns samples and an error. *)
Class Collecting := {
  collector : Type;
  Collect : collector → collector * (list MetricSample * option string);
}.

Class CollectingLaws `(C : Collecting) : Prop := {
  (** An error comes without samples. *)
  Collect_err c c' ss e : Collect c = (c', (ss, Some e)) → ss = [];
}.

(** The collector of the program is one: its configuration, the HTTP connections, and the
    clock readings still to come. *)
Section Live.
Context `{EN : Collector.Environment}.

Record live_collector := mkLive {
  l_conf : Collector.Collector;
  l_http : Collector.http_state;
  l_clock : nat → Z;
  l_reads : nat;
}.

#[export] Instance netdata : Collecting := {|
  collector := live_collector;
  Collect l :=
    let n := l_reads l in
    let '(h, r) := Collector.Collect (l_conf l) (l_clock l n) (l_clock l (S n)) (l_http l) in
    (mkLive (l_conf l) h (l_clock l) (S (S n)), r);
|}.

#[export] Instance netdata_laws : CollectingLaws netdata.
Proof.
  split. intros [c h clk n] c' ss e. cbn.
  destruct (Collector.Collect c _ _ h) as [h' r] eqn:E. intros [= <- ->].
  by eapply Collect_error_empty.
Qed.
End Live.

Module Scheduler.
Section Scheduler.
Context `{PG : Postgres} `{CO : Collecting}.

(** [interval] is kept in nanoseconds. *)
Record Scheduler := mkScheduler {
  interval : Z;
  nodeID : string;
  hostname : string;
  baseURL : string;
  retentionDays : Z;
  breaker : Breaker.Breaker;
}.

Definition New (intervalSec : Z) (nodeID hostname baseURL : string) : Scheduler :=
  mkScheduler (mul64 intervalSec Second) nodeID hostname baseURL 30
    (Breaker.New 5 (60 * Second)).

Definition SetRetentionDays (days : Z) (s : Scheduler) : Scheduler :=
  mkScheduler (interval s) (nodeID s) (hostname s) (baseURL s) days (breaker s).

Definition set_breaker (b : Breaker.Breaker) (s : Scheduler) : Scheduler :=
  mkScheduler (interval s) (nodeID s) (hostname s) (baseURL s) (retentionDays s) b.

(** What the scheduler works on: the database, the collector and the global counters. *)
Record world := mkWorld { w_db : db; w_col : collector; w_met : Metrics.Metrics }.

(** The clock readings of a cycle, and whether the context is cancelled during the
    backoff after an attempt (with the text of [ctx.Err()]). *)
Record cycle := mkCycle {
  t_allow : Z;
  t_state : Z;
  t_start : Z;
  t_rec1 : Z;
  t_rec2 : Z;
  t_end : Z;
  cancelled : Z → option string;
}.

(** The loop [for attempt := 1; attempt <= 3; attempt++]: [inl] when the context was
    cancelled, else the samples of the last attempt and [lastErr], which an
    earlier failure leaves set. *)
Fixpoint collect_retry (env : cycle) (left : nat) (attempt : Z) (samples : list MetricSample)
    (lastErr : option string) (c : collector)
    : collector * (string + list MetricSample * option string) :=
  match left with
  | O => (c, inr (samples, lastErr))
  | S left' =>
      match Collect c with
      | (c', (samples, None)) => (c', inr (samples, lastErr))
      | (c', (samples, Some err)) =>
          if attempt <? 3 then
            match cancelled env attempt with
            | Some e => (c', inl e)
            | None => collect_retry env left' (attempt + 1) samples (Some err) c'
            end
          else collect_retry env left' (attempt + 1) samples (Some err) c'
      end
  end.

(** [collectOnce]: the scheduler, the world and the error. *)
Definition collectOnce (env : cycle) (s : Scheduler) (w : world)
    : outcome (Scheduler * world * option string) :=
  match Breaker.Allow (t_allow env) (breaker s) with
  | (b, Some err) =>
      (* the log entry asks the breaker for its state *)
      let '(b, _) := Breaker.GetState (t_state env) b in
      Ret (set_breaker b s, w, Some err)
  | (b, None) =>
      let s := set_breaker b s in
      match Ops.UpsertNode (w_db w) (nodeID s) (hostname s) (baseURL s) with
      | (d, Some err) => Ret (s, mkWorld d (w_col w) (w_met w), Some err)
      | (d, None) =>
          match collect_retry env 3 1 [] None (w_col w) with
          | (c, inl e) => Ret (s, mkWorld d c (w_met w), Some e)
          | (c, inr (samples, lastErr)) =>
              if bool_decide (lastErr ≠ None) && (zlen samples =? 0) then
                Ret (set_breaker (Breaker.RecordFailure (t_rec1 env) (t_rec2 env) b) s,
                     mkWorld d c (Metrics.add_CollectionErrors 1 (w_met w)), lastErr)
              else if zlen samples =? 0 then Ret (s, mkWorld d c (w_met w), None)
              else
                r ← Ops.InsertSamples d samples;
                match r with
                | (d, (_, Some err)) =>
                    Ret (set_breaker (Breaker.RecordFailure (t_rec1 env) (t_rec2 env) b) s,
                         mkWorld d c (w_met w), Some err)
                | (d, (inserted, None)) =>
                    let m := Metrics.add_CollectionTotal 1 (w_met w) in
                    let m := Metrics.add_SamplesInserted inserted m in
                    let m := Metrics.record_CollectionDuration
                               (time_Sub (t_end env) (t_start env)) m in
                    Ret (set_breaker (Breaker.RecordSuccess (t_rec1 env) b) s, mkWorld d c m, None)
                end
          end
      end
  end.

(** [time.Duration(s.retentionDays) * 24 * time.Hour]. *)
Definition retention_of (days : Z) : Z := mul64 (mul64 days 24) Hour.

(** [runRetention], with its three readings of the clock; errors are logged only. *)
Definition runRetention (now1 now2 now3 retention : Z) (w : world) : world :=
  let hourlyBefore := time_Add now1 (- Hour) in
  let '(d, _) := Ops.AggregateHourly (w_db w) hourlyBefore in
  let dailyBefore := time_Add now2 (-24 * Hour) in
  let '(d, _) := Ops.AggregateDaily d dailyBefore in
  match Ops.DeleteOldSamples now3 d retention with
  | (d, (_, Some _)) => mkWorld d (w_col w) (w_met w)
  | (d, (deleted, None)) =>
      mkWorld d (w_col w)
        (if 0 <? deleted then Metrics.add_RetentionDeleted deleted (w_met w) else w_met w)
  end.

(** ** [Run]

    [Run] starts the retention loop (when it is enabled) and collects, first at once
    and then at every tick.  The loop computes its retention once, when it
    starts.  The two goroutines interleave freely; a cycle is taken as one
    step.  SetRetentionDays may be called from outside.  [run_at now] is a step for which the clock
    read [now]: the last reading of a retention run, the start of a cycle. *)
Record running := mkRunning {
  r_sched : Scheduler;
  r_world : world;
  r_retention : option Z;
}.

Definition start_run (s : Scheduler) (w : world) : running :=
  mkRunning s w (if 0 <? retentionDays s then Some (retention_of (retentionDays s)) else None).

Inductive run_at : Z → running → running → Prop :=
| StepCollect env r s' w' err :
    collectOnce env (r_sched r) (r_world r) = Ret (s', w', err) →
    run_at (t_start env) r (mkRunning s' w' (r_retention r))
| StepRetention r now1 now2 now3 retention :
    r_retention r = Some retention →
    now1 <= now2 <= now3 →
    run_at now3 r (mkRunning (r_sched r) (runRetention now1 now2 now3 retention (r_world r))
                     (r_retention r))
| StepSetRetention now r days :
    run_at now r (mkRunning (SetRetentionDays days (r_sched r)) (r_world r) (r_retention r)).

Definition run_step (r r' : running) : Prop := ∃ now, run_at now r r'.
End Scheduler.
Arguments world {PG CO}.
Arguments mkWorld {PG CO}.
End Scheduler.

(** * One collection cycle *)
Section Cycle.
Context `{PL : PostgresLaws} `{CL : CollectingLaws}.
Import Scheduler.

(** The answer of the attempt after [k] earlier ones. *)
Definition attempt_result (k : nat) (c : collector) : list MetricSample * option string :=
  (Collect (Nat.iter k (λ c, (Collect c).1) c)).2.

Definition attempt_fails (c : collector) (k : nat) : Prop := (attempt_result k c).2 ≠ None.

Lemma attempt_result_S k c : attempt_result (S k) c = attempt_result k (Collect c).1.
Proof. unfold attempt_result. by rewrite Nat.iter_succ_r. Qed.

(** The retry loop: it stops at the first attempt without error, whose samples it
    returns, with the error of the attempt before it; after three failures it
    returns no samples. *)
Lemma collect_retry_spec env left attempt samples lastErr c c' r :
  collect_retry env left attempt samples lastErr c = (c', r) →
  match r with
  | inl _ => True
  | inr (ss, le) =>
      (∃ k, (k < left)%nat ∧ attempt_result k c = (ss, None) ∧
         (∀ j, (j < k)%nat → attempt_fails c j) ∧
         le = match k with O => lastErr | S j => (attempt_result j c).2 end) ∨
      ((∀ j, (j < left)%nat → attempt_fails c j) ∧
       match left with
       | O => ss = samples ∧ le = lastErr
       | S j => ss = [] ∧ le = (attempt_result j c).2
       end)
  end.
Proof.
  revert attempt samples lastErr c.
  induction left as [|left IH]; intros attempt samples lastErr c; cbn [collect_retry].
  { intros [= <- <-]. right. split; [lia|done]. }
  destruct (Collect c) as [c1 [ss1 [e|]]] eqn:E.
  2:{ intros [= <- <-]. left. exists 0%nat. unfold attempt_result. cbn. rewrite E.
      split_and!; try done; lia. }
  assert (H0 : attempt_result 0 c = (ss1, Some e)) by (unfold attempt_result; cbn; by rewrite E).
  intros H. assert (Hr : (∃ e', r = inl e') ∨
    collect_retry env left (attempt + 1) ss1 (Some e) c1 = (c', r)).
  { destruct (attempt <? 3); [destruct (cancelled env attempt)|]; [left|by right..].
    injection H as <- <-. eauto. }
  destruct Hr as [[e' ->]|Hr]; [done|]. apply IH in Hr.
  assert (Hc1 : ∀ k, attempt_result (S k) c = attempt_result k c1)
    by (intros k; rewrite attempt_result_S, E; done).
  destruct r as [|[ss le]]; [done|].
  destruct Hr as [(k & Hk & Hok & Hf & Hle)|[Hf Hle]].
  - left. exists (S k). rewrite Hc1. split_and!; [lia|done| |].
    + intros [|j] Hj; unfold attempt_fails; [by rewrite H0|rewrite Hc1; apply Hf; lia].
    + rewrite Hle. destruct k; [by rewrite H0|by rewrite Hc1].
  - right. split.
    + intros [|j] Hj; unfold attempt_fails; [by rewrite H0|rewrite Hc1; apply Hf; lia].
    + destruct left as [|j]; [|by rewrite Hc1]. destruct Hle as [-> ->]. rewrite H0.
      by rewrite (Collect_err _ _ _ _ E).
Qed.

(** The samples of the first attempt, of at most three, that the collector answered without error. *)
Definition first_answer (c : collector) (ss : list MetricSample) : Prop :=
  ∃ k, (k < 3)%nat ∧ attempt_result k c = (ss, None) ∧ ∀ j, (j < k)%nat → attempt_fails c j.

(** The rows afterwards when all the samples are stored. *)
Definition rows_with (ss : list MetricSample) (l : list Schema.row) : list Schema.row :=
  Schema.insert_rows l (map (Schema.stored ∘ Ops.row_of) ss).

(** What a cycle leaves behind. *)
Definition cycle_result (s s' : Scheduler) (w w' : world) (env : cycle) (err : option string) : Prop :=
  let T := db_tables (w_db w) in
  let T' := db_tables (w_db w') in
  let upserted := <[nodeID s := Schema.mkNode (hostname s) (baseURL s)]> (Schema.nodes T) in
  match err with
  | Some e =>
      (Schema.nodes T' = Schema.nodes T ∨ Schema.nodes T' = upserted) ∧
      (Schema.samples T' = Schema.samples T ∨
       commit_failed e ∧
       ∃ ss, first_answer (w_col w) ss ∧ Schema.samples T' = rows_with ss (Schema.samples T))
  | None =>
      ∃ ss, first_answer (w_col w) ss ∧
        Schema.nodes T' = upserted ∧
        Schema.samples T' = rows_with ss (Schema.samples T) ∧
        w_met w' =
          (if zlen ss =? 0 then w_met w
           else Metrics.record_CollectionDuration (time_Sub (t_end env) (t_start env))
                  (Metrics.add_SamplesInserted
                     (zlen (Schema.samples T') - zlen (Schema.samples T))
                     (Metrics.add_CollectionTotal 1 (w_met w))))
  end.

Lemma with_rows_samples T ss :
  Schema.samples (with_rows T (map Ops.row_of ss)) = rows_with ss (Schema.samples T).
Proof. unfold with_rows, rows_with. cbn [Schema.samples]. by rewrite map_map. Qed.

Lemma collectOnce_spec env s w :
  ∃ s' w' err, collectOnce env s w = Ret (s', w', err) ∧ cycle_result s s' w w' env err.
Proof.
  unfold collectOnce, cycle_result. cbv zeta.
  destruct (Breaker.Allow (t_allow env) (breaker s)) as [b [e|]].
  { eexists _, _, _. split; [done|]. cbn; auto. }
  destruct (Ops.UpsertNode (w_db w) _ _ _) as [d err] eqn:Eu.
  pose proof (UpsertNode_tables _ _ _ _ _ _ Eu) as (Hs & _ & _ & Hn).
  destruct err as [e|]; [eexists _, _, _; split; [done|]; cbn; naive_solver|].
  cbn [set_breaker nodeID hostname baseURL] in *. destruct Hn as [Hn|[? _]]; [|done].
  destruct (collect_retry env 3 1 [] None (w_col w)) as [c r] eqn:Er.
  pose proof (collect_retry_spec _ _ _ _ _ _ _ _ Er) as Hr.
  destruct r as [e|[ss le]]; [eexists _, _, _; split; [done|]; cbn; auto|].
  destruct (bool_decide (le ≠ None) && (zlen ss =? 0)) eqn:Efail.
  { eexists _, _, _. split; [done|]. apply andb_true_iff in Efail as [Hle%bool_decide_eq_true _].
    destruct le; [cbn; auto|done]. }
  assert (Hok : first_answer (w_col w) ss).
  { destruct Hr as [(k & ? & ? & ? & _)|[Hf [-> ->]]]; [by exists k|exfalso].
    specialize (Hf 2%nat ltac:(lia)). unfold attempt_fails in Hf.
    rewrite bool_decide_true in Efail by done. done. }
  destruct (zlen ss =? 0) eqn:Ez.
  { eexists _, _, _. split; [done|]. exists ss. rewrite Ez. cbn [w_db w_met].
    destruct ss; [|apply Z.eqb_eq in Ez; rewrite zlen_cons in Ez; pose proof (zlen_nonneg ss); lia].
    by rewrite Hs. }
  destruct (InsertSamples_spec d ss) as (d' & n & err & -> & Hi). cbn [mbind outcome_bind].
  destruct err as [e|]; (eexists _, _, _; split; [done|]); cbn [w_db w_met].
  - destruct Hi as [->|(He & _ & ->)]; [by auto|]. rewrite with_rows_samples, Hs. split; [by right|].
    right. eauto.
  - destruct Hi as [[_ HT] Hcount]. exists ss. rewrite Ez, Hcount, <- Hs, HT, with_rows_samples. done.
Qed.

(** C1.  A collection cycle is all or nothing: it always returns; when it reports none, the node is
      upserted, the first attempt (of at most three) that the collector answered without
      error gave the samples, all of them are stored in one commit except those
      whose key was already there, and, unless there were none, the counters have
      advanced by one cycle, by the number of new rows and by the duration; when it reports an
      error the stored samples are untouched, except that after an error of the commit, whose
      reply may be what was lost, all the samples of that attempt may be stored. *)
Theorem collectOnce_all_or_nothing env s w :
  ∃ s' w' err, collectOnce env s w = Ret (s', w', err) ∧ cycle_result s s' w w' env err.
Proof. apply collectOnce_spec. Qed.
End Cycle.

(** * The breaker in the cycle *)
Section Outage.
Context `{PL : PostgresLaws} `{CO : Collecting}.
Import Scheduler Breaker BreakerSpec.

(** The cycles one after the other, while each of them returns. *)
Fixpoint run_cycles (envs : list cycle) (s : Scheduler) (w : world)
    : outcome (Scheduler * world * list (option string)) :=
  match envs with
  | [] => Ret (s, w, [])
  | env :: envs =>
      r ← collectOnce env s w;
      let '(s', w', err) := r in
      rs ← run_cycles envs s' w';
      let '(s'', w'', errs) := rs in Ret (s'', w'', err :: errs)
  end.

(** Netdata is down, the database is not, and nobody cancels. *)
Definition netdata_down : Prop := ∀ c, ∃ c' e, Collect c = (c', ([], Some e)).
Definition upserts_work : Prop := ∀ d id h u, (Ops.UpsertNode d id h u).2 = None.
Definition not_cancelled (env : cycle) : Prop := ∀ i, cancelled env i = None.

Context (Hdown : netdata_down) (Hup : upserts_work).

Lemma retry_down env left attempt samples lastErr c :
  not_cancelled env → (0 < left)%nat →
  ∃ c' e, collect_retry env left attempt samples lastErr c = (c', inr ([], Some e)).
Proof.
  intros Hnc. revert attempt samples lastErr c.
  induction left as [|left IH]; intros attempt samples lastErr c Hl; [lia|]. cbn.
  destruct (Hdown c) as (c1 & e & ->). rewrite Hnc.
  destruct left as [|left]; [destruct (attempt <? 3); cbn; eauto|].
  destruct (attempt <? 3); apply IH; lia.
Qed.

(** A cycle that the breaker lets through fails and is recorded. *)
Lemma cycle_down env s w b :
  not_cancelled env → Allow (t_allow env) (breaker s) = (b, None) →
  ∃ w' e, collectOnce env s w =
    Ret (set_breaker (RecordFailure (t_rec1 env) (t_rec2 env) b) s, w', Some e).
Proof.
  intros Hnc Ha. unfold collectOnce. rewrite Ha. cbn [set_breaker nodeID hostname baseURL].
  pose proof (Hup (w_db w) (nodeID s) (hostname s) (baseURL s)) as Hu.
  destruct (Ops.UpsertNode _ _ _ _) as [d err]. cbn in Hu. subst err.
  destruct (retry_down env 3 1 [] None (w_col w) Hnc ltac:(lia)) as (c' & e & ->).
  cbn [zlen length]. rewrite bool_decide_true by done. by eexists _, e.
Qed.

(** A cycle that fails moves a closed breaker one failure on. *)
Lemma cycle_down_phase env s w n :
  not_cancelled env → inv (breaker s) → phase_of (breaker s) = PClosed n →
  ∃ s' w' e, collectOnce env s w = Ret (s', w', Some e) ∧ inv (breaker s') ∧
    threshold (breaker s') = threshold (breaker s) ∧
    resetTimeout (breaker s') = resetTimeout (breaker s) ∧
    phase_of (breaker s') =
      (if threshold (breaker s) <=? n + 1 then POpen (t_rec2 env) else PClosed (n + 1)).
Proof.
  intros Hnc Hi Hp.
  destruct (Allow (t_allow env) (breaker s)) as [b err] eqn:Ha.
  pose proof (Allow_passes (t_allow env) (breaker s)) as Hpass. rewrite Hp, Ha in Hpass.
  cbn in Hpass. rewrite (proj2 Hpass eq_refl) in Ha.
  destruct (do_call_inv (CallAllow (t_allow env)) _ Hi) as (Hib & Htb & Hrb).
  destruct (do_call_refines (CallAllow (t_allow env)) _ Hi) as [Hpb _].
  cbn in Hib, Htb, Hrb, Hpb. rewrite Ha, Hp in *. cbn in Hib, Htb, Hrb, Hpb.
  destruct (cycle_down env s w b Hnc Ha) as (w' & e & ->).
  destruct (do_call_inv (CallFailure (t_rec1 env) (t_rec2 env)) _ Hib) as (Hi' & Ht' & Hr').
  pose proof (RecordFailure_phase (t_rec1 env) (t_rec2 env) _ Hib) as Hp'.
  rewrite Hpb, Htb in Hp'. cbn in Hi', Ht', Hr', Hp'.
  eexists _, _, _. split; [done|]. cbn [set_breaker breaker].
  split_and!; [done|congruence|congruence|done].
Qed.

Lemma run_cycles_down envs s w n :
  Forall not_cancelled envs → inv (breaker s) → phase_of (breaker s) = PClosed n →
  n + zlen envs < threshold (breaker s) →
  ∃ s' w' errs, run_cycles envs s w = Ret (s', w', errs) ∧ inv (breaker s') ∧
    threshold (breaker s') = threshold (breaker s) ∧
    resetTimeout (breaker s') = resetTimeout (breaker s) ∧
    phase_of (breaker s') = PClosed (n + zlen envs).
Proof.
  intros Hnc. revert s w n. induction Hnc as [|env envs Hn _ IH]; intros s w n Hi Hp Hlt.
  { cbn. eexists _, _, _. split; [done|]. rewrite zlen_nil, Z.add_0_r. done. }
  rewrite zlen_cons in *. pose proof (zlen_nonneg envs).
  destruct (cycle_down_phase env s w n Hn Hi Hp) as (s1 & w1 & e & E & Hi1 & Ht1 & Hr1 & Hp1).
  replace (_ <=? n + 1) with false in Hp1 by lia.
  destruct (IH s1 w1 (n + 1) Hi1 Hp1 ltac:(lia)) as (s2 & w2 & errs & E2 & Hi2 & Ht2 & Hr2 & Hp2).
  cbn [run_cycles]. rewrite E. cbn [mbind outcome_bind]. rewrite E2. cbn [mbind outcome_bind].
  eexists _, _, _. split; [done|]. split_and!; [done|congruence|congruence|].
  rewrite Hp2. f_equal. lia.
Qed.

(** C39.  An outage of Netdata costs at most five cycles a minute of attempts: let every attempt to
      collect fail while the node can be upserted and nothing is cancelled; then after five cycles
      of a new scheduler, whatever the state of collector and database, a cycle that starts within
      60 seconds of the last failure is skipped; it fails with the breaker's error and
      touches neither the database, nor the collector, nor the counters.  (Cycles that fail
      in the upsert do not count for the breaker.) *)
Theorem outage_skips_cycles intervalSec id h u w envs last env :
  Forall not_cancelled envs → zlen envs = 4 → not_cancelled last →
  time_Sub (t_allow env) (t_rec2 last) <= 60 * Second →
  ∃ s' w' errs, run_cycles (envs ++ [last]) (Scheduler.New intervalSec id h u) w = Ret (s', w', errs) ∧
    ∃ s'', collectOnce env s' w' = Ret (s'', w', Some ErrCircuitOpen).
Proof.
  intros Hnc Hlen Hl Ht. set (s := Scheduler.New intervalSec id h u).
  assert (Hi : inv (breaker s)) by (apply New_inv; apply (bool_decide_unpack _); vm_compute; exact I).
  destruct (run_cycles_down envs s w 0 Hnc Hi eq_refl) as (s1 & w1 & errs & E & Hi1 & Ht1 & Hr1 & Hp1).
  { rewrite Hlen. done. }
  destruct (cycle_down_phase last s1 w1 _ Hl Hi1 Hp1) as (s2 & w2 & e & E2 & Hi2 & Ht2 & Hr2 & Hp2).
  rewrite Hlen, Ht1 in Hp2. change (phase_of (breaker s2) = POpen (t_rec2 last)) in Hp2.
  exists s2, w2, (errs ++ [Some e]). split.
  - clear -E E2. revert errs E. generalize s, w. clear s w.
    induction envs as [|env envs IH]; intros s w errs E; cbn [run_cycles app] in *.
    + injection E as -> -> <-. rewrite E2. done.
    + destruct (collectOnce env s w) as [[[s0 w0] e0]| | |]; cbn in *; try done.
      destruct (run_cycles envs s0 w0) as [[[s3 w3] errs3]| | |] eqn:E3; cbn in *; try done.
      injection E as -> -> <-. by rewrite (IH s0 w0 errs3 E3).
  - unfold collectOnce.
    pose proof (proj2 (Allow_open (t_allow env) (breaker s2) _ Hp2)) as Ha.
    rewrite Hr2, Hr1 in Ha. specialize (Ha Ht).
    destruct (Allow (t_allow env) (breaker s2)) as [b err]. cbn in Ha. subst err.
    destruct (GetState _ b) as [b' st]. by eexists.
Qed.
End Outage.

(** * Errors that outlive their attempt *)
Section StaleError.
Context `{PL : PostgresLaws} `{CL : CollectingLaws}.
Import Scheduler.

(** An error of an earlier attempt outlives a later success: when the first attempt
      fails and the second succeeds without samples, the cycle fails with the
      stale error, counts as a failure for the breaker and the error counter,
      while the same empty answer at the first attempt is a success. *)
Theorem stale_error_fails env s w b d c1 c2 e :
  Breaker.Allow (t_allow env) (breaker s) = (b, None) →
  Ops.UpsertNode (w_db w) (nodeID s) (hostname s) (baseURL s) = (d, None) →
  cancelled env 1 = None →
  Collect (w_col w) = (c1, ([], Some e)) → Collect c1 = (c2, ([], None)) →
  collectOnce env s w =
    Ret (set_breaker (Breaker.RecordFailure (t_rec1 env) (t_rec2 env) b) s,
         mkWorld d c2 (Metrics.add_CollectionErrors 1 (w_met w)), Some e) ∧
  (∃ w', collectOnce env s (mkWorld (w_db w) c1 (w_met w)) = Ret (set_breaker b s, w', None)).
Proof.
  intros Ha Hu Hc H1 H2. unfold collectOnce. rewrite Ha.
  cbn [set_breaker nodeID hostname baseURL w_db w_col w_met]. rewrite Hu.
  cbn [collect_retry]. rewrite H1, Hc, H2. split; [reflexivity|by eexists].
Qed.
End StaleError.

(** * Retention *)
Section Retention.
Context `{PL : PostgresLaws} `{CO : Collecting}.
Import Scheduler.

Abbreviation stored_samples w := (Schema.samples (db_tables (w_db w))).
Abbreviation hourly_rollups w := (Schema.rollups_1h (db_tables (w_db w))).

Lemma runRetention_spec now1 now2 now3 ret w :
  let w' := runRetention now1 now2 now3 ret w in
  (stored_samples w' = stored_samples w ∨
   stored_samples w' =
     List.filter (λ x, negb (Schema.collected_at x <? Schema.pg_time (now3 + i64 (- ret))))
       (stored_samples w)) ∧
  (∀ x, hourly_rollups w' !! x = hourly_rollups w !! x ∨
        hourly_rollups w' !! x =
          rolled (window_of (db_tables (w_db w)) (Schema.pg_time (now1 - Hour) - 3 * Hour)
                    (Schema.pg_time (now1 - Hour)) x)
            (hourly_rollups w !! x)).
Proof.
  cbv zeta. unfold runRetention.
  destruct (Ops.AggregateHourly _ _) as [d1 r1] eqn:E1.
  destruct (Ops.AggregateDaily _ _) as [d2 r2] eqn:E2.
  destruct (Ops.DeleteOldSamples _ _ _) as [d3 [n3 e3]] eqn:E3.
  apply AggregateHourly_any in E1 as (S1 & _ & R1).
  apply AggregateDaily_tables in E2 as (S2 & _ & R2).
  apply DeleteOldSamples_any in E3 as (R3 & _ & S3). cbn [fst snd] in S3.
  replace (time_Add now1 (- Hour)) with (now1 - Hour) in R1 by (unfold time_Add; lia).
  assert (∃ m, match e3 with
    | Some _ => mkWorld d3 (w_col w) (w_met w)
    | None => mkWorld d3 (w_col w)
        (if 0 <? n3 then Metrics.add_RetentionDeleted n3 (w_met w) else w_met w)
    end = mkWorld d3 (w_col w) m) as [m ->] by (destruct e3; eauto).
  cbn [w_db]. split.
  - destruct S3 as [[_ S3]|[S3 _]]; [left; congruence|right]. rewrite S3. congruence.
  - intros x. rewrite R3, R2. exact (R1 x).
Qed.

(** The deletion keeps rows that are recent enough. *)
Lemma runRetention_keeps now1 now2 now3 ret w x :
  x ∈ stored_samples w →
  x ∈ stored_samples (runRetention now1 now2 now3 ret w) ∨
  Schema.collected_at x < Schema.pg_time (now3 + i64 (- ret)).
Proof.
  intros Hx. destruct (runRetention_spec now1 now2 now3 ret w) as [[-> | ->] _]; [by left|].
  destruct (Z.ltb_spec (Schema.collected_at x) (Schema.pg_time (now3 + i64 (- ret)))); [by right|].
  left. apply list_elem_of_In, filter_In. split; [by apply list_elem_of_In|].
  apply negb_true_iff, Z.ltb_ge. done.
Qed.

Lemma retention_exact days : 0 <= days <= 106751 → retention_of days = days * (24 * Hour).
Proof.
  intros H. unfold retention_of, mul64. unfold_time.
  rewrite (i64_id (days * 24)) by (unfold is_i64, max_int64, min_int64; lia).
  rewrite i64_id by (unfold is_i64, max_int64, min_int64; lia). lia.
Qed.

(** What a run with a retention of some days loses was older at its time. *)
Lemma runRetention_old now1 now2 now3 days w x :
  0 < days <= 106751 →
  x ∈ stored_samples w → x ∉ stored_samples (runRetention now1 now2 now3 (retention_of days) w) →
  Schema.collected_at x < Schema.pg_time (now3 - days * (24 * Hour)).
Proof.
  intros Hd Hin Hout.
  destruct (runRetention_keeps now1 now2 now3 (retention_of days) _ _ Hin) as [?|Hlt]; [done|].
  rewrite retention_exact in Hlt by lia. rewrite i64_id in Hlt; [done|].
  unfold_time. unfold is_i64, max_int64, min_int64. lia.
Qed.

Lemma retention_wraps days :
  106751 < days <= 213503 → retention_of days = days * (24 * Hour) - two64.
Proof.
  intros H. unfold retention_of, mul64. unfold_time.
  rewrite (i64_id (days * 24)) by (unfold is_i64, max_int64, min_int64; lia).
  unfold i64, two64.
  rewrite <- (Z_mod_plus_full _ (-1)), Z.mod_small by lia. lia.
Qed.

(** ** All runs *)
Lemma run_retention_const R R' : rtc run_step R R' → r_retention R' = r_retention R.
Proof. induction 1 as [|R1 R2 R3 Hs _ IH]; [done|]. rewrite IH. destruct Hs as [now Hs]. by destruct Hs. Qed.

Context `{CL : !CollectingLaws CO}.

Lemma collect_keeps env s w s' w' err x :
  collectOnce env s w = Ret (s', w', err) → x ∈ stored_samples w → x ∈ stored_samples w'.
Proof.
  intros E Hx. destruct (collectOnce_spec env s w) as (s1 & w1 & err1 & E1 & H).
  rewrite E in E1. injection E1 as <- <- <-. unfold cycle_result in H.
  assert (Hrows : ∀ ss, Schema.samples (db_tables (w_db w')) = rows_with ss (stored_samples w) → x ∈ stored_samples w').
  { intros ss ->. destruct (insert_rows_prefix (stored_samples w) (map (Schema.stored ∘ Ops.row_of) ss)) as [l E'].
    unfold rows_with. rewrite E'. apply elem_of_app. by left. }
  destruct err as [e|]; [destruct H as [_ [H|(_ & ss & _ & H)]]; [by rewrite H|eauto]|].
  destruct H as (ss & _ & _ & H & _). eauto.
Qed.

(** No young sample is ever lost: in every run of the service configured with
      [days] of retention (up to 106751), through any interleaving of collection
      cycles, retention runs and changes of the setting, failures included, a stored
      sample stays stored until a retention run finds it older than [days] days (to
      the microsecond) at its time; with retention disabled it stays for ever. *)
Theorem young_samples_kept s w R now R' x :
  retentionDays s <= 106751 →
  rtc run_step (start_run s w) R → run_at now R R' →
  x ∈ stored_samples (r_world R) → x ∉ stored_samples (r_world R') →
  0 < retentionDays s ∧
  Schema.collected_at x < Schema.pg_time (now - retentionDays s * (24 * Hour)).
Proof.
  intros Hdays HR Hstep Hin Hout. apply run_retention_const in HR.
  destruct Hstep as [env R s' w' err E|R now1 now2 now3 ret Hret Hnow|now R days]; cbn [r_world] in *.
  - exfalso. apply Hout. by eapply collect_keeps.
  - rewrite Hret in HR. unfold start_run in HR. cbn [r_retention] in HR.
    destruct (Z.ltb_spec 0 (retentionDays s)); [|done]. injection HR as ->. split; [done|].
    by apply (runRetention_old now1 now2 now3 (retentionDays s) (r_world R)).
  - done.
Qed.

(** C40.  A retention of more than 106751 and at most 213503 days wraps around to a negative
      duration: a retention run that changes the stored samples at all deletes every sample
      whose time is not in the future.  (Beyond that the product wraps again.) *)
Theorem long_retention_deletes_all days now1 now2 now3 w x :
  106751 < days <= 213503 →
  let w' := runRetention now1 now2 now3 (retention_of days) w in
  stored_samples w' ≠ stored_samples w → x ∈ stored_samples w' →
  now3 < Schema.collected_at x.
Proof.
  intros Hdays w' Hne Hx. unfold w' in *.
  destruct (runRetention_spec now1 now2 now3 (retention_of days) w) as [[He|He] _]; [done|].
  rewrite He in Hx. apply list_elem_of_In, filter_In in Hx as [_ Hx].
  apply negb_true_iff, Z.ltb_ge in Hx.
  rewrite retention_wraps in Hx by done.
  pose proof (pg_time_bounds (now3 + i64 (- (days * (24 * Hour) - two64)))) as Hb.
  rewrite i64_id in Hx, Hb by (unfold is_i64, max_int64, min_int64, two64; unfold_time; lia).
  unfold two64 in *. unfold_time. lia.
Qed.

(** The retention runs of a process, with the clock readings of each. *)
Fixpoint retention_runs (ts : list (Z * Z * Z)) (retention : Z) (w : world) : world :=
  match ts with
  | [] => w
  | (now1, now2, now3) :: ts =>
      retention_runs ts retention (runRetention now1 now2 now3 retention w)
  end.

(** The hour starting at [bucket] lies outside the window that a run at [now]
    aggregates: three hours, ending one hour before the run. *)
Definition hour_missed (bucket now : Z) : Prop :=
  let end_ := Schema.pg_time (now - Hour) in
  bucket + Hour <= end_ - 3 * Hour ∨ end_ <= bucket.

(** An hour that no run's window touches is never rolled up: its row in the hourly
      table stays as it was (missing) through all the runs, while they delete its
      samples.  The runs are a day apart and a window is three hours long, so that
      is the fate of at least twenty hours of every day. *)
Theorem hours_never_rolled_up ts ret w (x : Schema.rkey) :
  Forall (λ t, hour_missed x.1.1.1.2 t.1.1) ts →
  hourly_rollups (retention_runs ts ret w) !! x = hourly_rollups w !! x.
Proof.
  intros Hts. revert w. induction Hts as [|[[now1 now2] now3] ts Hm _ IH]; intros w; [done|].
  cbn [retention_runs]. rewrite IH.
  destruct (runRetention_spec now1 now2 now3 ret w) as [_ Hr].
  destruct (Hr x) as [->|H]; [done|]. rewrite H.
  destruct (window_of _ _ _ x) as [|r l] eqn:Ew; [done|exfalso].
  assert (Hin : r ∈ r :: l) by left. rewrite <- Ew, window_of_filter in Hin.
  apply list_elem_of_In, filter_In in Hin as [Hin Hwin].
  apply list_elem_of_In, elem_of_samples_of, hour_key_bucket in Hin.
  pose proof (date_trunc_bounds Hour (Schema.collected_at r) ltac:(done)) as Hb.
  rewrite <- Hin in Hb. unfold in_window in Hwin. apply andb_true_iff in Hwin as [H1 H2].
  unfold hour_missed in Hm. cbn [fst] in Hm. lia.
Qed.
End Retention.

(** * The theorems at work: a scripted collector and the server in memory *)
Section SchedulerWitnesses.
Import Scheduler MemPg.

(** A collector that answers what it was told to, then fails. *)
#[local] Instance scripted : Collecting := {|
  collector := list (string + list MetricSample);
  Collect c :=
    match c with
    | [] => ([], ([], Some "connection refused"))
    | inl e :: c => (c, ([], Some e))
    | inr ss :: c => (c, (ss, None))
    end;
|}.
#[local] Instance scripted_laws : CollectingLaws scripted.
Proof. split. intros [|[e|ss] c] c' ss' e'; cbn; intros [= <- <- <-]; done. Qed.
#[local] Instance pg : Postgres := server no_faults.

Definition calm (t : Z) : cycle := mkCycle t t t t t (t + 5) (λ _, None).
Definition sched : Scheduler := New 60 "n1" "h" "u".
Definition world_of (T : Schema.tables) (c : list (string + list MetricSample)) : world :=
  mkWorld (mkState T 0 : @db pg) (c : @collector scripted) Metrics.Global0.

Lemma collectOnce_all_or_nothing_witness :
  ∃ s' w' err,
    collectOnce (calm 0) sched (world_of empty_tables [inl "timeout"; inr [sample_at 1000]]) =
      Ret (s', w', err) ∧
    cycle_result sched s' (world_of empty_tables [inl "timeout"; inr [sample_at 1000]]) w' (calm 0) err.
Proof.
  exact (collectOnce_all_or_nothing (calm 0) sched
           (world_of empty_tables [inl "timeout"; inr [sample_at 1000]])).
Defined.

Lemma stale_error_fails_witness :
  ∃ s' w', collectOnce (calm 0) sched (world_of empty_tables [inl "timeout"; inr []]) =
    Ret (s', w', Some "timeout").
Proof.
  eexists _, _.
  refine (proj1 (stale_error_fails (calm 0) sched (world_of empty_tables [inl "timeout"; inr []])
    (breaker sched) (Ops.UpsertNode (PG := pg) (mkState empty_tables 0) "n1" "h" "u").1
    [inr []] [] "timeout" _ _ _ _ _)); reflexivity.
Defined.

(** A collector that never succeeds. *)
Definition down : Collecting :=
  {| collector := (); Collect c := (c, ([], Some "connection refused")) |}.

Lemma outage_skips_cycles_witness :
  ∃ s' w' errs,
    run_cycles (CO := down) (map calm [0; 60; 120; 180] ++ [calm 240]) (New 60 "n1" "h" "u")
      (mkWorld (mkState empty_tables 0 : @db pg) (() : @collector down) Metrics.Global0) =
      Ret (s', w', errs) ∧
    ∃ s'', collectOnce (CO := down) (calm 300) s' w' = Ret (s'', w', Some Breaker.ErrCircuitOpen).
Proof.
  apply (outage_skips_cycles (PG := pg) (CO := down)).
  - intros []. by eexists _, _.
  - by intros [T k] id h u.
  - repeat constructor; done.
  - reflexivity.
  - done.
  - vm_compute. discriminate.
Defined.

Definition month_old : Z := 40 * 24 * Hour.

Lemma young_samples_kept_witness :
  let w := world_of (table_of [1000]) [] in
  0 < 30 ∧ Schema.collected_at (stored_at 1000) < Schema.pg_time (month_old - 30 * (24 * Hour)).
Proof.
  cbv zeta.
  apply (young_samples_kept (PG := pg) (CO := scripted) sched (world_of (table_of [1000]) [])
           (start_run sched (world_of (table_of [1000]) [])) month_old
           (mkRunning sched
              (runRetention month_old month_old month_old (retention_of 30)
                 (world_of (table_of [1000]) [])) (Some (retention_of 30)))).
  - vm_compute. discriminate.
  - apply rtc_refl.
  - apply (StepRetention (start_run sched (world_of (table_of [1000]) []))
             month_old month_old month_old (retention_of 30)); [reflexivity|done].
  - left.
  - vm_compute. apply not_elem_of_nil.
Defined.

Lemma long_retention_deletes_all_witness :
  let w' := runRetention 0 0 0 (retention_of 110000) (world_of (table_of [-1000; 2 ^ 63]) []) in
  Schema.samples (mem_tables (w_db w')) = [stored_at (2 ^ 63)] ∧
  0 < Schema.collected_at (stored_at (2 ^ 63)).
Proof.
  cbv zeta. split; [vm_compute; reflexivity|].
  apply (long_retention_deletes_all (PG := pg) (CO := scripted) 110000 0 0 0
           (world_of (table_of [-1000; 2 ^ 63]) [])).
  - split; reflexivity || discriminate.
  - vm_compute. discriminate.
  - vm_compute. left.
Defined.

Lemma hours_never_rolled_up_witness :
  let w := world_of (table_of [13 * Hour]) [] in
  let noon k := ((12 + 24 * k) * Hour, (12 + 24 * k) * Hour, (12 + 24 * k) * Hour) in
  Schema.rollups_1h (mem_tables (w_db (retention_runs [noon 0; noon 1; noon 2] (retention_of 30) w)))
    !! key_at 13 = None.
Proof.
  cbv zeta.
  apply (hours_never_rolled_up (PG := pg) (CO := scripted)).
  apply Forall_forall. intros [[a b] c] H.
  repeat (apply elem_of_cons in H as [[= -> -> ->]|H]); [right|left|left|by apply not_elem_of_nil in H];
    vm_compute; discriminate.
Defined.
End SchedulerWitnesses.
