(* ===== verification/RemoteWrite.v ===== *)
(** The Prometheus remote-write receiver, internal/remotewrite/handler.go: the
    hand-written protobuf decoder, the translation of time series to rows and
    the batched insert.  [Wire] is the decoder, [WireSpec] the protobuf encoding
    it is the inverse of. *)

From Stdlib Require Import SpecFloat.
From coqutil Require Import Byte Word.LittleEndianList.
From S2P Require Import Prelude GoInt GoFloat.

Abbreviation bytes := (list byte).

(** * The decoder *)
Module Wire.

Record prSample := PrSample { TimestampMs : Z; Value : float64 }.
Record prLabel := PrLabel { Name : string; LValue : string }.
Record prTimeSeries := PrTimeSeries { Labels : list prLabel; Samples : list prSample }.

(** [decodeVarint]: the value and the number of bytes, 0 bytes on failure. *)
Fixpoint decodeVarint_loop (data : bytes) (i x s : Z) : Z * Z :=
  match data with
  | [] => (0, 0)
  | b :: data' =>
      if 10 <=? i then (0, 0)
      else if byte.unsigned b <? 0x80
           then (Z.lor x (u64 (Z.shiftl (byte.unsigned b) s)), i + 1)
           else decodeVarint_loop data' (i + 1)
                  (Z.lor x (u64 (Z.shiftl (Z.land (byte.unsigned b) 0x7f) s))) (s + 7)
  end.

Definition decodeVarint (data : bytes) : Z * Z := decodeVarint_loop data 0 0 0.

(** [decodeTag]: field number, wire type, bytes read. *)
Definition decodeTag (data : bytes) : Z * Z * Z :=
  let '(v, n) := decodeVarint data in
  if n =? 0 then (0, 0, 0)
  else (i64 (Z.shiftr v 3), i64 (Z.land v 0x7), n).

(** [skipField]: how many bytes the value of an uninteresting field takes. *)
Definition skipField (wireType : Z) (data : bytes) : outcome Z :=
  if wireType =? 0 then
    let '(_, n) := decodeVarint data in
    if n =? 0 then Err "invalid varint skip" else Ret n
  else if wireType =? 1 then
    if zlen data <? 8 then Err "truncated fixed64" else Ret 8
  else if wireType =? 2 then
    let '(l, n) := decodeVarint data in
    if n =? 0 then Err "invalid length skip" else Ret (add64 n (i64 l))
  else if wireType =? 5 then
    if zlen data <? 4 then Err "truncated fixed32" else Ret 4
  else Err ("unknown wire type " ++ pretty.pretty wireType).

(** The loop bodies take the record built so far and the remaining data. *)
Definition parseLabel_step (l : prLabel) (data : bytes) : outcome (prLabel * bytes) :=
  let '(fieldNum, wireType, n) := decodeTag data in
  if n =? 0 then Err "invalid tag in label"
  else
    data ← slice_from data n;
    if wireType =? 2 then
      let '(strLen, n) := decodeVarint data in
      if n =? 0 then Err "invalid string length"
      else
        data ← slice_from data n;
        if zlen data <? i64 strLen then Err "truncated string"
        else
          l ← (if fieldNum =? 1 then
                 s ← slice_to data strLen;
                 Ret (PrLabel (String.string_of_list_byte s) (LValue l))
               else if fieldNum =? 2 then
                 s ← slice_to data strLen;
                 Ret (PrLabel (Name l) (String.string_of_list_byte s))
               else Ret l);
          data ← slice_from data strLen;
          Ret (l, data)
    else
      skip ← skipField wireType data;
      data ← slice_from data skip;
      Ret (l, data).

Definition parseLabel (data : bytes) : outcome prLabel :=
  consume parseLabel_step (PrLabel "" "") data.

Definition parseSample_step (s : prSample) (data : bytes) : outcome (prSample * bytes) :=
  let '(fieldNum, wireType, n) := decodeTag data in
  if n =? 0 then Err "invalid tag in sample"
  else
    data ← slice_from data n;
    if (fieldNum =? 1) && (wireType =? 1) then
      if zlen data <? 8 then Err "truncated double"
      else
        bits ← slice_to data 8;
        data ← slice_from data 8;
        Ret (PrSample (TimestampMs s) (f64_of_bits (le_combine bits)), data)
    else if (fieldNum =? 2) && (wireType =? 0) then
      let '(v, n) := decodeVarint data in
      if n =? 0 then Err "invalid varint for timestamp"
      else
        data ← slice_from data n;
        Ret (PrSample (i64 v) (Value s), data)
    else
      skip ← skipField wireType data;
      data ← slice_from data skip;
      Ret (s, data).

Definition parseSample (data : bytes) : outcome prSample :=
  consume parseSample_step (PrSample 0 f64_zero) data.

Definition parseTimeSeries_step (ts : prTimeSeries) (data : bytes)
    : outcome (prTimeSeries * bytes) :=
  let '(fieldNum, wireType, n) := decodeTag data in
  if n =? 0 then Err "invalid tag in timeseries"
  else
    data ← slice_from data n;
    if wireType =? 2 then
      let '(msgLen, n) := decodeVarint data in
      if n =? 0 then Err "invalid length in timeseries"
      else
        data ← slice_from data n;
        if zlen data <? i64 msgLen then Err "truncated timeseries field"
        else
          ts ← (if fieldNum =? 1 then
                  m ← slice_to data msgLen;
                  l ← parseLabel m;
                  Ret (PrTimeSeries (Labels ts ++ [l]) (Samples ts))
                else if fieldNum =? 2 then
                  m ← slice_to data msgLen;
                  s ← parseSample m;
                  Ret (PrTimeSeries (Labels ts) (Samples ts ++ [s]))
                else Ret ts);
          data ← slice_from data msgLen;
          Ret (ts, data)
    else
      skip ← skipField wireType data;
      data ← slice_from data skip;
      Ret (ts, data).

Definition parseTimeSeries (data : bytes) : outcome prTimeSeries :=
  consume parseTimeSeries_step (PrTimeSeries [] []) data.

Definition parseWriteRequest_step (result : list prTimeSeries) (data : bytes)
    : outcome (list prTimeSeries * bytes) :=
  let '(fieldNum, wireType, n) := decodeTag data in
  if n =? 0 then Err "invalid tag"
  else
    data ← slice_from data n;
    if (fieldNum =? 1) && (wireType =? 2) then
      let '(msgLen, n) := decodeVarint data in
      if n =? 0 then Err "invalid length"
      else
        data ← slice_from data n;
        if zlen data <? i64 msgLen then Err "truncated message"
        else
          m ← slice_to data msgLen;
          ts ← parseTimeSeries m;
          data ← slice_from data msgLen;
          Ret (result ++ [ts], data)
    else
      skip ← skipField wireType data;
      data ← slice_from data skip;
      Ret (result, data).

Definition parseWriteRequest (data : bytes) : outcome (list prTimeSeries) :=
  consume parseWriteRequest_step [] data.

End Wire.

(** * The protobuf encoding the decoder reads (proto3: default values are omitted) *)
Module WireSpec.

Fixpoint varint_bytes (fuel : nat) (v : Z) : bytes :=
  match fuel with
  | O => []
  | S fuel' =>
      if v <? 128 then [byte.of_Z v]
      else byte.of_Z (v mod 128 + 128) :: varint_bytes fuel' (v / 128)
  end.

(** Ten groups of seven bits hold every [uint64]. *)
Definition encode_varint (v : Z) : bytes := varint_bytes 10 v.

Definition encode_tag (fieldNum wireType : Z) : bytes :=
  encode_varint (fieldNum * 8 + wireType).

(** A length-delimited field. *)
Definition encode_message (fieldNum : Z) (payload : bytes) : bytes :=
  encode_tag fieldNum 2 ++ encode_varint (zlen payload) ++ payload.

Definition encode_string (fieldNum : Z) (s : string) : bytes :=
  if decide (s = "") then [] else encode_message fieldNum (String.list_byte_of_string s).

(** A sample on the wire: timestamp and the bits of the value. *)
Record wsample := WSample { w_ts : Z; w_bits : Z }.
Record wseries := WSeries { w_labels : list Wire.prLabel; w_samples : list wsample }.

Definition encode_sample (s : wsample) : bytes :=
  (if decide (w_bits s = 0) then [] else encode_tag 1 1 ++ le_split 8 (w_bits s)) ++
  (if decide (w_ts s = 0) then [] else encode_tag 2 0 ++ encode_varint (u64 (w_ts s))).

Definition encode_label (l : Wire.prLabel) : bytes :=
  encode_string 1 (Wire.Name l) ++ encode_string 2 (Wire.LValue l).

Definition encode_series (ts : wseries) : bytes :=
  concat (map (λ l, encode_message 1 (encode_label l)) (w_labels ts)) ++
  concat (map (λ s, encode_message 2 (encode_sample s)) (w_samples ts)).

Definition encode_request (tss : list wseries) : bytes :=
  concat (map (λ ts, encode_message 1 (encode_series ts)) tss).

(** What the receiver is meant to see. *)
Definition sample_of (s : wsample) : Wire.prSample :=
  Wire.PrSample (w_ts s) (f64_of_bits (w_bits s)).
Definition series_of (ts : wseries) : Wire.prTimeSeries :=
  Wire.PrTimeSeries (w_labels ts) (map sample_of (w_samples ts)).

Definition sample_ok (s : wsample) : Prop := is_i64 (w_ts s) ∧ is_u64 (w_bits s).
Definition series_ok (ts : wseries) : Prop := Forall sample_ok (w_samples ts).

End WireSpec.

(** * Facts about varints *)
Section Varint.
Import Wire WireSpec.

Lemma lor_u64 a b : is_u64 a → is_u64 b → is_u64 (Z.lor a b).
Proof.
  unfold is_u64, two64. intros Ha Hb.
  rewrite <- (Z.mod_small a (2 ^ 64)), <- (Z.mod_small b (2 ^ 64)) by lia.
  rewrite <- !Z.land_ones, <- Z.land_lor_distr_l, Z.land_ones by lia.
  apply Z.mod_pos_bound. lia.
Qed.

Lemma decodeVarint_loop_bounds data i x s v n :
  0 <= i → is_u64 x → decodeVarint_loop data i x s = (v, n) →
  is_u64 v ∧ (n = 0 ∨ i + 1 <= n <= 10 ∧ n <= i + zlen data).
Proof.
  revert i x s. induction data as [|b data IH]; intros i x s Hi Hx; cbn.
  { intros [= <- <-]. split; [done|by left]. }
  destruct (Z.leb_spec 10 i); [intros [= <- <-]; split; [done|by left]|].
  rewrite zlen_cons. pose proof (zlen_nonneg data). destruct (_ <? 128).
  - intros [= <- <-]. split; [by apply lor_u64; auto using u64_range|right; lia].
  - intros [? ?]%IH; [|lia|apply lor_u64; auto using u64_range]. split; [done|lia].
Qed.

Lemma decodeVarint_bounds data v n :
  decodeVarint data = (v, n) → is_u64 v ∧ 0 <= n <= 10 ∧ n <= zlen data.
Proof.
  intros [? ?]%decodeVarint_loop_bounds; [|lia|done]. pose proof (zlen_nonneg data).
  split; [done|lia].
Qed.

Lemma byte_of_Z_small z : 0 <= z < 256 → byte.unsigned (byte.of_Z z) = z.
Proof. intros. rewrite byte.unsigned_of_Z. by apply Z.mod_small. Qed.

Lemma decodeVarint_loop_encode fuel v i x s rest :
  0 <= i → i + Z.of_nat fuel = 10 → s = 7 * i → 0 <= x < 2 ^ s →
  0 <= v < 2 ^ (64 - s) → (0 < fuel)%nat →
  decodeVarint_loop (varint_bytes fuel v ++ rest) i x s =
    (x + v * 2 ^ s, i + zlen (varint_bytes fuel v)).
Proof.
  revert v i x s. induction fuel as [|fuel IH]; intros v i x s Hi Hf Hs Hx Hv Hpos; [lia|].
  cbn [varint_bytes]. destruct (Z.ltb_spec v 128) as [Hsmall|Hbig].
  - cbn [app decodeVarint_loop]. rewrite byte_of_Z_small by lia.
    replace (10 <=? i) with false by lia. replace (v <? 128) with true by lia.
    rewrite u64_id.
    { rewrite lor_shiftl_add by lia. done. }
    unfold is_u64, two64. rewrite Z.shiftl_mul_pow2 by lia.
    assert (64 - s + s = 64) as Hsum by lia.
    assert (0 < 2 ^ s) by lia. split; [lia|].
    rewrite <- Hsum, Z.pow_add_r by lia. apply Z.mul_lt_mono_pos_r; lia.
  - cbn [app decodeVarint_loop].
    pose proof (Z.mod_pos_bound v 128). rewrite byte_of_Z_small by lia.
    replace (10 <=? i) with false by lia.
    replace (v mod 128 + 128 <? 128) with false by lia.
    assert (Hland : Z.land (v mod 128 + 128) 127 = v mod 128).
    { change 127 with (Z.ones 7). rewrite Z.land_ones by lia.
      change (2 ^ 7) with 128. rewrite <- (Z.mul_1_l 128) at 2.
      rewrite Z_mod_plus_full, Z.mod_mod by lia. done. }
    rewrite Hland.
    assert (H64 : 7 < 64 - s).
    { apply (Z.pow_lt_mono_r_iff 2); [lia|lia|]. change (2 ^ 7) with 128.
      destruct (Z.eq_dec (64 - s) 7); [lia|]. lia. }
    assert (Hdiv : 0 <= v / 128 < 2 ^ (64 - (s + 7))).
    { split; [apply Z.div_pos; lia|]. apply Z.div_lt_upper_bound; [lia|].
      change 128 with (2 ^ 7). rewrite <- Z.pow_add_r by lia.
      replace (7 + (64 - (s + 7))) with (64 - s) by lia. lia. }
    assert (Hpow : 2 ^ (s + 7) = 2 ^ s * 128) by (rewrite Z.pow_add_r by lia; done).
    assert (Hmod : v mod 128 * 2 ^ s < 2 ^ 64).
    { apply Z.lt_le_trans with (2 ^ (s + 7)); [|apply Z.pow_le_mono_r; lia].
      rewrite Hpow, (Z.mul_comm (2 ^ s)). apply Z.mul_lt_mono_pos_r; lia. }
    assert (0 <= v mod 128 * 2 ^ s) by (apply Z.mul_nonneg_nonneg; lia).
    rewrite u64_id by (unfold is_u64, two64; rewrite Z.shiftl_mul_pow2 by lia; lia).
    rewrite lor_shiftl_add by lia.
    assert (Hx' : x + v mod 128 * 2 ^ s < 2 ^ (s + 7)).
    { rewrite Hpow. assert (v mod 128 * 2 ^ s <= 127 * 2 ^ s)
        by (apply Z.mul_le_mono_nonneg_r; lia). lia. }
    rewrite IH by lia. rewrite zlen_cons, Hpow.
    f_equal; [|lia]. rewrite (Z.div_mod v 128) at 3 by lia. lia.
Qed.

Lemma decodeVarint_encode v rest :
  is_u64 v → decodeVarint (encode_varint v ++ rest) = (v, zlen (encode_varint v)).
Proof.
  intros Hv. unfold decodeVarint, encode_varint.
  rewrite decodeVarint_loop_encode by (unfold is_u64, two64 in Hv; lia).
  f_equal; lia.
Qed.

Lemma encode_varint_pos v : 0 < zlen (encode_varint v).
Proof.
  unfold encode_varint. cbn [varint_bytes]. destruct (_ <? _); rewrite zlen_cons;
    match goal with |- context [zlen ?l] => pose proof (zlen_nonneg l) end; lia.
Qed.
End Varint.

(** * Every step of the decoder consumes input; the decoder terminates *)
Section Totality.
Import Wire.

Ltac zlen_facts :=
  repeat match goal with
  | H : slice_from _ _ = Ret _ |- _ => apply slice_from_Ret in H
  end; unfold zlen in *.

(** A step's remaining data is shorter, since the tag took at least a byte. *)
Ltac solve_consumes :=
  intros; repeat (case_match; try discriminate); invert_bind;
  repeat (case_match; try discriminate); invert_bind; simplify_eq;
  rewrite ?Z.eqb_neq in *; zlen_facts; lia.

Lemma parseLabel_step_consumes l data l' data' :
  data ≠ [] → parseLabel_step l data = Ret (l', data') → (length data' < length data)%nat.
Proof. unfold parseLabel_step. solve_consumes. Qed.

Lemma parseSample_step_consumes s data s' data' :
  data ≠ [] → parseSample_step s data = Ret (s', data') → (length data' < length data)%nat.
Proof. unfold parseSample_step. solve_consumes. Qed.

Lemma parseTimeSeries_step_consumes ts data ts' data' :
  data ≠ [] → parseTimeSeries_step ts data = Ret (ts', data') →
  (length data' < length data)%nat.
Proof. unfold parseTimeSeries_step. solve_consumes. Qed.

Lemma parseWriteRequest_step_consumes r data r' data' :
  data ≠ [] → parseWriteRequest_step r data = Ret (r', data') →
  (length data' < length data)%nat.
Proof. unfold parseWriteRequest_step. solve_consumes. Qed.

Lemma skipField_not_Diverge w data : skipField w data ≠ Diverge.
Proof. unfold skipField. by repeat case_match. Qed.

Ltac solve_no_diverge :=
  repeat match goal with
  | |- _ ≫= _ ≠ Diverge =>
      let H := fresh in intros H; apply bind_Diverge in H as [H|(? & _ & H)];
      revert H; change (?x = Diverge → False) with (x ≠ Diverge)
  | |- (let '(_, _) := ?p in _) ≠ Diverge => destruct p
  | |- (if ?b then _ else _) ≠ Diverge => destruct b
  | |- slice_from _ _ ≠ Diverge => apply slice_from_not_Diverge
  | |- slice_to _ _ ≠ Diverge => apply slice_to_not_Diverge
  | |- skipField _ _ ≠ Diverge => apply skipField_not_Diverge
  | |- Ret _ ≠ Diverge => discriminate
  | |- Err _ ≠ Diverge => discriminate
  end.

Lemma parseLabel_terminates data : parseLabel data ≠ Diverge.
Proof.
  apply consume_terminates; [apply parseLabel_step_consumes|].
  intros l d. unfold parseLabel_step. solve_no_diverge.
Qed.

Lemma parseSample_terminates data : parseSample data ≠ Diverge.
Proof.
  apply consume_terminates; [apply parseSample_step_consumes|].
  intros s d. unfold parseSample_step. solve_no_diverge.
Qed.

Lemma parseTimeSeries_terminates data : parseTimeSeries data ≠ Diverge.
Proof.
  apply consume_terminates; [apply parseTimeSeries_step_consumes|].
  intros ts d. unfold parseTimeSeries_step. solve_no_diverge;
    [apply parseLabel_terminates|apply parseSample_terminates].
Qed.

Lemma parse_request_no_diverge data : parseWriteRequest data ≠ Diverge.
Proof.
  apply consume_terminates; [apply parseWriteRequest_step_consumes|].
  intros r d. unfold parseWriteRequest_step. solve_no_diverge.
  apply parseTimeSeries_terminates.
Qed.

(** The decoder terminates on every input: whatever the bytes, it returns a
    list of series, an error, or panics; the iteration bound of the model (the
    length of the input) is never reached. *)
Theorem parseWriteRequest_terminates data : parseWriteRequest data ≠ Diverge.
Proof. apply parse_request_no_diverge. Qed.
End Totality.

(** * The decoder inverts the encoding *)
Section RoundTrip.
Import Wire WireSpec.

Lemma decodeTag_encode f w rest :
  0 < f < 2 ^ 28 → 0 <= w < 8 →
  decodeTag (encode_tag f w ++ rest) = (f, w, zlen (encode_tag f w)).
Proof.
  intros Hf Hw. unfold decodeTag, encode_tag.
  rewrite decodeVarint_encode by (unfold is_u64, two64; lia).
  pose proof (encode_varint_pos (f * 8 + w)).
  replace (zlen _ =? 0) with false by lia. f_equal; f_equal.
  - rewrite Z.shiftr_div_pow2 by lia. change (2 ^ 3) with 8.
    rewrite Z.div_add_l, Z.div_small by lia. rewrite i64_id; [lia|].
    unfold is_i64, min_int64, max_int64. lia.
  - change 7 with (Z.ones 3). rewrite Z.land_ones by lia. change (2 ^ 3) with 8.
    rewrite Z.add_comm, Z_mod_plus_full, Z.mod_small by lia. rewrite i64_id; [done|].
    unfold is_i64, min_int64, max_int64. lia.
Qed.

Lemma zlen_if_ne {A} (l : list A) (T : Type) (a b : T) :
  0 < zlen l → (if zlen l =? 0 then a else b) = b.
Proof. intros. by replace (zlen l =? 0) with false by lia. Qed.

(** Reading [tag f 2; length; payload] up to the dispatch on the field. *)
Lemma len_ok (payload rest : bytes) :
  zlen payload < 2 ^ 63 → is_u64 (zlen payload) ∧
  (zlen (payload ++ rest) <? i64 (zlen payload)) = false.
Proof.
  intros H. pose proof (zlen_nonneg payload). pose proof (zlen_nonneg rest).
  rewrite i64_id by (unfold is_i64, min_int64, max_int64; lia). rewrite zlen_app.
  unfold is_u64, two64. split; [lia|]. apply Z.ltb_ge. lia.
Qed.

Ltac read_message p rest :=
  let Hu := fresh "Hu" in let Hlen := fresh "Hlen" in
  destruct (len_ok p rest) as [Hu Hlen]; [assumption|];
  unfold encode_message; rewrite <- !app_assoc, decodeTag_encode by lia;
  rewrite zlen_if_ne by apply encode_varint_pos;
  rewrite slice_from_app; cbn [mbind outcome_bind Z.eqb Pos.eqb andb];
  rewrite decodeVarint_encode by exact Hu;
  rewrite zlen_if_ne by apply encode_varint_pos;
  rewrite slice_from_app; cbn [mbind outcome_bind];
  rewrite Hlen, ?slice_to_app; cbn [mbind outcome_bind];
  rewrite ?slice_from_app; cbn [mbind outcome_bind].

Lemma label_name_step l p rest : zlen p < 2 ^ 63 →
  parseLabel_step l (encode_message 1 p ++ rest) =
    Ret (PrLabel (String.string_of_list_byte p) (LValue l), rest).
Proof. intros Hp. unfold parseLabel_step. read_message p rest. done. Qed.

Lemma label_value_step l p rest : zlen p < 2 ^ 63 →
  parseLabel_step l (encode_message 2 p ++ rest) =
    Ret (PrLabel (Name l) (String.string_of_list_byte p), rest).
Proof. intros Hp. unfold parseLabel_step. read_message p rest. done. Qed.

Lemma series_label_step ts l p rest : zlen p < 2 ^ 63 → parseLabel p = Ret l →
  parseTimeSeries_step ts (encode_message 1 p ++ rest) =
    Ret (PrTimeSeries (Labels ts ++ [l]) (Samples ts), rest).
Proof.
  intros Hp Hl. unfold parseTimeSeries_step. read_message p rest.
  rewrite Hl. cbn [mbind outcome_bind]. done.
Qed.

Lemma series_sample_step ts s p rest : zlen p < 2 ^ 63 → parseSample p = Ret s →
  parseTimeSeries_step ts (encode_message 2 p ++ rest) =
    Ret (PrTimeSeries (Labels ts) (Samples ts ++ [s]), rest).
Proof.
  intros Hp Hs. unfold parseTimeSeries_step. read_message p rest.
  rewrite Hs. cbn [mbind outcome_bind]. done.
Qed.

Lemma request_step r ts p rest : zlen p < 2 ^ 63 → parseTimeSeries p = Ret ts →
  parseWriteRequest_step r (encode_message 1 p ++ rest) = Ret (r ++ [ts], rest).
Proof.
  intros Hp Hts. unfold parseWriteRequest_step. read_message p rest.
  rewrite Hts. cbn [mbind outcome_bind]. done.
Qed.

Lemma encode_message_ne f p rest : encode_message f p ++ rest ≠ [].
Proof.
  pose proof (encode_varint_pos (f * 8 + 2)). unfold encode_message, encode_tag.
  destruct (encode_varint _); [done|by cbn].
Qed.

(** One message field, then the rest of the input. *)
Lemma consume_message {S} (step : S → bytes → outcome (S * bytes)) s s' f p rest :
  (∀ s data s' data', data ≠ [] → step s data = Ret (s', data') →
     (length data' < length data)%nat) →
  step s (encode_message f p ++ rest) = Ret (s', rest) →
  consume step s (encode_message f p ++ rest) = consume step s' rest.
Proof.
  intros Hc Hs. rewrite consume_step by (done || apply encode_message_ne). by rewrite Hs.
Qed.

Lemma encode_message_len f p : zlen p <= zlen (encode_message f p).
Proof.
  unfold encode_message. rewrite !zlen_app. pose proof (zlen_nonneg (encode_tag f 2)).
  pose proof (zlen_nonneg (encode_varint (zlen p))). lia.
Qed.

Lemma encode_string_len f s : zlen (String.list_byte_of_string s) <= zlen (encode_string f s).
Proof.
  unfold encode_string. case_decide; [by subst|apply encode_message_len].
Qed.

(** An optional string field sets its component, absent it leaves the default. *)
Lemma parse_label_encode l :
  zlen (encode_label l) < 2 ^ 63 → parseLabel (encode_label l) = Ret l.
Proof.
  destruct l as [nm vl]. unfold parseLabel, encode_label. cbn [Name LValue].
  rewrite zlen_app. intros Hlen.
  pose proof (encode_string_len 1 nm). pose proof (encode_string_len 2 vl).
  pose proof (zlen_nonneg (encode_string 1 nm)). pose proof (zlen_nonneg (encode_string 2 vl)).
  assert (Hstep2 : ∀ n, consume parseLabel_step (PrLabel n "") (encode_string 2 vl)
                        = Ret (PrLabel n vl)).
  { intros n. unfold encode_string. case_decide as Hv; [by subst|].
    rewrite <- (app_nil_r (encode_message _ _)).
    rewrite (consume_message _ _ (PrLabel n vl)); [done|apply parseLabel_step_consumes|].
    rewrite label_value_step by lia. by rewrite String.string_of_list_byte_of_string. }
  unfold encode_string at 1. case_decide as Hn; [subst; apply Hstep2|].
  rewrite (consume_message _ _ (PrLabel nm "")); [apply Hstep2|apply parseLabel_step_consumes|].
  rewrite label_name_step by lia. by rewrite String.string_of_list_byte_of_string.
Qed.

Lemma sample_value_step s bits rest : is_u64 bits →
  parseSample_step s ((encode_tag 1 1 ++ le_split 8 bits) ++ rest) =
    Ret (PrSample (TimestampMs s) (f64_of_bits bits), rest).
Proof.
  intros Hb. unfold parseSample_step. rewrite <- !app_assoc, decodeTag_encode by lia.
  rewrite zlen_if_ne by apply encode_varint_pos. rewrite slice_from_app.
  cbn [mbind outcome_bind Z.eqb Pos.eqb andb].
  assert (H8 : zlen (le_split 8 bits) = 8) by (unfold zlen; by rewrite length_le_split).
  rewrite zlen_app, H8. pose proof (zlen_nonneg rest).
  replace (8 + zlen rest <? 8) with false by lia.
  rewrite <- H8, slice_to_app. cbn [mbind outcome_bind].
  rewrite slice_from_app. cbn [mbind outcome_bind].
  rewrite le_combine_split. change (2 ^ (Z.of_nat 8 * 8)) with two64.
  by rewrite Z.mod_small.
Qed.

Lemma sample_ts_step s t rest : is_i64 t →
  parseSample_step s ((encode_tag 2 0 ++ encode_varint (u64 t)) ++ rest) =
    Ret (PrSample t (Value s), rest).
Proof.
  intros Ht. unfold parseSample_step. rewrite <- !app_assoc, decodeTag_encode by lia.
  rewrite zlen_if_ne by apply encode_varint_pos. rewrite slice_from_app.
  cbn [mbind outcome_bind Z.eqb Pos.eqb andb].
  rewrite decodeVarint_encode by apply u64_range.
  rewrite zlen_if_ne by apply encode_varint_pos. rewrite slice_from_app.
  cbn [mbind outcome_bind]. by rewrite i64_u64, i64_id.
Qed.

Lemma parse_sample_encode s :
  sample_ok s → parseSample (encode_sample s) = Ret (sample_of s).
Proof.
  destruct s as [t bits]. intros [Ht Hb]. unfold parseSample, encode_sample, sample_of.
  cbn [w_ts w_bits] in *.
  assert (Hne : ∀ f w l (r : bytes), (encode_tag f w ++ l) ++ r ≠ []).
  { intros f w l r. pose proof (encode_varint_pos (f * 8 + w)). unfold encode_tag.
    destruct (encode_varint _); [done|by cbn]. }
  assert (Hts : ∀ v, consume parseSample_step (PrSample 0 v)
    (if decide (t = 0) then [] else encode_tag 2 0 ++ encode_varint (u64 t))
    = Ret (PrSample t v)).
  { intros v. case_decide as H0; [by subst|].
    rewrite <- (app_nil_r (_ ++ _)).
    rewrite consume_step by (apply parseSample_step_consumes || apply Hne).
    by rewrite sample_ts_step. }
  destruct (decide (bits = 0)) as [->|H0]; [apply Hts|].
  rewrite consume_step by (apply parseSample_step_consumes || apply Hne).
  rewrite sample_value_step by done. apply Hts.
Qed.

Lemma concat_map_len {A} (f : A → bytes) l x :
  x ∈ l → zlen (f x) <= zlen (concat (map f l)).
Proof.
  intros H. induction H as [x l|x y l _ IH]; cbn; rewrite zlen_app;
    [pose proof (zlen_nonneg (concat (map f l)))|pose proof (zlen_nonneg (f y))]; lia.
Qed.

Lemma consume_labels ls lacc sacc rest :
  (∀ l, l ∈ ls → zlen (encode_label l) < 2 ^ 63) →
  consume parseTimeSeries_step (PrTimeSeries lacc sacc)
    (concat (map (λ l, encode_message 1 (encode_label l)) ls) ++ rest) =
  consume parseTimeSeries_step (PrTimeSeries (lacc ++ ls) sacc) rest.
Proof.
  revert lacc. induction ls as [|l ls IH]; intros lacc Hok; cbn [map concat].
  { by rewrite app_nil_r. }
  assert (zlen (encode_label l) < 2 ^ 63) by (apply Hok; left).
  rewrite <- app_assoc. rewrite (consume_message _ _ (PrTimeSeries (lacc ++ [l]) sacc)).
  - rewrite IH, <- app_assoc; [done|]. intros l' ?. apply Hok. by right.
  - apply parseTimeSeries_step_consumes.
  - by rewrite (series_label_step _ l) by auto using parse_label_encode.
Qed.

Lemma consume_samples ss lacc sacc rest :
  (∀ s, s ∈ ss → zlen (encode_sample s) < 2 ^ 63) → Forall sample_ok ss →
  consume parseTimeSeries_step (PrTimeSeries lacc sacc)
    (concat (map (λ s, encode_message 2 (encode_sample s)) ss) ++ rest) =
  consume parseTimeSeries_step (PrTimeSeries lacc (sacc ++ map sample_of ss)) rest.
Proof.
  revert sacc. induction ss as [|s ss IH]; intros sacc Hok Hwf; cbn [map concat].
  { by rewrite app_nil_r. }
  apply Forall_cons in Hwf as [Hs Hwf].
  assert (zlen (encode_sample s) < 2 ^ 63) by (apply Hok; left).
  rewrite <- app_assoc. rewrite (consume_message _ _ (PrTimeSeries lacc (sacc ++ [sample_of s]))).
  - rewrite IH, <- app_assoc; [done| |done]. intros s' ?. apply Hok. by right.
  - apply parseTimeSeries_step_consumes.
  - by rewrite (series_sample_step _ (sample_of s)) by auto using parse_sample_encode.
Qed.

Lemma parse_series_encode ts :
  series_ok ts → zlen (encode_series ts) < 2 ^ 63 →
  parseTimeSeries (encode_series ts) = Ret (series_of ts).
Proof.
  destruct ts as [ls ss]. unfold series_ok, parseTimeSeries, encode_series, series_of.
  cbn [w_labels w_samples]. rewrite zlen_app. intros Hwf Hlen.
  pose proof (zlen_nonneg (concat (map (λ l, encode_message 1 (encode_label l)) ls))).
  pose proof (zlen_nonneg (concat (map (λ s, encode_message 2 (encode_sample s)) ss))).
  rewrite consume_labels.
  - cbn [app]. rewrite <- (app_nil_r (concat _)).
    rewrite consume_samples; [done| |done]. intros s Hs.
    pose proof (concat_map_len (λ s, encode_message 2 (encode_sample s)) ss s Hs).
    pose proof (encode_message_len 2 (encode_sample s)). cbn beta in *. lia.
  - intros l Hl.
    pose proof (concat_map_len (λ l, encode_message 1 (encode_label l)) ls l Hl).
    pose proof (encode_message_len 1 (encode_label l)). cbn beta in *. lia.
Qed.

Lemma consume_series tss acc rest :
  (∀ ts, ts ∈ tss → zlen (encode_series ts) < 2 ^ 63) → Forall series_ok tss →
  consume parseWriteRequest_step acc
    (concat (map (λ ts, encode_message 1 (encode_series ts)) tss) ++ rest) =
  consume parseWriteRequest_step (acc ++ map series_of tss) rest.
Proof.
  revert acc. induction tss as [|ts tss IH]; intros acc Hok Hwf; cbn [map concat].
  { by rewrite app_nil_r. }
  apply Forall_cons in Hwf as [Hs Hwf].
  assert (zlen (encode_series ts) < 2 ^ 63) by (apply Hok; left).
  rewrite <- app_assoc. rewrite (consume_message _ _ (acc ++ [series_of ts])).
  - rewrite IH, <- app_assoc; [done| |done]. intros ts' ?. apply Hok. by right.
  - apply parseWriteRequest_step_consumes.
  - by rewrite (request_step _ (series_of ts)) by auto using parse_series_encode.
Qed.

Lemma parse_request_encode tss :
  Forall series_ok tss → zlen (encode_request tss) < 2 ^ 63 →
  parseWriteRequest (encode_request tss) = Ret (map series_of tss).
Proof.
  intros Hwf Hlen. unfold parseWriteRequest, encode_request in *.
  rewrite <- (app_nil_r (concat _)), consume_series; [done| |done].
  intros ts Hts.
  pose proof (concat_map_len (λ ts, encode_message 1 (encode_series ts)) tss ts Hts).
  pose proof (encode_message_len 1 (encode_series ts)). cbn beta in *. lia.
Qed.

(** C8.  The hand-written decoder inverts the protobuf encoding: a write request of
    any number of series, labels and samples is decoded to exactly those
    series (labels and samples in order, timestamps as signed 64-bit numbers,
    values by their IEEE bits), provided the timestamps and value bits fit in
    64 bits and the message is shorter than 2^63 bytes. *)
Theorem parseWriteRequest_encode tss :
  Forall series_ok tss → zlen (encode_request tss) < 2 ^ 63 →
  parseWriteRequest (encode_request tss) = Ret (map series_of tss).
Proof. apply parse_request_encode. Qed.
End RoundTrip.

Section RoundTripWitness.
Import Wire WireSpec.

Definition example_series : wseries :=
  WSeries [PrLabel "__name__" "node_cpu_seconds_total"; PrLabel "instance" "host:9100"]
          [WSample 1700000000000 0x3FF8000000000000; WSample (-1) 0].

Lemma parseWriteRequest_encode_witness :
  parseWriteRequest (encode_request [example_series; WSeries [] []]) =
    Ret [PrTimeSeries
           [PrLabel "__name__" "node_cpu_seconds_total"; PrLabel "instance" "host:9100"]
           [PrSample 1700000000000 (f64_ratio 3 2); PrSample (-1) f64_zero];
         PrTimeSeries [] []].
Proof.
  refine (eq_trans (parseWriteRequest_encode [example_series; WSeries [] []] _ _) _).
  - apply (bool_decide_unpack _). vm_compute. exact I.
  - vm_compute. reflexivity.
  - vm_compute. reflexivity.
Defined.
End RoundTripWitness.

(** * Lengths that point outside the data *)
Section BadLengths.
Import Wire WireSpec.

Lemma tag_then_length f l payload :
  0 < f < 2 ^ 28 → is_u64 l →
  let data := encode_tag f 2 ++ encode_varint l ++ payload in
  decodeTag data = (f, 2, zlen (encode_tag f 2)) ∧
  slice_from data (zlen (encode_tag f 2)) = Ret (encode_varint l ++ payload) ∧
  decodeVarint (encode_varint l ++ payload) = (l, zlen (encode_varint l)) ∧
  slice_from (encode_varint l ++ payload) (zlen (encode_varint l)) = Ret payload.
Proof.
  intros Hf Hl data. unfold data. split_and!.
  - apply decodeTag_encode; lia.
  - apply slice_from_app.
  - by apply decodeVarint_encode.
  - apply slice_from_app.
Qed.

Lemma slice_from_outside (d : bytes) n : n < 0 ∨ zlen d < n → slice_from d n = Panic.
Proof. intros H. unfold slice_from. by replace (_ && _) with false by lia. Qed.

Lemma slice_to_outside (d : bytes) n : n < 0 ∨ zlen d < n → slice_to d n = Panic.
Proof. intros H. unfold slice_to. by replace (_ && _) with false by lia. Qed.

Lemma consume_first {S} (step : S → bytes → outcome (S * bytes)) s data o :
  data ≠ [] → step s data = o →
  (o = Panic → consume step s data = Panic) ∧
  (∀ e, o = Err e → consume step s data = Err e).
Proof.
  intros Hne <-. unfold consume. destruct data as [|b data]; [done|].
  cbn [length consume_loop]. split; intros *; by intros ->.
Qed.

Lemma tag_data_ne f l (payload : bytes) : encode_tag f 2 ++ encode_varint l ++ payload ≠ [].
Proof.
  pose proof (encode_varint_pos (f * 8 + 2)). unfold encode_tag.
  destruct (encode_varint (f * 8 + 2)); [done|by cbn].
Qed.

(** A length-delimited field that the decoder does not know and whose payload is
    shorter than its declared length makes it panic: [skipField] returns the
    declared length without comparing it with the data, and the caller slices
    with it.  (For the fields it knows the decoder reports an error, see
    [truncated_series_errors].) *)
Theorem unknown_field_truncated_panics f l payload :
  1 < f < 2 ^ 28 → zlen payload < l < 2 ^ 63 - 10 →
  parseWriteRequest (encode_tag f 2 ++ encode_varint l ++ payload) = Panic.
Proof.
  intros Hf Hl. pose proof (zlen_nonneg payload).
  destruct (tag_then_length f l payload) as (H1 & H2 & H3 & H4);
    [lia|unfold is_u64, two64; lia|].
  eapply (consume_first parseWriteRequest_step); [apply tag_data_ne| |done].
  unfold parseWriteRequest_step. rewrite H1, zlen_if_ne by apply encode_varint_pos.
  rewrite H2. cbn [mbind outcome_bind]. replace (f =? 1) with false by lia. cbn [andb].
  unfold skipField. cbn [Z.eqb Pos.eqb]. rewrite H3, zlen_if_ne by apply encode_varint_pos.
  cbn [mbind outcome_bind].
  pose proof (decodeVarint_bounds _ _ _ H3) as [_ Hn]. pose proof (encode_varint_pos l).
  unfold add64. rewrite (i64_id l), i64_id
    by (unfold is_i64, min_int64, max_int64; lia).
  rewrite slice_from_outside; [done|]. rewrite zlen_app. lia.
Qed.

(** A length of 2^63 or more in front of a series makes the decoder panic: as a
    signed [int] it is negative, so it passes the comparison with the length of
    the data, and the slice expression then gets the unsigned value. *)
Theorem huge_length_panics l payload :
  2 ^ 63 <= l < 2 ^ 64 → zlen payload < 2 ^ 63 →
  parseWriteRequest (encode_tag 1 2 ++ encode_varint l ++ payload) = Panic.
Proof.
  intros Hl Hp. pose proof (zlen_nonneg payload).
  destruct (tag_then_length 1 l payload) as (H1 & H2 & H3 & H4);
    [lia|unfold is_u64, two64; lia|].
  eapply (consume_first parseWriteRequest_step); [apply tag_data_ne| |done].
  unfold parseWriteRequest_step. rewrite H1, zlen_if_ne by apply encode_varint_pos.
  rewrite H2. cbn [mbind outcome_bind Z.eqb Pos.eqb andb].
  rewrite H3, zlen_if_ne by apply encode_varint_pos. rewrite H4. cbn [mbind outcome_bind].
  rewrite i64_of_big_u64 by (unfold two64; lia). unfold two64.
  replace (_ <? _) with false by lia. by rewrite slice_to_outside by lia.
Qed.

Lemma truncated_series_errors l payload :
  zlen payload < l < 2 ^ 63 →
  parseWriteRequest (encode_tag 1 2 ++ encode_varint l ++ payload) = Err "truncated message".
Proof.
  intros Hl. pose proof (zlen_nonneg payload).
  destruct (tag_then_length 1 l payload) as (H1 & H2 & H3 & H4);
    [lia|unfold is_u64, two64; lia|].
  eapply (consume_first parseWriteRequest_step); [apply tag_data_ne| |done].
  unfold parseWriteRequest_step. rewrite H1, zlen_if_ne by apply encode_varint_pos.
  rewrite H2. cbn [mbind outcome_bind Z.eqb Pos.eqb andb].
  rewrite H3, zlen_if_ne by apply encode_varint_pos. rewrite H4. cbn [mbind outcome_bind].
  rewrite i64_id by (unfold is_i64, min_int64, max_int64; lia).
  by replace (_ <? _) with true by lia.
Qed.

Lemma unknown_field_truncated_panics_witness :
  parseWriteRequest (encode_tag 3 2 ++ encode_varint 5 ++ [Byte.x00]) = Panic.
Proof. apply unknown_field_truncated_panics; vm_compute; split; reflexivity. Defined.

Lemma huge_length_panics_witness :
  parseWriteRequest (encode_tag 1 2 ++ encode_varint (2 ^ 63) ++ []) = Panic.
Proof. apply huge_length_panics; [split; [discriminate|reflexivity]|reflexivity]. Defined.
End BadLengths.
