(* ===== verification/Ingest.v ===== *)
(** The remote-write receiver behind its decoder, internal/remotewrite/handler.go:
    [ingest] turns the decoded series into rows and inserts them in one
    transaction, [ServeHTTP] is the endpoint. *)

From Stdlib Require Import SpecFloat.
From S2P Require Import Prelude GoInt GoFloat GoTime GoString Http Metrics Store RemoteWrite.

Module Ingest.

(** The local type [row] of [ingest]. *)
Record row := mkRow {
  collectedAt : Z;
  context : string;
  dimension : string;
  instance : string;
  value : float64;
}.

Definition metricToContext (name : string) : string :=
  if HasPrefix name "node_cpu" then "system.cpu"
  else if HasPrefix name "node_disk" then "disk.io"
  else if HasPrefix name "node_memory" then "system.ram"
  else if HasPrefix name "node_network" then "system.ip"
  else "prometheus." +:+ name.

(** The scan of the labels: the metric name and the instance, the last one wins. *)
Definition scan_label (acc : string * string) (l : Wire.prLabel) : string * string :=
  let '(metricName, instance) := acc in
  if String.eqb (Wire.Name l) "__name__" then (Wire.LValue l, instance)
  else if String.eqb (Wire.Name l) "instance" then (metricName, Wire.LValue l)
  else acc.
Definition scan_labels (ls : list Wire.prLabel) : string * string :=
  fold_left scan_label ls ("", "").

(** The rows of one series. *)
Fixpoint sample_rows (metricName instance : string) (ss : list Wire.prSample) : list row :=
  match ss with
  | [] => []
  | s :: ss =>
      let rest := sample_rows metricName instance ss in
      if is_nan (Wire.Value s) || is_inf (Wire.Value s) then rest
      else mkRow (mul64 (Wire.TimestampMs s) Millisecond) (metricToContext metricName)
             metricName instance (Wire.Value s) :: rest
  end.

Definition series_rows (ts : Wire.prTimeSeries) : list row :=
  let '(metricName, instance) := scan_labels (Wire.Labels ts) in
  if String.eqb metricName "" then [] else sample_rows metricName instance (Wire.Samples ts).

Definition all_rows (series : list Wire.prTimeSeries) : list row :=
  concat (map series_rows series).

Section Ingest.
Context `{PG : Postgres}.

(** The columns of the INSERT; chart, family and unit are left NULL and the labels
    take their default. *)
Definition table_row (nodeID : string) (r : row) : Schema.row :=
  Schema.mkRow nodeID (collectedAt r) (context r) None None (Some (instance r)) (dimension r)
    None (value r) ∅.

(** One batch; the count is the length of the batch, whatever the server inserted. *)
Definition insert_rows_batch (nodeID : string) (t : tx) (batch : list row) : tx * (string + Z) :=
  match tx_exec t (Schema.InsertStmt (map (table_row nodeID) batch)) with
  | (t', inl e) => (t', inl e)
  | (t', inr _) => (t', inr (zlen batch))
  end.

Definition batchSize : Z := 500.

Definition ingest (nodeID : string) (d : db) (series : list Wire.prTimeSeries)
    : outcome (db * (Z * option string)) :=
  let rows := all_rows series in
  if zlen rows =? 0 then Ret (d, (0, None))
  else
    match begin_tx d with
    | inl (d', e) => Ret (d', (0, Some ("begin tx: " +:+ e)))
    | inr t =>
        r ← batch_loop batchSize (insert_rows_batch nodeID) (length rows) 0 0 rows t;
        match r with
        | (t', count, Some (i, e)) =>
            Ret (rollback_tx t',
                 (count, Some ("batch insert at offset " +:+ fmt_d i +:+ ": " +:+ e)))
        | (t', count, None) =>
            match commit_tx t' with
            | (d', Some e) => Ret (d', (0, Some ("commit tx: " +:+ e)))
            | (d', None) => Ret (d', (count, None))
            end
        end
    end.

(** The snappy decompressor is a library; [None] is its error. *)
Context (snappy_Decode : list Byte.byte → option (list Byte.byte)).

(** The endpoint, on the database and the counters. *)
Definition ServeHTTP (nodeID : string) : handler (db * Metrics.Metrics) := λ r st,
  let '(d, m) := st in
  if negb (String.eqb (Method r) "POST")
  then (st, Ret (http_Error "method not allowed" StatusMethodNotAllowed))
  else
    match ReadAll_limit (10 * 2 ^ 20) r with
    | Err _ => (st, Ret (http_Error "read error" StatusBadRequest))
    | Ret body =>
        match snappy_Decode body with
        | None => (st, Ret (http_Error "snappy decode error" StatusBadRequest))
        | Some decoded =>
            match Wire.parseWriteRequest decoded with
            | Err _ => (st, Ret (http_Error "protobuf decode error" StatusBadRequest))
            | Ret timeseries =>
                match ingest nodeID d timeseries with
                | Ret (d', (_, Some _)) =>
                    ((d', Metrics.add_RemoteWriteErrors 1 m),
                     Ret (http_Error "ingest error" StatusInternalServerError))
                | Ret (d', (inserted, None)) =>
                    ((d', Metrics.add_RemoteWriteSamples inserted m),
                     Ret (mkResponse StatusNoContent [] ""))
                | Err e => (st, Err e)
                | Panic => (st, Panic)
                | Diverge => (st, Diverge)
                end
            | Panic => (st, Panic)
            | Diverge => (st, Diverge)
            end
        end
    | Panic => (st, Panic)
    | Diverge => (st, Diverge)
    end.
End Ingest.
End Ingest.

(** * What the rows are meant to be *)
Module IngestSpec.

(** The value of the last label with a name. *)
Definition label_value (name : string) (ls : list Wire.prLabel) : string :=
  fold_left (λ v l, if String.eqb (Wire.Name l) name then Wire.LValue l else v) ls "".

Definition finite_sample (s : Wire.prSample) : bool :=
  negb (is_nan (Wire.Value s) || is_inf (Wire.Value s)).

Definition row_for (name instance : string) (s : Wire.prSample) : Ingest.row :=
  Ingest.mkRow (mul64 (Wire.TimestampMs s) Millisecond) (Ingest.metricToContext name) name instance
    (Wire.Value s).

(** One row for every finite sample of every series with a metric name, in order. *)
Definition expected_rows (series : list Wire.prTimeSeries) : list Ingest.row :=
  ts ← List.filter (λ ts, negb (String.eqb (label_value "__name__" (Wire.Labels ts)) "")) series;
  s ← List.filter finite_sample (Wire.Samples ts);
  [row_for (label_value "__name__" (Wire.Labels ts)) (label_value "instance" (Wire.Labels ts)) s].

End IngestSpec.

Section RowsProofs.
Import Ingest IngestSpec.

Lemma scan_labels_spec ls :
  scan_labels ls = (label_value "__name__" ls, label_value "instance" ls).
Proof.
  unfold scan_labels, label_value.
  assert (H : ∀ n i, fold_left scan_label ls (n, i) =
    (fold_left (λ v l, if String.eqb (Wire.Name l) "__name__" then Wire.LValue l else v) ls n,
     fold_left (λ v l, if String.eqb (Wire.Name l) "instance" then Wire.LValue l else v) ls i));
    [|apply H].
  induction ls as [|l ls IH]; intros n i; cbn [fold_left]; [done|]. rewrite <- IH. f_equal.
  cbn. destruct (String.eqb_spec (Wire.Name l) "__name__") as [->|]; [done|].
  by destruct (String.eqb (Wire.Name l) "instance").
Qed.

Lemma sample_rows_spec n i ss :
  sample_rows n i ss = s ← List.filter finite_sample ss; [row_for n i s].
Proof.
  induction ss as [|s ss IH]; cbn [sample_rows List.filter]; [done|]. rewrite IH.
  change (finite_sample s) with (negb (is_nan (Wire.Value s) || is_inf (Wire.Value s))).
  by destruct (_ || _).
Qed.

Lemma all_rows_spec series : all_rows series = expected_rows series.
Proof.
  unfold all_rows, expected_rows. induction series as [|ts series IH]; [done|].
  cbn [map concat List.filter]. rewrite IH. unfold series_rows at 1. rewrite scan_labels_spec.
  destruct (String.eqb (label_value "__name__" _) ""); [done|]. by rewrite sample_rows_spec.
Qed.

Lemma time_of_ms ts :
  is_i64 ts → (mul64 ts Millisecond = ts * Millisecond ↔ Z.abs ts <= 9223372036854).
Proof.
  intros Hts. unfold mul64, Millisecond, Microsecond, Nanosecond in *. split.
  - intros H. pose proof (i64_range (ts * (1000 * (1000 * 1)))) as Hr. rewrite H in Hr.
    unfold is_i64, max_int64, min_int64 in Hr. lia.
  - intros H. apply i64_id. unfold is_i64, max_int64, min_int64. lia.
Qed.
End RowsProofs.

(** * Ingestion *)
Section IngestProofs.
Context `{PL : PostgresLaws}.
Import Ingest IngestSpec.

Lemma insert_rows_batch_spec nodeID t rs t' r :
  insert_rows_batch nodeID t rs = (t', r) → tx_base t' = tx_base t ∧
  ∀ n, r = inr n → Schema.known_nodes (tx_tables t) (map (table_row nodeID) rs) = true ∧
    tx_tables t' = with_rows (tx_tables t) (map (table_row nodeID) rs) ∧ n = zlen rs.
Proof.
  unfold insert_rows_batch. destruct (tx_exec t _) as [t1 [e|n]] eqn:E; intros [= <- <-].
  - split; [by eapply tx_exec_err|done].
  - apply tx_exec_ok in E as [H ->]. split; [done|]. intros n' [= <-].
    cbn [Schema.run_stmt] in H. unfold Schema.sql_insert in H.
    destruct (Schema.known_nodes _ _); [|done]. by injection H as <- <-.
Qed.

(** What an error leaves: nothing was stored; or the commit itself failed, whose reply may be what
    was lost, and then all the rows may be there. *)
Definition failed_with (err : string) (rows : list Schema.row) (T T' : Schema.tables) : Prop :=
  T' = T ∨ (∃ e, err = "commit tx: " +:+ e) ∧ Schema.known_nodes T rows = true ∧ T' = with_rows T rows.

Lemma ingest_spec nodeID d series :
  ∃ d' n err, ingest nodeID d series = Ret (d', (n, err)) ∧
    let rows := map (table_row nodeID) (expected_rows series) in
    match err with
    | Some e => failed_with e rows (db_tables d) (db_tables d')
    | None =>
        Schema.known_nodes (db_tables d) rows = true ∧
        db_tables d' = with_rows (db_tables d) rows ∧ n = zlen rows
    end.
Proof.
  unfold ingest. rewrite all_rows_spec. set (rows := expected_rows series). clearbody rows.
  destruct (Z.eqb_spec (zlen rows) 0) as [H0|H0].
  { destruct rows as [|r rows]; [|rewrite zlen_cons in H0; pose proof (zlen_nonneg rows); lia].
    exists d, 0, None. split; [done|]. split; [done|]. by destruct (db_tables d). }
  destruct (begin_tx d) as [[d' e]|t] eqn:Eb.
  { eexists _, _, _. split; [done|]. left. by eapply begin_err. }
  apply begin_ok in Eb as [Ht Hbase].
  destruct (batch_insert_spec batchSize (insert_rows_batch nodeID) (table_row nodeID)
              (λ _ c _, zlen c) (insert_rows_batch_spec nodeID)
              ltac:(done) ltac:(intros; apply zlen_app) rows t ltac:(done))
    as (t' & total & r & Er & Hb' & Hr).
  rewrite Er. cbn [mbind outcome_bind]. clear Er. destruct r as [[i e]|].
  { eexists _, _, _. split; [done|]. left. rewrite rollback_restores. congruence. }
  destruct (Hr eq_refl) as (Hk & Htab & ->).
  destruct (commit_tx t') as [d' [e|]] eqn:Ec; (eexists _, _, _; split; [done|]).
  - apply commit_err in Ec as [Ec|Ec]; [left; congruence|right]. split; [by eexists|].
    rewrite <- Ht, Ec, Htab in *. done.
  - apply commit_ok in Ec. rewrite <- Ht, Ec, Htab in *. split_and!; [done..|].
    unfold zlen. by rewrite length_map.
Qed.

Context (snappy_Decode : list Byte.byte → option (list Byte.byte)).

(** The answers to series that could be decoded. *)
Definition answered (nodeID : string) (series : list Wire.prTimeSeries) (d d' : db)
    (m m' : Metrics.Metrics) (resp : outcome response) : Prop :=
  let rows := map (table_row nodeID) (expected_rows series) in
  (resp = Ret (mkResponse StatusNoContent [] "") ∧
   m' = Metrics.add_RemoteWriteSamples (zlen rows) m ∧
   Schema.known_nodes (db_tables d) rows = true ∧ db_tables d' = with_rows (db_tables d) rows) ∨
  (resp = Ret (http_Error "ingest error" StatusInternalServerError) ∧
   m' = Metrics.add_RemoteWriteErrors 1 m ∧
   ∃ n err, ingest nodeID d series = Ret (d', (n, Some err)) ∧
     failed_with err rows (db_tables d) (db_tables d')).

(** The series a request carries, and requests that carry none. *)
Definition carries (r : request) (series : list Wire.prTimeSeries) : Prop :=
  ∃ body decoded, ReadAll_limit (10 * 2 ^ 20) r = Ret body ∧ snappy_Decode body = Some decoded ∧
    Wire.parseWriteRequest decoded = Ret series.

Definition undecodable (r : request) : Prop :=
  (∃ e, ReadAll_limit (10 * 2 ^ 20) r = Err e) ∨
  ∃ body, ReadAll_limit (10 * 2 ^ 20) r = Ret body ∧
    (snappy_Decode body = None ∨
     ∃ decoded e, snappy_Decode body = Some decoded ∧ Wire.parseWriteRequest decoded = Err e).

Lemma ServeHTTP_decoded nodeID d m r series :
  Method r = "POST" → carries r series →
  let '((d', m'), resp) := ServeHTTP snappy_Decode nodeID r (d, m) in
  answered nodeID series d d' m m' resp.
Proof.
  intros Hm (body & decoded & Hb & Hs & Hp). unfold ServeHTTP. rewrite Hm, Hb, Hs, Hp. cbn [String.eqb negb].
  destruct (ingest_spec nodeID d series) as (d' & n & err & Ei & H). rewrite Ei. unfold answered.
  destruct err; [right|left].
  - split_and!; [done..|]. eexists _, _. split; [exact Ei|exact H].
  - destruct H as (? & ? & ->). done.
Qed.

(** C9.  The endpoint stores what was sent: for a POST whose decompressed body is the
    protobuf encoding of any series, the reply is either 204, and then the table
    has got, in one commit, one row for every finite sample of every series that
    has a name (context from the name, dimension the name, instance from the
    label, time the timestamp in milliseconds), duplicates left out; or it is
    500, and then nothing was stored, unless the commit failed, when all of it may have been.
    The counters follow. *)
Theorem remote_write_end_to_end nodeID d m r body tss :
  Method r = "POST" → ReadAll_limit (10 * 2 ^ 20) r = Ret body →
  snappy_Decode body = Some (WireSpec.encode_request tss) →
  Forall WireSpec.series_ok tss → zlen (WireSpec.encode_request tss) < 2 ^ 63 →
  let '((d', m'), resp) := ServeHTTP snappy_Decode nodeID r (d, m) in
  answered nodeID (map WireSpec.series_of tss) d d' m m' resp.
Proof.
  intros Hm Hb Hs Hwf Hlen. apply ServeHTTP_decoded; [done|].
  exists body, (WireSpec.encode_request tss). split_and!; [done..|]. by apply parse_request_encode.
Qed.

(** A receiver whose node is not in netdata_nodes stores nothing: the foreign key
    makes every request with at least one storable sample fail with 500, on any
    server.  ([ingest] never creates the node, unlike the scheduler.) *)
Theorem remote_write_unknown_node nodeID d m r body decoded series :
  Method r = "POST" → ReadAll_limit (10 * 2 ^ 20) r = Ret body →
  snappy_Decode body = Some decoded → Wire.parseWriteRequest decoded = Ret series →
  expected_rows series ≠ [] → Schema.nodes (db_tables d) !! nodeID = None →
  let '((d', m'), resp) := ServeHTTP snappy_Decode nodeID r (d, m) in
  resp = Ret (http_Error "ingest error" StatusInternalServerError) ∧
  db_tables d' = db_tables d ∧ m' = Metrics.add_RemoteWriteErrors 1 m.
Proof.
  intros Hm Hb Hs Hp Hne Hnode.
  pose proof (ServeHTTP_decoded nodeID d m r series Hm (ex_intro _ body (ex_intro _ decoded (conj Hb (conj Hs Hp))))) as H.
  destruct (ServeHTTP _ _ _ _) as [[d' m'] resp].
  assert (Hk : Schema.known_nodes (db_tables d) (map (table_row nodeID) (expected_rows series)) = false).
  { destruct (expected_rows series) as [|x rows]; [done|]. cbn. rewrite Hnode. done. }
  destruct H as [(_ & _ & Hk' & _)|(-> & -> & n & err & _ & [|(_ & Hk' & _)])]; [congruence|done|congruence].
Qed.

(** Whatever the request, stored samples stay. *)
Lemma ServeHTTP_keeps nodeID d m r d' m' resp x :
  ServeHTTP snappy_Decode nodeID r (d, m) = ((d', m'), resp) →
  x ∈ Schema.samples (db_tables d) → x ∈ Schema.samples (db_tables d').
Proof.
  unfold ServeHTTP. intros H Hx. destruct (negb _); [by simplify_eq|].
  destruct (ReadAll_limit_cases (10 * 2 ^ 20) r) as [[body E]|[e E]]; rewrite E in H; [|by simplify_eq].
  destruct (snappy_Decode body) as [decoded|]; [|by simplify_eq].
  destruct (Wire.parseWriteRequest decoded) as [series|e| |]; [|by simplify_eq..].
  assert (Hrows : ∀ rows, x ∈ Schema.samples (with_rows (db_tables d) rows)).
  { intros rows. unfold with_rows. cbn [Schema.samples].
    destruct (insert_rows_prefix (Schema.samples (db_tables d)) (map Schema.stored rows)) as [l ->].
    apply elem_of_app. by left. }
  destruct (ingest_spec nodeID d series) as (d1 & n & [e|] & Ei & Hi); rewrite Ei in H; simplify_eq.
  - by destruct Hi as [->|(_ & _ & ->)].
  - by destruct Hi as (_ & -> & _).
Qed.

(** C17.  Every request is answered, or the decoder panics on it, and the answer tells what
    happened: 405 exactly for another method than POST and 400 exactly for a POST that cannot be
    read, decompressed or decoded, both with nothing changed; 204 and 500 exactly for a POST that
    carries series, and then the rows of those series are stored, or the storing failed. *)
Theorem ServeHTTP_outcomes nodeID d m r :
  let '((d', m'), resp) := ServeHTTP snappy_Decode nodeID r (d, m) in
  match resp with
  | Ret p =>
      (Method r ≠ "POST" ∧ Status p = StatusMethodNotAllowed ∨
       Method r = "POST" ∧ undecodable r ∧ Status p = StatusBadRequest) ∧ d' = d ∧ m' = m ∨
      Method r = "POST" ∧ ∃ series, carries r series ∧ answered nodeID series d d' m m' resp
  | Panic => d' = d ∧ m' = m ∧ Method r = "POST" ∧ ∃ body decoded,
      ReadAll_limit (10 * 2 ^ 20) r = Ret body ∧ snappy_Decode body = Some decoded ∧
      Wire.parseWriteRequest decoded = Panic
  | _ => False
  end.
Proof.
  destruct (decide (Method r = "POST")) as [Hm|Hm].
  2:{ unfold ServeHTTP. rewrite (proj2 (String.eqb_neq _ _) Hm). left. split; [by left|done]. }
  destruct (ReadAll_limit_cases (10 * 2 ^ 20) r) as [[body Hb]|[e He]].
  2:{ unfold ServeHTTP. rewrite Hm, He. left. split; [|done]. right. split_and!; [done| |done].
      left. by exists e. }
  destruct (snappy_Decode body) as [decoded|] eqn:Hs.
  2:{ unfold ServeHTTP. rewrite Hm, Hb, Hs. left. split; [|done]. right. split_and!; [done| |done].
      right. eauto. }
  destruct (Wire.parseWriteRequest decoded) as [series|e| |] eqn:Hp.
  - assert (Hc : carries r series) by (by exists body, decoded).
    pose proof (ServeHTTP_decoded nodeID d m r series Hm Hc) as H.
    destruct (ServeHTTP _ _ _ _) as [[d' m'] resp].
    assert (∃ p, resp = Ret p) as [p ->] by (destruct H as [[-> _]|[-> _]]; by eexists). eauto.
  - unfold ServeHTTP. rewrite Hm, Hb, Hs, Hp. left. split; [|done]. right. split_and!; [done| |done].
    right. eauto 10.
  - unfold ServeHTTP. rewrite Hm, Hb, Hs, Hp. split_and!; [done..|]. eauto.
  - by apply parse_request_no_diverge in Hp.
Qed.
End IngestProofs.

Section IngestWitnesses.
Import Ingest IngestSpec MemPg.

(** A decompressor that leaves the body as it is. *)
Definition stored_block (b : list Byte.byte) : option (list Byte.byte) := Some b.

Definition post (body : list Byte.byte) : request := mkRequest "POST" "10.0.0.1:5" ∅ ∅ body None.

Definition example_body : list Byte.byte := WireSpec.encode_request [example_series].
Definition empty_db : @db (server no_faults) := mkState empty_tables 0.
Definition node_db : @db (server no_faults) := mkState one_node 0.

Lemma remote_write_end_to_end_witness :
  let rows := map (table_row "n1") (expected_rows (map WireSpec.series_of [example_series])) in
  ∃ d' : @db (server no_faults),
    ServeHTTP stored_block "n1" (post example_body) (node_db, Metrics.Global0) =
      ((d', Metrics.add_RemoteWriteSamples 2 Metrics.Global0), Ret (mkResponse StatusNoContent [] "")) ∧
    mem_tables d' = with_rows one_node rows ∧ length rows = 2%nat.
Proof.
  cbv zeta.
  assert (Hr : ServeHTTP stored_block "n1" (post example_body) (node_db, Metrics.Global0) =
    ((ServeHTTP stored_block "n1" (post example_body) (node_db, Metrics.Global0)).1.1,
     Metrics.add_RemoteWriteSamples 2 Metrics.Global0, Ret (mkResponse StatusNoContent [] "")))
    by (vm_compute; reflexivity).
  pose proof (remote_write_end_to_end (PG := server no_faults) stored_block "n1" node_db
           Metrics.Global0 (post example_body) example_body [example_series]) as H.
  rewrite Hr in H. eexists. split; [exact Hr|]. split; [|reflexivity].
  destruct H as [(_ & _ & _ & H)|([=] & _)]; [..|exact H].
  - reflexivity.
  - vm_compute. reflexivity.
  - reflexivity.
  - apply (bool_decide_unpack _). vm_compute. exact I.
  - vm_compute. reflexivity.
Defined.

Lemma remote_write_unknown_node_witness :
  (ServeHTTP stored_block "remote-write" (post example_body) (node_db, Metrics.Global0)).2 =
    Ret (http_Error "ingest error" StatusInternalServerError).
Proof.
  pose proof (remote_write_unknown_node (PG := server no_faults) stored_block "remote-write"
                node_db Metrics.Global0 (post example_body) example_body example_body
                (map WireSpec.series_of [example_series])) as H.
  destruct (ServeHTTP stored_block "remote-write" (post example_body) (node_db, _)) as [[d' m'] resp].
  apply H.
  - reflexivity.
  - vm_compute. reflexivity.
  - reflexivity.
  - vm_compute. reflexivity.
  - vm_compute. discriminate.
  - vm_compute. reflexivity.
Defined.

Lemma ServeHTTP_outcomes_witness :
  ∃ p, ServeHTTP (PG := server no_faults) stored_block "n1" (post [Byte.xff]) (empty_db, Metrics.Global0) =
      ((empty_db, Metrics.Global0), Ret p) ∧ Status p = StatusBadRequest.
Proof.
  pose proof (ServeHTTP_outcomes (PG := server no_faults) stored_block "n1" empty_db Metrics.Global0
           (post [Byte.xff])) as H.
  assert (Hr : ServeHTTP (PG := server no_faults) stored_block "n1" (post [Byte.xff]) (empty_db, Metrics.Global0) =
    ((empty_db, Metrics.Global0), Ret (http_Error "protobuf decode error" StatusBadRequest)))
    by (vm_compute; reflexivity).
  rewrite Hr in H. eexists. split; [exact Hr|].
  destruct H as [[[[H _]|(_ & _ & H)] _]|(_ & series & _ & [([=] & _)|([=] & _)])]; [by destruct H|exact H].
Defined.
End IngestWitnesses.
