(* ===== verification/Service.v ===== *)
(** The process, cmd/netdata-postgres-mcp/main.go: logger, middlewares, routes, the set-up of
    the nodes, and the whole service as one transition system: the collection cycles
    and retention runs of every node, the requests and the reloads, over one
    database. *)

From Stdlib Require Import Ascii SpecFloat.
From S2P Require Import Prelude GoInt GoFloat GoTime GoString Http Metrics RateLimit Store Collector Config Scheduler RemoteWrite Ingest.

Module Service.

Inductive LogFormat := JSONHandler | TextHandler.

(** [newLogger]: the level and the format of the log. *)
Definition newLogger `{Unicode} (level format : string) : Reload.Level * LogFormat :=
  let l := ToLower level in
  let logLevel :=
    if String.eqb l "debug" then Reload.LevelDebug
    else if String.eqb l "warn" || String.eqb l "warning" then Reload.LevelWarn
    else if String.eqb l "error" then Reload.LevelError
    else Reload.LevelInfo in
  (logLevel, if String.eqb (ToLower format) "json" then JSONHandler else TextHandler).

(** ** Middlewares *)
Definition unauthorized : response :=
  json_response [] StatusUnauthorized
    [("error", "unauthorized — provide Authorization: Bearer <token>")].

(** [authMiddleware]; the comparison takes constant time but is string equality. *)
Definition authMiddleware {S} (token : string) (next : handler (Metrics.Metrics * S))
    : handler (Metrics.Metrics * S) := λ r st,
  let '(m, s) := st in
  let auth := Header_Get r "Authorization" in
  let auth :=
    if String.eqb auth "" then
      let q := Query_Get r "token" in
      if negb (String.eqb q "") then "Bearer " +:+ q else auth
    else auth in
  let expected := "Bearer " +:+ token in
  if negb (String.eqb auth expected)
  then ((Metrics.add_AuthFailures 1 m, s), Ret unauthorized)
  else next r (m, s).

(** A body behind [http.MaxBytesReader]. *)
Definition MaxBytesReader (maxBytes : Z) (r : request) : request :=
  if maxBytes <? zlen (Body r)
  then mkRequest (Method r) (RemoteAddr r) (Headers r) (Query r)
         (take (Z.to_nat maxBytes) (Body r)) (Some "http: request body too large")
  else r.

Definition maxBodyMiddleware {S} (maxBytes : Z) (next : handler S) : handler S :=
  λ r s, next (MaxBytesReader maxBytes r) s.

(** ** Health *)
Definition healthzHandler (version : string) : response :=
  json_response [] StatusOK [("status", "ok"); ("version", version)].

(** For the outcome of the ping. *)
Definition readyzHandler (ping : option string) : response :=
  match ping with
  | Some _ =>
      json_response [] StatusServiceUnavailable
        [("reason", "database unreachable"); ("status", "error")]
  | None => json_response [] StatusOK [("status", "ready")]
  end.

(** ** The handler of the MCP endpoints: the SSE server of the MCP library, wrapped *)
Definition mcpHandler {S} (cfg : Config.Config) (now : Z) (sseServer : handler (Metrics.Metrics * S))
    : handler (RateLimit.RateLimiter * (Metrics.Metrics * S)) :=
  let inner := maxBodyMiddleware (Z.shiftl 1 20) sseServer in
  let inner :=
    if negb (String.eqb (Config.MCPAuthToken cfg) "")
    then authMiddleware (Config.MCPAuthToken cfg) sseServer else inner in
  if fgtb (Config.RateLimitRPS cfg) f64_zero
  then RateLimit.Handler false now inner
  else λ r st, let '(rl, ms) := st in let '(ms', resp) := inner r ms in ((rl, ms'), resp).

(** The limiter made for a configuration. *)
Definition mcpLimiter (cfg : Config.Config) : RateLimit.RateLimiter :=
  RateLimit.NewRateLimiter (Config.RateLimitRPS cfg)
    (add64 (mul64 (f64_to_int (Config.RateLimitRPS cfg)) 2) 1).

Definition rwNodeID (cfg : Config.Config) : string :=
  if String.eqb (Config.NodeID_ cfg) "" then "remote-write" else Config.NodeID_ cfg.

(** ** The nodes

    One collector and one scheduler for every configured node; [inl] is the exit of
    the process. *)
Section Setup.
Context `{EN : Collector.Environment}.

Fixpoint setup_nodes (cfg : Config.Config) (os_Hostname : string + string)
    (nodes : list Config.NodeConfig) (h : Collector.http_state)
    : Collector.http_state * (string + list (Collector.Collector * Scheduler.Scheduler)) :=
  match nodes with
  | [] => (h, inr [])
  | nodeCfg :: nodes =>
      let hostname := match os_Hostname with inr n => n | inl _ => "" end in
      let col := Collector.New (Config.BaseURL nodeCfg) (Config.APIKey nodeCfg) (Config.NodeID nodeCfg)
                   (Config.EnabledContexts cfg) (Config.CollectionIntervalSeconds cfg) in
      match Collector.ResolveNodeID col os_Hostname h with
      | (h, _, inl e) => (h, inl e)
      | (h, col, inr nodeID) =>
          let sched := Scheduler.New (Config.CollectionIntervalSeconds cfg) nodeID hostname
                         (Config.BaseURL nodeCfg) in
          let sched := Scheduler.SetRetentionDays (Config.RetentionDays cfg) sched in
          match setup_nodes cfg os_Hostname nodes h with
          | (h, inl e) => (h, inl e)
          | (h, inr rest) => (h, inr ((col, sched) :: rest))
          end
      end
  end.
End Setup.

(** ** The service *)
Section Service.
Context `{PG : Postgres} `{CO : Collecting}.

(** The state of the MCP library; its tools read the database and never write. *)
Context {X : Type} (sseServer : Schema.tables → handler (Metrics.Metrics * X)).
Context (snappy_Decode : list Byte.byte → option (list Byte.byte)).
Context (Ping : db → option string) (version : string).

(** A node at work: its scheduler, its collector, and the retention its loop was
    started with. *)
Record node := mkNode {
  n_sched : Scheduler.Scheduler;
  n_col : collector;
  n_retention : option Z;
}.

Record service := mkService {
  s_cfg : Config.Config;
  s_nodes : list node;
  s_db : db;
  s_met : Metrics.Metrics;
  s_limiter : RateLimit.RateLimiter;
  s_sse : X;
}.

(** The routes, for the clean paths that [ServeMux] dispatches.  The handlers keep the
    configuration [cfg0] of the start; a reload does not reach them. *)
Definition serve (cfg0 : Config.Config) (path : string) (now : Z) : handler service := λ r st,
  let '(mkService cfg nodes d m rl x) := st in
  if String.eqb path "/healthz" then (st, Ret (healthzHandler version))
  else if String.eqb path "/readyz" then (st, Ret (readyzHandler (Ping d)))
  else if String.eqb path "/metrics" then (st, Ret (Metrics.Handler m))
  else if String.eqb path "/api/v1/write" then
    let '((d', m'), resp) := Ingest.ServeHTTP snappy_Decode (rwNodeID cfg0) r (d, m) in
    (mkService cfg nodes d' m' rl x, resp)
  else
    let '((rl', (m', x')), resp) := mcpHandler cfg0 now (sseServer (db_tables d)) r (rl, (m, x)) in
    (mkService cfg nodes d m' rl' x', resp).

(** The handler of SIGHUP, for the outcome of [config.Load]. *)
Definition sighup (loaded : Config.Config * option string) (st : service) : service :=
  match loaded with
  | (_, Some _) => st
  | (newCfg, None) =>
      let nodes :=
        if negb (Config.RetentionDays newCfg =? Config.RetentionDays (s_cfg st))
        then map (λ n, mkNode (Scheduler.SetRetentionDays (Config.RetentionDays newCfg) (n_sched n))
                         (n_col n) (n_retention n)) (s_nodes st)
        else s_nodes st in
      mkService newCfg nodes (s_db st) (s_met st) (s_limiter st) (s_sse st)
  end.

(** The start: every scheduler runs, and has started its retention loop if it is to. *)
Definition start_node (sc : Scheduler.Scheduler * collector) : node :=
  mkNode sc.1 sc.2
    (if 0 <? Scheduler.retentionDays sc.1
     then Some (Scheduler.retention_of (Scheduler.retentionDays sc.1)) else None).

Definition start_service (cfg : Config.Config) (scheds : list (Scheduler.Scheduler * collector))
    (d : db) (x : X) : service :=
  mkService cfg (map start_node scheds) d Metrics.Global0 (mcpLimiter cfg) x.

(** The world one scheduler works on, and putting it back. *)
Definition world_of (st : service) (n : node) : Scheduler.world :=
  Scheduler.mkWorld (s_db st) (n_col n) (s_met st).

Definition put_node (i : nat) (s : Scheduler.Scheduler) (ret : option Z) (w : Scheduler.world)
    (st : service) : service :=
  mkService (s_cfg st) (<[i := mkNode s (Scheduler.w_col w) ret]> (s_nodes st))
    (Scheduler.w_db w) (Scheduler.w_met w) (s_limiter st) (s_sse st).

(** What the goroutines of the nodes and of the server do, one cycle, one retention run,
    one request at a time; and the steps of the service, with the reloads.  A step is labelled
    with what the clock read: at the start of a cycle, for the cutoff of a retention run, for a
    request. *)
Inductive work_at (cfg0 : Config.Config) : Z → service → service → Prop :=
| SvcCollect st i n env s' w' err :
    s_nodes st !! i = Some n →
    Scheduler.collectOnce env (n_sched n) (world_of st n) = Ret (s', w', err) →
    work_at cfg0 (Scheduler.t_start env) st (put_node i s' (n_retention n) w' st)
| SvcRetention st i n now1 now2 now3 retention :
    s_nodes st !! i = Some n →
    n_retention n = Some retention →
    now1 <= now2 <= now3 →
    work_at cfg0 now3 st
      (put_node i (n_sched n) (n_retention n)
         (Scheduler.runRetention now1 now2 now3 retention (world_of st n)) st)
| SvcRequest st path now r st' resp :
    serve cfg0 path now r st = (st', resp) →
    work_at cfg0 now st st'.

Inductive service_at (cfg0 : Config.Config) (now : Z) : service → service → Prop :=
| SvcWork st st' : work_at cfg0 now st st' → service_at cfg0 now st st'
| SvcSighup st loaded : service_at cfg0 now st (sighup loaded st).

Definition work_step (cfg0 : Config.Config) (st st' : service) : Prop := ∃ now, work_at cfg0 now st st'.
Definition service_step (cfg0 : Config.Config) (st st' : service) : Prop := ∃ now, service_at cfg0 now st st'.
End Service.
Arguments node {CO}.
Arguments mkNode {CO}.
Arguments service {PG CO} X.
Arguments mkService {PG CO X}.
Arguments start_service {PG CO X}.
End Service.

(** * The MCP endpoints *)
Section Endpoints.
Import Service.

(** The request carries the token: in the header, or, without the header, in the query. *)
Definition authorised (token : string) (r : request) : Prop :=
  Header_Get r "Authorization" = "Bearer " +:+ token ∨
  Header_Get r "Authorization" = "" ∧ Query_Get r "token" = token ∧ token ≠ "".

#[export] Instance authorised_dec token r : Decision (authorised token r).
Proof. unfold authorised. apply _. Defined.

Lemma Bearer_inj a b : "Bearer " +:+ a = "Bearer " +:+ b → a = b.
Proof. cbn. intros H. by injection H. Qed.

Lemma authMiddleware_spec {S} token (next : handler (Metrics.Metrics * S)) r m s :
  authMiddleware token next r (m, s) =
    if decide (authorised token r) then next r (m, s)
    else ((Metrics.add_AuthFailures 1 m, s), Ret unauthorized).
Proof.
  unfold authMiddleware.
  assert (Hs : ∀ auth, (auth = "Bearer " +:+ token ↔ authorised token r) →
    (if negb (String.eqb auth ("Bearer " +:+ token))
     then ((Metrics.add_AuthFailures 1 m, s), Ret unauthorized) else next r (m, s)) =
    if decide (authorised token r) then next r (m, s)
    else ((Metrics.add_AuthFailures 1 m, s), Ret unauthorized)).
  { intros auth H. destruct (String.eqb_spec auth ("Bearer " +:+ token)); cbn [negb];
      case_decide; tauto. }
  apply Hs. unfold authorised.
  destruct (String.eqb_spec (Header_Get r "Authorization") "") as [->|Hh]; [|naive_solver].
  destruct (String.eqb_spec (Query_Get r "token") "") as [->|Hq]; cbn [negb].
  - naive_solver.
  - split; [intros E%Bearer_inj; right; split_and!; congruence|].
    intros [Hd|(_ & -> & _)]; [discriminate Hd|done].
Qed.

Context `{PG : Postgres} `{CO : Collecting}.
Context {X : Type} (sse : Schema.tables → handler (Metrics.Metrics * X)).
Context (snappy : list Byte.byte → option (list Byte.byte)) (Ping : db → option string) (version : string).

Definition public_paths : list string := ["/healthz"; "/readyz"; "/metrics"; "/api/v1/write"].

(** Whether the limiter, if there is one, lets the request pass. *)
Definition passes (cfg : Config.Config) (now : Z) (r : request) (rl : RateLimit.RateLimiter) : bool :=
  negb (fgtb (Config.RateLimitRPS cfg) f64_zero) ||
  (RateLimit.Allow now (RateLimit.extractIP false r) rl).2.

Lemma serve_private cfg0 path now r (st : service X) :
  path ∉ public_paths →
  serve sse snappy Ping version cfg0 path now r st =
    let '((rl', (m', x')), resp) :=
      mcpHandler cfg0 now (sse (db_tables (s_db st))) r (s_limiter st, (s_met st, s_sse st)) in
    (mkService (s_cfg st) (s_nodes st) (s_db st) m' rl' x', resp).
Proof.
  intros Hp. unfold public_paths in Hp. rewrite !not_elem_of_cons in Hp.
  destruct Hp as (H1 & H2 & H3 & H4 & _). destruct st as [cfg nodes d m rl x]. unfold serve.
  by rewrite !(proj2 (String.eqb_neq _ _)) by done.
Qed.

(** C3.  With a token configured nobody reaches the MCP server without it: a request for any
      path outside the four public ones that does not carry the token is answered 401
      (and counted), or 429 if the limiter refuses it first; the MCP server does not
      run, and neither the database nor the nodes change. *)
Theorem unauthorised_requests_stop cfg0 path now r (st : service X) :
  path ∉ public_paths → Config.MCPAuthToken cfg0 ≠ "" →
  ¬ authorised (Config.MCPAuthToken cfg0) r →
  let '(st', resp) := serve sse snappy Ping version cfg0 path now r st in
  s_sse st' = s_sse st ∧ s_db st' = s_db st ∧ s_nodes st' = s_nodes st ∧
  if passes cfg0 now r (s_limiter st)
  then resp = Ret unauthorized ∧ Status unauthorized = 401 ∧
       s_met st' = Metrics.add_AuthFailures 1 (s_met st)
  else resp = Ret RateLimit.reject ∧ Status RateLimit.reject = 429 ∧
       s_met st' = Metrics.add_RateLimitRejects 1 (s_met st).
Proof.
  intros Hp Ht Ha. rewrite serve_private by done. unfold mcpHandler, passes.
  rewrite (proj2 (String.eqb_neq _ _)) by done. cbn [negb].
  destruct (fgtb _ _); cbn [negb orb]; unfold RateLimit.Handler;
    [destruct (RateLimit.Allow _ _ _) as [rl' [|]]; cbn [snd]|];
    rewrite ?authMiddleware_spec, ?decide_False by done; done.
Qed.

(** C4.  A request that passes the limiter and carries the token, if there is one, is
      answered by the MCP server, and by it alone.  Without a token the server sees at
      most 1 MiB of the body; with a token it sees the body as sent, of any length
      (the body limit is lost when the authentication is wrapped around the bare
      server). *)
Theorem authorised_requests_served cfg0 path now r (st : service X) :
  path ∉ public_paths → passes cfg0 now r (s_limiter st) = true →
  (Config.MCPAuthToken cfg0 ≠ "" → authorised (Config.MCPAuthToken cfg0) r) →
  let seen := if String.eqb (Config.MCPAuthToken cfg0) "" then MaxBytesReader (2 ^ 20) r else r in
  let '(st', resp) := serve sse snappy Ping version cfg0 path now r st in
  ((s_met st', s_sse st'), resp) = sse (db_tables (s_db st)) seen (s_met st, s_sse st) ∧
  s_db st' = s_db st ∧ s_nodes st' = s_nodes st ∧
  zlen (Body seen) = (if String.eqb (Config.MCPAuthToken cfg0) ""
                      then Z.min (2 ^ 20) (zlen (Body r)) else zlen (Body r)).
Proof.
  intros Hp Hpass Ha seen.
  assert (Hlen : zlen (Body seen) = (if String.eqb (Config.MCPAuthToken cfg0) ""
                      then Z.min (2 ^ 20) (zlen (Body r)) else zlen (Body r))).
  { unfold seen. destruct (String.eqb _ _); [|done]. unfold MaxBytesReader.
    destruct (Z.ltb_spec (2 ^ 20) (zlen (Body r))); cbn [Body].
    - unfold zlen in *. rewrite length_take. lia.
    - lia. }
  rewrite Hlen. clear Hlen. unfold seen. rewrite serve_private by done.
  unfold mcpHandler, passes in *. destruct (String.eqb_spec (Config.MCPAuthToken cfg0) "") as [Et|Et];
    cbn [negb]; (destruct (fgtb _ _); cbn [negb orb] in Hpass; unfold RateLimit.Handler;
    [destruct (RateLimit.Allow _ _ _) as [rl' [|]]; cbn [snd] in Hpass; [|done]|]);
    rewrite ?authMiddleware_spec, ?decide_True by auto; unfold maxBodyMiddleware;
    by destruct (sse _ _ _) as [[m' x'] resp].
Qed.

(** The four public endpoints ask for no token and spend no tokens of the limiter: their
      answers are the same for any two configurations with the same node id, and they
      leave limiter and MCP server alone.  In particular anybody may write samples. *)
Theorem public_endpoints cfg0 cfg1 path now1 now2 r (st : service X) :
  path ∈ public_paths → Config.NodeID_ cfg0 = Config.NodeID_ cfg1 →
  serve sse snappy Ping version cfg0 path now1 r st = serve sse snappy Ping version cfg1 path now2 r st ∧
  let st' := (serve sse snappy Ping version cfg0 path now1 r st).1 in
  s_limiter st' = s_limiter st ∧ s_sse st' = s_sse st ∧
  (path ≠ "/api/v1/write" → st' = st).
Proof.
  intros Hp Hn. destruct st as [cfg nodes d m rl x]. unfold public_paths in Hp.
  rewrite !elem_of_cons in Hp. unfold serve, rwNodeID. rewrite Hn.
  destruct Hp as [->|[->|[->|[->|Hp%elem_of_nil]]]]; cbn [String.eqb Ascii.eqb Bool.eqb]; try done.
  destruct (Ingest.ServeHTTP _ _ _ _) as [[d' m'] resp]. done.
Qed.
End Endpoints.

(** * Runs of the service *)
Section Runs.
Context `{PL : PostgresLaws} `{CL : CollectingLaws}.
Import Service.
Context {X : Type} (sse : Schema.tables → handler (Metrics.Metrics * X)).
Context (snappy : list Byte.byte → option (list Byte.byte)) (Ping : db → option string) (version : string).

Abbreviation step := (service_step sse snappy Ping version).
Abbreviation step_at := (service_at sse snappy Ping version).
Abbreviation work := (work_step sse snappy Ping version).
Abbreviation stored st := (Schema.samples (db_tables (s_db st))).

(** ** Reloads *)

(** Two states that differ in settings only. *)
Definition same_node (n n' : node) : Prop :=
  n_col n' = n_col n ∧ n_retention n' = n_retention n ∧
  ∃ k, n_sched n' = Scheduler.SetRetentionDays k (n_sched n).

Definition same_work (st st' : service X) : Prop :=
  s_db st' = s_db st ∧ s_met st' = s_met st ∧ s_limiter st' = s_limiter st ∧
  s_sse st' = s_sse st ∧ Forall2 same_node (s_nodes st) (s_nodes st').

Lemma same_node_refl n : same_node n n.
Proof.
  split; [done|]. split; [done|]. exists (Scheduler.retentionDays (n_sched n)).
  by destruct n as [[] ? ?].
Qed.

Lemma same_work_refl st : same_work st st.
Proof. unfold same_work. split_and!; try done. apply Forall2_same_length_lookup_2; [done|].
  intros i n n' H H'. simplify_eq. apply same_node_refl. Qed.

(** A cycle does not look at the retention setting. *)
Lemma collectOnce_retention env k s w :
  Scheduler.collectOnce env (Scheduler.SetRetentionDays k s) w =
    (λ r, (Scheduler.SetRetentionDays k r.1.1, r.1.2, r.2)) <$> Scheduler.collectOnce env s w.
Proof.
  unfold Scheduler.collectOnce, Scheduler.set_breaker.
  cbn [Scheduler.SetRetentionDays Scheduler.breaker Scheduler.nodeID Scheduler.hostname
       Scheduler.baseURL Scheduler.interval Scheduler.retentionDays].
  destruct (Breaker.Breaker.Allow _ _) as [b [e|]].
  { by destruct (Breaker.Breaker.GetState _ b). }
  destruct (Ops.UpsertNode _ _ _ _) as [d [e|]]; [done|].
  destruct (Scheduler.collect_retry _ _ _ _ _ _) as [c [e|[ss le]]]; [done|].
  destruct (_ && _); [done|]. destruct (zlen ss =? 0); [done|].
  by destruct (Ops.InsertSamples d ss) as [[d' [n [e|]]]| | |].
Qed.

Lemma sighup_same loaded st : same_work st (sighup loaded st).
Proof.
  unfold sighup. destruct loaded as [cfg [e|]]; [apply same_work_refl|].
  destruct (same_work_refl st) as (_ & _ & _ & _ & Hn).
  unfold same_work. cbn. split_and!; try done. destruct (negb _); [|done].
  apply Forall2_fmap_r. eapply Forall2_impl; [exact Hn|].
  intros n n' (Hc & Hr & k & Hs). unfold same_node. cbn. rewrite Hs. split_and!; [done..|].
  eexists. reflexivity.
Qed.

Lemma same_node_trans n1 n2 n3 : same_node n1 n2 → same_node n2 n3 → same_node n1 n3.
Proof.
  intros (C1 & R1 & k1 & S1) (C2 & R2 & k2 & S2). unfold same_node. rewrite S2, S1.
  split_and!; [congruence..|]. by exists k2.
Qed.

Lemma same_work_trans st1 st2 st3 : same_work st1 st2 → same_work st2 st3 → same_work st1 st3.
Proof.
  intros (D1 & M1 & L1 & X1 & N1) (D2 & M2 & L2 & X2 & N2). unfold same_work.
  split_and!; try congruence. exact (Forall2_trans same_node same_node same_node _ _ _ same_node_trans N1 N2).
Qed.

Lemma same_put i s k ret w st1 st2 :
  s_limiter st2 = s_limiter st1 → s_sse st2 = s_sse st1 →
  Forall2 same_node (s_nodes st1) (s_nodes st2) →
  same_work (put_node i s ret w st1) (put_node i (Scheduler.SetRetentionDays k s) ret w st2).
Proof.
  intros HL HX HN. unfold same_work, put_node. cbn. split_and!; try done.
  apply Forall2_insert; [done|]. split; [done|]. split; [done|]. by exists k.
Qed.

Lemma same_mk c1 c2 ns1 ns2 d m l x :
  Forall2 same_node ns1 ns2 → same_work (mkService c1 ns1 d m l x) (mkService c2 ns2 d m l x).
Proof. done. Qed.

(** A request leaves configuration and nodes alone, and does not look at them. *)
Lemma serve_frame cfg0 path now r d m l x :
  ∃ d' m' l' x' resp, ∀ c ns,
    serve sse snappy Ping version cfg0 path now r (mkService c ns d m l x) =
      (mkService c ns d' m' l' x', resp).
Proof.
  unfold serve. do 3 (destruct (String.eqb path _); [by eexists _, _, _, _, _|]).
  destruct (String.eqb path _).
  - destruct (Ingest.ServeHTTP _ _ _ _) as [[d' m'] resp]. by eexists _, _, _, _, _.
  - destruct (mcpHandler _ _ _ _ _) as [[l' [m' x']] resp]. by eexists _, _, _, _, _.
Qed.

(** Work on one side is matched on the other. *)
Lemma same_work_step cfg0 st1 st2 st2' :
  same_work st1 st2 → work cfg0 st2 st2' → ∃ st1', work cfg0 st1 st1' ∧ same_work st1' st2'.
Proof.
  intros (HD & HM & HL & HX & HN) [now0 Hstep].
  destruct Hstep as [st2 i n2 env s2 w2 err Hi Hc|st2 i n2 now1 now2 now3 ret Hi Hr Hnow
                    |st2 path now r st2' resp Hs].
  - destruct (Forall2_lookup_r _ _ _ _ _ HN Hi) as (n1 & Hi1 & (Hcol & Hret & k & Hsch)).
    assert (Hw : world_of st2 n2 = world_of st1 n1) by (unfold world_of; congruence).
    rewrite Hsch, Hw, collectOnce_retention in Hc.
    destruct (Scheduler.collectOnce env (n_sched n1) (world_of st1 n1)) as [[[s1 w1] e1]| | |] eqn:E1;
      cbn in Hc; try discriminate Hc.
    injection Hc as <- <- <-. eexists. split; [eexists; by eapply SvcCollect|].
    rewrite Hret. by apply same_put.
  - destruct (Forall2_lookup_r _ _ _ _ _ HN Hi) as (n1 & Hi1 & (Hcol & Hret & k & Hsch)).
    assert (Hw : world_of st2 n2 = world_of st1 n1) by (unfold world_of; congruence).
    eexists. split; [eexists; eapply SvcRetention; [exact Hi1|rewrite <- Hret; exact Hr|exact Hnow]|].
    rewrite Hw, Hsch, Hret. by apply same_put.
  - destruct st1 as [c1 ns1 d1 m1 l1 x1], st2 as [c2 ns2 d2 m2 l2 x2]. cbn in HD, HM, HL, HX, HN. subst.
    destruct (serve_frame cfg0 path now r d1 m1 l1 x1) as (d & m & l & x & resp' & Hf).
    rewrite Hf in Hs. injection Hs as <- <-.
    eexists. split; [eexists; eapply SvcRequest; apply Hf|]. by apply same_mk.
Qed.

(** C38.  A reload changes nothing: whatever configurations SIGHUP loads, and whenever, every
      run of the service reaches the same database, counters, limiter and collectors as
      some run of the same work without a reload.  (The loops keep the retention they
      were started with, and the handlers the token, the rate and the node id.) *)
Theorem reload_changes_nothing cfg0 st st' :
  rtc (step cfg0) st st' → ∃ st'', rtc (work cfg0) st st'' ∧ same_work st'' st'.
Proof.
  revert st'. apply rtc_ind_r.
  { exists st. split; [apply rtc_refl|apply same_work_refl]. }
  intros st1 st2 _ Hstep (st'' & Hr & Hs).
  destruct Hstep as [now Hstep]. revert Hs. destruct Hstep as [st1 st2 Hw|st1 loaded]; intros Hs.
  - destruct (same_work_step _ _ _ _ Hs (ex_intro _ now Hw)) as (st3 & Hw3 & Hs3).
    exists st3. split; [by eapply rtc_r|done].
  - exists st''. split; [done|]. eapply same_work_trans; [exact Hs|apply sighup_same].
Qed.

(** ** No young sample is lost *)

(** Every retention loop works with the retention of the start. *)
Definition retention_kept (days : Z) (st : service X) : Prop :=
  Forall (λ n, n_retention n = if 0 <? days then Some (Scheduler.retention_of days) else None)
    (s_nodes st).

Lemma retention_kept_step cfg0 days st st' :
  step cfg0 st st' → retention_kept days st → retention_kept days st'.
Proof.
  unfold retention_kept. intros [now [? ? Hw|? loaded]] Hk.
  - destruct Hw as [? i n env s' w' err Hi Hc|? i n now1 now2 now3 ret Hi Hr Hnow
                   |[c ns d m l x] path now r ? resp Hs]; cbn [put_node s_nodes].
    1,2: apply Forall_insert; [done|]; cbn [n_retention];
      exact (proj1 (Forall_lookup _ _) Hk _ _ Hi).
    destruct (serve_frame cfg0 path now r d m l x) as (d' & m' & l' & x' & resp' & Hf).
    rewrite Hf in Hs. by injection Hs as <- <-.
  - unfold sighup. destruct loaded as [cfg [e|]]; [done|]. cbn. destruct (negb _); [|done].
    apply Forall_fmap. exact Hk.
Qed.

Lemma retention_kept_run cfg0 days st st' :
  rtc (step cfg0) st st' → retention_kept days st → retention_kept days st'.
Proof. induction 1; eauto using retention_kept_step. Qed.

Lemma serve_keeps cfg0 path now r st st' resp x :
  serve sse snappy Ping version cfg0 path now r st = (st', resp) → x ∈ stored st → x ∈ stored st'.
Proof.
  destruct st as [c ns d m l y]. unfold serve. intros Hs Hx. cbn in Hx.
  do 3 (destruct (String.eqb path _); [by simplify_eq|]).
  destruct (String.eqb path _).
  - destruct (Ingest.ServeHTTP _ _ _ _) as [[d' m'] resp'] eqn:E. simplify_eq. cbn.
    by eapply ServeHTTP_keeps.
  - destruct (mcpHandler _ _ _ _ _) as [[rl' [m' x']] resp']. by simplify_eq.
Qed.

(** A step that loses a sample is a retention run that found it old. *)
Lemma young_kept cfg scheds d x0 st now st' x :
  Forall (λ sc, Scheduler.retentionDays sc.1 = Config.RetentionDays cfg) scheds →
  Config.RetentionDays cfg <= 106751 →
  rtc (step cfg) (start_service cfg scheds d x0) st → step_at cfg now st st' →
  x ∈ stored st → x ∉ stored st' →
  0 < Config.RetentionDays cfg ∧
  Schema.collected_at x < Schema.pg_time (now - Config.RetentionDays cfg * (24 * Hour)).
Proof.
  intros Hscheds Hdays Hrun Hstep Hin Hout.
  assert (Hk : retention_kept (Config.RetentionDays cfg) st).
  { eapply retention_kept_run; [exact Hrun|]. unfold retention_kept. cbn.
    apply Forall_fmap. eapply Forall_impl; [exact Hscheds|]. intros sc Hsc. cbn. by rewrite Hsc. }
  destruct Hstep as [? ? [? i n env s' w' err Hi Hc|? i n now1 now2 now3 ret Hi Hr Hnow
                         |? path nowr r ? resp Hs]|? loaded].
  - exfalso. apply Hout. cbn. eapply (collect_keeps _ _ _ _ _ _ x Hc). exact Hin.
  - pose proof (proj1 (Forall_lookup _ _) Hk _ _ Hi) as Hret. cbn in Hret. rewrite Hr in Hret.
    destruct (Z.ltb_spec 0 (Config.RetentionDays cfg)); [|done]. injection Hret as ->. split; [done|].
    by apply (runRetention_old now1 now2 now3 (Config.RetentionDays cfg) (world_of st0 n) x ltac:(lia) Hin Hout).
  - exfalso. apply Hout. by eapply serve_keeps.
  - exfalso. apply Hout. unfold sighup. by destruct loaded as [cfg' [e|]].
Qed.

(** The whole service loses no young sample: with any number of nodes, requests of
      every kind, failures and reloads interleaved in any way, the step in which a stored sample
      goes is a retention run, and by its clock the sample was older than the days configured
      when the process started (up to 106751); none goes when retention was disabled. *)
Theorem service_keeps_young cfg scheds d x0 st now st' x :
  Forall (λ sc, Scheduler.retentionDays sc.1 = Config.RetentionDays cfg) scheds →
  Config.RetentionDays cfg <= 106751 →
  rtc (step cfg) (start_service cfg scheds d x0) st → step_at cfg now st st' →
  x ∈ stored st → x ∉ stored st' →
  0 < Config.RetentionDays cfg ∧
  Schema.collected_at x < Schema.pg_time (now - Config.RetentionDays cfg * (24 * Hour)).
Proof. apply young_kept. Qed.
End Runs.

(** * Setting up the nodes *)
Section SetupProofs.
Context `{EN : Collector.Environment}.
Import Service.

(** What a configured node becomes. *)
Definition set_up (cfg : Config.Config) (os_Hostname : string + string) (nc : Config.NodeConfig)
    (cs : Collector.Collector * Scheduler.Scheduler) : Prop :=
  let '(col, sched) := cs in
  Collector.baseURL col = TrimRight (Config.BaseURL nc) "/" ∧
  Collector.apiKey col = Config.APIKey nc ∧
  Collector.contexts col = Config.EnabledContexts cfg ∧
  Collector.nodeID col = Scheduler.nodeID sched ∧
  (Config.NodeID nc ≠ "" → Scheduler.nodeID sched = Config.NodeID nc) ∧
  Scheduler.hostname sched = match os_Hostname with inr n => n | inl _ => "" end ∧
  Scheduler.baseURL sched = Config.BaseURL nc ∧
  Scheduler.retentionDays sched = Config.RetentionDays cfg.

Lemma ResolveNodeID_spec c os_Hostname h h' c' id :
  Collector.ResolveNodeID c os_Hostname h = (h', c', inr id) →
  Collector.nodeID c' = id ∧ Collector.baseURL c' = Collector.baseURL c ∧
  Collector.apiKey c' = Collector.apiKey c ∧ Collector.contexts c' = Collector.contexts c ∧
  (Collector.nodeID c ≠ "" → id = Collector.nodeID c).
Proof.
  unfold Collector.ResolveNodeID. intros H.
  destruct (String.eqb_spec (Collector.nodeID c) "") as [E|E]; cbn [negb] in H; [|by simplify_eq].
  repeat (case_match; simplify_eq); done.
Qed.

(** Every configured node gets one collector and one scheduler, in order, that agree on
      the node's id: the configured one if there is one.  All of them carry the host
      name of this process and its retention, so that the loops of
      [service_keeps_young] are those of the configuration. *)
Theorem setup_nodes_spec cfg os_Hostname nodes h h' l :
  setup_nodes cfg os_Hostname nodes h = (h', inr l) →
  Forall2 (set_up cfg os_Hostname) nodes l.
Proof.
  revert h l. induction nodes as [|nc nodes IH]; intros h l H; cbn [setup_nodes] in H.
  { simplify_eq. constructor. }
  destruct (Collector.ResolveNodeID _ _ _) as [[h1 col] [e|id]] eqn:E; [done|].
  destruct (setup_nodes _ _ _ h1) as [h2 [e|rest]] eqn:E2; [done|]. simplify_eq.
  constructor; [|by eapply IH]. apply ResolveNodeID_spec in E. cbn in E.
  destruct E as (? & ? & ? & ? & ?). unfold set_up. cbn. done.
Qed.

(** Netdata's info endpoints do not answer. *)
Definition info_down : Prop :=
  ∀ h url auth, match (Collector.http_get h url auth).2 with inr (s, _) => s ≠ 200 | inl _ => True end.

(** Nodes that are down when the service starts all become one: each node without a
      configured id whose info endpoint does not answer 200 takes the host name of this
      process as its id, so that later their samples share the node column of the
      table's key. *)
Theorem unreachable_nodes_collide cfg hostname nodes h :
  info_down → Forall (λ nc, Config.NodeID nc = "") nodes →
  ∃ h' l, setup_nodes cfg (inr hostname) nodes h = (h', inr l) ∧ length l = length nodes ∧
    Forall (λ cs, Scheduler.nodeID cs.2 = hostname ∧ Collector.nodeID cs.1 = hostname) l.
Proof.
  intros Hdown Hids. revert h. induction Hids as [|nc nodes Hid _ IH]; intros h; cbn [setup_nodes].
  { by eexists _, []. }
  unfold Collector.ResolveNodeID at 1. cbn [Collector.New Collector.nodeID]. rewrite Hid.
  cbn [String.eqb negb].
  match goal with |- context [Collector.http_get h ?u ?a] => pose proof (Hdown h u a) as Hg end.
  destruct (Collector.http_get h _ _) as [h1 [e|[st body]]]; cbn in Hg;
    [|rewrite (proj2 (Z.eqb_neq st 200)) by done; cbn [negb]];
    destruct (IH h1) as (h2 & l & -> & Hlen & Hl);
    eexists _, _; (split; [reflexivity|]); (split; [cbn; by rewrite Hlen|]); by constructor.
Qed.
End SetupProofs.

(** * The theorems at work *)
Section ServiceWitnesses.
Import Service MemPg.

#[local] Instance pg : Postgres := server no_faults.
#[local] Instance scripted : Collecting := {|
  collector := list (list MetricSample);
  Collect c := match c with [] => ([], ([], None)) | ss :: c => (c, (ss, None)) end;
|}.
#[local] Instance scripted_laws : CollectingLaws scripted.
Proof. split. intros [|ss c] c' ss' e; cbn; done. Qed.

(** An MCP server that counts its requests. *)
Definition counting (T : Schema.tables) : handler (Metrics.Metrics * Z) := λ r st,
  ((st.1, st.2 + zlen (Body r)), Ret (mkResponse 200 [] "")).

Definition snap (b : list Byte.byte) : option (list Byte.byte) := Some b.
Definition ping (d : db) : option string := None.

Definition guarded : Config.Config :=
  Config.applyEnv (λ k, if String.eqb k "MCP_AUTH_TOKEN" then "s3cret" else "") Config.Defaults.

Definition message (headers : gmap string string) (body : list Byte.byte) : request :=
  mkRequest "POST" "10.0.0.1:5" headers ∅ body None.

Definition scheds : list (Scheduler.Scheduler * collector) :=
  [(Scheduler.SetRetentionDays 30 (Scheduler.New 60 "n1" "h" "u"), [] : @collector scripted)].

Definition idle : service Z :=
  start_service guarded scheds (mkState (table_of [1000]) 0 : @db pg) 0.

Lemma unauthorised_requests_stop_witness :
  let '(st', resp) := serve counting snap ping "dev" guarded "/message" 0 (message ∅ [Byte.x00]) idle in
  s_sse st' = 0 ∧ resp = Ret unauthorized.
Proof.
  pose proof (unauthorised_requests_stop counting snap ping "dev" guarded "/message" 0
                (message ∅ [Byte.x00]) idle) as H.
  destruct (serve counting snap ping "dev" guarded "/message" 0 _ idle) as [st' resp].
  destruct H as (H1 & _ & _ & H2 & _).
  - apply (bool_decide_unpack _). vm_compute. exact I.
  - discriminate.
  - apply (bool_decide_unpack _). vm_compute. exact I.
  - split; [exact H1|exact H2].
Defined.

Definition big_body : list Byte.byte := replicate (Z.to_nat (2 ^ 20 + 5)) Byte.x00.

Lemma authorised_requests_served_witness :
  let r := message {["Authorization" := "Bearer s3cret"]} big_body in
  let '(st', resp) := serve counting snap ping "dev" guarded "/message" 0 r idle in
  s_sse st' = 2 ^ 20 + 5.
Proof.
  cbv zeta.
  pose proof (authorised_requests_served counting snap ping "dev" guarded "/message" 0
    (message {["Authorization" := "Bearer s3cret"]} big_body) idle) as H.
  destruct (serve counting snap ping "dev" guarded "/message" 0 _ idle) as [st' resp].
  cbv zeta in H. destruct H as (H & _ & _ & Hl).
  - apply (bool_decide_unpack _). vm_compute. exact I.
  - reflexivity.
  - intros _. left. reflexivity.
  - apply (f_equal fst) in H. apply (f_equal snd) in H. cbn [fst snd] in H. rewrite H.
    unfold counting. cbn [fst snd]. rewrite Hl. vm_compute. reflexivity.
Defined.

Lemma public_endpoints_witness :
  serve counting snap ping "dev" guarded "/metrics" 0 (message ∅ []) idle =
    serve counting snap ping "dev" Config.Defaults "/metrics" 7 (message ∅ []) idle.
Proof.
  refine (proj1 (public_endpoints counting snap ping "dev" guarded Config.Defaults "/metrics" 0 7
            (message ∅ []) idle _ _)).
  - apply (bool_decide_unpack _). vm_compute. exact I.
  - reflexivity.
Defined.

Lemma reload_changes_nothing_witness :
  let st' := sighup (Config.applyEnv (λ _, "7") Config.Defaults, None) idle in
  ∃ st'', rtc (work_step counting snap ping "dev" guarded) idle st'' ∧ same_work st'' st'.
Proof.
  apply (reload_changes_nothing counting snap ping "dev" guarded idle). apply rtc_once.
  exists 0. apply (SvcSighup counting snap ping "dev" guarded 0 idle).
Defined.

Definition node0 : node :=
  start_node (Scheduler.SetRetentionDays 30 (Scheduler.New 60 "n1" "h" "u"), [] : @collector scripted).
Definition old : Z := 40 * 24 * Hour.

Lemma service_keeps_young_witness :
  0 < 30 ∧ Schema.collected_at (stored_at 1000) < Schema.pg_time (old - 30 * (24 * Hour)).
Proof.
  apply (service_keeps_young counting snap ping "dev" guarded scheds
    (mkState (table_of [1000]) 0 : @db pg) 0 idle old
    (put_node 0 (n_sched node0) (n_retention node0)
       (Scheduler.runRetention old old old (Scheduler.retention_of 30) (world_of idle node0)) idle)
    (stored_at 1000)).
  - repeat constructor.
  - vm_compute. discriminate.
  - apply rtc_refl.
  - apply SvcWork. by apply (SvcRetention counting snap ping "dev" guarded idle 0).
  - left.
  - vm_compute. apply not_elem_of_nil.
Defined.

(** A network on which nothing answers. *)
Definition no_network : Collector.Environment := {|
  Collector.map_range A m := map_to_list m;
  Collector.json_parse s := None;
  Collector.json_decode s := None;
  Collector.http_state := ();
  Collector.http_get h url auth := (h, inl "connection refused");
  Collector.url_QueryEscape s := s;
|}.

Definition two_nodes : list Config.NodeConfig :=
  [Config.mkNode "http://a:19999/" "" ""; Config.mkNode "http://b:19999" "" ""].

Lemma setup_nodes_spec_witness :
  Forall2 (set_up guarded (inr "sidecar")) [Config.mkNode "http://a/" "" "n1"]
    [(Collector.mkCollector "http://a" "" "n1" Config.DefaultContexts 60,
      Scheduler.SetRetentionDays 30 (Scheduler.New 60 "n1" "sidecar" "http://a/"))].
Proof.
  apply (setup_nodes_spec (EN := no_network) guarded (inr "sidecar")
           [Config.mkNode "http://a/" "" "n1"] tt tt).
  vm_compute. reflexivity.
Defined.

Lemma unreachable_nodes_collide_witness :
  ∃ h' l, setup_nodes (EN := no_network) guarded (inr "sidecar") two_nodes tt = (h', inr l) ∧
    length l = 2%nat ∧
    Forall (λ cs, Scheduler.nodeID cs.2 = "sidecar" ∧ Collector.nodeID cs.1 = "sidecar") l.
Proof.
  apply (unreachable_nodes_collide (EN := no_network) guarded "sidecar" two_nodes tt).
  - intros h url auth. exact I.
  - repeat constructor.
Defined.
End ServiceWitnesses.
