(* ===== verification/Main.v ===== *)
(** The process, cmd/netdata-postgres-mcp/main.go: the commands, from their arguments and the
    environment to an exit code or a running service, and [NewWithPoolOptions] of
    internal/store/store.go, which opens the connection pool. *)

From stdpp Require Import relations.
From S2P Require Import Prelude GoInt GoFloat GoTime GoSort GoString Http Metrics RateLimit Breaker Store Migrate Collector Config Scheduler RemoteWrite Ingest Service.

(** ** The connection pool

    The part of pgxpool the program uses: a DSN is parsed into what to connect to and settings; a
    pool is made of them; it can be pinged, and a program of statements executed on it. *)
Class Pgxpool `{PG : Postgres} := {
  conn_info : Type;
  ParseConfig : string → string + (conn_info * Config.PoolConfig);
  NewWithConfig : conn_info → Config.PoolConfig → string + db;
  Ping : db → option string;
  execute : Migrations.prog (option string) → db → db * option string;
}.

Module Pool.

(** The defaults, then the overrides; [PoolOptions] has the fields of the configuration. *)
Definition pool_settings (opts : option Config.PoolConfig) : Config.PoolConfig :=
  let set v old := if 0 <? v then v else old in
  match opts with
  | None => Config.mkPool 2 10 (30 * Minute) (5 * Minute) (30 * Second)
  | Some o =>
      Config.mkPool (set (Config.MinConns o) 2) (set (Config.MaxConns o) 10)
        (set (Config.MaxConnLifetime o) (30 * Minute)) (set (Config.MaxConnIdleTime o) (5 * Minute))
        (set (Config.HealthCheckPeriod o) (30 * Second))
  end.

Definition NewWithPoolOptions `{Pgxpool} (dsn : string) (opts : option Config.PoolConfig) : string + db :=
  match ParseConfig dsn with
  | inl e => inl ("parsing postgres DSN: " +:+ e)
  | inr (info, _) =>
      match NewWithConfig info (pool_settings opts) with
      | inl e => inl ("connecting to postgres: " +:+ e)
      | inr pool =>
          match Ping pool with
          | Some e => inl ("pinging postgres: " +:+ e)
          | None => inr pool
          end
      end
  end.

Definition New `{Pgxpool} (dsn : string) : string + db := NewWithPoolOptions dsn None.
End Pool.

Module Main.
Section Main.
Context `{Unicode} `{PP : Pgxpool} `{EN : Collector.Environment} `{SortSlice}.
Context (ReadFile : string → string + string) (yaml_Unmarshal : string → Config.Config → Config.Config * option string).
Context (Getenv : string → string) (os_Hostname : string + string) (migrationsFS : Migrations.FS).

(** The clock of the collectors, the network at the start, and what the MCP library starts with. *)
Context (clock : nat → Z) (h0 : Collector.http_state) {X : Type} (x0 : X).

(** The clock and the cancellation of the one cycle of collect-once; how the stdio transport
    ends, and whether a signal ended it. *)
Context (cycle : Scheduler.cycle) (Listen : db → option string) (interrupted : bool).

(** How a command ends: with an exit code and the database as it was left, if it was reached, or
    as a service at work. *)
Inductive result :=
| Exit (code : Z) (d : option db)
| Serves (st : Service.service X).

(** [None] is the exit with code 1. *)
Definition loadConfig : option Config.Config :=
  match Config.Load ReadFile yaml_Unmarshal Getenv (Getenv "CONFIG_FILE") with
  | (cfg, None) => Some cfg
  | (_, Some _) => None
  end.

Definition runMigrate : outcome result :=
  match loadConfig with
  | None => Ret (Exit 1 None)
  | Some cfg =>
      match Pool.New (Config.PostgresDSN cfg) with
      | inl _ => Ret (Exit 1 None)
      | inr st =>
          match execute (Migrations.Migrate migrationsFS) st with
          | (st, Some _) => Ret (Exit 1 (Some st))
          | (st, None) => Ret (Exit 0 (Some st))
          end
      end
  end.

Definition host : string := match os_Hostname with inr n => n | inl _ => "" end.

Definition runCollectOnce : outcome result :=
  match loadConfig with
  | None => Ret (Exit 1 None)
  | Some cfg =>
      match Pool.New (Config.PostgresDSN cfg) with
      | inl _ => Ret (Exit 1 None)
      | inr st =>
          let col := Collector.New (Config.NetdataBaseURL cfg) (Config.NetdataAPIKey cfg)
                       (Config.NodeID_ cfg) (Config.EnabledContexts cfg)
                       (Config.CollectionIntervalSeconds cfg) in
          match Collector.ResolveNodeID col os_Hostname h0 with
          | (_, _, inl _) => Ret (Exit 1 (Some st))
          | (h, col, inr nodeID) =>
              let sched := Scheduler.New (Config.CollectionIntervalSeconds cfg) nodeID host
                             (Config.NetdataBaseURL cfg) in
              r ← Scheduler.collectOnce cycle sched
                    (Scheduler.mkWorld st (mkLive col h clock 0 : @collector netdata) Metrics.Global0);
              match r with
              | (_, w, Some _) => Ret (Exit 1 (Some (Scheduler.w_db w)))
              | (_, w, None) => Ret (Exit 0 (Some (Scheduler.w_db w)))
              end
          end
      end
  end.

(** Up to the start of the schedulers; the main goroutine runs [schedulers[0]]. *)
Definition runService : outcome result :=
  match loadConfig with
  | None => Ret (Exit 1 None)
  | Some cfg =>
      match Pool.NewWithPoolOptions (Config.PostgresDSN cfg) (Some (Config.Pool cfg)) with
      | inl _ => Ret (Exit 1 None)
      | inr st =>
          match execute (Migrations.Migrate migrationsFS) st with
          | (st, Some _) => Ret (Exit 1 (Some st))
          | (st, None) =>
              match Service.setup_nodes cfg os_Hostname (Config.EffectiveNodes cfg) h0 with
              | (_, inl _) => Ret (Exit 1 (Some st))
              | (h, inr nodes) =>
                  let schedulers :=
                    map (λ cs : Collector.Collector * Scheduler.Scheduler,
                           (cs.2, (mkLive cs.1 h clock 0 : @collector netdata))) nodes in
                  match schedulers with
                  | [] => Panic
                  | _ => Ret (Serves (Service.start_service cfg schedulers st x0))
                  end
              end
          end
      end
  end.

Definition runMCPOnly : outcome result :=
  match loadConfig with
  | None => Ret (Exit 1 None)
  | Some cfg =>
      match Pool.New (Config.PostgresDSN cfg) with
      | inl _ => Ret (Exit 1 None)
      | inr st =>
          match Listen st with
          | Some _ => if interrupted then Ret (Exit 0 (Some st)) else Ret (Exit 1 (Some st))
          | None => Ret (Exit 0 (Some st))
          end
      end
  end.

(** [main], for [os.Args]. *)
Definition main (args : list string) : outcome result :=
  match args with
  | _ :: cmd :: _ =>
      if String.eqb cmd "migrate" then runMigrate
      else if String.eqb cmd "collect-once" then runCollectOnce
      else if String.eqb cmd "run" then runService
      else if String.eqb cmd "mcp" then runMCPOnly
      else if existsb (String.eqb cmd) ["version"; "--version"; "-v"] then Ret (Exit 0 None)
      else if existsb (String.eqb cmd) ["help"; "--help"; "-h"] then Ret (Exit 0 None)
      else Ret (Exit 1 None)
  | _ => Ret (Exit 1 None)
  end.
End Main.
End Main.

(** * What the commands do *)
Section PoolProofs.
Import Pool.

Definition usable (c : Config.PoolConfig) : Prop :=
  0 < Config.MinConns c ∧ 0 < Config.MaxConns c ∧ 0 < Config.MaxConnLifetime c ∧
  0 < Config.MaxConnIdleTime c ∧ 0 < Config.HealthCheckPeriod c.

(** The settings of a pool are usable whatever the options: an option that is not positive leaves
    its default, and the defaults are those of the configuration package. *)
Lemma pool_settings_usable opts :
  usable (pool_settings opts) ∧ pool_settings None = Config.DefaultPoolConfig ∧
  ∀ o, usable o → pool_settings (Some o) = o.
Proof.
  split_and!; [|done|].
  - destruct opts as [[a b c d e]|]; [|by repeat split]. cbn.
    repeat split; cbn; case_match; try done; lia.
  - intros [a b c d e] (Ha & Hb & Hc & Hd & He). cbn in *. f_equal; case_match; try done; lia.
Qed.
End PoolProofs.

Section MainProofs.
Context `{Unicode} `{PP : Pgxpool} `{EN : Collector.Environment} `{SortSlice}.
Context (ReadFile : string → string + string) (yaml_Unmarshal : string → Config.Config → Config.Config * option string).
Context (Getenv : string → string) (os_Hostname : string + string) (migrationsFS : Migrations.FS).
Context (clock : nat → Z) (h0 : Collector.http_state) {X : Type} (x0 : X).
Context (cycle : Scheduler.cycle) (Listen : db → option string) (interrupted : bool).

Abbreviation load := (Main.loadConfig ReadFile yaml_Unmarshal Getenv).
Abbreviation process args :=
  (Main.main ReadFile yaml_Unmarshal Getenv os_Hostname migrationsFS clock h0 x0 cycle Listen interrupted args).

Lemma loadConfig_valid cfg : load = Some cfg → Config.EffectiveNodes cfg ≠ [].
Proof.
  unfold Main.loadConfig. destruct (Config.Load _ _ _ _) as [c [e|]]; [done|]. intros [= <-].
  unfold Config.EffectiveNodes. destruct (Config.Nodes c); [done|]. by destruct (0 <? _).
Qed.

Lemma setup_some cfg nodes h h' l :
  Service.setup_nodes cfg os_Hostname nodes h = (h', inr l) → nodes ≠ [] → l ≠ [].
Proof. intros E Hne ->. apply setup_nodes_spec, Forall2_nil_inv_r in E. by subst. Qed.

(** What it takes to serve. *)
Lemma runService_serves r :
  Main.runService ReadFile yaml_Unmarshal Getenv os_Hostname migrationsFS clock h0 x0 = r →
  (∃ d, r = Ret (Main.Exit 1 d)) ∨
  ∃ cfg d0 d h l,
    load = Some cfg ∧ Pool.NewWithPoolOptions (Config.PostgresDSN cfg) (Some (Config.Pool cfg)) = inr d0 ∧
    execute (Migrations.Migrate migrationsFS) d0 = (d, None) ∧ l ≠ [] ∧
    Forall2 (set_up cfg os_Hostname) (Config.EffectiveNodes cfg) l ∧
    r = Ret (Main.Serves (Service.start_service cfg
          (map (λ cs : Collector.Collector * Scheduler.Scheduler,
                  (cs.2, (mkLive cs.1 h clock 0 : @collector netdata))) l) d x0)).
Proof.
  intros <-. unfold Main.runService. destruct load as [cfg|] eqn:El; [|left; by eexists].
  destruct (Pool.NewWithPoolOptions _ _) as [e|d0] eqn:Ep; [left; by eexists|].
  destruct (execute _ d0) as [d [e|]] eqn:Em; [left; by eexists|].
  destruct (Service.setup_nodes _ _ _ _) as [h [e|l]] eqn:Es; [left; by eexists|]. right.
  pose proof (setup_some _ _ _ _ _ Es (loadConfig_valid _ El)) as Hne.
  exists cfg, d0, d, h, l. split_and!; [done..|by eapply setup_nodes_spec|].
  by destruct l.
Qed.

Context `{!PostgresLaws PG}.

(** The collector of collect-once and the id it resolved. *)
Definition resolved (cfg : Config.Config) (h : Collector.http_state) (col : Collector.Collector) (id : string) : Prop :=
  Collector.ResolveNodeID (Collector.New (Config.NetdataBaseURL cfg) (Config.NetdataAPIKey cfg)
    (Config.NodeID_ cfg) (Config.EnabledContexts cfg) (Config.CollectionIntervalSeconds cfg)) os_Hostname h0 =
    (h, col, inr id).

(** Its cycle. *)
Definition the_cycle (cfg : Config.Config) (d0 : db) (h : Collector.http_state) (col : Collector.Collector) (id : string) :=
  Scheduler.collectOnce cycle
    (Scheduler.New (Config.CollectionIntervalSeconds cfg) id (Main.host os_Hostname) (Config.NetdataBaseURL cfg))
    (Scheduler.mkWorld d0 (mkLive col h clock 0 : @collector netdata) Metrics.Global0).

(** What the exit codes of collect-once promise of the database it reached. *)
Definition collected (cfg : Config.Config) (d0 d : db) : Prop :=
  ∃ h col id ss, resolved cfg h col id ∧ first_answer (mkLive col h clock 0 : @collector netdata) ss ∧
    Schema.nodes (db_tables d) =
      <[id := Schema.mkNode (Main.host os_Hostname) (Config.NetdataBaseURL cfg)]> (Schema.nodes (db_tables d0)) ∧
    Schema.samples (db_tables d) = rows_with ss (Schema.samples (db_tables d0)).

Definition not_collected (cfg : Config.Config) (d0 d : db) : Prop :=
  Schema.samples (db_tables d) = Schema.samples (db_tables d0) ∨
  ∃ h col id ss s' w' e, resolved cfg h col id ∧
    the_cycle cfg d0 h col id = Ret (s', w', Some e) ∧ commit_failed e ∧
    first_answer (mkLive col h clock 0 : @collector netdata) ss ∧
    Schema.samples (db_tables d) = rows_with ss (Schema.samples (db_tables d0)).

Lemma runCollectOnce_spec :
  ∃ code d, Main.runCollectOnce ReadFile yaml_Unmarshal Getenv os_Hostname clock h0 cycle =
      Ret (Main.Exit code d : @Main.result _ _ X) ∧
    match d with
    | None => code = 1
    | Some d => ∃ cfg d0, load = Some cfg ∧ Pool.New (Config.PostgresDSN cfg) = inr d0 ∧
        (code = 0 ∧ collected cfg d0 d ∨ code = 1 ∧ not_collected cfg d0 d)
    end.
Proof.
  unfold Main.runCollectOnce. destruct load as [cfg|] eqn:El; [|by eexists _, None].
  destruct (Pool.New _) as [e|d0] eqn:Ep; [by eexists _, None|].
  destruct (Collector.ResolveNodeID _ _ _) as [[h col] [e|id]] eqn:Er.
  { eexists _, (Some d0). split; [done|]. exists cfg, d0. split_and!; [done..|].
    right. split; [done|by left]. }
  set (sched := Scheduler.New _ _ _ _). set (w := Scheduler.mkWorld d0 _ _).
  destruct (collectOnce_spec cycle sched w) as (s' & w' & err & Ec & Hres). rewrite Ec.
  cbn [mbind outcome_bind]. destruct err as [e|]; (eexists _, (Some _); split; [done|]);
    exists cfg, d0; (split; [done|]; split; [done|]).
  - right. split; [done|]. destruct Hres as [_ [Hs|(He & ss & Ha & Hs)]]; [by left|right].
    exists h, col, id, ss, s', w', e. split_and!; [exact Er|exact Ec|exact He|exact Ha|exact Hs].
  - left. split; [done|]. destruct Hres as (ss & Ha & Hn & Hs & _).
    exists h, col, id, ss. split_and!; [exact Er|exact Ha|exact Hn|exact Hs].
Qed.

(** Every command ends in an exit with code 0 or 1 or in a service at work, never in a panic;
      only [run] serves, and with at least one scheduler, so that [schedulers[0]] exists. *)
Theorem commands_end args :
  ∃ r, process args = Ret r ∧
    match r with
    | Main.Exit code _ => code = 0 ∨ code = 1
    | Main.Serves st => args !! 1%nat = Some "run" ∧ Service.s_nodes st ≠ []
    end.
Proof.
  unfold Main.main. destruct args as [|prog [|cmd args]]; [eexists; split; [done|by right]..|].
  destruct (String.eqb_spec cmd "migrate") as [->|_].
  { unfold Main.runMigrate. repeat case_match; (eexists; split; [done|cbn; auto]). }
  destruct (String.eqb_spec cmd "collect-once") as [->|_].
  { destruct runCollectOnce_spec as (code & d & -> & Hd). eexists. split; [done|]. cbn.
    destruct d as [d|]; [|by right]. destruct Hd as (? & ? & _ & _ & [[? _]|[? _]]); auto. }
  destruct (String.eqb_spec cmd "run") as [->|_].
  { destruct (runService_serves _ eq_refl) as [[d ->]|(cfg & d0 & d & h & l & _ & _ & _ & Hne & _ & ->)];
      (eexists; split; [done|]); [by right|]. split; [done|]. by destruct l. }
  destruct (String.eqb cmd "mcp").
  { unfold Main.runMCPOnly. repeat case_match; (eexists; split; [done|cbn; auto]). }
  repeat case_match; (eexists; split; [done|cbn; auto]).
Qed.

(** C23.  collect-once tells the truth: it exits 0 only if the configuration is valid, the database
      answers, and the samples of the first successful attempt of at most three were
      stored under the resolved node id; when it exits 1 the stored samples are untouched, unless
      the error is that of the commit, when the samples of that attempt may all be stored. *)
Theorem collect_once_exit :
  ∃ code d, process ["netdata-postgres-mcp"; "collect-once"] = Ret (Main.Exit code d) ∧
    match d with
    | None => code = 1
    | Some d => ∃ cfg d0, load = Some cfg ∧ Pool.New (Config.PostgresDSN cfg) = inr d0 ∧
        (code = 0 ∧ collected cfg d0 d ∨ code = 1 ∧ not_collected cfg d0 d)
    end.
Proof. apply runCollectOnce_spec. Qed.

Context (sse : Schema.tables → handler (Metrics.Metrics * X)).
Context (snappy : list Byte.byte → option (list Byte.byte)) (ping : db → option string) (version : string).

(** C2.  From the command line to the data: when [run] serves, the configuration is valid, the
      migrations ended without error, one scheduler works for every configured node; and in
      every history of that service a step that loses a stored sample found it, by the clock of
      that very step, older than the configured retention (up to 106751 days), which is then
      enabled. *)
Theorem run_keeps_young st :
  process ["netdata-postgres-mcp"; "run"] = Ret (Main.Serves st) →
  ∃ cfg d0,
    load = Some cfg ∧ Pool.NewWithPoolOptions (Config.PostgresDSN cfg) (Some (Config.Pool cfg)) = inr d0 ∧
    execute (Migrations.Migrate migrationsFS) d0 = (Service.s_db st, None) ∧
    length (Service.s_nodes st) = length (Config.EffectiveNodes cfg) ∧
    ∀ st1 now st2 x, Config.RetentionDays cfg <= 106751 →
      rtc (Service.service_step sse snappy ping version cfg) st st1 →
      Service.service_at sse snappy ping version cfg now st1 st2 →
      x ∈ Schema.samples (db_tables (Service.s_db st1)) →
      x ∉ Schema.samples (db_tables (Service.s_db st2)) →
      0 < Config.RetentionDays cfg ∧
      Schema.collected_at x < Schema.pg_time (now - Config.RetentionDays cfg * (24 * Hour)).
Proof.
  intros E. change (process ["netdata-postgres-mcp"; "run"]) with
    (Main.runService ReadFile yaml_Unmarshal Getenv os_Hostname migrationsFS clock h0 x0) in E.
  destruct (runService_serves _ E) as [[d [=]]|(cfg & d0 & d & h & l & Hl & Hp & Hm & Hne & Hset & [= ->])].
  exists cfg, d0. split_and!; [done..| |].
  - unfold Service.start_service. cbn. rewrite !length_map. symmetry. by eapply Forall2_length.
  - intros st1 now st2 x Hdays Hrun Hstep Hin Hout.
    refine (young_kept sse snappy ping version cfg _ d x0 st1 now st2 x _ Hdays Hrun Hstep Hin Hout).
    apply Forall_fmap, Forall_forall. intros cs Hcs. cbn.
    apply list_elem_of_lookup in Hcs as [i Hi].
    destruct (Forall2_lookup_r _ _ _ _ _ Hset Hi) as (nc & _ & Hs). destruct cs as [col sched]. apply Hs.
Qed.
End MainProofs.

(** * The commands at work

    A Netdata that answers only its Prometheus endpoint, a database that is reached, and one
    stand-in for every file and script. *)
Section MainWitnesses.
Import MemPg MemOrder.

#[local] Instance no_unicode : Unicode := {| unicode_ToLower s := s; unicode_Quote s := s |}.
#[local] Instance reliable : Postgres := server no_faults.
#[local] Instance reliable_laws : PostgresLaws reliable := server_laws no_faults.

#[local] Instance reachable : Pgxpool := {|
  conn_info := string;
  ParseConfig dsn := inr (dsn, Config.DefaultPoolConfig);
  NewWithConfig _ _ := inr (mkState one_node 0 : @db reliable);
  Ping _ := None;
  execute p d :=
    (d, (Migrations.run mark 0 (λ _, 0%nat) 0 p (Migrations.mkServer (Migrations.mkDatabase [] None) [])).2);
|}.

#[local] Instance prometheus_only : Collector.Environment := {|
  Collector.map_range A m := map_to_list m;
  Collector.json_parse s := None;
  Collector.json_decode s := None;
  Collector.http_state := ();
  Collector.http_get h url auth :=
    (h, if HasSuffix url "source=average"
        then inr (200, PromSpec.render_line "netdata_system_cpu_percentage_average"
                         [("chart", "system.cpu"); ("dimension", "user")] "1.5")
        else inl "connection refused");
  Collector.url_QueryEscape s := s;
|}.

Definition some_env (k : string) : string := if String.eqb k "POSTGRES_DSN" then "postgres://db" else "".
Definition some_cycle : Scheduler.cycle := Scheduler.mkCycle 0 0 0 0 0 0 (λ _, None).
Definition some_clock (n : nat) : Z := Z.of_nat n * Second.

Abbreviation some_process args :=
  (Main.main (EN := prometheus_only) no_file no_yaml some_env (inr "n1") embedded some_clock tt (0 : Z) some_cycle
     (λ _, None) false args).

(** The state that [run] reaches. *)
Definition some_service : Service.service Z :=
  match some_process ["netdata-postgres-mcp"; "run"] with
  | Ret (Main.Serves st) => st
  | _ => Service.start_service Config.Defaults [] (mkState one_node 0 : @db reliable) 0
  end.

Lemma commands_end_witness :
  ∃ r, some_process ["netdata-postgres-mcp"; "--help"] = Ret r ∧
    match r with
    | Main.Exit code _ => code = 0 ∨ code = 1
    | Main.Serves st => ["netdata-postgres-mcp"; "--help"] !! 1%nat = Some "run" ∧ Service.s_nodes st ≠ []
    end.
Proof.
  exact (commands_end (EN := prometheus_only) no_file no_yaml some_env (inr "n1") embedded some_clock tt (0 : Z) some_cycle
           (λ _, None) false ["netdata-postgres-mcp"; "--help"]).
Defined.

Lemma collect_once_exit_witness :
  ∃ d, some_process ["netdata-postgres-mcp"; "collect-once"] = Ret (Main.Exit 0 (Some d)) ∧
    ∃ cfg d0, collected (EN := prometheus_only) (inr "n1") some_clock tt cfg d0 d.
Proof.
  destruct (collect_once_exit (EN := prometheus_only) no_file no_yaml some_env (inr "n1") embedded some_clock tt (0 : Z) some_cycle
              (λ _, None) false) as (code & d & E & Hd).
  assert (Hcode : code = 0).
  { apply (f_equal (λ o, match o with Ret (Main.Exit c _) => c | _ => 2 end)) in E.
    rewrite <- E. vm_compute. reflexivity. }
  destruct d as [d|]; [|by subst]. destruct Hd as (cfg & d0 & _ & _ & [[_ Hd]|[Hd _]]); [|by subst].
  exists d. subst code. split; [exact E|]. exists cfg, d0. exact Hd.
Defined.

Lemma some_service_runs : some_process ["netdata-postgres-mcp"; "run"] = Ret (Main.Serves some_service).
Proof.
  assert (Hs : match some_process ["netdata-postgres-mcp"; "run"] with
               | Ret (Main.Serves _) => true
               | _ => false
               end = true) by (vm_compute; reflexivity).
  unfold some_service. by destruct (some_process _) as [[|]| | |].
Qed.

Lemma run_keeps_young_witness :
  ∃ cfg d0, execute (Migrations.Migrate embedded) d0 = (Service.s_db some_service, None) ∧
    length (Service.s_nodes some_service) = length (Config.EffectiveNodes cfg).
Proof.
  destruct (run_keeps_young (EN := prometheus_only) no_file no_yaml some_env (inr "n1") embedded some_clock tt
    (0 : Z) some_cycle (λ _, None) false (λ _ _ st, (st, Ret (mkResponse 200 [] ""))) Some (λ _, None) "dev"
    some_service some_service_runs) as (cfg & d0 & _ & _ & Hm & Hlen & _).
  exists cfg, d0. split; [exact Hm|exact Hlen].
Defined.
End MainWitnesses.
