(* ===== verification/Sha256.v ===== *)
(** SHA-256 of the Go standard library (crypto/sha256, FIPS 180-4) and encoding/hex, as the
    package internal/tenant uses them. *)

From Stdlib Require Import Ascii.
From S2P Require Import Prelude GoString.

Module Sha256.

Definition mask32 : Z := 0xffffffff.
Definition add32 (a b : Z) : Z := Z.land (a + b) mask32.
Definition rotr (n x : Z) : Z :=
  Z.lor (Z.shiftr x n) (Z.land (Z.shiftl x (32 - n)) mask32).

(** The constants are the first 32 bits of the fractional parts of the roots of the primes. *)
Definition is_prime (n : nat) : bool :=
  (2 <=? n)%nat && forallb (λ d, negb (n mod d =? 0)%nat) (seq 2 (n - 2)).

Definition first_primes (n : nat) : list Z :=
  take n (map Z.of_nat (List.filter is_prime (seq 2 310))).

(** The cube root, rounded down, bit by bit from 2^[n]. *)
Fixpoint cube_root (n : nat) (r x : Z) : Z :=
  let r' := r + 2 ^ Z.of_nat n in
  let r := if r' * r' * r' <=? x then r' else r in
  match n with O => r | S n => cube_root n r x end.

Definition fraction_bits (root : Z) : Z := Z.land root mask32.

Definition K : list Z :=
  Eval vm_compute in map (λ p, fraction_bits (cube_root 35 0 (Z.shiftl p 96))) (first_primes 64).

(** The eight words of the state. *)
Record digest := mkDigest { ha : Z; hb : Z; hc : Z; hd : Z; he : Z; hf : Z; hg : Z; hh : Z }.

Definition digest_of (w : list Z) : digest :=
  let at_ i := nth i w 0 in
  mkDigest (at_ 0%nat) (at_ 1%nat) (at_ 2%nat) (at_ 3%nat) (at_ 4%nat) (at_ 5%nat) (at_ 6%nat) (at_ 7%nat).

Definition H0 : digest :=
  Eval vm_compute in digest_of (map (λ p, fraction_bits (Z.sqrt (Z.shiftl p 64))) (first_primes 8)).

(** The message, padded to whole blocks of 64 bytes. *)
Definition be_bytes (n : nat) (x : Z) : list Z :=
  map (λ i, Z.land (Z.shiftr x (8 * Z.of_nat i)) 255) (rev (seq 0 n)).

Definition pad (msg : list Z) : list Z :=
  let len := length msg in
  let zeros := ((119 - len mod 64) mod 64)%nat in
  msg ++ [128] ++ replicate zeros 0 ++ be_bytes 8 (8 * Z.of_nat len).

Fixpoint words (bytes : list Z) : list Z :=
  match bytes with
  | a :: b :: c :: d :: rest =>
      Z.lor (Z.shiftl a 24) (Z.lor (Z.shiftl b 16) (Z.lor (Z.shiftl c 8) d)) :: words rest
  | _ => []
  end.

(** The message schedule, extended to the right; [w] holds it in reverse. *)
Fixpoint schedule (n : nat) (w : list Z) : list Z :=
  match n with
  | O => rev w
  | S n' =>
      let at_ i := nth (i - 1) w 0 in
      let s0 := Z.lxor (rotr 7 (at_ 15%nat)) (Z.lxor (rotr 18 (at_ 15%nat)) (Z.shiftr (at_ 15%nat) 3)) in
      let s1 := Z.lxor (rotr 17 (at_ 2%nat)) (Z.lxor (rotr 19 (at_ 2%nat)) (Z.shiftr (at_ 2%nat) 10)) in
      schedule n' (add32 (at_ 16%nat) (add32 s0 (add32 (at_ 7%nat) s1)) :: w)
  end.

Definition round (d : digest) (kw : Z * Z) : digest :=
  let '(mkDigest a b c d e f g h) := d in
  let S1 := Z.lxor (rotr 6 e) (Z.lxor (rotr 11 e) (rotr 25 e)) in
  let ch := Z.lxor (Z.land e f) (Z.land (Z.lxor e mask32) g) in
  let t1 := add32 h (add32 S1 (add32 ch (add32 kw.1 kw.2))) in
  let S0 := Z.lxor (rotr 2 a) (Z.lxor (rotr 13 a) (rotr 22 a)) in
  let maj := Z.lxor (Z.land a b) (Z.lxor (Z.land a c) (Z.land b c)) in
  let t2 := add32 S0 maj in
  mkDigest (add32 t1 t2) a b c (add32 d t1) e f g.

Definition block (d : digest) (ws : list Z) : digest :=
  let d' := fold_left round (combine K (schedule 48 (rev ws))) d in
  mkDigest (add32 (ha d) (ha d')) (add32 (hb d) (hb d')) (add32 (hc d) (hc d'))
    (add32 (hd d) (hd d')) (add32 (he d) (he d')) (add32 (hf d) (hf d'))
    (add32 (hg d) (hg d')) (add32 (hh d) (hh d')).

Fixpoint blocks (fuel : nat) (d : digest) (ws : list Z) : digest :=
  match fuel, ws with
  | S fuel', _ :: _ => blocks fuel' (block d (take 16 ws)) (drop 16 ws)
  | _, _ => d
  end.

(** [Sum256]: 32 bytes; every block has 16 words, so the number of words bounds the loop. *)
Definition Sum256 (msg : list Z) : list Z :=
  let ws := words (pad msg) in
  let '(mkDigest a b c d e f g h) := blocks (length ws) H0 ws in
  flat_map (be_bytes 4) [a; b; c; d; e; f; g; h].

(** [hex.EncodeToString]. *)
Definition hex_digit (n : Z) : ascii :=
  ascii_of_nat (Z.to_nat (if n <? 10 then 48 + n else 87 + n)).

Fixpoint EncodeToString (bytes : list Z) : string :=
  match bytes with
  | [] => ""
  | b :: bytes =>
      String (hex_digit (Z.shiftr b 4)) (String (hex_digit (Z.land b 15)) (EncodeToString bytes))
  end.

Fixpoint string_bytes (s : string) : list Z :=
  match s with
  | "" => []
  | String a s => Z.of_nat (nat_of_ascii a) :: string_bytes s
  end%string.

Example Sum256_empty : EncodeToString (Sum256 []) =
  "e3b0c44298fc1c149afbf4c8996fb92427ae41e4649b934ca495991b7852b855".
Proof. vm_compute. reflexivity. Qed.

Example Sum256_abc : EncodeToString (Sum256 (string_bytes "abc")) =
  "ba7816bf8f01cfea414140de5dae2223b00361a396177a9cb410ff61f20015ad".
Proof. vm_compute. reflexivity. Qed.

Example Sum256_two_blocks :
  EncodeToString (Sum256 (string_bytes "abcdbcdecdefdefgefghfghighijhijkijkljklmklmnlmnomnopnopq")) =
  "248d6a61d20638b8e5c026930c3e6039a33ce45964ff2167f6ecedd419db06c1".
Proof. vm_compute. reflexivity. Qed.

End Sha256.

Section Sha256Proofs.
Import Sha256.

(** The digest has 32 bytes, whatever the message. *)
Lemma Sum256_length msg : length (Sum256 msg) = 32%nat.
Proof. unfold Sum256. by destruct (blocks _ _ _) as [a b c d e f g h]. Qed.

Lemma EncodeToString_length bytes : String.length (EncodeToString bytes) = (2 * length bytes)%nat.
Proof. induction bytes as [|b bytes IH]; cbn; [done|]. rewrite IH. lia. Qed.
End Sha256Proofs.
