(* ===== verification/Tenant.v ===== *)
(** Multi-tenant tokens, internal/tenant/tenant.go: the lookup of a bearer token in the
    tables of migrations/004_tenants.sql, and the middleware that attaches the tenant to
    the request.  main.go does not use the package. *)

From Stdlib Require Import Ascii.
From S2P Require Import Prelude GoInt GoTime GoString Http Sha256.

Module Tenant.

(** [Info]. *)
Record Info := mkInfo {
  TenantID : string;
  TenantName : string;
  Label : string;
  Scopes : list string;
}.

(** The tables: tenants by id, and the tokens; [token_hash] is unique. *)
Record token := mkToken {
  tenant_id : string;
  token_hash : string;
  label : string;
  scopes : list string;
  expires_at : option Z;
}.

Record tables := mkTables {
  tenants : gmap string string;
  api_tokens : list token;
}.

(** [HashToken]. *)
Definition HashToken (raw : string) : string :=
  Sha256.EncodeToString (Sha256.Sum256 (Sha256.string_bytes raw)).

(** The rows of the join of api_tokens and tenants for a hash. *)
Definition sql_lookup (hash : string) (T : tables) : list (Info * option Z) :=
  omap (λ at_, if String.eqb (token_hash at_) hash then
                 name ← tenants T !! tenant_id at_;
                 Some (mkInfo (tenant_id at_) name (label at_) (scopes at_), expires_at at_)
               else None) (api_tokens T).

(** [resolveToken]: the info (or nil) and the error (or nil).  The query fails with the
    error of the server, if there is one, or for want of a row; an expired token
    returns the error of that query, which is nil. *)
Definition resolveToken (now : Z) (server_error : option string) (T : tables) (rawToken : string)
    : option Info * option string :=
  let hash := HashToken rawToken in
  let '(row, err) :=
    match server_error with
    | Some e => (None, Some e)
    | None => match sql_lookup hash T with
              | row :: _ => (Some row, None)
              | [] => (None, Some "no rows in result set")
              end
    end in
  match err, row with
  | Some _, _ => (None, err)
  | None, None => (None, err)
  | None, Some (info, expiresAt) =>
      match expiresAt with
      | Some t => if t <? now then (None, err) else (Some info, None)
      | None => (Some info, None)
      end
  end.

Definition extractBearerToken (r : request) : string :=
  let auth := Header_Get r "Authorization" in
  if HasPrefix auth "Bearer " then TrimPrefix auth "Bearer "
  else Query_Get r "token".

(** [writeJSON] of the error. *)
Definition refusal (msg : string) : response := json_response [] StatusUnauthorized [("error", msg)].

(** [Middleware]: [next] is given what [FromContext] finds in its request. *)
Definition Middleware {S} (multiTenant : bool) (now : Z) (server_error : option string) (T : tables)
    (next : option Info → handler S) : handler S := λ r s,
  if negb multiTenant then next None r s
  else
    let token := extractBearerToken r in
    if String.eqb token "" then (s, Ret (refusal "missing bearer token"))
    else
      match resolveToken now server_error T token with
      | (_, Some _) => (s, Ret (refusal "invalid or expired token"))
      | (info, None) => next info r s
      end.
End Tenant.

Section TenantProofs.
Import Tenant.

(** The hash of every token is a key of 64 hexadecimal digits. *)
Lemma HashToken_length raw : String.length (HashToken raw) = 64%nat.
Proof. unfold HashToken. by rewrite EncodeToString_length, Sum256_length. Qed.

(** The row a token stands for. *)
Definition names_tenant (T : tables) (raw : string) (info : Info) (expires : option Z) : Prop :=
  ∃ at_, at_ ∈ api_tokens T ∧ token_hash at_ = HashToken raw ∧
    tenants T !! TenantID info = Some (TenantName info) ∧
    tenant_id at_ = TenantID info ∧ label at_ = Label info ∧ scopes at_ = Scopes info ∧
    expires_at at_ = expires.

Lemma sql_lookup_spec raw T info expires :
  (info, expires) ∈ sql_lookup (HashToken raw) T ↔ names_tenant T raw info expires.
Proof.
  unfold sql_lookup, names_tenant. rewrite list_elem_of_omap. split.
  - intros (at_ & Hin & H). destruct (String.eqb_spec (token_hash at_) (HashToken raw)); [|done].
    destruct (tenants T !! tenant_id at_) as [name|] eqn:En; cbn in H; [|done].
    injection H as <- <-. by exists at_.
  - intros (at_ & Hin & Hh & Hn & H1 & H2 & H3 & H4). exists at_. split; [done|].
    rewrite Hh, String.eqb_refl, H1, Hn. cbn. destruct info. cbn in *. by subst.
Qed.

(** Unique hashes, as the schema demands. *)
Definition unique_hashes (T : tables) : Prop := NoDup (map token_hash (api_tokens T)).

(** A unique hash gives at most one row. *)
Lemma sql_lookup_unique T h : unique_hashes T →
  sql_lookup h T = [] ∨ ∃ row, sql_lookup h T = [row].
Proof.
  unfold unique_hashes, sql_lookup. generalize (tenants T). intros ts.
  assert (Hnone : ∀ l, h ∉ map token_hash l →
    omap (λ at_, if String.eqb (token_hash at_) h then
                 name ← ts !! tenant_id at_;
                 Some (mkInfo (tenant_id at_) name (label at_) (scopes at_), expires_at at_)
               else None) l = []).
  { intros l Hl. induction l as [|a l IH]; [done|]. cbn in Hl |- *.
    apply not_elem_of_cons in Hl as [Hne Hl].
    rewrite (proj2 (String.eqb_neq _ _)) by (intros E; by apply Hne). by apply IH. }
  induction (api_tokens T) as [|a l IH]; intros Hnd; [by left|].
  cbn in Hnd. apply NoDup_cons in Hnd as [Ha Hnd]. cbn.
  destruct (String.eqb_spec (token_hash a) h) as [<-|]; [|by apply IH].
  rewrite Hnone by done. destruct (ts !! tenant_id a); cbn; eauto.
Qed.

(** The row of a stored token is the answer of the lookup. *)
Lemma sql_lookup_named T raw info e :
  unique_hashes T → names_tenant T raw info e → sql_lookup (HashToken raw) T = [(info, e)].
Proof.
  intros Hu Hn%sql_lookup_spec. destruct (sql_lookup_unique T (HashToken raw) Hu) as [E|[row E]];
    rewrite E in Hn |- *; [by apply not_elem_of_nil in Hn|]. by apply list_elem_of_singleton in Hn as <-.
Qed.

(** C27.  Multi-tenant mode admits exactly the holders of stored tokens: a request without a
      token, or with one whose hash no row (with its tenant) has, is refused with 401 and
      does not reach the wrapped handler, and so is every request while the
      database fails; a request with a live token reaches it with the tenant, label and
      scopes of its row; and one with an expired token, which nothing refuses, reaches it too,
      without any tenant. *)
Theorem Middleware_admits {S} now fault T (next : option Info → handler S) r s :
  unique_hashes T →
  let token := extractBearerToken r in
  (token = "" ∨ fault ≠ None ∨ (∀ info e, ¬ names_tenant T token info e) →
     ∃ msg, Middleware true now fault T next r s = (s, Ret (refusal msg)) ∧
            Status (refusal msg) = 401) ∧
  (∀ info e, token ≠ "" → fault = None → names_tenant T token info e →
     Middleware true now fault T next r s =
       match e with
       | Some t => if t <? now then next None r s else next (Some info) r s
       | None => next (Some info) r s
       end).
Proof.
  intros Hu token. unfold Middleware. cbn [negb]. fold token. split.
  - intros H. destruct (String.eqb_spec token "") as [|Hne]; [by eexists|].
    destruct H as [H|[H|H]]; [done| |].
    + destruct fault as [e|]; [|done]. by eexists.
    + unfold resolveToken. destruct fault as [e|]; [by eexists|].
      destruct (sql_lookup (HashToken token) T) as [|[info e] rows] eqn:E; [by eexists|].
      exfalso. apply (H info e), sql_lookup_spec. rewrite E. left.
  - intros info e Hne -> Hn. rewrite (proj2 (String.eqb_neq _ _)) by done.
    unfold resolveToken. rewrite (sql_lookup_named T token info e) by done.
    destruct e as [t|]; [by destruct (t <? now)|done].
Qed.

(** An expired token opens everything: it is not refused; its request reaches the
      wrapped handler with no tenant attached, which is what the handler sees in
      single-tenant mode, so that expiry lifts the scopes instead of ending access. *)
Theorem expired_token_passes {S} now T (next : option Info → handler S) r s info t :
  unique_hashes T → extractBearerToken r ≠ "" →
  names_tenant T (extractBearerToken r) info (Some t) → t < now →
  Middleware true now None T next r s = next None r s ∧
  Middleware false now None T next r s = next None r s.
Proof.
  intros Hu Hne Hn Ht. split; [|done]. unfold Middleware. cbn [negb].
  rewrite (proj2 (String.eqb_neq _ _)) by done. unfold resolveToken.
  rewrite (sql_lookup_named T _ info (Some t)) by done. by rewrite (proj2 (Z.ltb_lt _ _)) by done.
Qed.
End TenantProofs.

Section TenantWitnesses.
Import Tenant.

Definition acme : tables :=
  mkTables {["t1" := "Acme"]}
    [mkToken "t1" (HashToken "alpha") "ci" ["web-*"] (Some (10 * Second));
     mkToken "t1" (HashToken "beta") "ops" [] None].

Definition bearer (token : string) : request :=
  mkRequest "GET" "10.0.0.1:5" {["Authorization" := "Bearer " +:+ token]} ∅ [] None.

(** A handler that answers the number of scopes of its tenant, if it has one. *)
Definition who : option Info → handler (list (option Info)) := λ i r s,
  (i :: s, Ret (mkResponse 200 [] "")).

Lemma acme_unique : unique_hashes acme.
Proof. apply (bool_decide_unpack _). vm_compute. exact I. Qed.

Lemma alpha_named : names_tenant acme "alpha" (mkInfo "t1" "Acme" "ci" ["web-*"]) (Some (10 * Second)).
Proof.
  exists (mkToken "t1" (HashToken "alpha") "ci" ["web-*"] (Some (10 * Second))).
  split; [left|]. repeat split; vm_compute; reflexivity.
Qed.

(** In time, too late, and without a token. *)
Lemma Middleware_admits_witness :
  (Middleware true 0 None acme who (bearer "alpha") []).1 =
    [Some (mkInfo "t1" "Acme" "ci" ["web-*"])] ∧
  (Middleware true (11 * Second) None acme who (bearer "alpha") []).1 = [None] ∧
  ∃ msg, Middleware true 0 None acme who (bearer "") [] = ([], Ret (refusal msg)).
Proof.
  assert (Ht : extractBearerToken (bearer "alpha") = "alpha") by reflexivity.
  split_and!.
  - rewrite (proj2 (Middleware_admits 0 None acme who (bearer "alpha") [] acme_unique)
      (mkInfo "t1" "Acme" "ci" ["web-*"]) (Some (10 * Second)));
      [reflexivity|vm_compute; discriminate|reflexivity|rewrite Ht; exact alpha_named].
  - rewrite (proj2 (Middleware_admits (11 * Second) None acme who (bearer "alpha") [] acme_unique)
      (mkInfo "t1" "Acme" "ci" ["web-*"]) (Some (10 * Second)));
      [reflexivity|vm_compute; discriminate|reflexivity|rewrite Ht; exact alpha_named].
  - destruct (proj1 (Middleware_admits 0 None acme who (bearer "") [] acme_unique)) as (msg & H & _);
      [left; reflexivity|]. exists msg. exact H.
Defined.

Lemma expired_token_passes_witness :
  (Middleware true (11 * Second) None acme who (bearer "alpha") []).1 = [None].
Proof.
  rewrite (proj1 (expired_token_passes (11 * Second) acme who (bearer "alpha") []
    (mkInfo "t1" "Acme" "ci" ["web-*"]) (10 * Second) acme_unique
    ltac:(vm_compute; discriminate)
    ltac:(exists (mkToken "t1" (HashToken "alpha") "ci" ["web-*"] (Some (10 * Second)));
          split; [left|]; repeat split; vm_compute; reflexivity)
    ltac:(vm_compute; reflexivity))).
  reflexivity.
Defined.
End TenantWitnesses.
