(* ===== verification/Webhook.v ===== *)
(** Webhook notifications, internal/webhook/webhook.go.  main.go does not use the package. *)

From Stdlib Require Import SpecFloat.
From S2P Require Import Prelude GoInt GoFloat GoTime GoString.

Module Webhook.

Record Config := mkConfig {
  URL : string;
  MinConfidence : float64;
  CooldownMinutes : Z;
  IncludeEvidence : bool;
}.

Record EvidenceDetail := mkEvidence {
  Context_ : string;
  Dimension : string;
  AvgValue : float64;
  MaxValue : float64;
}.

Record Payload := mkPayload {
  Timestamp : Z;
  NodeID : string;
  BottleneckType : string;
  Confidence : float64;
  Explanation : string;
  Evidence : list EvidenceDetail;
}.

(** [Notifier]; the client is the transport's. *)
Record Notifier := mkNotifier {
  configs : list Config;
  lastSent : gmap string Z;
}.

Definition NewNotifier (configs : list Config) : Notifier := mkNotifier configs ∅.

(** [json.Marshal] fails on infinities and NaN; members left at zero are omitted. *)
Definition json_number (f : float64) : bool := negb (is_nan f || is_inf f).

Definition marshals (p : Payload) : bool :=
  json_number (Confidence p) &&
  forallb (λ e, json_number (AvgValue e) && json_number (MaxValue e)) (Evidence p).

(** The HTTP client: a POST of the JSON of a payload to a URL, the status or an error
    (an unusable URL included). *)
Section Transport.
Context {X : Type} (http_post : X → string → Payload → X * (string + Z)).

Definition send (url : string) (payload : Payload) (x : X) : X * option string :=
  if negb (marshals payload) then (x, Some "marshaling payload: json: unsupported value")
  else
    match http_post x url payload with
    | (x', inl e) => (x', Some e)
    | (x', inr status) =>
        if 400 <=? status then (x', Some ("webhook returned HTTP " +:+ fmt_d status)) else (x', None)
    end.

(** The limits of a configuration, zero meaning the default: 0.7, that is
    6305039478318694 / 2^53, and 15 minutes. *)
Definition min_confidence (cfg : Config) : float64 :=
  if feqb (MinConfidence cfg) f64_zero then f64_of_bits 0x3FE6666666666666 else MinConfidence cfg.

Definition cooldown_of (cfg : Config) : Z :=
  let cooldown := mul64 (CooldownMinutes cfg) Minute in
  if cooldown =? 0 then 15 * Minute else cooldown.

(** The clock while the loop is at one configuration: for the cooldown, for the
    timestamp, and after sending. *)
Record readings := mkReadings { t_check : Z; t_stamp : Z; t_sent : Z }.

Definition cooldownKey (payload : Payload) : string :=
  NodeID payload +:+ ":" +:+ BottleneckType payload.

Definition strip (cfg : Config) (now : Z) (p : Payload) : Payload :=
  mkPayload now (NodeID p) (BottleneckType p) (Confidence p) (Explanation p)
    (if IncludeEvidence cfg then Evidence p else []).

(** One turn of the loop in [Notify]. *)
Definition notify_one (payload : Payload) (cfg : Config) (clk : readings)
    (st : gmap string Z * X) : gmap string Z * X :=
  let '(lastSent, x) := st in
  let key := cooldownKey payload in
  if String.eqb (URL cfg) "" then st
  else if fltb (Confidence payload) (min_confidence cfg) then st
  else if match lastSent !! key with
          | Some last => time_Sub (t_check clk) last <? cooldown_of cfg
          | None => false
          end then st
  else
    match send (URL cfg) (strip cfg (t_stamp clk) payload) x with
    | (x', Some _) => (lastSent, x')
    | (x', None) => (<[key := t_sent clk]> lastSent, x')
    end.

Fixpoint notify_all (payload : Payload) (cfgs : list Config) (clk : nat → readings)
    (st : gmap string Z * X) : gmap string Z * X :=
  match cfgs with
  | [] => st
  | cfg :: cfgs => notify_all payload cfgs (λ i, clk (S i)) (notify_one payload cfg (clk O) st)
  end.

(** [Notify]. *)
Definition Notify (clk : nat → readings) (payload : Payload) (n : Notifier) (x : X)
    : Notifier * X :=
  if (zlen (configs n) =? 0) || String.eqb (BottleneckType payload) "none" then (n, x)
  else
    let '(ls, x') := notify_all payload (configs n) clk (lastSent n, x) in
    (mkNotifier (configs n) ls, x').
End Transport.
End Webhook.

(** * Properties *)
Section WebhookProofs.
Import Webhook.
Context {X : Type} (http_post : X → string → Payload → X * (string + Z)).

(** While every configuration is cooling down nothing is sent. *)
Lemma notify_all_cooling payload cfgs clk (ls : gmap string Z) x last :
  ls !! cooldownKey payload = Some last →
  (∀ i cfg, cfgs !! i = Some cfg → time_Sub (t_check (clk i)) last < cooldown_of cfg) →
  notify_all http_post payload cfgs clk (ls, x) = (ls, x).
Proof.
  intros Hlast. revert clk. induction cfgs as [|cfg cfgs IH]; intros clk Hc; [done|].
  cbn [notify_all].
  assert (H1 : notify_one http_post payload cfg (clk 0%nat) (ls, x) = (ls, x)).
  { unfold notify_one. rewrite Hlast, (proj2 (Z.ltb_lt _ _)) by exact (Hc 0%nat cfg eq_refl).
    by repeat case_match. }
  rewrite H1. apply IH. intros i cfg' Hi. exact (Hc (S i) cfg' Hi).
Qed.

(** The webhook that a notification is for. *)
Definition wanted (payload : Payload) (cfg : Config) : Prop :=
  URL cfg ≠ "" ∧ fltb (Confidence payload) (min_confidence cfg) = false.

(** Only one webhook hears of a bottleneck: all configurations share one cooldown, so
      when the first of them takes a notification, none of the others gets it, however
      many there are, as long as the loop is done with them before their cooldowns
      end; the state is that after the one POST. *)
Theorem first_webhook_starves_others payload cfg cfgs clk n x x' status :
  configs n = cfg :: cfgs → BottleneckType payload ≠ "none" → wanted payload cfg →
  lastSent n !! cooldownKey payload = None →
  marshals (strip cfg (t_stamp (clk 0%nat)) payload) = true →
  http_post x (URL cfg) (strip cfg (t_stamp (clk 0%nat)) payload) = (x', inr status) →
  status < 400 →
  (∀ i cfg', cfgs !! i = Some cfg' →
     time_Sub (t_check (clk (S i))) (t_sent (clk 0%nat)) < cooldown_of cfg') →
  Notify http_post clk payload n x =
    (mkNotifier (configs n) (<[cooldownKey payload := t_sent (clk 0%nat)]> (lastSent n)), x').
Proof.
  intros Hcfg Hty [Hurl Hconf] Hlast Hm Hpost Hst Hcool. unfold Notify.
  rewrite Hcfg, (proj2 (String.eqb_neq _ _)) by done.
  replace (zlen (cfg :: cfgs) =? 0) with false
    by (rewrite zlen_cons; pose proof (zlen_nonneg cfgs); lia).
  cbn [orb notify_all].
  assert (H1 : notify_one http_post payload cfg (clk 0%nat) (lastSent n, x) =
    (<[cooldownKey payload := t_sent (clk 0%nat)]> (lastSent n), x')).
  { unfold notify_one. rewrite (proj2 (String.eqb_neq _ _)) by done.
    rewrite Hconf, Hlast. unfold send. rewrite Hm, Hpost. cbn [negb].
    by rewrite (proj2 (Z.leb_gt _ _)) by done. }
  rewrite H1, (notify_all_cooling payload cfgs (λ i, clk (S i)) _ _ (t_sent (clk 0%nat))).
  - done.
  - apply lookup_insert_eq.
  - exact Hcool.
Qed.
End WebhookProofs.

(** ** The cooldown over a sequence of notifications, with a transport that keeps a log *)
Section Cooldown.
Import Webhook.

(** What the outside did: a POST with its answer; the log is newest first. *)
Record sent := mkSent { s_url : string; s_payload : Payload; s_ok : bool }.

Context (answer : string → Payload → string + Z).

Definition logged (x : list sent) (url : string) (p : Payload) : list sent * (string + Z) :=
  (mkSent url p (match answer url p with inr s => s <? 400 | inl _ => false end) :: x, answer url p).

(** A notification and the clock while it is handled. *)
Definition run (cfgs : list Config) (calls : list (Payload * (nat → readings)))
    (st : Notifier * list sent) : Notifier * list sent :=
  fold_left (λ st c, Notify logged c.2 c.1 st.1 st.2) calls st.

(** A delivered POST about the same bottleneck of the same node. *)
Definition same_subject (p : Payload) (s : sent) : bool :=
  s_ok s && String.eqb (cooldownKey (s_payload s)) (cooldownKey p).

(** A POST, after those before it: it goes to a webhook that asks for it, and not within its cooldown
    after the latest one delivered about the same subject. *)
Definition admissible (cfgs : list Config) (s : sent) (earlier : list sent) : Prop :=
  ∃ cfg, cfg ∈ cfgs ∧ URL cfg = s_url s ∧ URL cfg ≠ "" ∧
    fltb (Confidence (s_payload s)) (min_confidence cfg) = false ∧
    BottleneckType (s_payload s) ≠ "none" ∧
    (IncludeEvidence cfg = false → Evidence (s_payload s) = []) ∧
    match List.find (same_subject (s_payload s)) earlier with
    | Some last => 0 <= cooldown_of cfg → Timestamp (s_payload last) + cooldown_of cfg <= Timestamp (s_payload s)
    | None => True
    end.

Fixpoint all_admissible (cfgs : list Config) (log : list sent) : Prop :=
  match log with
  | [] => True
  | s :: earlier => admissible cfgs s earlier ∧ all_admissible cfgs earlier
  end.

(** The clock does not run backwards while the loop is at one configuration. *)
Definition clock_ok (clk : nat → readings) : Prop :=
  ∀ i, t_check (clk i) <= t_stamp (clk i) <= t_sent (clk i).

(** The cooldown map knows the latest delivery of every subject. *)
Definition remembers (ls : gmap string Z) (log : list sent) : Prop :=
  ∀ p, match List.find (same_subject p) log with
       | Some last => ∃ t, ls !! cooldownKey p = Some t ∧ Timestamp (s_payload last) <= t
       | None => ls !! cooldownKey p = None
       end.

Definition log_ok (cfgs : list Config) (st : gmap string Z * list sent) : Prop :=
  all_admissible cfgs st.2 ∧ remembers st.1 st.2.

Lemma time_Sub_cooldown cfg t u :
  (time_Sub t u <? cooldown_of cfg) = false → 0 <= cooldown_of cfg → u + cooldown_of cfg <= t.
Proof.
  intros H%Z.ltb_ge Hpos. assert (Hc : cooldown_of cfg <= max_int64).
  { unfold cooldown_of. destruct (_ =? 0); [unfold_time; unfold max_int64; lia|].
    unfold mul64. pose proof (i64_range (CooldownMinutes cfg * Minute)) as Hr. apply Hr. }
  unfold time_Sub in H. unfold max_int64, min_int64 in *. lia.
Qed.

Lemma notify_one_ok cfgs payload cfg clk st :
  BottleneckType payload ≠ "none" → cfg ∈ cfgs → t_check clk <= t_stamp clk <= t_sent clk →
  log_ok cfgs st → log_ok cfgs (notify_one logged payload cfg clk st).
Proof.
  intros Hty Hin Hclk. destruct st as [ls x]. intros [Hadm Hrem]. cbn [fst snd] in Hadm, Hrem. unfold notify_one.
  destruct (String.eqb_spec (URL cfg) "") as [|Hurl]; [done|].
  destruct (fltb _ _) eqn:Hconf; [done|].
  destruct (match ls !! cooldownKey payload with Some _ => _ | None => _ end) eqn:Hcool; [done|].
  set (p := strip cfg (t_stamp clk) payload). unfold send, logged.
  assert (Hnew : ∀ ok, admissible cfgs (mkSent (URL cfg) p ok) x).
  { intros ok. exists cfg. cbn [s_url s_payload]. split_and!; try done.
    - cbn. by intros ->.
    - specialize (Hrem p). change (cooldownKey p) with (cooldownKey payload) in Hrem.
      destruct (List.find (same_subject p) x) as [last|]; [|done].
      destruct Hrem as (t & Ht & Hle). rewrite Ht in Hcool. intros Hpos.
      pose proof (time_Sub_cooldown _ _ _ Hcool Hpos). cbn. lia. }
  destruct (negb (marshals p)); [done|].
  assert (Hfailed : remembers ls (mkSent (URL cfg) p false :: x)) by exact Hrem.
  destruct (answer (URL cfg) p) as [e|status]; cbn [fst snd]; [by split; [split|]|].
  destruct (Z.leb_spec 400 status) as [Hst|Hst].
  { replace (status <? 400) with false by lia. by split; [split|]. }
  replace (status <? 400) with true by lia. split; [by split|]. intros q. cbn [List.find fst snd].
  unfold same_subject at 1. cbn [s_ok s_payload andb]. change (cooldownKey p) with (cooldownKey payload).
  destruct (String.eqb_spec (cooldownKey payload) (cooldownKey q)) as [->|Hne].
  - eexists. split; [apply lookup_insert_eq|]. cbn. lia.
  - rewrite lookup_insert_ne by done. apply Hrem.
Qed.

Lemma notify_all_ok payload cfgs all clk st :
  BottleneckType payload ≠ "none" → (∀ c, c ∈ cfgs → c ∈ all) → clock_ok clk →
  log_ok all st → log_ok all (notify_all logged payload cfgs clk st).
Proof.
  intros Hty. revert clk st. induction cfgs as [|cfg cfgs IH]; intros clk st Hall Hclk Hst; [done|].
  cbn [notify_all]. apply IH; [intros c Hc; apply Hall; by right|intros i; apply Hclk|].
  apply notify_one_ok; [done|apply Hall; left|apply Hclk|done].
Qed.

(** C28.  Webhooks get only what they ask for: in every sequence of notifications each POST goes
      to a configured URL, has at least the confidence that webhook wants, is about a
      bottleneck, carries no evidence unless the configuration includes it, and comes no sooner
      than the webhook's cooldown (15 minutes by default; none if negative) after the latest POST delivered
      about the same bottleneck of the same node. *)
Theorem webhooks_get_what_they_want cfgs calls :
  Forall (λ c, clock_ok c.2) calls →
  all_admissible cfgs (run cfgs calls (NewNotifier cfgs, [])).2.
Proof.
  intros Hclk. unfold run. set (st := (NewNotifier cfgs, [])).
  assert (Hst : configs st.1 = cfgs ∧ log_ok cfgs (lastSent st.1, st.2)) by done. clearbody st.
  revert st Hst. induction Hclk as [|[p clk] calls Hc _ IH]; intros st [Hcfg Hok]; [apply Hok|].
  cbn [fold_left]. apply IH. destruct st as [n x]. cbn [fst snd] in *. unfold Notify.
  destruct (zlen (configs n) =? 0); [done|]. cbn [orb].
  destruct (String.eqb_spec (BottleneckType p) "none"); [done|].
  pose proof (notify_all_ok p (configs n) cfgs clk (lastSent n, x)) as H.
  destruct (notify_all _ _ _ _ _) as [ls x']. cbn in *. split; [done|].
  apply H; [done|by rewrite Hcfg|done|done].
Qed.
End Cooldown.

Section WebhookWitness.
Import Webhook.

Definition hook (url : string) : Config := mkConfig url f64_zero 0 false.
Definition cpu_alarm : Payload := mkPayload 0 "n1" "cpu" (f64_of_Z 1) "busy" [].
Definition count_posts (x : list string) (url : string) (p : Payload) : list string * (string + Z) :=
  (url :: x, inr 200).

Lemma first_webhook_starves_others_witness :
  (Notify count_posts (λ i, mkReadings (Z.of_nat i) (Z.of_nat i) (Z.of_nat i)) cpu_alarm
     (NewNotifier [hook "http://pager"; hook "http://chat"; hook "http://mail"]) []).2 = ["http://pager"].
Proof.
  rewrite (first_webhook_starves_others count_posts cpu_alarm (hook "http://pager")
    [hook "http://chat"; hook "http://mail"] (λ i, mkReadings (Z.of_nat i) (Z.of_nat i) (Z.of_nat i))
    (NewNotifier [hook "http://pager"; hook "http://chat"; hook "http://mail"]) [] ["http://pager"] 200).
  - reflexivity.
  - reflexivity.
  - discriminate.
  - split; [discriminate|reflexivity].
  - reflexivity.
  - reflexivity.
  - reflexivity.
  - reflexivity.
  - intros [|[|i]] cfg' Hi; cbn in Hi; simplify_eq; reflexivity.
Defined.

(** Two notifications ten minutes apart: only the first is sent. *)
Definition at_minute (m : Z) (i : nat) : readings := mkReadings (m * Minute) (m * Minute) (m * Minute).

Lemma webhooks_get_what_they_want_witness :
  let log := (run (λ _ _, inr 200) [hook "http://pager"] [(cpu_alarm, at_minute 0); (cpu_alarm, at_minute 10);
                (cpu_alarm, at_minute 20)] (NewNotifier [hook "http://pager"], [])).2 in
  length log = 2%nat ∧ all_admissible [hook "http://pager"] log.
Proof.
  split; [vm_compute; reflexivity|].
  apply webhooks_get_what_they_want.
  repeat (apply Forall_cons; split; [intros i; cbn; lia|]). apply Forall_nil. exact I.
Defined.
End WebhookWitness.
