(* ===== verification/Derived.v ===== *)
(** Derived metrics, internal/derived/derived.go.  main.go does not use the package. *)

From Stdlib Require Import SpecFloat.
From S2P Require Import Prelude GoInt GoFloat GoTime GoString Store Config.

Module Derived.

(** The key of a sample, and the index of the newest sample of each key. *)
Definition key_of (s : MetricSample) : string := Context_ s +:+ "." +:+ Dimension s.

Definition index_one (latest : gmap string MetricSample) (s : MetricSample)
    : gmap string MetricSample :=
  match latest !! key_of s with
  | Some existing => if CollectedAt existing <? CollectedAt s then <[key_of s := s]> latest else latest
  | None => <[key_of s := s]> latest
  end.

Definition index (samples : list MetricSample) : gmap string MetricSample :=
  fold_left index_one samples ∅.

Section Compute.
Context `{Unicode}.

Definition hundred : float64 := f64_of_Z 100.

(** The switch over the expression; [None] is [continue]. *)
Definition value_of (latest : gmap string MetricSample) (def : Config.DerivedContext)
    : option float64 :=
  match latest !! Config.InputA def with
  | None => None
  | Some sampleA =>
      let expr := ToLower (Config.Expression def) in
      if String.eqb expr "a" then Some (Value sampleA)
      else if String.eqb expr "a * 100" then Some (fmul (Value sampleA) hundred)
      else if String.eqb expr "a / b * 100" then
        match latest !! Config.InputB def with
        | Some sampleB => if feqb (Value sampleB) f64_zero then None
                          else Some (fmul (fdiv (Value sampleA) (Value sampleB)) hundred)
        | None => None
        end
      else if String.eqb expr "a / b" then
        match latest !! Config.InputB def with
        | Some sampleB => if feqb (Value sampleB) f64_zero then None
                          else Some (fdiv (Value sampleA) (Value sampleB))
        | None => None
        end
      else if String.eqb expr "a - b" then
        match latest !! Config.InputB def with
        | Some sampleB => Some (fsub (Value sampleA) (Value sampleB))
        | None => None
        end
      else if String.eqb expr "a + b" then
        match latest !! Config.InputB def with
        | Some sampleB => Some (fadd (Value sampleA) (Value sampleB))
        | None => None
        end
      else None
  end.

(** [Compute]. *)
Definition Compute (nodeID : string) (now : Z) (definitions : list Config.DerivedContext)
    (samples : list MetricSample) : list MetricSample :=
  if zlen definitions =? 0 then []
  else
    let latest := index samples in
    omap (λ def,
      value ← value_of latest def;
      Some (mkSample nodeID now (Config.DName def) (Config.DName def) "" "" "value" (Config.DUnit def)
              value (Some {["derived" := "true"]}))) definitions.
End Compute.
End Derived.

Section DerivedProofs.
Import Derived.

(** The newest sample of a key; of equally new ones the first. *)
Definition newest (k : string) (ss : list MetricSample) (s : MetricSample) : Prop :=
  ∃ pre post, ss = pre ++ s :: post ∧ key_of s = k ∧
    Forall (λ t, key_of t = k → CollectedAt t < CollectedAt s) pre ∧
    Forall (λ t, key_of t = k → CollectedAt t <= CollectedAt s) post.

Lemma index_spec k ss :
  match index ss !! k with
  | Some s => newest k ss s
  | None => Forall (λ t, key_of t ≠ k) ss
  end.
Proof.
  unfold index. induction ss as [|s ss IH] using rev_ind; [constructor|].
  rewrite fold_left_app. cbn [fold_left]. set (m := fold_left index_one ss ∅) in *. clearbody m.
  assert (Hold : ∀ old, newest k ss old → (key_of s = k → CollectedAt s <= CollectedAt old) →
    newest k (ss ++ [s]) old).
  { intros old (pre & post & -> & Hk & Hpre & Hpost) Hs. exists pre, (post ++ [s]).
    rewrite <- app_assoc. split_and!; [done..|]. apply Forall_app. split; [done|]. by constructor. }
  assert (Hnew : key_of s = k → Forall (λ t, key_of t = k → CollectedAt t < CollectedAt s) ss →
    newest k (ss ++ [s]) s).
  { intros Hk Hpre. exists ss, []. split_and!; [done..|constructor]. }
  unfold index_one. destruct (decide (key_of s = k)) as [Hk|Hk].
  - rewrite Hk. destruct (m !! k) as [old|] eqn:E.
    + destruct (Z.ltb_spec (CollectedAt old) (CollectedAt s)).
      * rewrite lookup_insert_eq. apply Hnew; [done|].
        destruct IH as (pre & post & -> & _ & Hpre & Hpost).
        apply Forall_app. split; [|constructor; [done|]];
          (eapply Forall_impl; [eassumption|]); cbn; intros u Hu Hku; specialize (Hu Hku); lia.
      * rewrite E. by apply Hold.
    + rewrite lookup_insert_eq. apply Hnew; [done|].
      eapply Forall_impl; [exact IH|]. by intros u Hu Hku.
  - assert (Hm : ∀ m', (m' = m ∨ m' = <[key_of s := s]> m) →
      match m' !! k with Some s0 => newest k (ss ++ [s]) s0
                    | None => Forall (λ t, key_of t ≠ k) (ss ++ [s]) end).
    { intros m' Hm'. assert (m' !! k = m !! k) as ->.
      { destruct Hm' as [->| ->]; [done|by apply lookup_insert_ne]. }
      destruct (m !! k); [by apply Hold|]. apply Forall_app. split; [done|by constructor]. }
    destruct (m !! key_of s) as [old|]; [destruct (_ <? _)|]; apply Hm; auto.
Qed.

(** What an expression means for the values of its inputs; B may be missing.  *)
Inductive means : string → float64 → option float64 → float64 → Prop :=
| MeansA a b : means "a" a b a
| MeansA100 a b : means "a * 100" a b (fmul a hundred)
| MeansPercent a b : feqb b f64_zero = false → means "a / b * 100" a (Some b) (fmul (fdiv a b) hundred)
| MeansRatio a b : feqb b f64_zero = false → means "a / b" a (Some b) (fdiv a b)
| MeansMinus a b : means "a - b" a (Some b) (fsub a b)
| MeansPlus a b : means "a + b" a (Some b) (fadd a b).

(** The value a key has in a set of samples: that of its newest sample. *)
Definition current (ss : list MetricSample) (k : string) (v : option float64) : Prop :=
  match v with
  | Some f => ∃ s, newest k ss s ∧ Value s = f
  | None => Forall (λ t, key_of t ≠ k) ss
  end.

Lemma index_current ss k : current ss k (Value <$> index ss !! k).
Proof.
  pose proof (index_spec k ss) as H. unfold current. destruct (index ss !! k); cbn; [by eexists|done].
Qed.

Context `{Unicode}.

Lemma value_of_spec latest def v :
  value_of latest def = Some v ↔
  ∃ a, Value <$> latest !! Config.InputA def = Some a ∧
    means (ToLower (Config.Expression def)) a (Value <$> latest !! Config.InputB def) v.
Proof.
  unfold value_of. destruct (latest !! Config.InputA def) as [sA|]; cbn;
    [|split; [done|by intros (a & ? & _)]].
  generalize (ToLower (Config.Expression def)). intros e.
  generalize (latest !! Config.InputB def). intros B. split.
  - intros Hv. exists (Value sA). split; [done|].
    repeat match type of Hv with
    | context [String.eqb e ?x] => destruct (String.eqb_spec e x) as [->|]
    end; try done;
    simplify_eq; repeat (case_match; simplify_eq); cbn [fmap option_fmap option_map];
      by (apply MeansA || apply MeansA100 || apply MeansPercent || apply MeansRatio ||
          apply MeansMinus || apply MeansPlus).
  - intros (a & [= <-] & Hm).
    inversion Hm as [? ? He|? ? He|? b Hb He HB|? b Hb He HB|? b He HB|? b He HB]; subst;
      cbn [String.eqb Ascii.eqb Bool.eqb]; try done; destruct B as [sB|]; try discriminate;
      cbn in *; simplify_eq; try rewrite Hb; done.
Qed.

(** C32.  The derived samples are what their definitions say: there is one for every definition
      whose first input has samples and whose expression, one of the six supported ones in
      any case, has a value for the newest sample of each input (equally new ones: the
      first), in the order of the definitions; divisions by zero and missing inputs
      leave theirs out.  Each has the context, unit and label of a derived metric. *)
Theorem Compute_spec nodeID now defs ss :
  ∃ vs, length vs = length defs ∧
    Compute nodeID now defs ss =
      omap (λ dv : Config.DerivedContext * option float64,
              v ← dv.2; Some (mkSample nodeID now (Config.DName dv.1) (Config.DName dv.1) "" "" "value"
                                (Config.DUnit dv.1) v (Some {["derived" := "true"]})))
        (zip defs vs) ∧
    Forall2 (λ def r, ∃ a b, current ss (Config.InputA def) a ∧ current ss (Config.InputB def) b ∧
      ∀ v, r = Some v ↔ ∃ va, a = Some va ∧ means (ToLower (Config.Expression def)) va b v) defs vs.
Proof.
  exists (map (value_of (index ss)) defs). split; [apply length_map|]. split.
  - unfold Compute. destruct defs as [|d defs]; [done|].
    rewrite zlen_cons. pose proof (zlen_nonneg defs).
    replace (1 + zlen defs =? 0) with false by lia. generalize (d :: defs). intros l.
    induction l as [|x l IH]; [done|]. cbn. rewrite IH. by destruct (value_of _ x).
  - apply Forall2_fmap_r, Forall_Forall2_diag, Forall_forall. intros def _.
    exists (Value <$> index ss !! Config.InputA def), (Value <$> index ss !! Config.InputB def).
    split; [apply index_current|]. split; [apply index_current|]. apply value_of_spec.
Qed.
End DerivedProofs.
