(* ===== verification/McpQuery.v ===== *)
(** The query tools of the MCP server, internal/mcp/server.go and rollup.go: their arguments,
    the statements they build, and what they make of the server's answer.

    A SELECT is sent as its text and its arguments.  PostgreSQL reads the text; the class
    [Reader] is what it answers, and [ReaderLaws] says that a statement of the shape
    the tools are meant to build selects what its text says. *)

From Stdlib Require Import Ascii SpecFloat Sorted.
From stdpp Require Import sorting.
From S2P Require Import Prelude GoInt GoFloat GoTime GoString GoScan GoDuration Store Collector.

Module McpQuery.

(** ** Arguments and results *)

(** [req.Params.Arguments]: a JSON object; a missing argument or one of another type
    counts as the zero value. *)
Definition arguments : Type := gmap string json.

Definition arg_string (a : arguments) (k : string) : string :=
  match a !! k with Some (JStr s) => s | _ => "" end.

Definition arg_float (a : arguments) (k : string) : float64 :=
  match a !! k with Some (JNum f) => f | _ => f64_zero end.

(** A [CallToolResult]: a text, or a value printed as indented JSON. *)
Inductive result (A : Type) :=
| textResult (msg : string)
| JSON (v : A).
Arguments textResult {A} msg.
Arguments JSON {A} v.

(** [jsonResult], for the numbers of the value in order: JSON has no NaN and infinities. *)
Definition finite (f : float64) : bool := negb (is_nan f || is_inf f).

Definition jsonResult {A} (numbers : list float64) (v : A) : result A :=
  match List.find (λ f, negb (finite f)) numbers with
  | Some f => textResult ("Error marshaling JSON: json: unsupported value: " +:+ fmt_f 0 f)
  | None => JSON v
  end.

(** [round2]. *)
Definition hundred : float64 := f64_of_Z 100.
Definition round2 (f : float64) : float64 := fdiv (f64_round (fmul f hundred)) hundred.

Section ParseTime.
Context `{Unicode}.

(** [%q]. *)
Definition hex_char (n : nat) : ascii := ascii_of_nat (if Nat.ltb n 10 then 48 + n else 87 + n).

Definition quote_byte (a : ascii) : string :=
  let n := nat_of_ascii a in
  if Nat.eqb n 34 then "\" +:+ String a ""
  else if Nat.eqb n 92 then "\\"
  else if Nat.eqb n 7 then "\a"
  else if Nat.eqb n 8 then "\b"
  else if Nat.eqb n 9 then "\t"
  else if Nat.eqb n 10 then "\n"
  else if Nat.eqb n 11 then "\v"
  else if Nat.eqb n 12 then "\f"
  else if Nat.eqb n 13 then "\r"
  else if Nat.ltb n 32 || Nat.eqb n 127
    then "\x" +:+ String (hex_char (n / 16)) (String (hex_char (n mod 16)) "")
  else String a "".

Fixpoint quote_bytes (s : string) : string :=
  match s with "" => "" | String a s => quote_byte a +:+ quote_bytes s end.

Definition Quote (s : string) : string :=
  if is_ascii s then String "034" (quote_bytes s +:+ String "034" "") else unicode_Quote s.

(** [parseTimeArg], at a reading of the clock. *)
Definition parseTimeArg (now : Z) (s : string) : string + Z :=
  let s := TrimSpace s in
  if String.eqb s "" then inr now
  else
    let relative :=
      if HasPrefix s "-" then
        dur ← ParseDuration (sdrop 1 s);
        Some (time_Add now (i64 (- dur)))
      else None in
    match relative with
    | Some t => inr t
    | None =>
        let fix try (layouts : list (list chunk)) : string + Z :=
          match layouts with
          | [] => inl ("cannot parse time " +:+ Quote s +:+ ": use ISO 8601 or relative like '-1h'")
          | layout :: layouts =>
              match time_Parse layout s with Some t => inr t | None => try layouts end
          end in
        try [RFC3339; RFC3339Nano; DateTimeT; DateTimeSpace; DateOnly]
    end.
End ParseTime.

(** The limit of a query: 500 unless a positive one is given, at most 5000. *)
Definition limit_of (limitF : float64) : Z :=
  let limit := if fgtb limitF f64_zero then f64_to_int limitF else 500 in
  if 5000 <? limit then 5000 else limit.

(** ** Statements *)

(** The arguments of a statement. *)
Inductive sql_arg :=
| AText (s : string)
| ATexts (l : list string)
| ATime (t : Z)
| AInt (n : Z)
| ALabels (m : gmap string string).

(** [labelFilter]. *)
Definition labelFilter (labels : string) (argIdx : Z) : string * list sql_arg :=
  let labels := TrimSpace labels in
  if String.eqb labels "" then ("", [])
  else
    let labelMap := fold_left (λ m pair,
      match SplitN 2 pair "=" with
      | [k; v] => <[TrimSpace k := TrimSpace v]> m
      | _ => m
      end) (Split labels ",") (∅ : gmap string string) in
    if (size labelMap =? 0)%nat then ("", [])
    else (" AND labels @> $" +:+ fmt_d argIdx +:+ "::jsonb", [ALabels labelMap]).

(** The statement under construction: its text, its arguments and the number of the next
    placeholder. *)
Record builder := mkBuilder { b_query : string; b_args : list sql_arg; b_idx : Z }.

Definition add_filter (text : string) (a : sql_arg) (b : builder) : builder :=
  mkBuilder (b_query b +:+ text +:+ fmt_d (b_idx b)) (b_args b ++ [a]) (b_idx b + 1).

Definition add_if (v : string) (text : string) (b : builder) : builder :=
  if String.eqb v "" then b else add_filter text (AText v) b.

Definition samples_base : string := "
		SELECT node_id, collected_at, context, chart, family, instance, dimension, unit, value
		FROM hardware_metric_samples
		WHERE 1=1
	".

(** The statement of query_hardware_metrics; [inl] is the answer to a bad time. *)
Definition query_metrics_sql `{Unicode} (now1 now2 : Z) (a : arguments) : string + builder :=
  let labelsStr := arg_string a "labels" in
  let afterStr := arg_string a "after" in
  let beforeStr := arg_string a "before" in
  let b := mkBuilder samples_base [] 1 in
  let b := add_if (arg_string a "node_id") " AND node_id = $" b in
  let b := add_if (arg_string a "context") " AND context = $" b in
  let b := add_if (arg_string a "dimension") " AND dimension = $" b in
  let b := add_if (arg_string a "instance") " AND instance = $" b in
  let b :=
    if String.eqb labelsStr "" then b
    else
      match labelFilter labelsStr (b_idx b) with
      | (EmptyString, _) => b
      | (clause, args) => mkBuilder (b_query b +:+ clause) (b_args b ++ args) (b_idx b + 1)
      end in
  let after :=
    if String.eqb afterStr "" then inr b
    else
      match parseTimeArg now1 afterStr with
      | inl e => inl ("Invalid 'after' value: " +:+ e)
      | inr t => inr (add_filter " AND collected_at >= $" (ATime t) b)
      end in
  match after with
  | inl e => inl e
  | inr b =>
      let before :=
        if String.eqb beforeStr "" then inr b
        else
          match parseTimeArg now2 beforeStr with
          | inl e => inl ("Invalid 'before' value: " +:+ e)
          | inr t => inr (add_filter " AND collected_at <= $" (ATime t) b)
          end in
      match before with
      | inl e => inl e
      | inr b =>
          inr (add_filter " ORDER BY collected_at DESC LIMIT $"
                 (AInt (limit_of (arg_float a "limit"))) b)
      end
  end.

(** [selectRollupTable]: the table and the name of the source. *)
Definition selectRollupTable (rangeWidth : Z) : string * string :=
  if 7 * 24 * Hour <? rangeWidth then ("hardware_metric_rollups_1d", "daily")
  else if 6 * Hour <? rangeWidth then ("hardware_metric_rollups_1h", "hourly")
  else ("hardware_metric_rollups_1h", "hourly").

Definition rollup_base (table : string) : string := "SELECT node_id, bucket, context, dimension, instance, unit,
		avg_value, min_value, max_value, sample_count
		FROM " +:+ table +:+ " WHERE node_id = $1 AND bucket >= $2 AND bucket <= $3".

(** The window and the statement of query_rollup_metrics, with its three readings of the
    clock. *)
Definition query_rollup_sql `{Unicode} (now1 now2 now3 : Z) (a : arguments)
    : string + (Z * Z * builder) :=
  let afterStr := arg_string a "after" in
  let beforeStr := arg_string a "before" in
  match parseTimeArg now1 afterStr with
  | inl e => inl ("Invalid 'after': " +:+ e)
  | inr afterTime =>
      let before :=
        if String.eqb beforeStr "" then inr now2
        else match parseTimeArg now3 beforeStr with
             | inl e => inl ("Invalid 'before': " +:+ e)
             | inr t => inr t
             end in
      match before with
      | inl e => inl e
      | inr beforeTime =>
          let '(table, _) := selectRollupTable (time_Sub beforeTime afterTime) in
          let b := mkBuilder (rollup_base table)
                     [AText (arg_string a "node_id"); ATime afterTime; ATime beforeTime] 4 in
          let b := add_if (arg_string a "context") " AND context = $" b in
          let b := add_if (arg_string a "dimension") " AND dimension = $" b in
          let b := add_if (arg_string a "instance") " AND instance = $" b in
          inr (afterTime, beforeTime,
               add_filter " ORDER BY bucket DESC LIMIT $" (AInt (limit_of (arg_float a "limit"))) b)
      end
  end.

(** ** The handlers

    A query fails at once, or delivers rows, after which an error may show. *)
Definition answer (A : Type) : Type := string + (list A * option string).

Class Reader := {
  query_samples : Schema.tables → string → list sql_arg → answer Schema.row;
  query_rollups : Schema.tables → string → list sql_arg → answer (Schema.rkey * Schema.rollup);
}.

Section Handlers.
Context `{Unicode} `{Reader}.

(** [handleQueryMetrics]; it does not ask for an error after the rows. *)
Definition handleQueryMetrics (now1 now2 : Z) (a : arguments) (T : Schema.tables)
    : result (list Schema.row) :=
  match query_metrics_sql now1 now2 a with
  | inl e => textResult e
  | inr b =>
      match query_samples T (b_query b) (b_args b) with
      | inl e => textResult ("Error querying metrics: " +:+ e)
      | inr (rows, _) => jsonResult (map Schema.value rows) rows
      end
  end.

(** [rollupResult] and its rows: the key of a rollup and its rounded values. *)
Record rollupResult := mkRollupResult {
  rr_NodeID : string;
  rr_Source : string;
  rr_From : Z;
  rr_To : Z;
  rr_RowCount : Z;
  rr_Rows : list (Schema.rkey * Schema.rollup);
}.

Definition rounded_row (r : Schema.rkey * Schema.rollup) : Schema.rkey * Schema.rollup :=
  let '(Schema.mkRollup u avg lo hi n) := r.2 in
  (r.1, Schema.mkRollup u (round2 avg) (round2 lo) (round2 hi) n).

(** [handleQueryRollup]. *)
Definition handleQueryRollup (now1 now2 now3 : Z) (a : arguments) (T : Schema.tables)
    : result rollupResult :=
  match query_rollup_sql now1 now2 now3 a with
  | inl e => textResult e
  | inr (afterTime, beforeTime, b) =>
      match query_rollups T (b_query b) (b_args b) with
      | inl e => textResult ("Error querying rollup: " +:+ e)
      | inr (rows, _) =>
          let rows := map rounded_row rows in
          jsonResult
            (flat_map (λ r, [Schema.avg_value r.2; Schema.min_value r.2; Schema.max_value r.2]) rows)
            (mkRollupResult (arg_string a "node_id")
               (selectRollupTable (time_Sub beforeTime afterTime)).2 afterTime beforeTime
               (zlen rows) rows)
      end
  end.
End Handlers.
End McpQuery.

(** * What the statements mean *)
Module QuerySpec.
Import McpQuery.

Inductive text_column := NodeIs | ContextIs | DimensionIs | InstanceIs.

(** The filters of a statement, with their values. *)
Inductive filter :=
| FText (c : text_column) (v : string)
| FContexts (l : list string)
| FLabels (m : gmap string string)
| FAfter (t : Z)
| FBefore (t : Z).

Definition column_name (c : text_column) : string :=
  match c with
  | NodeIs => "node_id" | ContextIs => "context" | DimensionIs => "dimension" | InstanceIs => "instance"
  end.

Definition filter_text (f : filter) (i : Z) : string :=
  match f with
  | FText c _ => " AND " +:+ column_name c +:+ " = $" +:+ fmt_d i
  | FContexts _ => " AND context = ANY($" +:+ fmt_d i +:+ ")"
  | FLabels _ => " AND labels @> $" +:+ fmt_d i +:+ "::jsonb"
  | FAfter _ => " AND collected_at >= $" +:+ fmt_d i
  | FBefore _ => " AND collected_at <= $" +:+ fmt_d i
  end.

Definition filter_arg (f : filter) : sql_arg :=
  match f with
  | FText _ v => AText v
  | FContexts l => ATexts l
  | FLabels m => ALabels m
  | FAfter t | FBefore t => ATime t
  end.

(** Filters in a row, the placeholders numbered from [i]. *)
Fixpoint where_text (i : Z) (fs : list filter) : string :=
  match fs with
  | [] => ""
  | f :: fs => filter_text f i +:+ where_text (i + 1) fs
  end.

Definition samples_text (fs : list filter) : string :=
  samples_base +:+ where_text 1 fs +:+ " ORDER BY collected_at DESC LIMIT $" +:+ fmt_d (1 + zlen fs).

(** A row meets a filter; NULL equals nothing; a time is sent in microseconds. *)
Definition meets (r : Schema.row) (f : filter) : Prop :=
  match f with
  | FText NodeIs v => Schema.node_id r = v
  | FText ContextIs v => Schema.context r = v
  | FText DimensionIs v => Schema.dimension r = v
  | FText InstanceIs v => Schema.instance r = Some v
  | FContexts l => Schema.context r ∈ l
  | FLabels m => m ⊆ Schema.labels r
  | FAfter t => Schema.pg_time t <= Schema.collected_at r
  | FBefore t => Schema.collected_at r <= Schema.pg_time t
  end.

#[export] Instance meets_dec r f : Decision (meets r f).
Proof. destruct f as [[]|l|m|t|t]; cbn; apply _. Defined.

Definition newer (r r' : Schema.row) : Prop := Schema.collected_at r' <= Schema.collected_at r.

(** The rows a SELECT delivers: those that meet all filters, newest first (in any order among
    equally new ones), cut at the limit. *)
Definition selected (fs : list filter) (limit : Z) (all rows : list Schema.row) : Prop :=
  ∃ sorted, sorted ≡ₚ base.filter (λ r, Forall (meets r) fs) all ∧
    StronglySorted newer sorted ∧ rows = take (Z.to_nat limit) sorted.

(** The same for the rollup tables. *)
Definition rollup_text (table : string) (fs : list filter) : string :=
  rollup_base table +:+ where_text 4 fs +:+ " ORDER BY bucket DESC LIMIT $" +:+ fmt_d (4 + zlen fs).

Definition table_of_name (T : Schema.tables) (table : string) : option (gmap Schema.rkey Schema.rollup) :=
  if String.eqb table "hardware_metric_rollups_1h" then Some (Schema.rollups_1h T)
  else if String.eqb table "hardware_metric_rollups_1d" then Some (Schema.rollups_1d T)
  else None.

Definition r_node (k : Schema.rkey) : string := k.1.1.1.1.
Definition r_bucket (k : Schema.rkey) : Z := k.1.1.1.2.
Definition r_context (k : Schema.rkey) : string := k.1.1.2.
Definition r_dimension (k : Schema.rkey) : string := k.1.2.
Definition r_instance (k : Schema.rkey) : string := k.2.

Definition rollup_meets (k : Schema.rkey) (f : filter) : Prop :=
  match f with
  | FText NodeIs v => r_node k = v
  | FText ContextIs v => r_context k = v
  | FText DimensionIs v => r_dimension k = v
  | FText InstanceIs v => r_instance k = v
  | FContexts l => r_context k ∈ l
  | _ => False
  end.

#[export] Instance rollup_meets_dec k f : Decision (rollup_meets k f).
Proof. destruct f as [[]|l|m|t|t]; cbn; apply _. Defined.

Definition rollup_newer (r r' : Schema.rkey * Schema.rollup) : Prop := r_bucket r'.1 <= r_bucket r.1.

Definition in_rollup_window (node : string) (after before : Z) (k : Schema.rkey) : Prop :=
  r_node k = node ∧ Schema.pg_time after <= r_bucket k ∧ r_bucket k <= Schema.pg_time before.

Definition rollup_selected (node : string) (after before : Z) (fs : list filter) (limit : Z)
    (all : gmap Schema.rkey Schema.rollup) (rows : list (Schema.rkey * Schema.rollup)) : Prop :=
  ∃ sorted,
    sorted ≡ₚ base.filter (λ r, in_rollup_window node after before r.1 ∧ Forall (rollup_meets r.1) fs)
                (map_to_list all) ∧
    StronglySorted rollup_newer sorted ∧ rows = take (Z.to_nat limit) sorted.

(** What PostgreSQL promises: a statement that ends without error has delivered what its text
    says, one that breaks off has delivered the beginning of it. *)
Class ReaderLaws `(RD : Reader) : Prop := {
  samples_end T fs limit rows :
    query_samples T (samples_text fs) (map filter_arg fs ++ [AInt limit]) = inr (rows, None) →
    selected fs limit (Schema.samples T) rows;
  samples_break T fs limit rows e :
    query_samples T (samples_text fs) (map filter_arg fs ++ [AInt limit]) = inr (rows, Some e) →
    ∃ full, selected fs limit (Schema.samples T) full ∧ rows `prefix_of` full;
  rollups_end T table all node after before fs limit rows :
    table_of_name T table = Some all →
    query_rollups T (rollup_text table fs)
      ([AText node; ATime after; ATime before] ++ map filter_arg fs ++ [AInt limit]) = inr (rows, None) →
    rollup_selected node after before fs limit all rows;
  rollups_break T table all node after before fs limit rows e :
    table_of_name T table = Some all →
    query_rollups T (rollup_text table fs)
      ([AText node; ATime after; ATime before] ++ map filter_arg fs ++ [AInt limit]) =
      inr (rows, Some e) →
    ∃ full, rollup_selected node after before fs limit all full ∧ rows `prefix_of` full;
}.
End QuerySpec.

(** * The builders build these statements *)
Section Builders.
Import McpQuery QuerySpec.
Context `{Unicode}.

Lemma where_text_app i fs gs :
  where_text i (fs ++ gs) = where_text i fs +:+ where_text (i + zlen fs) gs.
Proof.
  revert i. induction fs as [|f fs IH]; intros i; cbn [app where_text].
  - by rewrite zlen_nil, Z.add_0_r.
  - rewrite IH, zlen_cons, sapp_assoc. by replace (i + 1 + zlen fs) with (i + (1 + zlen fs)) by lia.
Qed.

(** The statement so far is [base] with some filters. *)
Record builds (base : string) (args0 : list sql_arg) (i0 : Z) (b : builder) (fs : list filter) : Prop := {
  builds_query : b_query b = base +:+ where_text i0 fs;
  builds_args : b_args b = args0 ++ map filter_arg fs;
  builds_idx : b_idx b = i0 + zlen fs;
}.

Lemma builds_start base args0 i0 : builds base args0 i0 (mkBuilder base args0 i0) [].
Proof. split; cbn; [by rewrite sapp_nil|by rewrite app_nil_r|rewrite zlen_nil; lia]. Qed.

Lemma builds_add base args0 i0 b fs f text :
  builds base args0 i0 b fs → (∀ i, text +:+ fmt_d i = filter_text f i) →
  builds base args0 i0 (add_filter text (filter_arg f) b) (fs ++ [f]).
Proof.
  intros [Hq Ha Hi] Ht. split; cbn.
  - rewrite Hq, Ht, where_text_app, Hi. cbn. by rewrite sapp_nil, sapp_assoc.
  - by rewrite Ha, map_app, app_assoc.
  - rewrite Hi, zlen_app, zlen_cons, zlen_nil. lia.
Qed.

(** The filter of an optional text argument. *)
Definition text_filter (c : text_column) (v : string) : list filter :=
  if String.eqb v "" then [] else [FText c v].

Lemma builds_add_if base args0 i0 b fs c v :
  builds base args0 i0 b fs →
  builds base args0 i0 (add_if v (" AND " +:+ column_name c +:+ " = $") b) (fs ++ text_filter c v).
Proof.
  intros Hb. unfold add_if, text_filter. destruct (String.eqb v ""); [by rewrite app_nil_r|].
  apply (builds_add _ _ _ _ _ (FText c v)); [done|]. intros i. cbn. by rewrite !sapp_assoc.
Qed.

(** The pairs of a label filter. *)
Definition label_map (s : string) : gmap string string :=
  fold_left (λ m pair, match SplitN 2 pair "=" with
                       | [k; v] => <[TrimSpace k := TrimSpace v]> m
                       | _ => m
                       end) (Split (TrimSpace s) ",") ∅.

Definition labels_filter (s : string) : list filter :=
  if String.eqb s "" || String.eqb (TrimSpace s) "" || (size (label_map s) =? 0)%nat then []
  else [FLabels (label_map s)].

Lemma labelFilter_spec s i :
  s ≠ "" →
  labelFilter s i = match labels_filter s with
                    | f :: _ => (filter_text f i, [filter_arg f])
                    | [] => ("", [])
                    end.
Proof.
  intros Hs. unfold labelFilter, labels_filter. rewrite (proj2 (String.eqb_neq s "")) by done. cbn [orb].
  destruct (String.eqb (TrimSpace s) ""); [done|]. cbn [orb].
  change (fold_left _ (Split (TrimSpace s) ",") ∅) with (label_map s).
  by destruct (size (label_map s) =? 0)%nat.
Qed.

(** The filters that the arguments of query_hardware_metrics ask for. *)
Definition time_filter (f : Z → filter) (v : string) (t : Z) : list filter :=
  if String.eqb v "" then [] else [f t].

Definition metrics_filters (a : arguments) (after before : Z) : list filter :=
  text_filter NodeIs (arg_string a "node_id") ++ text_filter ContextIs (arg_string a "context") ++
  text_filter DimensionIs (arg_string a "dimension") ++ text_filter InstanceIs (arg_string a "instance") ++
  labels_filter (arg_string a "labels") ++
  time_filter FAfter (arg_string a "after") after ++ time_filter FBefore (arg_string a "before") before.

(** The time an optional argument stands for. *)
Definition time_given (now : Z) (v : string) (t : Z) : Prop := v ≠ "" → parseTimeArg now v = inr t.

Lemma builds_time base args0 i0 b fs v now t text pre (f : Z → filter) :
  builds base args0 i0 b fs → time_given now v t → filter_arg (f t) = ATime t →
  (∀ i, text +:+ fmt_d i = filter_text (f t) i) →
  ∃ b', (if String.eqb v "" then inr b
         else match parseTimeArg now v with
              | inl e => inl (pre +:+ e)
              | inr t => inr (add_filter text (ATime t) b)
              end) = (inr b' : string + builder) ∧
    builds base args0 i0 b' (fs ++ time_filter f v t).
Proof.
  intros Hb Ht Ha Htext. unfold time_filter. destruct (String.eqb_spec v "") as [|Hv].
  - eexists. split; [done|]. by rewrite app_nil_r.
  - rewrite (Ht Hv). eexists. split; [done|]. rewrite <- Ha. by apply builds_add.
Qed.

(** query_hardware_metrics sends the statement for its filters: every placeholder stands for the
    argument it was made for. *)
Lemma query_metrics_sql_spec now1 now2 a after before :
  time_given now1 (arg_string a "after") after → time_given now2 (arg_string a "before") before →
  ∃ b, query_metrics_sql now1 now2 a = inr b ∧
    b_query b = samples_text (metrics_filters a after before) ∧
    b_args b = map filter_arg (metrics_filters a after before) ++ [AInt (limit_of (arg_float a "limit"))].
Proof.
  intros Hafter Hbefore. unfold query_metrics_sql. cbv zeta.
  set (b1 := add_if (arg_string a "instance") _ _).
  assert (H1 : ∃ fs1, builds samples_base [] 1 b1 fs1 ∧ fs1 =
    text_filter NodeIs (arg_string a "node_id") ++ text_filter ContextIs (arg_string a "context") ++
    text_filter DimensionIs (arg_string a "dimension") ++ text_filter InstanceIs (arg_string a "instance")).
  { pose proof (builds_start samples_base [] 1) as H0.
    apply (builds_add_if _ _ _ _ _ NodeIs (arg_string a "node_id")) in H0.
    apply (builds_add_if _ _ _ _ _ ContextIs (arg_string a "context")) in H0.
    apply (builds_add_if _ _ _ _ _ DimensionIs (arg_string a "dimension")) in H0.
    apply (builds_add_if _ _ _ _ _ InstanceIs (arg_string a "instance")) in H0.
    eexists. split; [exact H0|]. by rewrite app_nil_l, <- !app_assoc. }
  clearbody b1. destruct H1 as (fs1 & H1 & E1).
  match goal with |- context [if String.eqb (arg_string a "labels") "" then b1 else ?x] =>
    set (b2 := if String.eqb (arg_string a "labels") "" then b1 else x) end.
  assert (H2 : builds samples_base [] 1 b2 (fs1 ++ labels_filter (arg_string a "labels"))).
  { unfold b2. destruct (String.eqb_spec (arg_string a "labels") "") as [E|E].
    - rewrite E. cbn. by rewrite app_nil_r.
    - rewrite labelFilter_spec by done. unfold labels_filter.
      destruct (_ || _); [by rewrite app_nil_r|].
      destruct H1 as [Hq Ha Hi]. split; cbn -[fmt_d].
      + rewrite Hq, Hi, where_text_app. cbn -[fmt_d]. by rewrite sapp_nil, sapp_assoc.
      + by rewrite Ha, map_app.
      + change (b_idx b1 + 1 = 1 + zlen (fs1 ++ [FLabels (label_map (arg_string a "labels"))])).
        rewrite Hi, zlen_app, zlen_cons, zlen_nil. lia. }
  clearbody b2.
  destruct (builds_time _ _ _ _ _ _ _ _ " AND collected_at >= $" "Invalid 'after' value: " FAfter
    H2 Hafter eq_refl (λ i, eq_refl)) as (b3 & -> & H3).
  destruct (builds_time _ _ _ _ _ _ _ _ " AND collected_at <= $" "Invalid 'before' value: " FBefore
    H3 Hbefore eq_refl (λ i, eq_refl)) as (b4 & -> & H4).
  eexists. split; [done|].
  assert (Hfs : (((fs1 ++ labels_filter (arg_string a "labels")) ++
    time_filter FAfter (arg_string a "after") after) ++ time_filter FBefore (arg_string a "before") before) =
    metrics_filters a after before).
  { rewrite E1. unfold metrics_filters. by rewrite <- !app_assoc. }
  rewrite Hfs in H4. destruct H4 as [Hq Ha Hi]. cbn -[fmt_d]. rewrite Hq, Ha, Hi. split; [|done].
  unfold samples_text. by rewrite !sapp_assoc.
Qed.

(** The filters of query_rollup_metrics besides node and window. *)
Definition rollup_filters (a : arguments) : list filter :=
  text_filter ContextIs (arg_string a "context") ++ text_filter DimensionIs (arg_string a "dimension") ++
  text_filter InstanceIs (arg_string a "instance").

Lemma query_rollup_sql_spec now1 now2 now3 a after before :
  parseTimeArg now1 (arg_string a "after") = inr after →
  (if String.eqb (arg_string a "before") "" then before = now2
   else parseTimeArg now3 (arg_string a "before") = inr before) →
  ∃ b, query_rollup_sql now1 now2 now3 a = inr (after, before, b) ∧
    b_query b = rollup_text (selectRollupTable (time_Sub before after)).1 (rollup_filters a) ∧
    b_args b = [AText (arg_string a "node_id"); ATime after; ATime before] ++
      map filter_arg (rollup_filters a) ++ [AInt (limit_of (arg_float a "limit"))].
Proof.
  intros Ha Hb. unfold query_rollup_sql. rewrite Ha.
  assert (Hbefore : (if String.eqb (arg_string a "before") "" then inr now2
    else match parseTimeArg now3 (arg_string a "before") with
         | inl e => inl ("Invalid 'before': " +:+ e) | inr t => inr t end) = (inr before : string + Z)).
  { destruct (String.eqb _ _); [by subst|by rewrite Hb]. }
  rewrite Hbefore. destruct (selectRollupTable _) as [table source]. cbn [fst].
  set (args0 := [AText _; _; _]).
  pose proof (builds_start (rollup_base table) args0 4) as H0.
  apply (builds_add_if _ _ _ _ _ ContextIs (arg_string a "context")) in H0.
  apply (builds_add_if _ _ _ _ _ DimensionIs (arg_string a "dimension")) in H0.
  apply (builds_add_if _ _ _ _ _ InstanceIs (arg_string a "instance")) in H0.
  eexists. split; [reflexivity|].
  match type of H0 with builds _ _ _ ?b _ =>
    change (add_if (arg_string a "instance") _ _) with b end.
  rewrite app_nil_l, <- !app_assoc in H0. fold (rollup_filters a) in H0.
  destruct H0 as [Hq Hargs Hi]. unfold add_filter at 1 2. cbn [b_query b_args].
  rewrite Hq, Hargs, Hi. split; [unfold rollup_text; by rewrite !sapp_assoc|by rewrite <- app_assoc].
Qed.
End Builders.

(** * Times and limits *)
Section Arguments.
Import McpQuery.
Context `{Unicode}.

Lemma trimmed_dash s b : last_byte s = Some b → visible b = true → trimmed ("-" +:+ s) = true.
Proof.
  intros Hl Hb. assert (Hs : s ≠ "") by (by destruct s).
  assert (Hlast : last_byte (String "-" s) = Some b).
  { change (String "-" s) with ("-" +:+ s). by rewrite last_byte_app. }
  unfold trimmed. change ("-" +:+ s) with (String "-" s). cbv beta iota. by rewrite Hlast, Hb.
Qed.

(** The one-letter units of the relative times. *)
Definition unit_of (u : ascii) : option Z :=
  if ascii_eqb u "h" then Some Hour
  else if ascii_eqb u "m" then Some Minute
  else if ascii_eqb u "s" then Some Second
  else None.

(** A relative time goes back as far as it says: -90m, -24h and the like are that much
    before now, up to the 292 years of a duration. *)
Lemma parseTimeArg_ago now n u unit :
  0 <= n → unit_of u = Some unit → n * unit <= max_int64 →
  parseTimeArg now ("-" +:+ fmt_d n +:+ String u "") = inr (now - n * unit).
Proof.
  intros Hn Hu Hmax. unfold parseTimeArg.
  assert (Hd : ParseDuration (fmt_d n +:+ String u "") = Some (n * unit)).
  { unfold unit_of in Hu.
    destruct (ascii_eqb_spec u "h") as [->|_]; [|destruct (ascii_eqb_spec u "m") as [->|_];
      [|destruct (ascii_eqb_spec u "s") as [->|_]; [|done]]];
      injection Hu as <-; by apply ParseDuration_units. }
  assert (Hvis : visible u = true).
  { unfold unit_of in Hu.
    destruct (ascii_eqb_spec u "h") as [->|_]; [done|]. destruct (ascii_eqb_spec u "m") as [->|_]; [done|].
    by destruct (ascii_eqb_spec u "s") as [->|_]. }
  rewrite TrimSpace_trimmed by (apply (trimmed_dash _ u); [by rewrite last_byte_app|done]).
  change (String.eqb ("-" +:+ fmt_d n +:+ String u "") "") with false. cbv iota.
  change (HasPrefix ("-" +:+ fmt_d n +:+ String u "") "-") with true. cbv iota.
  change (sdrop 1 ("-" +:+ fmt_d n +:+ String u "")) with (fmt_d n +:+ String u "").
  rewrite Hd. cbn [mbind option_bind]. unfold time_Add.
  assert (0 < unit) by (unfold unit_of in Hu; unfold_time; repeat case_match; simplify_eq; lia).
  rewrite i64_id by (unfold is_i64, max_int64, min_int64 in *; nia). done.
Qed.

(** Days are no unit: a number of days is refused. *)
Lemma ParseDuration_days n : 0 <= n → ParseDuration (fmt_d n +:+ "d") = None.
Proof.
  intros Hn. destruct (fmt_d_digits n Hn) as (Hd & Hv & Hnil).
  destruct (fmt_d n) as [|c ds] eqn:Ef; [done|].
  assert (Hc : is_digit c = true) by (cbn in Hd; by apply andb_true_iff in Hd as [? _]).
  assert (Hterm : duration_term (String c (ds +:+ "d")) = None).
  { unfold duration_term. rewrite Hc, orb_true_r. cbn [negb].
    destruct (leadingInt 0 (String c (ds +:+ "d"))) as [[v s1]|] eqn:El; [|done].
    cbn [mbind option_bind].
    assert (Hs1 : s1 = "d").
    { assert (Hstop : ∀ s acc v' s', digits_only s = true → leadingInt acc (s +:+ "d") = Some (v', s') → s' = "d").
      { clear. induction s as [|c s IH]; intros acc v' s' Hd Hl.
        - cbn in Hl. by injection Hl as _ <-.
        - cbn in Hd. apply andb_true_iff in Hd as [Hc Hd].
          change (String c s +:+ "d") with (String c (s +:+ "d")) in Hl. cbn [leadingInt] in Hl.
          rewrite Hc in Hl. destruct (_ <? acc); [done|]. destruct (2 ^ 63 <? _); [done|]. by eapply IH. }
      apply (Hstop (String c ds) 0 v s1 Hd El). }
    subst s1. destruct (_ && _); [done|]. reflexivity. }
  unfold ParseDuration. change (String c ds +:+ "d") with (String c (ds +:+ "d")).
  assert (Hsign : read_sign (String c (ds +:+ "d")) = (false, String c (ds +:+ "d"))).
  { cbn. destruct c as [[] [] [] [] [] [] [] []]; try done. }
  rewrite Hsign. destruct (String.eqb_spec (String c (ds +:+ "d")) "0") as [E|_].
  { exfalso. injection E as _ E. by destruct ds. }
  change (String.eqb (String c (ds +:+ "d")) "") with false. cbv iota.
  change (String.length (String c (ds +:+ "d"))) with (S (String.length (ds +:+ "d"))).
  cbn [duration_terms]. by rewrite Hterm.
Qed.

Lemma parseTimeArg_days now n : 0 <= n → ∃ e, parseTimeArg now ("-" +:+ fmt_d n +:+ "d") = inl e.
Proof.
  intros Hn. unfold parseTimeArg.
  rewrite TrimSpace_trimmed by (apply (trimmed_dash _ "d"%char); [by rewrite last_byte_app|done]).
  change (String.eqb ("-" +:+ fmt_d n +:+ "d") "") with false. cbv iota.
  change (HasPrefix ("-" +:+ fmt_d n +:+ "d") "-") with true. cbv iota.
  change (sdrop 1 ("-" +:+ fmt_d n +:+ "d")) with (fmt_d n +:+ "d").
  rewrite ParseDuration_days by done. cbn [mbind option_bind].
  assert (Hiso : ∀ rest, time_Parse (Year4 :: rest) ("-" +:+ fmt_d n +:+ "d") = None).
  { intros rest. unfold time_Parse. cbn [read_layout]. unfold read_chunk at 1. cbn [civil0].
    destruct (slen _ <? 4); [done|]. reflexivity. }
  unfold RFC3339, RFC3339Nano, DateTimeT, DateTimeSpace, DateOnly, date_chunks. cbn [app].
  rewrite !Hiso. by eexists.
Qed.

(** The limit is between 0 and 5000, unless it is 2^63 or more. *)
Lemma limit_of_spec f :
  limit_of f <= 5000 ∧
  (fgtb f f64_zero = false → limit_of f = 500) ∧
  (fgtb f f64_zero = true → is_i64 (f64_trunc f) → is_inf f = false →
   limit_of f = Z.min 5000 (f64_trunc f)) ∧
  (is_inf f = false → ¬ is_i64 (f64_trunc f) → fgtb f f64_zero = true → limit_of f = min_int64).
Proof.
  unfold limit_of. split_and!.
  - destruct (Z.ltb_spec 5000 (if fgtb f f64_zero then f64_to_int f else 500)); lia.
  - by intros ->.
  - intros Hp Hi Hf. rewrite Hp. assert (f64_to_int f = f64_trunc f) as ->.
    { unfold f64_to_int. destruct f; try discriminate; by rewrite decide_True. }
    destruct (Z.ltb_spec 5000 (f64_trunc f)); lia.
  - intros Hf Hi Hp. rewrite Hp. assert (f64_to_int f = min_int64) as ->.
    { unfold f64_to_int. destruct f; try discriminate; by rewrite decide_False. }
    done.
Qed.
End Arguments.

(** * The query tools *)
Section QueryTools.
Import McpQuery QuerySpec.
Context `{Unicode} `{RL : ReaderLaws}.

Lemma jsonResult_JSON {A} fs (v w : A) :
  jsonResult fs v = JSON w → w = v ∧ Forall (λ f, finite f = true) fs.
Proof.
  unfold jsonResult. destruct (List.find _ fs) as [f|] eqn:E; [done|]. intros [= <-].
  split; [done|]. apply Forall_forall. intros f Hf. apply list_elem_of_In in Hf.
  pose proof (List.find_none _ _ E f Hf) as Hx. cbn in Hx. by apply negb_false_iff.
Qed.

Lemma StronglySorted_prefix {A} (R : A → A → Prop) l l' :
  l `prefix_of` l' → StronglySorted R l' → StronglySorted R l.
Proof.
  intros [k ->]. induction l as [|a l IH]; intros Hs; [constructor|]. cbn in Hs.
  apply StronglySorted_inv in Hs as [Hs Ha]. apply Forall_app in Ha as [Ha _]. constructor; auto.
Qed.

Lemma StronglySorted_take {A} (R : A → A → Prop) n l : StronglySorted R l → StronglySorted R (take n l).
Proof. apply StronglySorted_prefix, prefix_take. Qed.

(** What follows the first rows is no newer than they are. *)
Lemma StronglySorted_split {A} (R : A → A → Prop) n l x y :
  StronglySorted R l → x ∈ take n l → y ∈ drop n l → R x y.
Proof.
  revert n. induction l as [|a l IH]; intros [|n] Hs Hx Hy; cbn in *; try by apply not_elem_of_nil in Hx.
  apply StronglySorted_inv in Hs as [Hs Ha]. apply elem_of_cons in Hx as [->|Hx]; [|by eapply IH].
  rewrite Forall_forall in Ha. apply Ha. rewrite <- (take_drop n l). apply elem_of_app. by right.
Qed.

(** What [jsonResult] makes of a value: its JSON when its numbers are finite, else an error text. *)
Definition printed {A} (numbers : list float64) (v : A) (res : result A) : Prop :=
  (Forall (λ f, finite f = true) numbers → res = JSON v) ∧
  (¬ Forall (λ f, finite f = true) numbers → ∃ msg, res = textResult msg).

Lemma jsonResult_printed {A} numbers (v : A) : printed numbers v (jsonResult numbers v).
Proof.
  unfold printed, jsonResult. destruct (List.find _ numbers) as [f|] eqn:E.
  - apply List.find_some in E as [Hf Hb]. split; [|by eexists].
    intros Hall. rewrite Forall_forall in Hall. by rewrite (Hall f) in Hb by (by apply list_elem_of_In).
  - split; [done|]. intros Hn. destruct Hn. apply Forall_forall. intros f Hf.
    apply list_elem_of_In in Hf. pose proof (List.find_none _ _ E f Hf) as Hx. cbn in Hx.
    by apply negb_false_iff.
Qed.

(** The first rows of an order: only those wanted, in order, no more than the limit. *)
Section Top.
Context {A : Type} (R : A → A → Prop) (wanted : A → Prop) (limit : Z).

Definition top_sound (rows : list A) : Prop :=
  StronglySorted R rows ∧ zlen rows <= Z.max 0 limit ∧ ∀ r, r ∈ rows → wanted r.

(** Nothing is missing but what comes after the rows returned, when the limit is reached. *)
Definition top_complete (rows : list A) : Prop :=
  ∀ r, wanted r → r ∈ rows ∨ zlen rows = Z.max 0 limit ∧ ∀ r', r' ∈ rows → R r' r.

Lemma top_take sorted :
  StronglySorted R sorted → (∀ r, r ∈ sorted ↔ wanted r) →
  top_sound (take (Z.to_nat limit) sorted) ∧ top_complete (take (Z.to_nat limit) sorted).
Proof.
  intros Hs Hw. split; [split_and!|].
  - by apply StronglySorted_take.
  - unfold zlen. rewrite length_take. lia.
  - intros r Hr. apply Hw. rewrite <- (take_drop (Z.to_nat limit) sorted). apply elem_of_app. by left.
  - intros r Hr%Hw. rewrite <- (take_drop (Z.to_nat limit) sorted) in Hr. apply elem_of_app in Hr as [?|Hin]; [by left|].
    right. split.
    + unfold zlen. rewrite length_take. apply list_elem_of_lookup in Hin as [i Hi].
      apply lookup_lt_Some in Hi. rewrite length_drop in Hi. lia.
    + intros r' Hr'. by apply (StronglySorted_split R (Z.to_nat limit) sorted).
Qed.

Lemma top_sound_prefix rows full : top_sound full → rows `prefix_of` full → top_sound rows.
Proof.
  intros (Hs & Hl & Hin) [k ->]. split_and!.
  - eapply StronglySorted_prefix; [by exists k|exact Hs].
  - rewrite zlen_app in Hl. pose proof (zlen_nonneg k). lia.
  - intros r Hr. apply Hin, elem_of_app. by left.
Qed.
End Top.

(** The rows of a selection of samples. *)
Definition matches (fs : list filter) (all : list Schema.row) (r : Schema.row) : Prop :=
  r ∈ all ∧ Forall (meets r) fs.
Definition sound (fs : list filter) (limit : Z) (all rows : list Schema.row) : Prop :=
  top_sound newer (matches fs all) limit rows.
Definition complete (fs : list filter) (limit : Z) (all rows : list Schema.row) : Prop :=
  top_complete newer (matches fs all) limit rows.

Lemma selected_top fs limit all rows :
  selected fs limit all rows → sound fs limit all rows ∧ complete fs limit all rows.
Proof.
  intros (sorted & Hperm & Hs & ->). apply top_take; [done|]. intros r. rewrite Hperm.
  rewrite list_elem_of_filter. unfold matches. tauto.
Qed.

(** What the server answers to the statement for some filters, and what the tool makes of it. *)
Definition samples_answered (fs : list filter) (limit : Z) (T : Schema.tables)
    (res : result (list Schema.row)) : Prop :=
  match query_samples T (samples_text fs) (map filter_arg fs ++ [AInt limit]) with
  | inl e => res = textResult ("Error querying metrics: " +:+ e)
  | inr (rows, err) =>
      sound fs limit (Schema.samples T) rows ∧
      (err = None → complete fs limit (Schema.samples T) rows) ∧
      printed (map Schema.value rows) rows res
  end.

Lemma handleQueryMetrics_answered now1 now2 a T after before :
  time_given now1 (arg_string a "after") after → time_given now2 (arg_string a "before") before →
  samples_answered (metrics_filters a after before) (limit_of (arg_float a "limit")) T
    (handleQueryMetrics now1 now2 a T).
Proof.
  intros Ha Hb. unfold handleQueryMetrics, samples_answered.
  destruct (query_metrics_sql_spec now1 now2 a after before Ha Hb) as (b & -> & -> & ->).
  destruct (query_samples T _ _) as [e|[rows err]] eqn:E; [done|].
  split_and!; [| |apply jsonResult_printed].
  - destruct err as [e|].
    + destruct (samples_break _ _ _ _ _ E) as (full & Hsel & Hpre).
      eapply top_sound_prefix; [by apply selected_top|done].
    + by eapply selected_top, samples_end.
  - intros ->. by eapply selected_top, samples_end.
Qed.

Lemma query_metrics_bad_after now1 now2 a e :
  arg_string a "after" ≠ "" → parseTimeArg now1 (arg_string a "after") = inl e →
  query_metrics_sql now1 now2 a = inl ("Invalid 'after' value: " +:+ e).
Proof. intros Hne He. unfold query_metrics_sql. by rewrite (proj2 (String.eqb_neq _ _) Hne), He. Qed.

Lemma query_metrics_bad_before now1 now2 a after e :
  time_given now1 (arg_string a "after") after →
  arg_string a "before" ≠ "" → parseTimeArg now2 (arg_string a "before") = inl e →
  query_metrics_sql now1 now2 a = inl ("Invalid 'before' value: " +:+ e).
Proof.
  intros Ha Hne He. unfold query_metrics_sql. destruct (String.eqb_spec (arg_string a "after") "") as [|Hn].
  - by rewrite (proj2 (String.eqb_neq _ _) Hne), He.
  - by rewrite (Ha Hn), (proj2 (String.eqb_neq _ _) Hne), He.
Qed.

(** C24.  query_hardware_metrics answers every question: an unreadable 'after' or 'before' with the
      text that says so, a failed query with its error, and otherwise, whatever combination of
      filters is given, with rows that are stored samples meeting all of them,
      newest first and no more than the limit (5000 at most); unless
      the server broke off, no matching sample is missing but older ones beyond the
      limit; and the rows are printed unless one of their values is not finite.
      So the placeholders of the statement built by string concatenation line
      up with its arguments. *)
Theorem query_metrics_answers now1 now2 a T :
  let answer := handleQueryMetrics now1 now2 a T in
  let limit := limit_of (arg_float a "limit") in
  (∀ e, arg_string a "after" ≠ "" → parseTimeArg now1 (arg_string a "after") = inl e →
     answer = textResult ("Invalid 'after' value: " +:+ e)) ∧
  (∀ after e, time_given now1 (arg_string a "after") after →
     arg_string a "before" ≠ "" → parseTimeArg now2 (arg_string a "before") = inl e →
     answer = textResult ("Invalid 'before' value: " +:+ e)) ∧
  (∀ after before,
     time_given now1 (arg_string a "after") after → time_given now2 (arg_string a "before") before →
     limit <= 5000 ∧ samples_answered (metrics_filters a after before) limit T answer).
Proof.
  intros answer limit. unfold answer. split_and!.
  - intros e Hne He. unfold handleQueryMetrics. by rewrite (query_metrics_bad_after _ _ _ e).
  - intros after e Ha Hne He. unfold handleQueryMetrics. by rewrite (query_metrics_bad_before _ _ _ after e).
  - intros after before Ha Hb. split; [apply limit_of_spec|]. by apply handleQueryMetrics_answered.
Qed.

(** The rollups of a table that a question asks for. *)
Definition rollup_matches (node : string) (after before : Z) (fs : list filter)
    (table : gmap Schema.rkey Schema.rollup) (r : Schema.rkey * Schema.rollup) : Prop :=
  table !! r.1 = Some r.2 ∧ in_rollup_window node after before r.1 ∧ Forall (rollup_meets r.1) fs.

Lemma rollup_selected_top node after before fs limit table rows :
  rollup_selected node after before fs limit table rows →
  top_sound rollup_newer (rollup_matches node after before fs table) limit rows ∧
  top_complete rollup_newer (rollup_matches node after before fs table) limit rows.
Proof.
  intros (sorted & Hperm & Hs & ->). apply top_take; [done|]. intros [k u]. rewrite Hperm.
  rewrite list_elem_of_filter, elem_of_map_to_list. unfold rollup_matches. cbn. tauto.
Qed.

(** The numbers of the answer. *)
Definition rollup_numbers (rows : list (Schema.rkey * Schema.rollup)) : list float64 :=
  flat_map (λ r, [Schema.avg_value r.2; Schema.min_value r.2; Schema.max_value r.2]) rows.

(** C25.  query_rollup_metrics reads the table that the width of the window chooses (daily
      beyond seven days, hourly below, raw samples never), names it truthfully, and, when the
      query does not fail, answers, with their values rounded, with rollups of that table for the
      node, inside the window, with the context, dimension and instance asked for,
      newest buckets first and no more than the limit (5000 at most); unless the server
      broke off, none is missing but older ones beyond the limit.  Unreadable times and failed
      queries get a text. *)
Theorem query_rollup_answers now1 now2 now3 a T :
  let answer := handleQueryRollup now1 now2 now3 a T in
  (∀ e, parseTimeArg now1 (arg_string a "after") = inl e →
     answer = textResult ("Invalid 'after': " +:+ e)) ∧
  ∀ after, parseTimeArg now1 (arg_string a "after") = inr after →
  (∀ e, arg_string a "before" ≠ "" → parseTimeArg now3 (arg_string a "before") = inl e →
     answer = textResult ("Invalid 'before': " +:+ e)) ∧
  ∀ before,
  (if String.eqb (arg_string a "before") "" then before = now2
   else parseTimeArg now3 (arg_string a "before") = inr before) →
  let width := time_Sub before after in
  let '(name, source, table) :=
    if 7 * 24 * Hour <? width then ("hardware_metric_rollups_1d", "daily", Schema.rollups_1d T)
    else ("hardware_metric_rollups_1h", "hourly", Schema.rollups_1h T) in
  let node := arg_string a "node_id" in
  let fs := rollup_filters a in
  let limit := limit_of (arg_float a "limit") in
  match query_rollups T (rollup_text name fs)
          ([AText node; ATime after; ATime before] ++ map filter_arg fs ++ [AInt limit]) with
  | inl e => answer = textResult ("Error querying rollup: " +:+ e)
  | inr (rows, err) =>
      top_sound rollup_newer (rollup_matches node after before fs table) limit rows ∧
      (err = None → top_complete rollup_newer (rollup_matches node after before fs table) limit rows) ∧
      printed (rollup_numbers (map rounded_row rows))
        (mkRollupResult node source after before (zlen rows) (map rounded_row rows)) answer
  end.
Proof.
  intros answer. unfold answer, handleQueryRollup. split.
  { intros e He. unfold query_rollup_sql. by rewrite He. }
  intros after Ha. split.
  { intros e Hne He. unfold query_rollup_sql. by rewrite Ha, (proj2 (String.eqb_neq _ _) Hne), He. }
  intros before Hb.
  destruct (query_rollup_sql_spec now1 now2 now3 a after before Ha Hb) as (b & -> & -> & ->).
  unfold selectRollupTable. set (width := time_Sub before after).
  set (limit := limit_of _). set (node := arg_string a "node_id"). set (fs := rollup_filters a).
  assert (Hrun : ∀ name source table, table_of_name T name = Some table →
    match query_rollups T (rollup_text name fs)
            ([AText node; ATime after; ATime before] ++ map filter_arg fs ++ [AInt limit]) with
    | inl e => True
    | inr (rows, err) =>
        top_sound rollup_newer (rollup_matches node after before fs table) limit rows ∧
        (err = None → top_complete rollup_newer (rollup_matches node after before fs table) limit rows) ∧
        printed (rollup_numbers (map rounded_row rows))
          (mkRollupResult node source after before (zlen rows) (map rounded_row rows))
          (jsonResult (rollup_numbers (map rounded_row rows))
             (mkRollupResult node source after before (zlen (map rounded_row rows)) (map rounded_row rows)))
    end).
  { intros name source table Ht. destruct (query_rollups T _ _) as [e|[rows err]] eqn:E; [done|].
    unfold zlen. rewrite length_map. split_and!; [| |apply jsonResult_printed].
    - destruct err as [e|].
      + destruct (rollups_break _ _ _ _ _ _ _ _ _ _ Ht E) as (full & Hsel & Hpre).
        eapply top_sound_prefix; [by apply rollup_selected_top|done].
      + by eapply rollup_selected_top, rollups_end.
    - intros ->. by eapply rollup_selected_top, rollups_end. }
  destruct (7 * 24 * Hour <? width); cbn [fst snd].
  - specialize (Hrun "hardware_metric_rollups_1d" "daily" (Schema.rollups_1d T) eq_refl).
    destruct (query_rollups T _ _) as [e|[rows err]]; [done|exact Hrun].
  - specialize (Hrun "hardware_metric_rollups_1h" "hourly" (Schema.rollups_1h T) eq_refl).
    destruct (6 * Hour <? width); cbn [fst snd];
      (destruct (query_rollups T _ _) as [e|[rows err]]; [done|exact Hrun]).
Qed.

(** An error of the server after some rows is lost: the tool answers like for a complete
    result. *)
Lemma query_error_lost now1 now2 a T b rows e :
  query_metrics_sql now1 now2 a = inr b →
  query_samples T (b_query b) (b_args b) = inr (rows, Some e) →
  Forall (λ r, finite (Schema.value r) = true) rows →
  handleQueryMetrics now1 now2 a T = JSON rows.
Proof.
  intros Hb Hq Hf. unfold handleQueryMetrics. rewrite Hb, Hq. unfold jsonResult.
  assert (Hnone : List.find (λ f, negb (finite f)) (map Schema.value rows) = None).
  { clear -Hf. induction Hf as [|r rows Hr _ IH]; [done|]. cbn. by rewrite Hr. }
  by rewrite Hnone.
Qed.

(** Times as the tools document them, and the one they promise in vain: minus a number of
      hours, minutes or seconds is that long before now, for every number that fits
      the 292 years of a duration; minus a number of days is refused, so that '-7d',
      which the descriptions of the rollup tool recommends and the forecast tool
      defaults to, never works. *)
Theorem relative_times now n :
  0 <= n →
  (∀ u unit, unit_of u = Some unit → n * unit <= max_int64 →
     parseTimeArg now ("-" +:+ fmt_d n +:+ String u "") = inr (now - n * unit)) ∧
  ∃ e, parseTimeArg now ("-" +:+ fmt_d n +:+ "d") = inl e.
Proof.
  intros Hn. split; [|by apply parseTimeArg_days].
  intros u unit Hu Hmax. by apply parseTimeArg_ago.
Qed.
End QueryTools.

(** * A reader in memory: it parses the statements and meets the laws *)
Module MemReader.
Import McpQuery QuerySpec.

Definition strip (p s : string) : option string :=
  if HasPrefix s p then Some (sdrop (String.length p) s) else None.

(** The filters tried for an argument, in turn. *)
Definition candidates (a : sql_arg) : list filter :=
  match a with
  | AText v => [FText NodeIs v; FText ContextIs v; FText DimensionIs v; FText InstanceIs v]
  | ATexts l => [FContexts l]
  | ALabels m => [FLabels m]
  | ATime t => [FAfter t; FBefore t]
  | _ => []
  end.

Fixpoint parse_candidates (cs : list filter) (i : Z) (s : string) : option (filter * string) :=
  match cs with
  | [] => None
  | f :: cs =>
      match strip (filter_text f i) s with
      | Some s' => Some (f, s')
      | None => parse_candidates cs i s
      end
  end.

Fixpoint parse_where (tail : string) (i : Z) (args : list sql_arg) (s : string)
    : option (list filter * Z) :=
  match args with
  | [] => None
  | [AInt limit] => if String.eqb s (tail +:+ fmt_d i) then Some ([], limit) else None
  | a :: args =>
      '(f, s) ← parse_candidates (candidates a) i s;
      '(fs, limit) ← parse_where tail (i + 1) args s;
      Some (f :: fs, limit)
  end.

#[export] Instance newer_dec r r' : Decision (newer r r').
Proof. unfold newer. apply _. Defined.
#[export] Instance rollup_newer_dec r r' : Decision (rollup_newer r r').
Proof. unfold rollup_newer. apply _. Defined.
#[export] Instance in_rollup_window_dec n a b k : Decision (in_rollup_window n a b k).
Proof. unfold in_rollup_window. apply _. Defined.

Definition unreadable {A} : answer A := inl "syntax error".

Definition run_samples (T : Schema.tables) (q : string) (args : list sql_arg) : answer Schema.row :=
  match s ← strip samples_base q; parse_where " ORDER BY collected_at DESC LIMIT $" 1 args s with
  | Some (fs, limit) =>
      inr (take (Z.to_nat limit)
             (merge_sort newer (base.filter (λ r, Forall (meets r) fs) (Schema.samples T))), None)
  | None => unreadable
  end.

Definition run_rollup_table (table : string) (all : gmap Schema.rkey Schema.rollup) (q : string)
    (args : list sql_arg) : option (answer (Schema.rkey * Schema.rollup)) :=
  match args with
  | AText node :: ATime after :: ATime before :: args =>
      s ← strip (rollup_base table) q;
      '(fs, limit) ← parse_where " ORDER BY bucket DESC LIMIT $" 4 args s;
      Some (inr (take (Z.to_nat limit)
        (merge_sort rollup_newer
           (base.filter (λ r, in_rollup_window node after before r.1 ∧ Forall (rollup_meets r.1) fs)
              (map_to_list all))), None))
  | _ => None
  end.

Definition run_rollups (T : Schema.tables) (q : string) (args : list sql_arg)
    : answer (Schema.rkey * Schema.rollup) :=
  match run_rollup_table "hardware_metric_rollups_1h" (Schema.rollups_1h T) q args with
  | Some a => a
  | None =>
      match run_rollup_table "hardware_metric_rollups_1d" (Schema.rollups_1d T) q args with
      | Some a => a
      | None => unreadable
      end
  end.

#[export] Instance reader : Reader := {|
  query_samples := run_samples;
  query_rollups := run_rollups;
|}.

Lemma strip_app p s : strip p (p +:+ s) = Some s.
Proof.
  unfold strip. rewrite (proj2 (HasPrefix_app (p +:+ s) p)) by eauto. by rewrite sdrop_app.
Qed.

Lemma parse_candidates_spec f i s :
  parse_candidates (candidates (filter_arg f)) i (filter_text f i +:+ s) = Some (f, s).
Proof.
  destruct f as [c v|l|m|t|t]; cbn [filter_arg candidates parse_candidates].
  - assert (Hne : ∀ c', c' ≠ c → strip (filter_text (FText c' v) i) (filter_text (FText c v) i +:+ s) = None).
    { intros c' Hc. destruct c', c; try done; reflexivity. }
    destruct c; rewrite ?Hne by done; by rewrite strip_app.
  - by rewrite strip_app.
  - by rewrite strip_app.
  - by rewrite strip_app.
  - assert (Hne : strip (filter_text (FAfter t) i) (filter_text (FBefore t) i +:+ s) = None)
      by reflexivity.
    by rewrite Hne, strip_app.
Qed.

Lemma parse_where_spec tail fs limit i :
  parse_where tail i (map filter_arg fs ++ [AInt limit])
    (where_text i fs +:+ tail +:+ fmt_d (i + zlen fs)) = Some (fs, limit).
Proof.
  revert i. induction fs as [|f fs IH]; intros i; cbn [map app where_text].
  - rewrite zlen_nil, Z.add_0_r. cbn [parse_where].
    change ("" +:+ tail +:+ fmt_d i) with (tail +:+ fmt_d i). by rewrite String.eqb_refl.
  - assert (Hstep : ∀ rest s, rest ≠ [] → parse_where tail i (filter_arg f :: rest) s =
      '(f, s) ← parse_candidates (candidates (filter_arg f)) i s;
      '(fs, limit) ← parse_where tail (i + 1) rest s; Some (f :: fs, limit)).
    { intros rest s Hr. destruct f; cbn; destruct rest; done. }
    rewrite Hstep by (by destruct fs). rewrite sapp_assoc, parse_candidates_spec.
    cbn [mbind option_bind]. rewrite zlen_cons. replace (i + (1 + zlen fs)) with (i + 1 + zlen fs) by lia.
    by rewrite IH.
Qed.

#[export] Instance newer_total : Total newer.
Proof. intros r r'. unfold newer. lia. Qed.
#[export] Instance newer_trans : Transitive newer.
Proof. intros r1 r2 r3. unfold newer. lia. Qed.
#[export] Instance rollup_newer_total : Total rollup_newer.
Proof. intros r r'. unfold rollup_newer. lia. Qed.
#[export] Instance rollup_newer_trans : Transitive rollup_newer.
Proof. intros r1 r2 r3. unfold rollup_newer. lia. Qed.

Lemma merge_selected {A} (R : relation A) `{!∀ x y, Decision (R x y), !Total R, !Transitive R} l :
  merge_sort R l ≡ₚ l ∧ StronglySorted R (merge_sort R l).
Proof. split; [apply merge_sort_Permutation|by apply StronglySorted_merge_sort]. Qed.

Lemma run_samples_text T fs limit :
  run_samples T (samples_text fs) (map filter_arg fs ++ [AInt limit]) =
    inr (take (Z.to_nat limit)
           (merge_sort newer (base.filter (λ r, Forall (meets r) fs) (Schema.samples T))), None).
Proof.
  unfold run_samples, samples_text. rewrite strip_app. cbn [mbind option_bind].
  by rewrite parse_where_spec.
Qed.

Lemma run_rollup_text T table all node after before fs limit :
  table_of_name T table = Some all →
  run_rollups T (rollup_text table fs)
      ([AText node; ATime after; ATime before] ++ map filter_arg fs ++ [AInt limit]) =
    inr (take (Z.to_nat limit) (merge_sort rollup_newer
           (base.filter (λ r, in_rollup_window node after before r.1 ∧ Forall (rollup_meets r.1) fs)
              (map_to_list all))), None).
Proof.
  intros Ht. assert (Hrun : ∀ all, run_rollup_table table all (rollup_text table fs)
      ([AText node; ATime after; ATime before] ++ map filter_arg fs ++ [AInt limit]) =
    Some (inr (take (Z.to_nat limit) (merge_sort rollup_newer
           (base.filter (λ r, in_rollup_window node after before r.1 ∧ Forall (rollup_meets r.1) fs)
              (map_to_list all))), None))).
  { intros all'. unfold run_rollup_table, rollup_text. cbn [app]. rewrite strip_app.
    cbn [mbind option_bind]. by rewrite parse_where_spec. }
  unfold table_of_name in Ht. unfold run_rollups.
  destruct (String.eqb_spec table "hardware_metric_rollups_1h") as [->|_].
  { injection Ht as <-. by rewrite Hrun. }
  destruct (String.eqb_spec table "hardware_metric_rollups_1d") as [->|_]; [|done].
  injection Ht as <-.
  assert (Hno : ∀ q args, run_rollup_table "hardware_metric_rollups_1h" (Schema.rollups_1h T)
    (rollup_text "hardware_metric_rollups_1d" q) args = None).
  { intros q args. unfold run_rollup_table.
    by destruct args as [|[] [|[] [|[] args]]]. }
  by rewrite Hno, Hrun.
Qed.

#[export] Instance reader_laws : ReaderLaws reader.
Proof.
  split; cbn [query_samples query_rollups reader].
  - intros T fs limit rows E. rewrite run_samples_text in E. injection E as <-.
    destruct (merge_selected newer (base.filter (λ r, Forall (meets r) fs) (Schema.samples T))) as [Hp Hs].
    by eexists.
  - intros T fs limit rows e E. by rewrite run_samples_text in E.
  - intros T table all node after before fs limit rows Ht E.
    rewrite (run_rollup_text _ _ _ _ _ _ _ _ Ht) in E. injection E as <-.
    destruct (merge_selected rollup_newer
      (base.filter (λ r, in_rollup_window node after before r.1 ∧ Forall (rollup_meets r.1) fs)
              (map_to_list all))) as [Hp Hs].
    by eexists.
  - intros T table all node after before fs limit rows e Ht E.
    by rewrite (run_rollup_text _ _ _ _ _ _ _ _ Ht) in E.
Qed.
End MemReader.

Section QueryWitnesses.
Import McpQuery QuerySpec MemReader.
#[local] Instance no_unicode : Unicode := {| unicode_ToLower s := s; unicode_Quote s := s |}.

Definition cpu_row (t : Z) (dim : string) (v : Z) : Schema.row :=
  Schema.mkRow "n1" t "system.cpu" None None None dim None (f64_of_Z v) {["env" := "prod"]}.

Definition cpu_tables : Schema.tables :=
  Schema.mkTables [cpu_row 0 "user" 1; cpu_row Hour "user" 2; cpu_row Hour "idle" 97;
                   cpu_row (2 * Hour) "user" 3] ∅
    {[("n1", 0, "system.cpu", "user", "") := Schema.mkRollup "" (f64_ratio 1 3) f64_zero f64_zero 2]} ∅.

Definition cpu_question : arguments :=
  {["context" := JStr "system.cpu"; "dimension" := JStr "user"; "labels" := JStr "env=prod, bad";
    "after" := JStr "-90m"; "limit" := JNum (f64_of_Z 1)]}.

Lemma query_metrics_answers_witness :
  handleQueryMetrics (2 * Hour) 0 cpu_question cpu_tables = JSON [cpu_row (2 * Hour) "user" 3] ∧
  sound (metrics_filters cpu_question (30 * Minute) 0) 1 (Schema.samples cpu_tables)
    [cpu_row (2 * Hour) "user" 3] ∧
  complete (metrics_filters cpu_question (30 * Minute) 0) 1 (Schema.samples cpu_tables)
    [cpu_row (2 * Hour) "user" 3].
Proof.
  split; [vm_compute; reflexivity|].
  destruct (query_metrics_answers (2 * Hour) 0 cpu_question cpu_tables) as (_ & _ & H).
  destruct (H (30 * Minute) 0) as [_ Hans].
  - intros _. vm_compute. reflexivity.
  - intros Hne. exfalso. apply Hne. vm_compute. reflexivity.
  - unfold samples_answered in Hans. assert (Hl : limit_of (arg_float cpu_question "limit") = 1) by (vm_compute; reflexivity).
    rewrite Hl in Hans. clear Hl.
    assert (Hq : query_samples cpu_tables (samples_text (metrics_filters cpu_question (30 * Minute) 0))
      (map filter_arg (metrics_filters cpu_question (30 * Minute) 0) ++ [AInt 1]) =
      inr ([cpu_row (2 * Hour) "user" 3], None)) by (vm_compute; reflexivity).
    rewrite Hq in Hans. destruct Hans as (Hs & Hc & _). split; [exact Hs|exact (Hc eq_refl)].
Defined.

Definition rollup_question : arguments :=
  {["node_id" := JStr "n1"; "context" := JStr "system.cpu"; "after" := JStr "1970-01-01"]}.

Lemma query_rollup_answers_witness :
  handleQueryRollup 0 (2 * Hour) 0 rollup_question cpu_tables =
    JSON (mkRollupResult "n1" "hourly" 0 (2 * Hour) 1
    [(("n1", 0, "system.cpu", "user", ""),
      Schema.mkRollup "" (f64_ratio 33 100) f64_zero f64_zero 2)]).
Proof.
  destruct (query_rollup_answers 0 (2 * Hour) 0 rollup_question cpu_tables) as [_ H].
  destruct (H 0) as [_ Hb]; [vm_compute; reflexivity|].
  assert (Hb0 : if String.eqb (arg_string rollup_question "before") "" then 2 * Hour = 2 * Hour
    else parseTimeArg 0 (arg_string rollup_question "before") = inr (2 * Hour)) by (vm_compute; reflexivity).
  specialize (Hb (2 * Hour) Hb0). clear H Hb0.
  assert (Hw : 7 * 24 * Hour <? time_Sub (2 * Hour) 0 = false) by (vm_compute; reflexivity).
  cbv zeta in Hb. rewrite Hw in Hb. cbv beta iota in Hb.
  assert (Hq : query_rollups cpu_tables (rollup_text "hardware_metric_rollups_1h" (rollup_filters rollup_question))
    ([AText (arg_string rollup_question "node_id"); ATime 0; ATime (2 * Hour)] ++
     map filter_arg (rollup_filters rollup_question) ++ [AInt (limit_of (arg_float rollup_question "limit"))]) =
    inr ([(("n1", 0, "system.cpu", "user", ""), Schema.mkRollup "" (f64_ratio 1 3) f64_zero f64_zero 2)], None))
    by (vm_compute; reflexivity).
  rewrite Hq in Hb. destruct Hb as (_ & _ & Hp & _).
  etransitivity; [apply Hp|vm_compute; reflexivity].
  vm_compute. repeat first [apply Forall_nil; exact I|apply Forall_cons; split; [reflexivity|]].
Defined.

Lemma relative_times_witness :
  parseTimeArg 0 "-24h" = inr (-24 * Hour) ∧ ∃ e, parseTimeArg 0 "-7d" = inl e.
Proof.
  split.
  - refine (proj1 (relative_times 0 24 _) "h"%char Hour _ _).
    + discriminate.
    + reflexivity.
    + vm_compute. discriminate.
  - refine (proj2 (relative_times 0 7 _)). discriminate.
Defined.
End QueryWitnesses.
