(* ===== verification/McpAlerts.v ===== *)
(** The alerts of the MCP server, internal/mcp/alerts.go. *)

From Stdlib Require Import Ascii SpecFloat.
From S2P Require Import Prelude GoInt GoFloat GoTime GoString GoDuration Store Collector McpQuery.

Module McpAlerts.
Import McpQuery.

Record AlertRule := mkRule {
  Name : string;
  Context_ : string;
  Dimension : string;
  Operator : string;
  Threshold : float64;
  Window : string;
  Aggregator : string;
  Severity : string;
}.

Definition DefaultAlertRules : list AlertRule := [
  mkRule "high_cpu_usage" "system.cpu" "user" ">" (f64_of_Z 90) "-5m" "avg" "critical";
  mkRule "high_cpu_sustained" "system.cpu" "user" ">" (f64_of_Z 70) "-15m" "avg" "warning";
  mkRule "high_iowait" "system.cpu" "iowait" ">" (f64_of_Z 20) "-5m" "avg" "warning";
  mkRule "high_ram_usage" "system.ram" "used" ">" (f64_of_Z 90) "-5m" "avg" "warning";
  mkRule "disk_util_critical" "disk.util" "" ">" (f64_of_Z 95) "-5m" "max" "critical";
  mkRule "disk_util_warning" "disk.util" "" ">" (f64_of_Z 80) "-10m" "avg" "warning";
  mkRule "swap_in_use" "system.swap" "used" ">" (f64_of_Z 500) "-5m" "avg" "warning"].

Record AlertResult := mkAlert {
  a_Name : string;
  a_Status : string;
  a_Severity : string;
  a_Value : float64;
  a_Threshold : float64;
  a_Operator : string;
  a_Window : string;
  a_Message : string;
}.

(** The text and the arguments of the statement of a rule. *)
Definition aggFunc (rule : AlertRule) : string :=
  if String.eqb (Aggregator rule) "max" then "MAX"
  else if String.eqb (Aggregator rule) "min" then "MIN"
  else "AVG".

Definition alert_text (aggFunc : string) : string := "
		SELECT COALESCE(" +:+ aggFunc +:+ "(value), -1)
		FROM hardware_metric_samples
		WHERE node_id = $1 AND collected_at >= $2 AND context LIKE $3".

Definition alert_sql (nodeID : string) (afterTime : Z) (rule : AlertRule) : string * list sql_arg :=
  let query := alert_text (aggFunc rule) in
  let args := [AText nodeID; ATime afterTime; AText (Context_ rule +:+ "%")] in
  if String.eqb (Dimension rule) "" then (query, args)
  else (query +:+ " AND dimension = $4", args ++ [AText (Dimension rule)]).

(** The row of the query: one number or an error. *)
Class ValueReader := {
  query_value : Schema.tables → string → list sql_arg → string + float64;
}.

Section Alerts.
Context `{Unicode} `{ValueReader}.

Definition minus_one : float64 := f64_of_Z (-1).

(** The threshold test. *)
Definition fires (op : string) (value threshold : float64) : bool :=
  if String.eqb op ">" then fgtb value threshold
  else if String.eqb op ">=" then fgeb value threshold
  else if String.eqb op "<" then fltb value threshold
  else if String.eqb op "<=" then fleb value threshold
  else false.

(** [evaluateAlert]. *)
Definition evaluateAlert (now : Z) (nodeID : string) (rule : AlertRule) (T : Schema.tables)
    : AlertResult :=
  let result status value msg :=
    mkAlert (Name rule) status (Severity rule) value (Threshold rule) (Operator rule) (Window rule) msg in
  match parseTimeArg now (Window rule) with
  | inl e => result "no_data" f64_zero ("invalid window " +:+ Quote (Window rule) +:+ ": " +:+ e)
  | inr afterTime =>
      let '(query, args) := alert_sql nodeID afterTime rule in
      let no_data := result "no_data" f64_zero "no metric data found in the specified window" in
      match query_value T query args with
      | inl _ => no_data
      | inr value =>
          if feqb value minus_one then no_data
          else if fires (Operator rule) value (Threshold rule) then
            result "firing" (round2 value)
              (Name rule +:+ " " +:+ lower_ascii (aggFunc rule) +:+ "(value)=" +:+ fmt_f 2 value +:+ " " +:+
               Operator rule +:+ " " +:+ fmt_f 2 (Threshold rule) +:+ " over " +:+ Window rule)
          else
            result "ok" (round2 value)
              (Name rule +:+ " " +:+ lower_ascii (aggFunc rule) +:+ "(value)=" +:+ fmt_f 2 value +:+
               " within threshold (" +:+ fmt_f 2 (Threshold rule) +:+ ")")
      end
  end.

Definition handleListAlerts : result (list AlertRule) :=
  jsonResult (map Threshold DefaultAlertRules) DefaultAlertRules.

(** The rules that a severity filter leaves. *)
Definition rules_for (severityFilter : string) : list AlertRule :=
  List.filter (λ r, String.eqb severityFilter "" || String.eqb (Severity r) severityFilter)
    DefaultAlertRules.

(** [handleCheckAlerts], with the reading of the clock at each rule. *)
Fixpoint evaluate_all (clk : nat → Z) (nodeID : string) (rules : list AlertRule) (T : Schema.tables)
    : list AlertResult :=
  match rules with
  | [] => []
  | rule :: rules =>
      evaluateAlert (clk O) nodeID rule T :: evaluate_all (λ i, clk (S i)) nodeID rules T
  end.

Definition handleCheckAlerts (clk : nat → Z) (a : arguments) (T : Schema.tables)
    : result (list AlertResult) :=
  let results := evaluate_all clk (arg_string a "node_id") (rules_for (arg_string a "severity")) T in
  jsonResult (flat_map (λ r, [a_Value r; a_Threshold r]) results) results.
End Alerts.
End McpAlerts.

(** * What the statements mean *)
Module AlertSpec.
Import McpQuery McpAlerts.

(** The samples a rule looks at: of the node, not older than its window, of every context that
    starts with its own, and of its dimension if it names one. *)
Definition watched (node : string) (after : Z) (rule : AlertRule) (r : Schema.row) : Prop :=
  Schema.node_id r = node ∧ Schema.pg_time after <= Schema.collected_at r ∧
  HasPrefix (Schema.context r) (Context_ rule) = true ∧
  (Dimension rule ≠ "" → Schema.dimension r = Dimension rule).

#[export] Instance watched_dec node after rule r : Decision (watched node after rule r).
Proof. unfold watched. apply _. Defined.

Definition watched_values (T : Schema.tables) (node : string) (after : Z) (rule : AlertRule)
    : list float64 :=
  map Schema.value (base.filter (watched node after rule) (Schema.samples T)).

(** The aggregate of a rule. *)
Definition aggregate (ag : Schema.aggregates) (rule : AlertRule) (l : list float64) : float64 :=
  if String.eqb (Aggregator rule) "max" then Schema.agg_max ag l
  else if String.eqb (Aggregator rule) "min" then Schema.agg_min ag l
  else Schema.agg_avg ag l.

(** A context without the wildcards of LIKE. *)
Definition plain (s : string) : bool := lacks "%" s && lacks "_" s && lacks "\" s.

(** What PostgreSQL promises: the statement of a rule computes its aggregate, or -1 without
    samples. *)
Class ValueReaderLaws (ag : Schema.aggregates) `(VR : ValueReader) : Prop := {
  value_spec T node after rule v :
    plain (Context_ rule) = true →
    query_value T (alert_sql node after rule).1 (alert_sql node after rule).2 = inr v →
    v = match watched_values T node after rule with [] => minus_one | l => aggregate ag rule l end;
}.
End AlertSpec.

Section AlertProofs.
Import McpQuery McpAlerts AlertSpec.
Context `{Unicode} `{VL : ValueReaderLaws}.

(** The seconds of the windows of the rules. *)
Definition window_of_rule (rule : AlertRule) : Z :=
  if String.eqb (Window rule) "-5m" then 5 * Minute
  else if String.eqb (Window rule) "-10m" then 10 * Minute else 15 * Minute.

Lemma rules_plain rule : rule ∈ DefaultAlertRules →
  plain (Context_ rule) = true ∧ Operator rule = ">" ∧
  ∀ now, parseTimeArg now (Window rule) = inr (now - window_of_rule rule).
Proof.
  assert (Hago : ∀ now n, n = 5 ∨ n = 10 ∨ n = 15 →
    parseTimeArg now ("-" +:+ fmt_d n +:+ "m") = inr (now - n * Minute)).
  { intros now n Hn. apply parseTimeArg_ago; [lia|done|unfold max_int64; unfold_time; lia]. }
  intros Hin. unfold DefaultAlertRules in Hin.
  repeat (apply elem_of_cons in Hin as [->|Hin];
    [split; [reflexivity|]; split; [reflexivity|]; intros now;
     first [apply (Hago now 5)|apply (Hago now 10)|apply (Hago now 15)]; auto|]).
  by apply elem_of_nil in Hin.
Qed.

(** The verdict on a rule for the samples it watches. *)
Definition verdict (rule : AlertRule) (l : list float64) : string :=
  match l with
  | [] => "no_data"
  | _ => let v := aggregate ag rule l in
         if feqb v minus_one then "no_data" else if fgtb v (Threshold rule) then "firing" else "ok"
  end.

Lemma evaluateAlert_spec now node rule T :
  rule ∈ DefaultAlertRules →
  let r := evaluateAlert now node rule T in
  let vals := watched_values T node (now - window_of_rule rule) rule in
  a_Name r = Name rule ∧ a_Severity r = Severity rule ∧ a_Threshold r = Threshold rule ∧
  (a_Status r = verdict rule vals ∨
   a_Status r = "no_data" ∧ ∃ e,
     query_value T (alert_sql node (now - window_of_rule rule) rule).1
       (alert_sql node (now - window_of_rule rule) rule).2 = inl e) ∧
  (a_Status r ≠ "no_data" → a_Value r = round2 (aggregate ag rule vals)).
Proof.
  intros Hin r vals. destruct (rules_plain rule Hin) as (Hplain & Hop & Hw).
  unfold r, evaluateAlert. rewrite Hw. clear r.
  destruct (alert_sql _ _ _) as [q args] eqn:Eq. cbn [fst snd].
  pose proof (value_spec T node (now - window_of_rule rule) rule) as Hv. rewrite Eq in Hv.
  cbn [fst snd] in Hv. fold vals in Hv.
  destruct (query_value T q args) as [e|v] eqn:E.
  { cbn. split_and!; try done. right. split; [done|by exists e]. }
  specialize (Hv v Hplain eq_refl). unfold verdict. rewrite Hop. unfold fires. cbn [String.eqb Ascii.eqb Bool.eqb].
  destruct vals as [|x l] eqn:Evals.
  { subst v. rewrite (eq_refl : feqb minus_one minus_one = true).
    cbn -[minus_one]. split_and!; try done. by left. }
  rewrite <- Hv. destruct (feqb v minus_one); [cbn; split_and!; try done; by left|].
  destruct (fgtb v (Threshold rule)); cbn; (split_and!; [done..|by left|done]).
Qed.

(** The rules a severity asks for: all of them without one, else those of that severity. *)
Definition asked_for (severity : string) (rules : list AlertRule) : Prop :=
  rules `sublist_of` DefaultAlertRules ∧
  ∀ rule, rule ∈ rules ↔ rule ∈ DefaultAlertRules ∧ (severity = "" ∨ Severity rule = severity).

Lemma rules_for_asked severity : asked_for severity (rules_for severity).
Proof.
  unfold asked_for, rules_for. split.
  - induction DefaultAlertRules as [|r l IH]; [done|]. cbn. destruct (_ || _); by constructor.
  - intros rule. rewrite list_elem_of_In, filter_In, <- list_elem_of_In, orb_true_iff, !String.eqb_eq. done.
Qed.

(** The result for a rule. *)
Definition judged (node : string) (T : Schema.tables) (now : Z) (rule : AlertRule) (r : AlertResult) : Prop :=
  let after := now - window_of_rule rule in
  let vals := watched_values T node after rule in
  a_Name r = Name rule ∧ a_Severity r = Severity rule ∧ a_Threshold r = Threshold rule ∧
  (a_Status r = verdict rule vals ∨
   a_Status r = "no_data" ∧ ∃ e,
     query_value T (alert_sql node after rule).1 (alert_sql node after rule).2 = inl e) ∧
  (a_Status r ≠ "no_data" → a_Value r = round2 (aggregate ag rule vals)).

(** C26.  check_alerts judges by the data: there is one result for every default rule of the
      severity asked for (for every rule without one), in order, and its status is "firing" exactly when
      the rule's aggregate over the samples it watches exceeds its threshold, "no_data" when
      there are no samples or the aggregate is exactly -1 (which the query uses for
      the former), "ok" otherwise; a failing query, too, reads "no_data"; the value is the rounded
      aggregate.  The results are printed unless a value is not finite. *)
Theorem check_alerts_verdicts clk a T :
  let node := arg_string a "node_id" in
  ∃ rules results,
    asked_for (arg_string a "severity") rules ∧
    printed (flat_map (λ r, [a_Value r; a_Threshold r]) results) results (handleCheckAlerts clk a T) ∧
    length results = length rules ∧
    ∀ i rule r, rules !! i = Some rule → results !! i = Some r → judged node T (clk i) rule r.
Proof.
  intros node. set (rules := rules_for (arg_string a "severity")).
  exists rules, (evaluate_all clk node rules T). split; [apply rules_for_asked|].
  split; [apply jsonResult_printed|].
  assert (Hrules : ∀ rule, rule ∈ rules → rule ∈ DefaultAlertRules).
  { intros rule Hin. by apply (rules_for_asked (arg_string a "severity")) in Hin as [? _]. }
  clearbody rules. revert clk. induction rules as [|rule rules IH]; intros clk; [done|].
  destruct (IH ltac:(intros r Hr; apply Hrules; by right) (λ i, clk (S i))) as [Hlen Hi].
  split; [cbn; by rewrite Hlen|]. intros [|i] rule' r Hr Hres.
  - cbn in Hr, Hres. simplify_eq. apply evaluateAlert_spec, Hrules. left.
  - by apply (Hi i rule' r).
Qed.
End AlertProofs.

(** * The rules at work on a table in memory *)
Section AlertWitness.
Import McpQuery McpAlerts AlertSpec MemPg.
#[local] Instance no_unicode : Unicode := {| unicode_ToLower s := s; unicode_Quote s := s |}.

(** A server that reads the statements of the rules back. *)
Definition read_rule (q : string) (args : list sql_arg) : option (string * Z * AlertRule) :=
  let agg := if String.eqb q (alert_text "MAX") || String.eqb q (alert_text "MAX" +:+ " AND dimension = $4")
             then "max"
             else if String.eqb q (alert_text "MIN") || String.eqb q (alert_text "MIN" +:+ " AND dimension = $4")
             then "min" else "avg" in
  match args with
  | [AText node; ATime after; AText ctx] =>
      Some (node, after, mkRule "" (TrimSuffix ctx "%") "" "" f64_zero "" agg "")
  | [AText node; ATime after; AText ctx; AText dim] =>
      Some (node, after, mkRule "" (TrimSuffix ctx "%") dim "" f64_zero "" agg "")
  | _ => None
  end.

#[local] Instance mem_values : ValueReader := {|
  query_value T q args :=
    match read_rule q args with
    | Some (node, after, rule) =>
        inr (match watched_values T node after rule with
             | [] => minus_one | l => aggregate simple_aggregates rule l end)
    | None => inl "syntax error"
    end;
|}.

Lemma TrimSuffix_app s p : TrimSuffix (s +:+ p) p = s.
Proof.
  unfold TrimSuffix, HasSuffix. rewrite length_sapp, Nat.add_sub, sdrop_app, String.eqb_refl.
  rewrite (proj2 (Nat.leb_le _ _)) by lia. apply stake_app.
Qed.

#[local] Instance mem_values_laws : ValueReaderLaws simple_aggregates mem_values.
Proof.
  split. intros T node after rule v _ E. cbn [query_value mem_values] in E.
  assert (Hread : ∃ agg, read_rule (alert_sql node after rule).1 (alert_sql node after rule).2 =
      Some (node, after, mkRule "" (Context_ rule) (Dimension rule) "" f64_zero "" agg "") ∧
    ∀ l, aggregate simple_aggregates (mkRule "" (Context_ rule) (Dimension rule) "" f64_zero "" agg "") l =
         aggregate simple_aggregates rule l).
  { unfold alert_sql, aggFunc, aggregate.
    destruct (String.eqb_spec (Dimension rule) "") as [->|_];
      cbn [fst snd read_rule app]; rewrite TrimSuffix_app;
      destruct (String.eqb (Aggregator rule) "max");
      try destruct (String.eqb (Aggregator rule) "min"); eexists; split; reflexivity. }
  destruct Hread as (agg & Hr & Hagg). rewrite Hr in E. injection E as <-.
  unfold watched_values, watched. cbn [Context_ Dimension].
  destruct (map _ _) as [|x l]; [done|]. apply Hagg.
Qed.

Definition busy : Schema.tables :=
  Schema.mkTables
    [Schema.mkRow "n1" 0 "system.cpu" None None None "user" None (f64_of_Z 99) ∅;
     Schema.mkRow "n1" 0 "disk.util_sda" None None None "utilization" None (f64_of_Z (-1)) ∅] ∅ ∅ ∅.

Definition critical : arguments := {["node_id" := JStr "n1"; "severity" := JStr "critical"]}.

(** Of the two critical rules one fires; a disk that is busy -1 percent has no data. *)
Lemma check_alerts_verdicts_witness :
  ∃ r1 r2, handleCheckAlerts (λ _, Minute) critical busy = JSON [r1; r2] ∧
    a_Status r1 = "firing" ∧ a_Status r2 = "no_data" ∧
    ∃ rules, asked_for "critical" rules ∧ length rules = 2%nat.
Proof.
  eexists _, _. split; [vm_compute; reflexivity|]. split; [reflexivity|]. split; [reflexivity|].
  destruct (check_alerts_verdicts (λ _, Minute) critical busy) as (rules & results & Hr & _).
  exists rules. assert (Hs : arg_string critical "severity" = "critical") by reflexivity. rewrite Hs in Hr.
  split; [exact Hr|]. destruct Hr as [Hsub Hr]. apply Nat.le_antisymm.
  - assert (Hle : rules ⊆+ rules_for "critical").
    { apply NoDup_submseteq.
      - eapply sublist_NoDup; [|exact Hsub]. apply (NoDup_fmap_1 Name).
        apply (bool_decide_unpack _). vm_compute. exact I.
      - intros rule Hin. by apply rules_for_asked, Hr. }
    apply submseteq_length in Hle. exact Hle.
  - assert (Hle : rules_for "critical" ⊆+ rules).
    { apply NoDup_submseteq.
      - apply (NoDup_fmap_1 Name). apply (bool_decide_unpack _). vm_compute. exact I.
      - intros rule Hin. by apply Hr, rules_for_asked. }
    apply submseteq_length in Hle. exact Hle.
Defined.
End AlertWitness.
