(* ===== verification/McpNatural.v ===== *)
(** The natural-language tool of the MCP server, internal/mcp/nlquery.go. *)

From Stdlib Require Import Ascii SpecFloat.
From S2P Require Import Prelude GoInt GoFloat GoTime GoString GoDuration Store Collector McpQuery.

Module McpNatural.
Import McpQuery.

Record nlQueryPlan := mkPlan {
  OriginalQuery : string;
  Interpretation : string;
  Context_ : string;
  Dimension : string;
  After : string;
  NodeID : string;
}.

(** [fmt.Sprintf("-%dh", days*24)]. *)
Definition days_after (days : Z) : string := "-" +:+ fmt_d (days * 24) +:+ "h".

(** The first switch of [parseNaturalQuery]: the time, from the words of the question in
    lower case. *)
Definition any (q : string) (words : list string) : bool := existsb (Contains q) words.

Definition time_of (q : string) : string :=
  if any q ["last week"; "past week"; "7 day"] then days_after 7
  else if any q ["last month"; "past month"; "30 day"] then days_after 30
  else if any q ["last 3 day"; "past 3 day"; "3 days"] then days_after 3
  else if any q ["last 24"; "past 24"; "yesterday"] then "-24h"
  else if any q ["last 12"; "past 12"] then "-12h"
  else if any q ["last 6"; "past 6"] then "-6h"
  else if any q ["last 2 hour"; "past 2 hour"] then "-2h"
  else if any q ["last 30"; "past 30"] then "-30m"
  else if any q ["last 15"; "past 15"; "15 min"] then "-15m"
  else if any q ["last 5"; "past 5"; "5 min"] then "-5m"
  else "-1h".

(** The second switch: context, dimension and interpretation. *)
Definition subject_of (q : string) : string * string * string :=
  if any q ["cpu"] then
    ("system.cpu",
     if any q ["user"] then "user"
     else if any q ["system"; "kernel"] then "system"
     else if any q ["iowait"; "io wait"] then "iowait"
     else "",
     "CPU usage metrics")
  else if any q ["ram"; "memory"; "mem"] then
    ("system.ram",
     if any q ["used"] then "used" else if any q ["free"] then "free" else "",
     "RAM usage metrics")
  else if any q ["swap"] then ("system.swap", "", "Swap usage metrics")
  else if any q ["disk space"; "storage"; "disk.space"] then ("disk.space", "", "Disk space metrics")
  else if any q ["disk io"; "disk read"; "disk write"] then
    ("disk.io",
     if any q ["read"] then "reads" else if any q ["write"] then "writes" else "",
     "Disk I/O throughput")
  else if any q ["disk util"; "disk busy"] then ("disk.util", "", "Disk utilization percentage")
  else if any q ["disk"] then ("disk.io", "", "Disk I/O metrics")
  else if any q ["network"; "net"; "bandwidth"] then ("system.ip", "", "Network IP traffic")
  else if any q ["io"; "i/o"] then ("system.io", "", "System I/O metrics")
  else ("system.cpu", "", "Defaulting to CPU metrics (could not determine specific context)").

Section Natural.
Context `{Unicode}.

(** [parseNaturalQuery], with the readings of the clock for the time and for its distance. *)
Definition parseNaturalQuery (now1 now2 : Z) (query nodeID : string) : nlQueryPlan :=
  let q := ToLower query in
  let after := time_of q in
  let '(context, dimension, interpretation) := subject_of q in
  let afterDur := match parseTimeArg now1 after with inr t => t | inl _ => zero_time end in
  let window := Duration_Round (time_Sub now2 afterDur) Minute in
  mkPlan query (interpretation +:+ " over the last " +:+ Duration_String window) context dimension
    after nodeID.

(** The request for query_hardware_metrics made from a plan. *)
Definition fakeReq (plan : nlQueryPlan) : arguments :=
  let args : arguments :=
    <["after" := JStr (After plan)]> (<["context" := JStr (Context_ plan)]>
      {["node_id" := JStr (NodeID plan)]}) in
  if String.eqb (Dimension plan) "" then args
  else <["dimension" := JStr (Dimension plan)]> args.

(** [handleNaturalQuery]: the plan and the result of the query; the tool prints both into one
    text. *)
Definition handleNaturalQuery `{Reader} (now1 now2 now3 : Z) (a : arguments) (T : Schema.tables)
    : nlQueryPlan * result (list Schema.row) :=
  let plan := parseNaturalQuery now1 now2 (arg_string a "query") (arg_string a "node_id") in
  (plan, handleQueryMetrics now3 now3 (fakeReq plan) T).
End Natural.
End McpNatural.

Section NaturalProofs.
Import McpQuery QuerySpec McpNatural.
Context `{Unicode}.

(** The windows of the plans, in minutes. *)
Definition minutes_of (after : string) : Z :=
  if String.eqb after "-168h" then 10080
  else if String.eqb after "-720h" then 43200
  else if String.eqb after "-72h" then 4320
  else if String.eqb after "-24h" then 1440
  else if String.eqb after "-12h" then 720
  else if String.eqb after "-6h" then 360
  else if String.eqb after "-2h" then 120
  else if String.eqb after "-30m" then 30
  else if String.eqb after "-15m" then 15
  else if String.eqb after "-5m" then 5
  else 60.

Lemma time_of_cases q :
  time_of q ∈ ["-168h"; "-720h"; "-72h"; "-24h"; "-12h"; "-6h"; "-2h"; "-30m"; "-15m"; "-5m"; "-1h"].
Proof.
  unfold time_of. repeat (destruct (any q _); [apply (bool_decide_unpack _); vm_compute; exact I|]).
  apply (bool_decide_unpack _). vm_compute. exact I.
Qed.

Lemma time_of_parses now q : parseTimeArg now (time_of q) = inr (now - minutes_of (time_of q) * Minute).
Proof.
  assert (Hh : ∀ n, 0 <= n <= 1000 → parseTimeArg now ("-" +:+ fmt_d n +:+ "h") = inr (now - n * Hour)).
  { intros n Hn. apply parseTimeArg_ago; [lia|done|unfold max_int64; unfold_time; lia]. }
  assert (Hm : ∀ n, 0 <= n <= 1000 → parseTimeArg now ("-" +:+ fmt_d n +:+ "m") = inr (now - n * Minute)).
  { intros n Hn. apply parseTimeArg_ago; [lia|done|unfold max_int64; unfold_time; lia]. }
  pose proof (time_of_cases q) as Hin. generalize dependent (time_of q). intros after Hin.
  repeat (apply elem_of_cons in Hin as [->|Hin];
    [first [apply (Hh 168)|apply (Hh 720)|apply (Hh 72)|apply (Hh 24)|apply (Hh 12)|apply (Hh 6)
           |apply (Hh 2)|apply (Hh 1)|apply (Hm 30)|apply (Hm 15)|apply (Hm 5)]; done|]).
  by apply elem_of_nil in Hin.
Qed.

(** The filters of a plan, for the start of its window. *)
Definition plan_filters (plan : nlQueryPlan) (after : Z) : list filter :=
  text_filter NodeIs (NodeID plan) ++ [FText ContextIs (Context_ plan)] ++
  text_filter DimensionIs (Dimension plan) ++ [FAfter after].

Lemma fakeReq_args plan :
  arg_string (fakeReq plan) "after" = After plan ∧
  arg_string (fakeReq plan) "context" = Context_ plan ∧
  arg_string (fakeReq plan) "node_id" = NodeID plan ∧
  arg_string (fakeReq plan) "dimension" = Dimension plan ∧
  arg_string (fakeReq plan) "before" = "" ∧ arg_string (fakeReq plan) "instance" = "" ∧
  arg_string (fakeReq plan) "labels" = "" ∧ arg_float (fakeReq plan) "limit" = f64_zero.
Proof.
  unfold fakeReq, arg_string, arg_float. destruct (String.eqb_spec (Dimension plan) "") as [->|_];
    simplify_map_eq; done.
Qed.

Lemma fakeReq_filters plan after :
  After plan ≠ "" → Context_ plan ≠ "" →
  metrics_filters (fakeReq plan) after 0 = plan_filters plan after.
Proof.
  intros Ha Hc. destruct (fakeReq_args plan) as (Ea & Ec & En & Ed & Eb & Ei & El & _).
  unfold metrics_filters, plan_filters. rewrite Ea, Ec, En, Ed, Eb, Ei, El.
  unfold text_filter at 2, time_filter. rewrite !(proj2 (String.eqb_neq _ _)) by done.
  reflexivity.
Qed.

(** C35.  natural_query asks what its plan says: for every question whatever, the plan has the
      context, dimension and time its words stand for and the node given, and the answer is what the
      query tool makes of exactly that: stored samples of the context, of the node and the
      dimension if there is one, no older than the window, newest first, at most 500 and with
      none missing but older ones beyond these (unless the server broke off); printed when their values are
      finite; never the error for an unreadable time. *)
Theorem natural_query_follows_plan `{RL : ReaderLaws} now1 now2 now3 a T :
  let '(plan, answer) := handleNaturalQuery now1 now2 now3 a T in
  let q := ToLower (arg_string a "query") in
  let after := now3 - minutes_of (After plan) * Minute in
  After plan = time_of q ∧ (Context_ plan, Dimension plan) = (subject_of q).1 ∧
  Context_ plan ≠ "" ∧ NodeID plan = arg_string a "node_id" ∧
  samples_answered (plan_filters plan after) 500 T answer.
Proof.
  unfold handleNaturalQuery. set (q := ToLower _). set (plan := parseNaturalQuery _ _ _ _).
  assert (Hplan : After plan = time_of q ∧ (Context_ plan, Dimension plan) = (subject_of q).1 ∧
    NodeID plan = arg_string a "node_id").
  { unfold plan, parseNaturalQuery. fold q. by destruct (subject_of q) as [[? ?] ?]. }
  assert (Hctx : Context_ plan ≠ "").
  { unfold plan, parseNaturalQuery, subject_of.
    repeat (destruct (any _ _); [done|]). done. }
  clearbody plan. destruct Hplan as (Hafter & Hsub & Hnode). split_and!; [done..|].
  destruct (fakeReq_args plan) as (Ea & _ & _ & _ & Eb & _ & _ & El).
  assert (Hane : After plan ≠ "").
  { rewrite Hafter. pose proof (time_of_cases q) as Hcases. generalize dependent (time_of q). intros.
    repeat (apply elem_of_cons in Hcases as [->|Hcases]; [done|]). by apply elem_of_nil in Hcases. }
  rewrite <- (fakeReq_filters plan) by done.
  rewrite <- (proj1 (proj2 (limit_of_spec (arg_float (fakeReq plan) "limit")))) by (by rewrite El).
  apply handleQueryMetrics_answered.
  - intros _. rewrite Ea, Hafter. apply time_of_parses.
  - intros Hne. by rewrite Eb in Hne.
Qed.
End NaturalProofs.

Section NaturalWitness.
Import McpQuery QuerySpec McpNatural MemReader.

(** The words are matched anywhere in the question, so that a number is read by its first
    digit and days other than 1, 3, 7 and 30 are not read at all. *)
Lemma natural_misreadings `{Unicode} :
  map (λ q, (After (parseNaturalQuery 0 0 q ""), Context_ (parseNaturalQuery 0 0 q "")))
    ["CPU last 60 minutes"; "CPU last 50 hours"; "CPU over 13 days"; "CPU last 2 days";
     "how many programs waited for the disk"; "temperature of the ionic unit"] =
  [("-6h", "system.cpu"); ("-5m", "system.cpu"); ("-72h", "system.cpu"); ("-1h", "system.cpu");
   ("-1h", "system.ram"); ("-1h", "system.io")].
Proof. vm_compute. reflexivity. Qed.

#[local] Instance no_unicode : Unicode := {| unicode_ToLower s := s; unicode_Quote s := s |}.

Definition question : arguments := {["query" := JStr "show me CPU user last 6 hours"; "node_id" := JStr "n1"]}.

Lemma natural_query_follows_plan_witness :
  let '(plan, answer) := handleNaturalQuery (7 * Hour) (7 * Hour) (7 * Hour) question cpu_tables in
  After plan = "-6h" ∧ answer = JSON [cpu_row (2 * Hour) "user" 3; cpu_row Hour "user" 2] ∧
  Interpretation plan = "CPU usage metrics over the last 6h0m0s" ∧ Context_ plan ≠ "".
Proof.
  pose proof (natural_query_follows_plan (7 * Hour) (7 * Hour) (7 * Hour) question cpu_tables) as H.
  destruct (handleNaturalQuery _ _ _ question cpu_tables) as [plan answer] eqn:E.
  destruct H as (_ & _ & Hc & _). vm_compute in E. injection E as <- <-.
  split; [vm_compute; reflexivity|]. split; [vm_compute; reflexivity|].
  split; [vm_compute; reflexivity|exact Hc].
Defined.
End NaturalWitness.
