(* ===== verification/McpSummary.v ===== *)
(** The summary and bottleneck tools of the MCP server, internal/mcp/server.go.  The order in
    which a range loop visits a map and what [sort.Slice] does with elements of equal
    rank are the parameters of GoSort. *)

From Stdlib Require Import Ascii SpecFloat Sorted.
From stdpp Require Import sorting.
From S2P Require Import Prelude GoInt GoFloat GoTime GoString GoDuration Store Collector McpQuery GoSort.

Module McpSummary.
Import McpQuery.

(** ** summarize_hardware_performance *)

(** [dimStats]. *)
Record dimStats := mkStats { Sum : float64; Count : Z; Max : float64; Min : float64 }.

Definition stats_map : Type := gmap string (gmap string dimStats).

(** A row of the window: context, dimension, instance and value. *)
Definition window_row : Type := string * string * option string * float64.

Definition stat_key (dim : string) (inst : option string) : string :=
  match inst with
  | Some i => if String.eqb i "" then dim else i +:+ "/" +:+ dim
  | None => dim
  end.

Definition new_stats : dimStats := mkStats f64_zero 0 f64_zero f64_max.

Definition add_value (val : float64) (ds : dimStats) : dimStats :=
  mkStats (fadd (Sum ds) val) (Count ds + 1)
    (if fgtb val (Max ds) then val else Max ds)
    (if fltb val (Min ds) then val else Min ds).

(** The loop over the rows in [handleSummarize]. *)
Definition add_row (stats : stats_map) (r : window_row) : stats_map :=
  let '(ctxName, dim, inst, val) := r in
  let key := stat_key dim inst in
  let dims := default ∅ (stats !! ctxName) in
  let ds := default new_stats (dims !! key) in
  <[ctxName := <[key := add_value val ds]> dims]> stats.

Definition collect_stats (rows : list window_row) : stats_map := fold_left add_row rows ∅.

Record DimStat := mkDimStat { d_Avg : float64; d_Max : float64; d_Min : float64 }.

Record ResourceSummary := mkResource {
  AveragePercent : float64;
  PeakPercent : float64;
  Dimensions : gmap string DimStat;
}.

Record AbnormalDimension := mkAbnormal {
  ab_Context : string;
  ab_Dimension : string;
  ab_MaxValue : float64;
  ab_AvgValue : float64;
}.

Record SummaryResult := mkSummary {
  NodeID : string;
  From : Z;
  To : Z;
  CPU : option ResourceSummary;
  RAM : option ResourceSummary;
  DiskIO : option ResourceSummary;
  DiskUtil : option ResourceSummary;
  TopAbnormal : list AbnormalDimension;
  Summary : string;
}.

Definition avg_of (ds : dimStats) : float64 := fdiv (Sum ds) (f64_of_Z (Count ds)).

Definition dim_stat (ds : dimStats) : DimStat :=
  mkDimStat (round2 (avg_of ds)) (round2 (Max ds)) (round2 (Min ds)).

Section Build.
Context `{MapOrder} `{SortSlice}.

(** The CPU part: the average is the sum over the dimensions other than idle. *)
Definition cpu_totals (cpuDims : gmap string dimStats) : float64 * float64 :=
  fold_left (λ acc p,
    let '(totalAvg, totalMax) := acc in
    let '(dim, ds) := p in
    if String.eqb dim "idle" then acc
    else (fadd totalAvg (avg_of ds), if fgtb (Max ds) totalMax then Max ds else totalMax))
    (map_order cpuDims) (f64_zero, f64_zero).

Definition resource (avg peak : float64) (dims : gmap string dimStats) : ResourceSummary :=
  mkResource avg peak (dim_stat <$> dims).

(** The first context, in the order of the map, whose name has one of the prefixes. *)
Definition first_with (prefixes : list string) (stats : stats_map)
    : option (string * gmap string dimStats) :=
  List.find (λ p, existsb (HasPrefix p.1) prefixes) (map_order stats).

Definition util_max (dims : gmap string dimStats) : float64 :=
  fold_left (λ m p, if fgtb (Max p.2) m then Max p.2 else m) (map_order dims) f64_zero.

(** The candidates for the abnormal dimensions. *)
Record abnormalCandidate := mkCandidate {
  c_ctx : string;
  c_dim : string;
  c_max : float64;
  c_avg : float64;
}.

Definition skipped_dims : list string := ["idle"; "free"; "available"; "cached"; "buffers"].

Definition candidates (stats : stats_map) : list abnormalCandidate :=
  flat_map (λ p,
    flat_map (λ q, if existsb (String.eqb q.1) skipped_dims then []
                   else [mkCandidate p.1 q.1 (Max q.2) (avg_of q.2)]) (map_order p.2))
    (map_order stats).

Definition top_abnormal (stats : stats_map) : list AbnormalDimension :=
  map (λ c, mkAbnormal (c_ctx c) (c_dim c) (round2 (c_max c)) (round2 (c_avg c)))
    (take 5 (sort_Slice (λ a b, fgtb (c_max a) (c_max b)) (candidates stats))).

(** [buildSummary]. *)
Definition buildSummary (nodeID : string) (from to : Z) (stats : stats_map) : SummaryResult :=
  let cpu :=
    match stats !! "system.cpu" with
    | Some dims =>
        let '(totalAvg, totalMax) := cpu_totals dims in
        (Some (resource (round2 totalAvg) (round2 totalMax) dims),
         ["CPU: " +:+ fmt_f 1 totalAvg +:+ "% avg, " +:+ fmt_f 1 totalMax +:+ "% peak"])
    | None => (None, [])
    end in
  let ram :=
    match stats !! "system.ram" with
    | Some dims =>
        let '(usedAvg, usedMax) :=
          match dims !! "used" with Some ds => (avg_of ds, Max ds) | None => (f64_zero, f64_zero) end in
        (Some (resource (round2 usedAvg) (round2 usedMax) dims),
         ["RAM used: " +:+ fmt_f 1 usedAvg +:+ " avg, " +:+ fmt_f 1 usedMax +:+ " peak (MiB)"])
    | None => (None, [])
    end in
  let diskIO :=
    match first_with ["disk.io"; "system.io"] stats with
    | Some (_, dims) => Some (resource f64_zero f64_zero dims)
    | None => None
    end in
  let util :=
    match first_with ["disk.util"] stats with
    | Some (_, dims) =>
        (Some (resource f64_zero (round2 (util_max dims)) dims),
         ["Disk util peak: " +:+ fmt_f 1 (util_max dims) +:+ "%"])
    | None => (None, [])
    end in
  let summaryParts := cpu.2 ++ ram.2 ++ util.2 in
  mkSummary nodeID from to cpu.1 ram.1 diskIO util.1 (top_abnormal stats)
    (if 0 <? zlen summaryParts
     then "Node " +:+ nodeID +:+ " (" +:+ Format_RFC3339 from +:+ " to " +:+ Format_RFC3339 to +:+ "): " +:+
          Join summaryParts "; "
     else "Node " +:+ nodeID +:+ ": no CPU/RAM/disk data in the selected window").

Definition by_key (p q : string * DimStat) : Prop := String.leb p.1 q.1 = true.
#[export] Instance by_key_dec p q : Decision (by_key p q).
Proof. unfold by_key. apply _. Defined.

(** The numbers of a summary, in the order of the JSON text (members of a map by key). *)
Definition resource_numbers (r : option ResourceSummary) : list float64 :=
  match r with
  | None => []
  | Some r =>
      [AveragePercent r; PeakPercent r] ++
      flat_map (λ p, [d_Avg p.2; d_Max p.2; d_Min p.2])
        (merge_sort by_key (map_to_list (Dimensions r)))
  end.

Definition summary_numbers (s : SummaryResult) : list float64 :=
  resource_numbers (CPU s) ++ resource_numbers (RAM s) ++ resource_numbers (DiskIO s) ++
  resource_numbers (DiskUtil s) ++
  flat_map (λ a, [ab_MaxValue a; ab_AvgValue a]) (TopAbnormal s).

(** [handleSummarize], for the rows that the window query delivers: for a node and a window,
    in the order of contexts and dimensions. *)
Definition handleSummarize `{Unicode} (query : string → Z → Z → answer window_row)
    (now1 now2 now3 : Z) (a : arguments) : result SummaryResult :=
  let afterStr := arg_string a "after" in
  let beforeStr := arg_string a "before" in
  let afterStr := if String.eqb afterStr "" then "-1h" else afterStr in
  match parseTimeArg now1 afterStr with
  | inl e => textResult ("Invalid 'after': " +:+ e)
  | inr afterTime =>
      let before :=
        if String.eqb beforeStr "" then inr now2
        else match parseTimeArg now3 beforeStr with
             | inl e => inl ("Invalid 'before': " +:+ e)
             | inr t => inr t
             end in
      match before with
      | inl e => textResult e
      | inr beforeTime =>
          match query (arg_string a "node_id") afterTime beforeTime with
          | inl e => textResult ("Error querying: " +:+ e)
          | inr (rows, _) =>
              let s := buildSummary (arg_string a "node_id") afterTime beforeTime (collect_stats rows) in
              jsonResult (summary_numbers s) s
          end
      end
  end.
End Build.

(** ** find_hardware_bottlenecks *)
Record DimAgg := mkAgg {
  g_Context : string;
  g_Dimension : string;
  g_Instance : option string;
  g_Avg : float64;
  g_Max : float64;
  g_Count : Z;
}.

Record BottleneckEvidence := mkEvidence {
  e_Context : string;
  e_Dimension : string;
  e_Instance : string;
  e_AvgValue : float64;
  e_MaxValue : float64;
}.

Record BottleneckResult := mkBottleneck {
  b_NodeID : string;
  b_Type : string;
  b_Confidence : float64;
  b_Evidence : list BottleneckEvidence;
  b_Explanation : string;
}.

(** The variables of the loop in [DetectBottlenecks]. *)
Record usage := mkUsage {
  cpuUsageAvg : float64;
  cpuUsageMax : float64;
  ramUsedAvg : float64;
  ramUsedMax : float64;
  diskUtilMax : float64;
  iowaitAvg : float64;
  swapUsedAvg : float64;
  hasCPU : bool;
  hasRAM : bool;
  hasDisk : bool;
}.

Definition usage0 : usage :=
  mkUsage f64_zero f64_zero f64_zero f64_zero f64_zero f64_zero f64_zero false false false.

Definition add_agg (u : usage) (a : DimAgg) : usage :=
  let '(mkUsage ca cm ra rm dm io sw hc hr hd) := u in
  if String.eqb (g_Context a) "system.cpu" then
    let '(ca, cm) :=
      if String.eqb (g_Dimension a) "idle" then (ca, cm)
      else (fadd ca (g_Avg a), if fgtb (g_Max a) cm then g_Max a else cm) in
    mkUsage ca cm ra rm dm (if String.eqb (g_Dimension a) "iowait" then g_Avg a else io) sw true hr hd
  else if String.eqb (g_Context a) "system.ram" then
    let '(ra, rm) := if String.eqb (g_Dimension a) "used" then (g_Avg a, g_Max a) else (ra, rm) in
    mkUsage ca cm ra rm dm io sw hc true hd
  else if String.eqb (g_Context a) "system.swap" then
    mkUsage ca cm ra rm dm io (if String.eqb (g_Dimension a) "used" then g_Avg a else sw) hc hr hd
  else if HasPrefix (g_Context a) "disk.util" then
    mkUsage ca cm ra rm (if fgtb (g_Max a) dm then g_Max a else dm) io sw hc hr true
  else u.

Definition usage_of (aggs : list DimAgg) : usage := fold_left add_agg aggs usage0.

Record candidate := mkBCandidate {
  btype : string;
  confidence : float64;
  evidence : list BottleneckEvidence;
  explain : string;
}.

Definition num (z : Z) : float64 := f64_of_Z z.

Definition cpu_candidate (u : usage) : list candidate :=
  if hasCPU u && (fgtb (cpuUsageAvg u) (num 80) || fgtb (cpuUsageMax u) (num 95)) then
    let conf := f64_min (num 1)
      (fmul (fdiv (fadd (fdiv (cpuUsageAvg u) (num 100)) (fdiv (cpuUsageMax u) (num 100))) (num 2))
            (f64_ratio 12 10)) in
    [mkBCandidate "cpu" (round2 conf)
       [mkEvidence "system.cpu" "total_usage" "" (round2 (cpuUsageAvg u)) (round2 (cpuUsageMax u))]
       ("CPU usage avg " +:+ fmt_f 1 (cpuUsageAvg u) +:+ "%, peak " +:+ fmt_f 1 (cpuUsageMax u) +:+
        "% — indicates CPU saturation")]
  else [].

Definition ram_candidate (u : usage) : list candidate :=
  if hasRAM u &&
     (fgtb (ramUsedMax u) f64_zero &&
      (fgtb (swapUsedAvg u) (num 100) ||
       fgtb (ramUsedAvg u) (fmul (ramUsedMax u) (f64_ratio 9 10)))) then
    let conf := if fgtb (swapUsedAvg u) (num 500) then f64_ratio 9 10 else f64_ratio 6 10 in
    [mkBCandidate "ram" (round2 conf)
       [mkEvidence "system.ram" "used" "" (round2 (ramUsedAvg u)) (round2 (ramUsedMax u));
        mkEvidence "system.swap" "used" "" (round2 (swapUsedAvg u)) f64_zero]
       ("RAM used avg " +:+ fmt_f 0 (ramUsedAvg u) +:+ " / max " +:+ fmt_f 0 (ramUsedMax u) +:+
        " MiB, swap used avg " +:+ fmt_f 0 (swapUsedAvg u) +:+ " MiB — memory pressure detected")]
  else [].

Definition disk_candidate (u : usage) : list candidate :=
  if (hasDisk u || fgtb (iowaitAvg u) (num 5)) &&
     (fgtb (diskUtilMax u) (num 80) || fgtb (iowaitAvg u) (num 10)) then
    let conf := f64_min (num 1)
      (fmul (fdiv (fadd (fdiv (diskUtilMax u) (num 100)) (fdiv (iowaitAvg u) (num 20))) (num 2))
            (f64_ratio 13 10)) in
    [mkBCandidate "disk" (round2 conf)
       ((if hasDisk u then [mkEvidence "disk.util" "utilization" "" f64_zero (round2 (diskUtilMax u))] else []) ++
        (if fgtb (iowaitAvg u) f64_zero
         then [mkEvidence "system.cpu" "iowait" "" (round2 (iowaitAvg u)) f64_zero] else []))
       ("Disk util peak " +:+ fmt_f 1 (diskUtilMax u) +:+ "%, CPU iowait avg " +:+ fmt_f 1 (iowaitAvg u) +:+
        "% — disk I/O bottleneck likely")]
  else [].

Definition all_candidates (u : usage) : list candidate :=
  cpu_candidate u ++ ram_candidate u ++ disk_candidate u.

(** [DetectBottlenecks]. *)
Definition DetectBottlenecks `{SortSlice} (nodeID : string) (aggs : list DimAgg) : BottleneckResult :=
  match sort_Slice (λ a b, fgtb (confidence a) (confidence b)) (all_candidates (usage_of aggs)) with
  | [] =>
      mkBottleneck nodeID "none" (f64_ratio 9 10) []
        "No bottlenecks detected — CPU, RAM, and disk metrics are within normal ranges"
  | best :: _ => mkBottleneck nodeID (btype best) (confidence best) (evidence best) (explain best)
  end.

(** [handleBottlenecks], for the groups that its query delivers. *)
Definition handleBottlenecks `{SortSlice} `{Unicode} (query : string → Z → answer DimAgg) (now : Z)
    (a : arguments) : result BottleneckResult :=
  let afterStr := arg_string a "after" in
  let afterStr := if String.eqb afterStr "" then "-15m" else afterStr in
  match parseTimeArg now afterStr with
  | inl e => textResult ("Invalid 'after': " +:+ e)
  | inr afterTime =>
      match query (arg_string a "node_id") afterTime with
      | inl e => textResult ("Error: " +:+ e)
      | inr (aggs, _) =>
          let r := DetectBottlenecks (arg_string a "node_id") aggs in
          jsonResult (b_Confidence r :: flat_map (λ e, [e_AvgValue e; e_MaxValue e]) (b_Evidence r)) r
      end
  end.
End McpSummary.

(** * Properties of the summary *)
Section SummaryProofs.
Import McpQuery McpSummary.

(** The values of one context and key, in the order of the rows. *)
Definition values_of (ctx key : string) (rows : list window_row) : list float64 :=
  omap (λ r : window_row, let '(c, d, i, v) := r in
          if String.eqb c ctx && String.eqb (stat_key d i) key then Some v else None) rows.

Definition stats_of (vals : list float64) : dimStats :=
  fold_left (λ ds v, add_value v ds) vals new_stats.

Definition stat_at (stats : stats_map) (ctx key : string) : option dimStats :=
  default ∅ (stats !! ctx) !! key.

Lemma add_row_at stats r ctx key :
  stat_at (add_row stats r) ctx key =
    match values_of ctx key [r] with
    | v :: _ => Some (add_value v (default new_stats (stat_at stats ctx key)))
    | [] => stat_at stats ctx key
    end.
Proof.
  destruct r as [[[c d] i] v]. unfold stat_at, add_row, values_of, stats_map in *.
  cbn [omap list_omap].
  destruct (String.eqb_spec c ctx) as [->|Hc]; cbn.
  - rewrite lookup_insert_eq. cbn. destruct (String.eqb_spec (stat_key d i) key) as [->|Hk]; cbn.
    + by rewrite lookup_insert_eq.
    + by rewrite lookup_insert_ne.
  - by rewrite lookup_insert_ne.
Qed.

(** The statistics of a key are those of its values. *)
Lemma collect_stats_at rows ctx key :
  stat_at (collect_stats rows) ctx key =
    match values_of ctx key rows with [] => None | vals => Some (stats_of vals) end.
Proof.
  unfold collect_stats. induction rows as [|r rows IH] using rev_ind; [done|].
  rewrite fold_left_app. cbn [fold_left]. rewrite add_row_at, IH.
  assert (Happ : values_of ctx key (rows ++ [r]) = values_of ctx key rows ++ values_of ctx key [r])
    by (unfold values_of; apply omap_app).
  rewrite Happ. clear IH Happ.
  assert (Hr : values_of ctx key [r] = [] ∨ ∃ v, values_of ctx key [r] = [v]).
  { unfold values_of. cbn [omap list_omap]. destruct r as [[[c d] i] v].
    destruct (_ && _); [right; by exists v|by left]. }
  destruct Hr as [->|[v ->]]; [by rewrite app_nil_r|].
  destruct (values_of ctx key rows) as [|v0 vs]; [done|]. cbn [app default]. f_equal.
  unfold stats_of. change (v0 :: vs ++ [v]) with ((v0 :: vs) ++ [v]). by rewrite fold_left_app.
Qed.

Lemma stats_of_spec vals :
  Forall num64 vals →
  let ds := stats_of vals in
  Count ds = zlen vals ∧ Sum ds = fold_left fadd vals f64_zero ∧
  num64 (Max ds) ∧ num64 (Min ds) ∧
  (∀ v, v ∈ vals → fval v <= fval (Max ds) ∧ fval (Min ds) <= fval v) ∧
  0 <= fval (Max ds) ∧ (Max ds = f64_zero ∨ Max ds ∈ vals) ∧ (Min ds = f64_max ∨ Min ds ∈ vals).
Proof.
  cbv zeta. unfold stats_of. induction vals as [|v vals IH] using rev_ind; intros Hnum.
  { cbn. split_and!; try done; [|by left|by left]. intros v Hv. by apply not_elem_of_nil in Hv. }
  apply Forall_app in Hnum as [Hvals Hv]. apply Forall_inv in Hv.
  destruct (IH Hvals) as (Hc & Hsum & Hmaxn & Hminn & Hb & H0 & Hmax & Hmin). clear IH.
  rewrite !fold_left_app. cbn [fold_left]. set (ds := fold_left _ vals new_stats) in *. clearbody ds.
  unfold add_value. cbn [Count Sum Max Min].
  assert (Hgt : fgtb v (Max ds) = (fval (Max ds) <? fval v)) by (by apply fgtb_fval).
  assert (Hlt : fltb v (Min ds) = (fval v <? fval (Min ds))) by (by apply fltb_fval).
  rewrite Hgt, Hlt.
  split; [rewrite Hc, zlen_app, zlen_cons, zlen_nil; lia|]. split; [by rewrite Hsum|].
  split; [by destruct (_ <? _)|]. split; [by destruct (fval v <? _)|]. split.
  { intros w Hw. apply elem_of_app in Hw as [Hw| ->%list_elem_of_singleton].
    - destruct (Hb w Hw). split.
      + destruct (Z.ltb_spec (fval (Max ds)) (fval v)); lia.
      + destruct (Z.ltb_spec (fval v) (fval (Min ds))); lia.
    - split.
      + destruct (Z.ltb_spec (fval (Max ds)) (fval v)); lia.
      + destruct (Z.ltb_spec (fval v) (fval (Min ds))); lia. }
  split; [destruct (Z.ltb_spec (fval (Max ds)) (fval v)); lia|]. split.
  - destruct (_ <? _); [right; apply elem_of_app; right; by left|].
    destruct Hmax; [by left|right; apply elem_of_app; by left].
  - destruct (fval v <? _); [right; apply elem_of_app; right; by left|].
    destruct Hmin; [by left|right; apply elem_of_app; by left].
Qed.

(** C33.  The statistics of a window are those of its samples, except that a peak is never below
      zero: for every context and every dimension (prefixed by its instance) there is an entry
      exactly when there are samples; it counts and sums all of them, its minimum is the
      least and its maximum the greatest, or zero if all are negative, as the maximum
      starts at zero while the minimum starts at the largest float. *)
Theorem window_statistics rows ctx key :
  Forall num64 (values_of ctx key rows) →
  match stat_at (collect_stats rows) ctx key with
  | None => values_of ctx key rows = []
  | Some ds =>
      let vals := values_of ctx key rows in
      Count ds = zlen vals ∧ Sum ds = fold_left fadd vals f64_zero ∧
      (∀ v, v ∈ vals → fval v <= fval (Max ds) ∧ fval (Min ds) <= fval v) ∧
      (Max ds ∈ vals ∨ Max ds = f64_zero ∧ ∀ v, v ∈ vals → fval v <= 0) ∧
      (Min ds ∈ vals ∨ Min ds = f64_max)
  end.
Proof.
  intros Hnum. rewrite collect_stats_at. destruct (values_of ctx key rows) as [|v vals] eqn:E; [done|].
  destruct (stats_of_spec (v :: vals) Hnum) as (? & ? & _ & _ & Hb & _ & Hmax & Hmin).
  cbv zeta. split_and!; [done..| |tauto].
  destruct Hmax as [Hmax|]; [right|by left]. split; [done|]. intros w Hw.
  rewrite Hmax in Hb. destruct (Hb w Hw) as [? _]. done.
Qed.

Context `{MapOrderLaws} `{SortSliceLaws}.

Lemma candidates_spec (stats : stats_map) c :
  c ∈ candidates stats ↔
  ∃ dims ds, stats !! c_ctx c = Some dims ∧ dims !! c_dim c = Some ds ∧ c_dim c ∉ skipped_dims ∧
    c_max c = Max ds ∧ c_avg c = avg_of ds.
Proof.
  assert (Hmem : ∀ A (m : gmap string A) k v, (k, v) ∈ map_order m ↔ m !! k = Some v).
  { intros A m k v. rewrite map_order_all. apply elem_of_map_to_list. }
  unfold candidates. rewrite list_elem_of_In, in_flat_map. split.
  - intros ([ctx dims] & Hp & Hc). apply in_flat_map in Hc as ([dim ds] & Hq & Hc). cbn -[skipped_dims existsb] in Hq, Hc.
    destruct (existsb (String.eqb dim) skipped_dims) eqn:Es; [done|].
    destruct Hc as [<-|[]]. exists dims, ds. cbn.
    apply list_elem_of_In, Hmem in Hp. apply list_elem_of_In, Hmem in Hq. split_and!; try done.
    intros Hin. apply list_elem_of_In in Hin.
    assert (existsb (String.eqb dim) skipped_dims = true); [|congruence].
    apply existsb_exists. exists dim. split; [done|apply String.eqb_refl].
  - destruct c as [ctx dim mx av]. cbn [c_ctx c_dim c_max c_avg]. intros (dims & ds & Hp & Hq & Hs & -> & ->).
    exists (ctx, dims). split; [apply list_elem_of_In; by apply Hmem|]. apply in_flat_map.
    exists (dim, ds). split; [apply list_elem_of_In; by apply Hmem|]. cbn -[skipped_dims existsb].
    destruct (existsb (String.eqb dim) skipped_dims) eqn:Es; [|cbn; by left]. exfalso.
    apply existsb_exists in Es as (d & Hd & <-%String.eqb_eq). apply Hs. by apply list_elem_of_In.
Qed.

Lemma candidates_num rows c :
  Forall (λ r : window_row, num64 r.2) rows → c ∈ candidates (collect_stats rows) → num64 (c_max c).
Proof.
  intros Hrows Hc. apply candidates_spec in Hc as (dims & ds & Hd & Hs & _ & -> & _).
  pose proof (collect_stats_at rows (c_ctx c) (c_dim c)) as Hat. unfold stat_at in Hat.
  rewrite Hd in Hat. cbn [from_option] in Hat. unfold id in Hat. rewrite Hs in Hat.
  destruct (values_of (c_ctx c) (c_dim c) rows) as [|v vals] eqn:Ev; [done|].
  assert (ds = stats_of (v :: vals)) as -> by by injection Hat. eapply stats_of_spec. rewrite <- Ev. unfold values_of.
  apply Forall_forall. intros w Hw. apply list_elem_of_omap in Hw as ([[[c' d] i] w'] & Hin & Hw).
  rewrite Forall_forall in Hrows. specialize (Hrows _ Hin). cbn in Hrows.
  destruct (_ && _); [|done]. by injection Hw as <-.
Qed.

(** The abnormal dimensions of a summary are the top five: they are dimensions of the
      window, none of the five idle ones; there are five of them, or all if there are fewer;
      and no other dimension has a higher peak, in whatever order maps are visited and
      equal peaks sorted. *)
Theorem top_abnormal_spec node from to rows :
  Forall (λ r : window_row, num64 r.2) rows →
  let stats := collect_stats rows in
  ∃ chosen rest,
    TopAbnormal (buildSummary node from to stats) =
      map (λ c, mkAbnormal (c_ctx c) (c_dim c) (round2 (c_max c)) (round2 (c_avg c))) chosen ∧
    chosen ++ rest ≡ₚ candidates stats ∧ length chosen = Nat.min 5 (length (candidates stats)) ∧
    (∀ c, c ∈ candidates stats ↔
       ∃ dims ds, stats !! c_ctx c = Some dims ∧ dims !! c_dim c = Some ds ∧ c_dim c ∉ skipped_dims ∧
         c_max c = Max ds ∧ c_avg c = avg_of ds) ∧
    ∀ c d, c ∈ chosen → d ∈ rest → fval (c_max d) <= fval (c_max c).
Proof.
  intros Hrows stats. set (sorted := sort_Slice (λ a b, fgtb (c_max a) (c_max b)) (candidates stats)).
  assert (Hperm : sorted ≡ₚ candidates stats) by apply sort_Slice_perm.
  exists (take 5 sorted), (drop 5 sorted). split_and!.
  - unfold buildSummary. destruct (stats !! "system.cpu") as [dims|];
      [destruct (cpu_totals dims)|]; reflexivity.
  - by rewrite take_drop.
  - by rewrite length_take, Hperm.
  - apply candidates_spec.
  - intros c d Hc Hd.
    assert (Hs : StronglySorted (λ x y, - fval (c_max x) <= - fval (c_max y)) sorted).
    { apply sort_Slice_sorted. intros x y Hx Hy. 
      rewrite fgtb_fval by (by eapply candidates_num).
      destruct (Z.ltb_spec (fval (c_max y)) (fval (c_max x))), (Z.ltb_spec (- fval (c_max x)) (- fval (c_max y))); lia. }
    pose proof (StronglySorted_split _ 5 sorted c d Hs Hc Hd) as Hle. cbn in Hle. lia.
Qed.
End SummaryProofs.

(** * What the bottleneck detection looks at *)
Module BottleneckSpec.
Import McpQuery McpSummary.

(** The CPU dimensions that are work, and the contexts of disk utilisation. *)
Definition busy_cpu (a : DimAgg) : Prop := g_Context a = "system.cpu" ∧ g_Dimension a ≠ "idle".
Definition disk_util (a : DimAgg) : Prop := HasPrefix (g_Context a) "disk.util" = true.
Definition is_in (ctx dim : string) (a : DimAgg) : Prop := g_Context a = ctx ∧ g_Dimension a = dim.

#[export] Instance busy_cpu_dec a : Decision (busy_cpu a).
Proof. unfold busy_cpu. apply _. Defined.
#[export] Instance disk_util_dec a : Decision (disk_util a).
Proof. unfold disk_util. apply _. Defined.
#[export] Instance is_in_dec ctx dim a : Decision (is_in ctx dim a).
Proof. unfold is_in. apply _. Defined.

(** The CPU usage: what its busy dimensions sum up to. *)
Definition cpu_average (aggs : list DimAgg) : float64 :=
  fold_left fadd (map g_Avg (base.filter busy_cpu aggs)) f64_zero.

(** The greatest of some values, or zero. *)
Definition higher (m x : float64) : float64 := if fgtb x m then x else m.
Definition peak (l : list float64) : float64 := fold_left higher l f64_zero.

Definition cpu_peak (aggs : list DimAgg) : float64 := peak (map g_Max (base.filter busy_cpu aggs)).
Definition disk_peak (aggs : list DimAgg) : float64 := peak (map g_Max (base.filter disk_util aggs)).

(** The group of a dimension, the last one when there are several (of different instances). *)
Definition last_of (ctx dim : string) (aggs : list DimAgg) : option DimAgg :=
  last (base.filter (is_in ctx dim) aggs).

Definition average (ctx dim : string) (aggs : list DimAgg) : float64 :=
  from_option g_Avg f64_zero (last_of ctx dim aggs).

(** What a host can be short of, when it is, and how sure the code is of it. *)
Inductive resource_kind := KCpu | KRam | KDisk.

Definition kind_name (k : resource_kind) : string :=
  match k with KCpu => "cpu" | KRam => "ram" | KDisk => "disk" end.

Definition short_of (aggs : list DimAgg) (k : resource_kind) : Prop :=
  match k with
  | KCpu =>
      fgtb (cpu_average aggs) (f64_of_Z 80) = true ∨
      ∃ a, a ∈ aggs ∧ busy_cpu a ∧ fgtb (g_Max a) (f64_of_Z 95) = true
  | KRam =>
      ∃ used, last_of "system.ram" "used" aggs = Some used ∧ fgtb (g_Max used) f64_zero = true ∧
        (fgtb (average "system.swap" "used" aggs) (f64_of_Z 100) = true ∨
         fgtb (g_Avg used) (fmul (g_Max used) (f64_ratio 9 10)) = true)
  | KDisk =>
      (∃ a, a ∈ aggs ∧ disk_util a ∧ fgtb (g_Max a) (f64_of_Z 80) = true) ∨
      fgtb (average "system.cpu" "iowait" aggs) (f64_of_Z 10) = true
  end.

(** The mean of two shares, stretched, at most one. *)
Definition mean_share (x y factor : float64) : float64 :=
  round2 (f64_min (f64_of_Z 1) (fmul (fdiv (fadd x y) (f64_of_Z 2)) factor)).

Definition confidence_of (aggs : list DimAgg) (k : resource_kind) : float64 :=
  match k with
  | KCpu =>
      mean_share (fdiv (cpu_average aggs) (f64_of_Z 100)) (fdiv (cpu_peak aggs) (f64_of_Z 100)) (f64_ratio 12 10)
  | KRam =>
      round2 (if fgtb (average "system.swap" "used" aggs) (f64_of_Z 500) then f64_ratio 9 10 else f64_ratio 6 10)
  | KDisk =>
      mean_share (fdiv (disk_peak aggs) (f64_of_Z 100))
        (fdiv (average "system.cpu" "iowait" aggs) (f64_of_Z 20)) (f64_ratio 13 10)
  end.
End BottleneckSpec.

(** * Properties of the bottleneck detection *)
Section BottleneckProofs.
Import McpQuery McpSummary BottleneckSpec.

Definition numeric (aggs : list DimAgg) : Prop :=
  Forall (λ a, num64 (g_Avg a) ∧ num64 (g_Max a)) aggs.

(** A variable of the loop is folded over the groups that bear on it. *)
Lemma usage_field {B} (f : usage → B) (g : B → DimAgg → B) aggs :
  (∀ u a, f (add_agg u a) = g (f u) a) → f (usage_of aggs) = fold_left g aggs (f usage0).
Proof.
  intros Hg. unfold usage_of. generalize usage0. induction aggs as [|a aggs IH]; intros u; [done|].
  cbn [fold_left]. by rewrite IH, Hg.
Qed.

Lemma fold_filter {B C} (P : DimAgg → Prop) `{∀ a, Decision (P a)} (h : B → C → B) (v : DimAgg → C) aggs m :
  fold_left (λ m a, if decide (P a) then h m (v a) else m) aggs m =
    fold_left h (map v (base.filter P aggs)) m.
Proof.
  revert m. induction aggs as [|a aggs IH]; intros m; [done|]. cbn [fold_left]. rewrite filter_cons, IH.
  by case_decide.
Qed.

Lemma fold_last {B} (P : DimAgg → Prop) `{∀ a, Decision (P a)} (v : DimAgg → B) aggs m :
  fold_left (λ m a, if decide (P a) then v a else m) aggs m = from_option v m (last (base.filter P aggs)).
Proof.
  revert m. induction aggs as [|a aggs IH]; intros m; [done|]. cbn [fold_left]. rewrite filter_cons, IH.
  case_decide; [|done]. rewrite last_cons. by destruct (last _).
Qed.

Lemma fold_exists (b : DimAgg → bool) aggs m :
  fold_left (λ m a, m || b a) aggs m = m || existsb b aggs.
Proof.
  revert m. induction aggs as [|a aggs IH]; intros m; cbn; [by rewrite orb_false_r|].
  by rewrite IH, orb_assoc.
Qed.

#[local] Ltac by_context :=
  intros [] [ctx dim inst av mx n]; unfold add_agg; cbn [g_Context g_Dimension g_Avg g_Max];
  destruct (String.eqb_spec ctx "system.cpu") as [->|?];
    [|destruct (String.eqb_spec ctx "system.ram") as [->|?];
      [|destruct (String.eqb_spec ctx "system.swap") as [->|?];
        [|destruct (HasPrefix ctx "disk.util") eqn:Hprefix]]];
  repeat match goal with |- context [String.eqb dim ?x] => destruct (String.eqb_spec dim x) as [->|?] end;
  cbn [cpuUsageAvg cpuUsageMax ramUsedAvg ramUsedMax diskUtilMax iowaitAvg swapUsedAvg hasCPU hasRAM hasDisk];
  rewrite ?orb_true_r, ?orb_false_r; try reflexivity;
  try (let Hd := fresh "Hd" in
       match goal with |- context [decide ?P] => destruct (decide P) as [Hd|Hd] end; try reflexivity;
       unfold busy_cpu, disk_util, is_in in Hd; cbn [g_Context g_Dimension] in Hd; exfalso;
       first [congruence|by destruct Hd; congruence|by vm_compute in Hd|naive_solver]).

Lemma usage_spec aggs :
  let u := usage_of aggs in
  cpuUsageAvg u = cpu_average aggs ∧ cpuUsageMax u = cpu_peak aggs ∧
  ramUsedAvg u = average "system.ram" "used" aggs ∧
  ramUsedMax u = from_option g_Max f64_zero (last_of "system.ram" "used" aggs) ∧
  diskUtilMax u = disk_peak aggs ∧ iowaitAvg u = average "system.cpu" "iowait" aggs ∧
  swapUsedAvg u = average "system.swap" "used" aggs ∧
  hasCPU u = existsb (λ a, String.eqb (g_Context a) "system.cpu") aggs ∧
  hasRAM u = existsb (λ a, String.eqb (g_Context a) "system.ram") aggs ∧
  hasDisk u = existsb (λ a, HasPrefix (g_Context a) "disk.util") aggs.
Proof.
  cbv zeta. unfold cpu_average, cpu_peak, disk_peak, peak, average, last_of.
  rewrite <- !(fold_filter busy_cpu), <- !(fold_filter disk_util), <- !(fold_last (is_in _ _)).
  split_and!.
  1, 2, 3, 4, 5, 6, 7: apply usage_field; by_context.
  - etransitivity; [apply (usage_field hasCPU (λ m a, m || String.eqb (g_Context a) "system.cpu")); by_context|apply fold_exists].
  - etransitivity; [apply (usage_field hasRAM (λ m a, m || String.eqb (g_Context a) "system.ram")); by_context|apply fold_exists].
  - etransitivity; [apply (usage_field hasDisk (λ m a, m || HasPrefix (g_Context a) "disk.util")); by_context|apply fold_exists].
Qed.

Lemma higher_num m l : num64 m → Forall num64 l → num64 (fold_left higher l m).
Proof.
  intros Hm Hl. revert m Hm. induction Hl as [|x l Hx _ IH]; intros m Hm; [done|]. cbn. apply IH.
  unfold higher. by destruct (fgtb x m).
Qed.

(** The peak is above a bound exactly when a value is. *)
Lemma higher_above m l c :
  num64 c → num64 m → Forall num64 l →
  fgtb (fold_left higher l m) c = true ↔ fgtb m c = true ∨ ∃ x, x ∈ l ∧ fgtb x c = true.
Proof.
  intros Hc Hm Hl. revert m Hm. induction Hl as [|x l Hx _ IH]; intros m Hm; cbn [fold_left].
  { split; [by left|]. intros [|(x & ?%not_elem_of_nil & _)]; done. }
  assert (Hh : fgtb (higher m x) c = true ↔ fgtb m c = true ∨ fgtb x c = true).
  { unfold higher. destruct (fgtb x m) eqn:E; rewrite ?fgtb_fval in * by done; lia. }
  assert (Hn : num64 (higher m x)) by (unfold higher; by destruct (fgtb x m)).
  rewrite (IH _ Hn), Hh. setoid_rewrite elem_of_cons. naive_solver.
Qed.

Lemma peak_above aggs (P : DimAgg → Prop) `{∀ a, Decision (P a)} c :
  numeric aggs → num64 c → fgtb f64_zero c = false →
  fgtb (peak (map g_Max (base.filter P aggs))) c = true ↔
  ∃ a, a ∈ aggs ∧ P a ∧ fgtb (g_Max a) c = true.
Proof.
  intros Hn Hc H0. unfold peak. rewrite higher_above; [|done|by vm_compute|].
  - rewrite H0. split.
    + intros [|(x & Hx & Hgt)]; [done|]. apply list_elem_of_fmap in Hx as (a & -> & [? ?]%list_elem_of_filter).
      by exists a.
    + intros (a & Ha & HP & Hgt). right. exists (g_Max a). split; [|done].
      apply list_elem_of_fmap. exists a. split; [done|]. by apply list_elem_of_filter.
  - apply Forall_fmap, Forall_forall. intros a [_ Ha]%list_elem_of_filter.
    unfold numeric in Hn. rewrite Forall_forall in Hn. by destruct (Hn a Ha).
Qed.

Lemma last_of_in ctx dim aggs a : last_of ctx dim aggs = Some a → a ∈ aggs ∧ g_Context a = ctx.
Proof.
  unfold last_of. intros Hl. apply last_Some in Hl as [l Hl].
  assert (Ha : a ∈ base.filter (is_in ctx dim) aggs) by (rewrite Hl; apply elem_of_app; right; by left).
  apply list_elem_of_filter in Ha as [[? _] ?]. done.
Qed.

Lemma no_busy_cpu aggs :
  existsb (λ a, String.eqb (g_Context a) "system.cpu") aggs = false → base.filter busy_cpu aggs = [].
Proof.
  induction aggs as [|a aggs IH]; [done|]. cbn [existsb]. intros [H1 H2]%orb_false_iff.
  rewrite filter_cons, decide_False by (intros [E _]; by apply String.eqb_neq in H1). by apply IH.
Qed.

(** The candidate for a resource is made exactly when the host is short of it. *)
Definition offers (aggs : list DimAgg) (k : resource_kind) (cs : list candidate) : Prop :=
  cs = [] ∧ ¬ short_of aggs k ∨
  short_of aggs k ∧ ∃ c, cs = [c] ∧ btype c = kind_name k ∧ confidence c = confidence_of aggs k.

Lemma cpu_offers aggs : numeric aggs → offers aggs KCpu (cpu_candidate (usage_of aggs)).
Proof.
  intros Hn. destruct (usage_spec aggs) as (Ea & Em & _ & _ & _ & _ & _ & Eh & _).
  unfold cpu_candidate. rewrite Ea, Em, Eh. clear Ea Em Eh. unfold num.
  assert (Hp : fgtb (cpu_peak aggs) (f64_of_Z 95) = true ↔
    ∃ a, a ∈ aggs ∧ busy_cpu a ∧ fgtb (g_Max a) (f64_of_Z 95) = true) by (by apply peak_above).
  destruct (existsb _ aggs) eqn:Eh; cbn [andb].
  - destruct (fgtb (cpu_average aggs) (f64_of_Z 80)) eqn:E1; cbn [orb].
    { right. split; [by left|]. by eexists. }
    destruct (fgtb (cpu_peak aggs) (f64_of_Z 95)) eqn:E2.
    + right. split; [right; by apply Hp|]. by eexists.
    + left. split; [done|]. intros [E|E]; [congruence|]. apply Hp in E. done.
  - left. split; [done|]. pose proof (no_busy_cpu aggs Eh) as Hno. intros [E|(a & Ha & Hb & _)].
    + unfold cpu_average in E. rewrite Hno in E. by vm_compute in E.
    + apply (not_elem_of_nil a). rewrite <- Hno. by apply list_elem_of_filter.
Qed.

Lemma ram_offers aggs : offers aggs KRam (ram_candidate (usage_of aggs)).
Proof.
  destruct (usage_spec aggs) as (_ & _ & Ea & Em & _ & _ & Es & _ & Eh & _).
  unfold ram_candidate. rewrite Ea, Em, Es, Eh. clear Ea Em Es Eh. unfold num.
  assert (Hu : average "system.ram" "used" aggs = from_option g_Avg f64_zero (last_of "system.ram" "used" aggs)) by done.
  rewrite Hu. destruct (last_of "system.ram" "used" aggs) as [used|] eqn:El; cbn [from_option].
  - destruct (last_of_in _ _ _ _ El) as [Hin Hctx].
    assert (existsb (λ a, String.eqb (g_Context a) "system.ram") aggs = true) as ->.
    { apply existsb_exists. exists used. split; [by apply list_elem_of_In|by apply String.eqb_eq]. }
    cbn [andb]. destruct (fgtb (g_Max used) f64_zero) eqn:E0; cbn [andb].
    + destruct (fgtb (average "system.swap" "used" aggs) (f64_of_Z 100) ||
        fgtb (g_Avg used) (fmul (g_Max used) (f64_ratio 9 10))) eqn:E1.
      * right. split; [|by eexists]. apply orb_true_iff in E1. by exists used.
      * left. split; [done|]. intros (u & Hs & _ & Hu'). rewrite El in Hs. injection Hs as <-.
        apply orb_true_iff in Hu'. congruence.
    + left. split; [done|]. intros (u & Hs & Hu' & _). rewrite El in Hs. injection Hs as <-. congruence.
  - left. change (fgtb f64_zero f64_zero) with false. rewrite andb_false_r. split; [done|].
    intros (u & Hs & _). congruence.
Qed.

Lemma iowait_num aggs : numeric aggs → num64 (average "system.cpu" "iowait" aggs).
Proof.
  intros Hn. unfold average. destruct (last_of _ _ _) as [a|] eqn:E; [|by vm_compute].
  unfold numeric in Hn. rewrite Forall_forall in Hn. by destruct (Hn a (proj1 (last_of_in _ _ _ _ E))).
Qed.

Lemma disk_offers aggs : numeric aggs → offers aggs KDisk (disk_candidate (usage_of aggs)).
Proof.
  intros Hn. destruct (usage_spec aggs) as (_ & _ & _ & _ & Em & Ei & _ & _ & _ & Eh).
  unfold disk_candidate. rewrite Em, Ei, Eh. clear Em Ei Eh. unfold num.
  assert (Hp : fgtb (disk_peak aggs) (f64_of_Z 80) = true ↔
    ∃ a, a ∈ aggs ∧ disk_util a ∧ fgtb (g_Max a) (f64_of_Z 80) = true) by (by apply peak_above).
  assert (H10 : fgtb (average "system.cpu" "iowait" aggs) (f64_of_Z 10) = true →
    fgtb (average "system.cpu" "iowait" aggs) (f64_of_Z 5) = true).
  { pose proof (iowait_num aggs Hn) as Hi. rewrite !fgtb_fval by done.
    assert (fval (f64_of_Z 5) < fval (f64_of_Z 10)) by (by vm_compute). lia. }
  assert (Hd : fgtb (disk_peak aggs) (f64_of_Z 80) = true →
    existsb (λ a, HasPrefix (g_Context a) "disk.util") aggs = true).
  { intros (a & Ha & Hd & _)%Hp. apply existsb_exists. exists a. split; [by apply list_elem_of_In|done]. }
  destruct (fgtb (disk_peak aggs) (f64_of_Z 80)) eqn:E1; cbn [orb].
  - rewrite (Hd eq_refl). cbn [orb andb]. right. split; [left; by apply Hp|]. by eexists.
  - destruct (fgtb (average "system.cpu" "iowait" aggs) (f64_of_Z 10)) eqn:E2.
    + rewrite (H10 eq_refl), orb_true_r. cbn [andb]. right. split; [by right|]. by eexists.
    + rewrite andb_false_r. left. split; [done|]. intros [E|E]; [apply Hp in E|]; congruence.
Qed.

Lemma all_offered aggs c :
  numeric aggs → c ∈ all_candidates (usage_of aggs) →
  ∃ k, short_of aggs k ∧ btype c = kind_name k ∧ confidence c = confidence_of aggs k.
Proof.
  intros Hn. unfold all_candidates. rewrite !elem_of_app.
  assert (Hk : ∀ k cs, offers aggs k cs → c ∈ cs →
    ∃ k, short_of aggs k ∧ btype c = kind_name k ∧ confidence c = confidence_of aggs k).
  { intros k cs [[-> _]|(Hs & c' & -> & Ht & Hc)] Hin; [by apply not_elem_of_nil in Hin|].
    apply list_elem_of_singleton in Hin as ->. by exists k. }
  intros [Hin|[Hin|Hin]].
  - apply (Hk _ _ (cpu_offers aggs Hn) Hin).
  - apply (Hk _ _ (ram_offers aggs) Hin).
  - apply (Hk _ _ (disk_offers aggs Hn) Hin).
Qed.

Lemma short_offers aggs k :
  numeric aggs → short_of aggs k →
  ∃ c, c ∈ all_candidates (usage_of aggs) ∧ confidence c = confidence_of aggs k.
Proof.
  intros Hn Hs. unfold all_candidates. setoid_rewrite elem_of_app. setoid_rewrite elem_of_app.
  destruct k; [destruct (cpu_offers aggs Hn) as [[_ ?]|(_ & c & -> & _ & Hc)]
    |destruct (ram_offers aggs) as [[_ ?]|(_ & c & -> & _ & Hc)]
    |destruct (disk_offers aggs Hn) as [[_ ?]|(_ & c & -> & _ & Hc)]]; try done;
    exists c; (split; [|done]); [left|right; left|right; right]; by apply list_elem_of_singleton.
Qed.

Context `{SortSliceLaws}.

(** C34.  The bottleneck reported is what the host is shortest of, when the averages and
      peaks of the groups are numbers (not NaN).  It is short of CPU if the
      averages of the dimensions of system.cpu other than idle sum up to more than 80 or one of
      them peaks above 95; of RAM if some was used at the peak and swap exceeds 100 or the use
      averages more than nine tenths of its peak; of disk if a disk.util context peaks above 80 or
      iowait averages more than 10 (whatever else the code asks follows from these).  The
      answer is "none", with confidence 0.9, exactly if it is short of nothing; otherwise it
      is a resource the host is short of, with the confidence computed for that one, which, if
      the confidences are numbers, is the highest of all it is short of. *)
Theorem bottleneck_thresholds node aggs :
  numeric aggs →
  let r := DetectBottlenecks node aggs in
  (b_Type r = "none" ∧ b_Confidence r = f64_ratio 9 10 ∧ ∀ k, ¬ short_of aggs k) ∨
  (∃ k, b_Type r = kind_name k ∧ short_of aggs k ∧ b_Confidence r = confidence_of aggs k ∧
     ((∀ k', short_of aggs k' → num64 (confidence_of aggs k')) →
      ∀ k', short_of aggs k' → fval (confidence_of aggs k') <= fval (b_Confidence r))).
Proof.
  intros Hn r. unfold r, DetectBottlenecks.
  set (less := λ a b : candidate, fgtb (confidence a) (confidence b)).
  pose proof (sort_Slice_perm _ less (all_candidates (usage_of aggs))) as Hperm.
  destruct (sort_Slice less (all_candidates (usage_of aggs))) as [|best l] eqn:Es; cbn [b_Type b_Confidence].
  - left. split; [done|]. split; [done|]. intros k Hs. apply Permutation_nil in Hperm.
    destruct (short_offers aggs k Hn Hs) as (c & Hc & _). rewrite Hperm in Hc. by apply not_elem_of_nil in Hc.
  - right. destruct (all_offered aggs best Hn) as (k & Hs & Ht & Hc); [rewrite <- Hperm; left|].
    exists k. split_and!; [done..|]. intros Hnum k' Hs'.
    destruct (short_offers aggs k' Hn Hs') as (c & Hcin & <-).
    assert (Hsort : StronglySorted (λ x y, - fval (confidence x) <= - fval (confidence y)) (best :: l)).
    { rewrite <- Es. apply sort_Slice_sorted. intros x y Hx Hy. unfold less.
      rewrite fgtb_fval by (edestruct all_offered as (? & ? & _ & ->); [exact Hn| |by apply Hnum]; done).
      destruct (Z.ltb_spec (fval (confidence y)) (fval (confidence x))),
        (Z.ltb_spec (- fval (confidence x)) (- fval (confidence y))); lia. }
    apply StronglySorted_inv in Hsort as [_ Hsort]. rewrite Forall_forall in Hsort.
    rewrite <- Hperm in Hcin. apply elem_of_cons in Hcin as [->|Hcin]; [done|].
    specialize (Hsort c Hcin). cbn in Hsort. lia.
Qed.
End BottleneckProofs.

(** * The properties at concrete windows *)
Section SummaryWitnesses.
Import McpQuery McpSummary BottleneckSpec MemOrder.

Definition window_example : list window_row :=
  [("system.cpu", "user", None, f64_of_Z 10); ("system.cpu", "idle", None, f64_of_Z 90);
   ("system.cpu", "user", None, f64_of_Z 30); ("disk.util", "utilization", Some "sda", f64_of_Z (-7))].

Lemma window_example_num ctx key : Forall num64 (values_of ctx key window_example).
Proof.
  unfold values_of. cbn [omap list_omap window_example].
  repeat match goal with |- context [match (if ?b then _ else _) with _ => _ end] => destruct b end;
    repeat (constructor; [by vm_compute|]); constructor.
Qed.

Lemma window_example_rows : Forall (λ r : window_row, num64 r.2) window_example.
Proof. repeat (constructor; [by vm_compute|]). constructor. Qed.

Lemma window_statistics_witness :
  match stat_at (collect_stats window_example) "disk.util" "sda/utilization" with
  | None => False
  | Some ds => Max ds = f64_zero ∧ Min ds = f64_of_Z (-7)
  end ∧
  match stat_at (collect_stats window_example) "system.cpu" "user" with
  | None => values_of "system.cpu" "user" window_example = []
  | Some ds =>
      let vals := values_of "system.cpu" "user" window_example in
      Count ds = zlen vals ∧ Sum ds = fold_left fadd vals f64_zero ∧
      (∀ v, v ∈ vals → fval v <= fval (Max ds) ∧ fval (Min ds) <= fval v) ∧
      (Max ds ∈ vals ∨ Max ds = f64_zero ∧ ∀ v, v ∈ vals → fval v <= 0) ∧
      (Min ds ∈ vals ∨ Min ds = f64_max)
  end.
Proof.
  split; [by vm_compute|].
  apply (window_statistics window_example "system.cpu" "user"), window_example_num.
Defined.

Lemma top_abnormal_spec_witness :
  ∃ chosen rest,
    TopAbnormal (buildSummary "n" 0 1 (collect_stats window_example)) =
      map (λ c, mkAbnormal (c_ctx c) (c_dim c) (round2 (c_max c)) (round2 (c_avg c))) chosen ∧
    chosen ++ rest ≡ₚ candidates (collect_stats window_example) ∧ length chosen = 2%nat ∧
    ∀ c d, c ∈ chosen → d ∈ rest → fval (c_max d) <= fval (c_max c).
Proof.
  destruct (top_abnormal_spec "n" 0 1 window_example window_example_rows)
    as (chosen & rest & ? & ? & Hl & _ & ?).
  exists chosen, rest. split; [done|]. split; [done|]. split; [|done]. rewrite Hl. by vm_compute.
Defined.

(** A busy CPU that also waits for disks. *)
Definition aggs_example : list DimAgg :=
  [mkAgg "system.cpu" "user" None (f64_of_Z 70) (f64_of_Z 97) 10;
   mkAgg "system.cpu" "iowait" None (f64_of_Z 15) (f64_of_Z 20) 10;
   mkAgg "system.cpu" "idle" None (f64_of_Z 15) (f64_of_Z 99) 10].

Lemma aggs_example_numeric : numeric aggs_example.
Proof. apply Forall_cons. split; [split; vm_compute; split; reflexivity|].
  apply Forall_cons. split; [split; vm_compute; split; reflexivity|].
  apply Forall_cons. split; [split; vm_compute; split; reflexivity|]. apply Forall_nil. exact I.
Qed.

Lemma bottleneck_thresholds_witness :
  let r := DetectBottlenecks "n" aggs_example in
  b_Type r = "cpu" ∧ b_Confidence r = confidence_of aggs_example KCpu ∧
  fval (confidence_of aggs_example KDisk) <= fval (b_Confidence r).
Proof.
  intros r. assert (Ht : b_Type r = "cpu") by (vm_compute; reflexivity). split; [exact Ht|].
  destruct (bottleneck_thresholds "n" aggs_example) as [(Hnone & _)|(k & Hk & _ & Hc & Hmax)].
  - exact aggs_example_numeric.
  - fold r in Hnone. rewrite Ht in Hnone. discriminate Hnone.
  - fold r in Hk, Hc, Hmax. rewrite Ht in Hk. destruct k; try discriminate Hk. split; [exact Hc|].
    apply Hmax.
    + intros [] _; vm_compute; split; reflexivity.
    + right. vm_compute. reflexivity.
Defined.
End SummaryWitnesses.
