(* ===== verification/LeastSquares.v ===== *)
(** Least squares over whole numbers: the regression line through points with integer
    coordinates, by its exact numerators and denominators.  The forecast tool is compared with it. *)

From S2P Require Import Prelude.

(** * Sums of whole numbers *)
Section WholeSums.
Definition zsum {A} (f : A → Z) (l : list A) : Z := foldr (λ x s, f x + s) 0 l.

Lemma zsum_cons {A} (f : A → Z) x l : zsum f (x :: l) = f x + zsum f l.
Proof. done. Qed.

Lemma zsum_ext {A} (f g : A → Z) l : (∀ x, x ∈ l → f x = g x) → zsum f l = zsum g l.
Proof.
  induction l as [|x l IH]; intros Hfg; [done|]. rewrite !zsum_cons, Hfg by left.
  rewrite IH; [done|]. intros y Hy. apply Hfg. by right.
Qed.

Lemma zsum_nonneg {A} (f : A → Z) l : (∀ x, x ∈ l → 0 <= f x) → 0 <= zsum f l.
Proof.
  induction l as [|x l IH]; intros Hf; [done|]. rewrite zsum_cons.
  assert (0 <= f x) by (apply Hf; left). enough (0 <= zsum f l) by lia. apply IH. intros y Hy.
  apply Hf. by right.
Qed.

Lemma zsum_le_member {A} (f : A → Z) l x : (∀ y, y ∈ l → 0 <= f y) → x ∈ l → f x <= zsum f l.
Proof.
  intros Hf Hx. induction l as [|y l IH]; [by apply not_elem_of_nil in Hx|]. rewrite zsum_cons.
  assert (Hl : 0 <= zsum f l) by (apply zsum_nonneg; intros z Hz; apply Hf; by right).
  apply elem_of_cons in Hx as [->|Hx]; [lia|].
  assert (0 <= f y) by (apply Hf; left). enough (f x <= zsum f l) by lia.
  apply IH; [|done]. intros z Hz. apply Hf. by right.
Qed.

(** A sum of terms bounded by B / n. *)
Lemma zsum_abs_bound {A} (f : A → Z) (l : list A) k B :
  0 < k → (∀ x, x ∈ l → k * Z.abs (f x) <= B) → k * zsum (λ x, Z.abs (f x)) l <= zlen l * B.
Proof.
  intros Hk. induction l as [|x l IH]; intros Hf; [change (k * 0 <= 0 * B); lia|].
  rewrite zsum_cons, zlen_cons. assert (k * Z.abs (f x) <= B) by (apply Hf; left).
  enough (k * zsum (λ x, Z.abs (f x)) l <= zlen l * B) by lia. apply IH. intros y Hy. apply Hf. by right.
Qed.

Lemma zsum_abs_le {A} (f : A → Z) l : Z.abs (zsum f l) <= zsum (λ x, Z.abs (f x)) l.
Proof. induction l as [|x l IH]; [done|]. rewrite !zsum_cons. lia. Qed.
End WholeSums.

(** * Least squares over the integers *)
Section LeastSquares.
Context (zs : list (Z * Z)).

Definition nZ : Z := zlen zs.
Definition SX : Z := zsum fst zs.
Definition SY : Z := zsum snd zs.
Definition SXY : Z := zsum (λ z, z.1 * z.2) zs.
Definition SXX : Z := zsum (λ z, z.1 * z.1) zs.

(** Numerator and denominator of the slope of the regression line. *)
Definition NUM : Z := nZ * SXY - SX * SY.
Definition DEN : Z := nZ * SXX - SX * SX.

Lemma centred_squares :
  zsum (λ z, (nZ * z.1 - SX) * (nZ * z.1 - SX)) zs = nZ * DEN.
Proof.
  assert (Hgen : ∀ n s l, zsum (λ z : Z * Z, (n * z.1 - s) * (n * z.1 - s)) l =
    n * n * zsum (λ z, z.1 * z.1) l - 2 * n * s * zsum fst l + zlen l * s * s).
  { intros n s l. induction l as [|[u v] l IH]; [unfold zlen; cbn; ring|].
    rewrite !zsum_cons, zlen_cons, IH. cbn [fst]. ring. }
  rewrite Hgen. unfold DEN. fold SXX SX nZ. ring.
Qed.

Lemma DEN_nonneg : 0 <= DEN.
Proof.
  destruct (decide (zs = [])) as [E|Hne].
  { unfold DEN, nZ, SX, SXX. rewrite E. done. }
  assert (0 < nZ) by (unfold nZ, zlen; destruct zs; [done|cbn; lia]).
  assert (0 <= nZ * DEN).
  { rewrite <- centred_squares. apply zsum_nonneg. intros z _. apply Z.square_nonneg. }
  nia.
Qed.

(** The denominator vanishes only when all points have the same abscissa. *)
Lemma DEN_zero z z' : z ∈ zs → z' ∈ zs → DEN = 0 → z.1 = z'.1.
Proof.
  intros Hz Hz' H0. assert (Hn : 0 < nZ) by (unfold nZ, zlen; destruct zs; [by apply not_elem_of_nil in Hz|cbn; lia]).
  assert (Hall : ∀ w, w ∈ zs → nZ * w.1 = SX).
  { intros w Hw.
    assert (Hs : (nZ * w.1 - SX) * (nZ * w.1 - SX) <= nZ * DEN).
    { rewrite <- centred_squares.
      apply (zsum_le_member (λ z, (nZ * z.1 - SX) * (nZ * z.1 - SX))); [|done].
      intros y _. apply Z.square_nonneg. }
    rewrite H0, Z.mul_0_r in Hs. nia. }
  pose proof (Hall z Hz). pose proof (Hall z' Hz'). nia.
Qed.

(** The residual of a point, scaled by the denominators. *)
Definition residual (z : Z * Z) : Z := nZ * DEN * z.2 - nZ * NUM * z.1 - (DEN * SY - NUM * SX).

Lemma residuals_balanced :
  zsum residual zs = 0 ∧ zsum (λ z, residual z * z.1) zs = 0.
Proof.
  assert (Hgen : ∀ m a c l,
    zsum (λ z : Z * Z, m * z.2 - a * z.1 - c) l = m * zsum snd l - a * zsum fst l - zlen l * c ∧
    zsum (λ z : Z * Z, (m * z.2 - a * z.1 - c) * z.1) l =
      m * zsum (λ z, z.1 * z.2) l - a * zsum (λ z, z.1 * z.1) l - c * zsum fst l).
  { intros m a c l. induction l as [|[u v] l [IH1 IH2]]; [by split; unfold zlen; cbn; ring|].
    rewrite !zsum_cons, zlen_cons, IH1, IH2. cbn [fst snd]. split; ring. }
  unfold residual. destruct (Hgen (nZ * DEN) (nZ * NUM) (DEN * SY - NUM * SX) zs) as [-> ->].
  fold SX SY SXY SXX nZ. unfold DEN, NUM. split; ring.
Qed.

(** No line y = (P x + R) / W comes closer to the points. *)
Lemma least_squares P R W :
  W * W * zsum (λ z, residual z * residual z) zs <=
  nZ * DEN * (nZ * DEN) * zsum (λ z, (W * z.2 - P * z.1 - R) * (W * z.2 - P * z.1 - R)) zs.
Proof.
  set (M := nZ * DEN). set (α := W * (nZ * NUM) - M * P). set (β := W * (DEN * SY - NUM * SX) - M * R).
  assert (Hsplit : ∀ z, M * (W * z.2 - P * z.1 - R) = W * residual z + α * z.1 + β).
  { intros z. unfold residual, α, β. fold M. ring. }
  assert (Hsum : ∀ l, M * M * zsum (λ z, (W * z.2 - P * z.1 - R) * (W * z.2 - P * z.1 - R)) l =
    W * W * zsum (λ z, residual z * residual z) l + 2 * W * α * zsum (λ z, residual z * z.1) l +
    2 * W * β * zsum residual l + zsum (λ z, (α * z.1 + β) * (α * z.1 + β)) l).
  { induction l as [|z l IH]; [unfold zlen; cbn; ring|]. rewrite !zsum_cons.
    transitivity ((M * (W * z.2 - P * z.1 - R)) * (M * (W * z.2 - P * z.1 - R)) +
      M * M * zsum (λ z, (W * z.2 - P * z.1 - R) * (W * z.2 - P * z.1 - R)) l); [ring|].
    rewrite Hsplit, IH. ring. }
  rewrite Hsum. destruct residuals_balanced as [-> ->].
  assert (0 <= zsum (λ z, (α * z.1 + β) * (α * z.1 + β)) zs).
  { apply zsum_nonneg. intros z _. apply Z.square_nonneg. }
  lia.
Qed.
End LeastSquares.
