(* ===== verification/McpForecast.v ===== *)
(** The forecast tool of the MCP server, internal/mcp/forecast.go: linear regression over the
    hourly rollups and the time at which the line meets a threshold. *)

From Stdlib Require Import Ascii SpecFloat Sorted.
From stdpp Require Import sorting.
From S2P Require Import Prelude GoInt GoFloat GoFloatInt GoTime GoString GoDuration Store Collector McpQuery LeastSquares.

Module McpForecast.
Import McpQuery.

(** The sums of the first loop of [linearRegression]. *)
Record sums := mkSums {
  sumX : float64;
  sumY : float64;
  sumXY : float64;
  sumX2 : float64;
  sumY2 : float64;
}.

Definition add_point (s : sums) (p : float64 * float64) : sums :=
  let '(x, y) := p in
  mkSums (fadd (sumX s) x) (fadd (sumY s) y) (fadd (sumXY s) (fmul x y)) (fadd (sumX2 s) (fmul x x))
    (fadd (sumY2 s) (fmul y y)).

Definition sums_of (pts : list (float64 * float64)) : sums :=
  fold_left add_point pts (mkSums f64_zero f64_zero f64_zero f64_zero f64_zero).

(** The second loop: the squared residuals and the squared distances from the mean. *)
Definition add_residual (slope intercept meanY : float64) (acc : float64 * float64)
    (p : float64 * float64) : float64 * float64 :=
  let '(ssRes, ssTot) := acc in
  let '(x, y) := p in
  let predicted := fadd (fmul slope x) intercept in
  (fadd ssRes (fmul (fsub y predicted) (fsub y predicted)),
   fadd ssTot (fmul (fsub y meanY) (fsub y meanY))).

Definition residuals (slope intercept meanY : float64) (pts : list (float64 * float64))
    : float64 * float64 :=
  fold_left (add_residual slope intercept meanY) pts (f64_zero, f64_zero).

(** [linearRegression]: slope, intercept and r2.  The loops run over the indices of [xs] and
    read [ys] at the same index. *)
Definition linearRegression (xs ys : list float64) : outcome (float64 * float64 * float64) :=
  if zlen ys <? zlen xs then Panic
  else
    let pts := combine xs ys in
    let n := f64_of_Z (zlen xs) in
    let s := sums_of pts in
    let denom := fsub (fmul n (sumX2 s)) (fmul (sumX s) (sumX s)) in
    if feqb denom f64_zero then Ret (f64_zero, fdiv (sumY s) n, f64_zero)
    else
      let slope := fdiv (fsub (fmul n (sumXY s)) (fmul (sumX s) (sumY s))) denom in
      let intercept := fdiv (fsub (sumY s) (fmul slope (sumX s))) n in
      let meanY := fdiv (sumY s) n in
      let '(ssRes, ssTot) := residuals slope intercept meanY pts in
      let r2 := if feqb ssTot f64_zero then f64_of_Z 1
                else f64_max2 f64_zero (fsub (f64_of_Z 1) (fdiv ssRes ssTot)) in
      Ret (slope, intercept, r2).

(** [forecastResult]. *)
Record forecastResult := mkForecast {
  f_NodeID : string;
  f_Context : string;
  f_Dimension : string;
  CurrentValue : float64;
  Trend : float64;
  f_Threshold : float64;
  HitsAt : option Z;
  HoursUntil : option float64;
  DataPoints : Z;
  R2 : float64;
  f_Message : string;
}.

(** The numbers of its JSON text, in order. *)
Definition forecast_numbers (r : forecastResult) : list float64 :=
  [CurrentValue r; Trend r; f_Threshold r] ++
  match HoursUntil r with Some h => [h] | None => [] end ++ [R2 r].

Definition answer_forecast (r : forecastResult) : result forecastResult :=
  jsonResult (forecast_numbers r) r.

(** The statement. *)
Definition forecast_base : string := "
		SELECT bucket, avg_value
		FROM hardware_metric_rollups_1h
		WHERE node_id = $1 AND context = $2 AND bucket >= $3
	".

Definition forecast_sql (nodeID ctxFilter dimension : string) (afterTime : Z) : builder :=
  let b := mkBuilder forecast_base [AText nodeID; AText ctxFilter; ATime afterTime] 4 in
  let b := add_if dimension " AND dimension = $" b in
  mkBuilder (b_query b +:+ " ORDER BY bucket ASC") (b_args b) (b_idx b).

(** What [handleForecast] makes of the points, a time and a value each; [now] is the reading
    of the clock for the predicted time. *)
Definition forecast (nodeID ctxFilter dimension : string) (threshold : float64)
    (points : list (Z * float64)) (now : Z) : outcome (result forecastResult) :=
  match points with
  | (baseTime, _) :: _ :: _ :: _ =>
      let xs := map (λ p, dur_Hours (time_Sub p.1 baseTime)) points in
      let ys := map snd points in
      '(slope, intercept, r2) ← linearRegression xs ys;
      let currentVal := List.last ys f64_zero in
      let currentHours := List.last xs f64_zero in
      let result hits hours msg :=
        mkForecast nodeID ctxFilter dimension (round2 currentVal) (round2 slope) threshold hits hours
          (zlen points) (round2 r2) msg in
      if feqb slope f64_zero then
        Ret (answer_forecast (result None None "Metric is flat — no trend detected."))
      else
        let hoursToThreshold :=
          fdiv (fsub threshold (fadd intercept (fmul slope currentHours))) slope in
        if fleb hoursToThreshold f64_zero then
          if fgeb currentVal threshold
          then Ret (answer_forecast (result None None "Metric already exceeds threshold."))
          else Ret (answer_forecast (result None None "Trend is moving away from threshold."))
        else
          let hitsAt := time_Add now (f64_to_int (fmul hoursToThreshold (f64_of_Z Hour))) in
          let msg :=
            if fltb hoursToThreshold (f64_of_Z 24)
            then "WARNING: Threshold will be reached in ~" +:+ fmt_f 1 hoursToThreshold +:+ " hours."
            else "Threshold predicted in ~" +:+ fmt_f 0 hoursToThreshold +:+ " hours (~" +:+
                 fmt_f 1 (fdiv hoursToThreshold (f64_of_Z 24)) +:+ " days)." in
          Ret (answer_forecast (result (Some hitsAt) (Some (round2 hoursToThreshold)) msg))
  | _ =>
      Ret (answer_forecast
        (mkForecast nodeID ctxFilter dimension f64_zero f64_zero threshold None None (zlen points) f64_zero
           "Insufficient data points for forecast (need at least 3)."))
  end.

(** The server's answer to the statement. *)
Class PointReader := {
  query_points : Schema.tables → string → list sql_arg → answer (Z * float64);
}.

(** [handleForecast], with its readings of the clock. *)
Definition handleForecast `{Unicode} `{PointReader} (now1 now2 : Z) (a : arguments) (T : Schema.tables)
    : outcome (result forecastResult) :=
  let nodeID := arg_string a "node_id" in
  let ctxFilter := arg_string a "context" in
  let dimension := arg_string a "dimension" in
  let afterStr := arg_string a "after" in
  let threshold := arg_float a "threshold" in
  let afterStr := if String.eqb afterStr "" then "-7d" else afterStr in
  match parseTimeArg now1 afterStr with
  | inl e => Ret (textResult ("Invalid 'after': " +:+ e))
  | inr afterTime =>
      let b := forecast_sql nodeID ctxFilter dimension afterTime in
      match query_points T (b_query b) (b_args b) with
      | inl e => Ret (textResult ("Error: " +:+ e))
      | inr (points, _) => forecast nodeID ctxFilter dimension threshold points now2
      end
  end.
End McpForecast.

(** * What the statement means *)
Module ForecastSpec.
Import McpQuery QuerySpec McpForecast.

Definition points_text (fs : list filter) : string :=
  forecast_base +:+ where_text 4 fs +:+ " ORDER BY bucket ASC".

Definition in_history (node ctx : string) (after : Z) (fs : list filter) (k : Schema.rkey) : Prop :=
  r_node k = node ∧ r_context k = ctx ∧ Schema.pg_time after <= r_bucket k ∧ Forall (rollup_meets k) fs.

#[export] Instance in_history_dec node ctx after fs k : Decision (in_history node ctx after fs k).
Proof. unfold in_history. apply _. Defined.

Definition bucket_le (r r' : Schema.rkey * Schema.rollup) : Prop := r_bucket r.1 <= r_bucket r'.1.

Definition point_of (r : Schema.rkey * Schema.rollup) : Z * float64 :=
  (r_bucket r.1, Schema.avg_value r.2).

(** The hourly rollups of a node and a context since a time, oldest first. *)
Definition history (node ctx : string) (after : Z) (fs : list filter) (T : Schema.tables)
    (points : list (Z * float64)) : Prop :=
  ∃ sorted,
    sorted ≡ₚ base.filter (λ r, in_history node ctx after fs r.1) (map_to_list (Schema.rollups_1h T)) ∧
    StronglySorted bucket_le sorted ∧ points = map point_of sorted.

Class PointReaderLaws `(PR : PointReader) : Prop := {
  points_end T node ctx after fs points :
    query_points T (points_text fs) ([AText node; AText ctx; ATime after] ++ map filter_arg fs) =
      inr (points, None) →
    history node ctx after fs T points;
}.
End ForecastSpec.

(** * The regression in floating point *)
Section Regression.
Import McpForecast.

Definition point_denotes (p : float64 * float64) (z : Z * Z) : Prop :=
  denotes z.1 p.1 ∧ denotes z.2 p.2.

(** Coordinates that leave room for the sums: n and all n * |u| are at most 2^25. *)
Definition roomy (zs : list (Z * Z)) : Prop :=
  zlen zs <= 2 ^ 25 ∧
  ∀ z, z ∈ zs → zlen zs * Z.abs z.1 <= 2 ^ 25 ∧ zlen zs * Z.abs z.2 <= 2 ^ 25.

(** A running sum of exact terms. *)
Lemma sum_denotes {A B} (f : A → float64) (g : B → Z) l zs x acc :
  Forall2 (λ p z, denotes (g z) (f p)) l zs → denotes acc x →
  Z.abs acc + zsum (λ z, Z.abs (g z)) zs < 2 ^ 53 →
  denotes (acc + zsum g zs) (fold_left (λ s p, fadd s (f p)) l x).
Proof.
  intros Hl. revert x acc. induction Hl as [|p z l zs Hp _ IH]; intros x acc Hx Hb.
  { cbn. by rewrite Z.add_0_r. }
  rewrite !zsum_cons in *. cbn [fold_left]. rewrite Z.add_assoc.
  assert (0 <= zsum (λ z, Z.abs (g z)) zs) by (apply zsum_nonneg; intros; lia).
  apply IH; [apply denotes_add; [done..|lia]|lia].
Qed.

Lemma sums_components pts s :
  let r := fold_left add_point pts s in
  sumX r = fold_left (λ t p, fadd t p.1) pts (sumX s) ∧
  sumY r = fold_left (λ t p, fadd t p.2) pts (sumY s) ∧
  sumXY r = fold_left (λ t p, fadd t (fmul p.1 p.2)) pts (sumXY s) ∧
  sumX2 r = fold_left (λ t p, fadd t (fmul p.1 p.1)) pts (sumX2 s).
Proof. revert s. induction pts as [|[x y] pts IH]; intros s; [done|]. cbn [fold_left]. apply IH. Qed.

Section Points.
Context (pts : list (float64 * float64)) (zs : list (Z * Z)).
Context (Hpts : Forall2 point_denotes pts zs) (Hroom : roomy zs) (Hne : zs ≠ []).

Lemma n_pos : 0 < nZ zs.
Proof.
  unfold nZ, zlen. destruct (length zs) eqn:E; [by apply nil_length_inv in E|lia].
Qed.

(** Every sum of products of coordinates stays far below 2^53. *)
Lemma products_bound (f g : Z * Z → Z) :
  (∀ z, z ∈ zs → nZ zs * Z.abs (f z) <= 2 ^ 25) → (∀ z, z ∈ zs → nZ zs * Z.abs (g z) <= 2 ^ 25) →
  nZ zs * zsum (λ z, Z.abs (f z * g z)) zs <= 2 ^ 50 ∧ zsum (λ z, Z.abs (f z)) zs <= 2 ^ 25.
Proof.
  pose proof n_pos as Hn. intros Hf Hg.
  assert (Hs : nZ zs * zsum (λ z, Z.abs (f z)) zs <= zlen zs * 2 ^ 25) by (by apply zsum_abs_bound).
  assert (Hp : nZ zs * nZ zs * zsum (λ z, Z.abs (f z * g z)) zs <= zlen zs * 2 ^ 50).
  { apply zsum_abs_bound; [nia|]. intros z Hz. specialize (Hf z Hz). specialize (Hg z Hz).
    rewrite Z.abs_mul. change (2 ^ 50) with (2 ^ 25 * 2 ^ 25).
    replace (nZ zs * nZ zs * (Z.abs (f z) * Z.abs (g z)))
      with ((nZ zs * Z.abs (f z)) * (nZ zs * Z.abs (g z))) by ring.
    apply Z.mul_le_mono_nonneg; lia. }
  fold (nZ zs) in Hs, Hp. nia.
Qed.

Lemma room_X z : z ∈ zs → nZ zs * Z.abs z.1 <= 2 ^ 25.
Proof. intros Hz. by apply Hroom in Hz as [? ?]. Qed.
Lemma room_Y z : z ∈ zs → nZ zs * Z.abs z.2 <= 2 ^ 25.
Proof. intros Hz. by apply Hroom in Hz as [? ?]. Qed.

Lemma sums_bounds :
  Z.abs (SX zs) <= 2 ^ 25 ∧ Z.abs (SY zs) <= 2 ^ 25 ∧
  nZ zs * Z.abs (SXY zs) <= 2 ^ 50 ∧ nZ zs * Z.abs (SXX zs) <= 2 ^ 50.
Proof.
  pose proof n_pos. pose proof (zsum_abs_le fst zs). pose proof (zsum_abs_le snd zs).
  pose proof (zsum_abs_le (λ z : Z * Z, z.1 * z.2) zs). pose proof (zsum_abs_le (λ z : Z * Z, z.1 * z.1) zs).
  destruct (products_bound fst snd room_X room_Y). destruct (products_bound fst fst room_X room_X).
  destruct (products_bound snd snd room_Y room_Y).
  unfold SX, SY, SXY, SXX. cbv beta in *. split_and!; [lia|lia| |];
    (etransitivity; [apply Z.mul_le_mono_nonneg_l; [lia|eassumption]|done]).
Qed.

(** The sums of the code are the exact ones. *)
Lemma sums_exact :
  let s := sums_of pts in
  denotes (SX zs) (sumX s) ∧ denotes (SY zs) (sumY s) ∧ denotes (SXY zs) (sumXY s) ∧
  denotes (SXX zs) (sumX2 s).
Proof.
  cbv zeta. unfold sums_of.
  destruct (sums_components pts (mkSums f64_zero f64_zero f64_zero f64_zero f64_zero))
    as (-> & -> & -> & ->). cbn [sumX sumY sumXY sumX2].
  pose proof n_pos as Hn. destruct (products_bound fst snd room_X room_Y) as [Bxy Bx].
  destruct (products_bound fst fst room_X room_X) as [Bxx _].
  destruct (products_bound snd snd room_Y room_Y) as [_ By].
  assert (Hmul : ∀ f g : Z * Z → Z, ∀ f' g' : float64 * float64 → float64,
    Forall2 (λ p z, denotes (f z) (f' p) ∧ denotes (g z) (g' p)) pts zs →
    nZ zs * zsum (λ z, Z.abs (f z * g z)) zs <= 2 ^ 50 →
    denotes (zsum (λ z, f z * g z) zs) (fold_left (λ t p, fadd t (fmul (f' p) (g' p))) pts f64_zero)).
  { intros f g f' g' Hfg Hb.
    assert (Hb' : zsum (λ z, Z.abs (f z * g z)) zs <= 2 ^ 50).
    { assert (0 <= zsum (λ z, Z.abs (f z * g z)) zs) by (apply zsum_nonneg; intros; lia). nia. }
    rewrite <- (Z.add_0_l (zsum _ zs)).
    apply (sum_denotes (λ p, fmul (f' p) (g' p)) (λ z, f z * g z)); [|apply denotes_zero|lia].
    assert (Hall : ∀ z, z ∈ zs → Z.abs (f z * g z) <= 2 ^ 50).
    { intros z Hz. etransitivity; [|exact Hb'].
      apply (zsum_le_member (λ z, Z.abs (f z * g z))); [intros; lia|done]. }
    clear -Hfg Hall. induction Hfg as [|p z pts zs [Hf Hg] _ IH]; constructor.
    - apply denotes_mul; [done..|]. assert (Z.abs (f z * g z) <= 2 ^ 50) by (apply Hall; left). lia.
    - apply IH. intros w Hw. apply Hall. by right. }
  split_and!.
  - rewrite <- (Z.add_0_l (SX zs)). apply (sum_denotes fst fst); [|apply denotes_zero|lia].
    eapply Forall2_impl; [exact Hpts|]. by intros p z [].
  - rewrite <- (Z.add_0_l (SY zs)). apply (sum_denotes snd snd); [|apply denotes_zero|lia].
    eapply Forall2_impl; [exact Hpts|]. by intros p z [].
  - by apply (Hmul fst snd fst snd).
  - apply (Hmul fst fst fst fst); [|done]. eapply Forall2_impl; [exact Hpts|]. by intros p z [].
Qed.

Lemma n_exact : denotes (nZ zs) (f64_of_Z (nZ zs)).
Proof. pose proof n_pos. destruct Hroom as [Hn _]. apply denotes_of_Z. unfold nZ in *. lia. Qed.

Lemma numerators_exact :
  let s := sums_of pts in
  let n := f64_of_Z (nZ zs) in
  denotes (DEN zs) (fsub (fmul n (sumX2 s)) (fmul (sumX s) (sumX s))) ∧
  denotes (NUM zs) (fsub (fmul n (sumXY s)) (fmul (sumX s) (sumY s))) ∧
  Z.abs (DEN zs) <= 2 ^ 51 ∧ Z.abs (NUM zs) <= 2 ^ 51.
Proof.
  cbv zeta. destruct sums_exact as (HX & HY & HXY & HXX). pose proof n_exact as Hn. pose proof n_pos.
  destruct sums_bounds as (BX & BY & BXY & BXX).
  assert (Hnm : ∀ t, nZ zs * Z.abs t <= 2 ^ 50 → Z.abs (nZ zs * t) <= 2 ^ 50)
    by (intros t; rewrite Z.abs_mul; lia).
  assert (Hpp : ∀ t u, Z.abs t <= 2 ^ 25 → Z.abs u <= 2 ^ 25 → Z.abs (t * u) <= 2 ^ 50).
  { intros t u Ht Hu. rewrite Z.abs_mul. change (2 ^ 50) with (2 ^ 25 * 2 ^ 25).
    apply Z.mul_le_mono_nonneg; lia. }
  pose proof (Hnm _ BXY). pose proof (Hnm _ BXX). pose proof (Hpp _ _ BX BX). pose proof (Hpp _ _ BX BY).
  unfold DEN, NUM. split_and!; [| |lia|lia];
    (apply denotes_sub; [apply denotes_mul; [done|done|lia]|apply denotes_mul; [done|done|lia]|lia]).
Qed.

Lemma combine_split : combine (map fst pts) (map snd pts) = pts.
Proof. clear. induction pts as [|[x y] l IH]; [done|]. cbn. by rewrite IH. Qed.

Lemma zlen_points : zlen (map fst pts) = nZ zs ∧ zlen (map snd pts) = nZ zs.
Proof.
  unfold nZ, zlen. rewrite !length_map. by rewrite (Forall2_length _ _ _ Hpts).
Qed.

(** The regression, with its parts named. *)
Lemma regression_unfold :
  linearRegression (map fst pts) (map snd pts) =
    let s := sums_of pts in
    let n := f64_of_Z (nZ zs) in
    let denom := fsub (fmul n (sumX2 s)) (fmul (sumX s) (sumX s)) in
    if DEN zs =? 0 then Ret (f64_zero, fdiv (sumY s) n, f64_zero)
    else
      let slope := fdiv (fsub (fmul n (sumXY s)) (fmul (sumX s) (sumY s))) denom in
      let intercept := fdiv (fsub (sumY s) (fmul slope (sumX s))) n in
      let '(ssRes, ssTot) := residuals slope intercept (fdiv (sumY s) n) pts in
      Ret (slope, intercept,
           if feqb ssTot f64_zero then f64_of_Z 1
           else f64_max2 f64_zero (fsub (f64_of_Z 1) (fdiv ssRes ssTot))).
Proof.
  unfold linearRegression. destruct zlen_points as [-> ->]. rewrite Z.ltb_irrefl, combine_split.
  destruct numerators_exact as (HD & _). rewrite (denotes_eqb _ 0 _ f64_zero HD (denotes_zero false)).
  destruct (DEN zs =? 0); [done|]. by destruct (residuals _ _ _ _).
Qed.
End Points.

(** Points on a line with two different abscissas. *)
Section Line.
Context (pts : list (float64 * float64)) (zs : list (Z * Z)) (a b : Z).
Context (Hpts : Forall2 point_denotes pts zs) (Hroom : roomy zs).
Context (Hline : ∀ z, z ∈ zs → z.2 = a * z.1 + b).
Context (z1 z2 : Z * Z) (Hz1 : z1 ∈ zs) (Hz2 : z2 ∈ zs) (Hz : z1.1 ≠ z2.1).

Lemma line_ne : zs ≠ [].
Proof. intros ->. by apply not_elem_of_nil in Hz1. Qed.

Lemma line_NUM : NUM zs = a * DEN zs.
Proof.
  assert (Hsum : ∀ l, (∀ z : Z * Z, z ∈ l → z.2 = a * z.1 + b) →
    zsum snd l = a * zsum fst l + b * zlen l ∧
    zsum (λ z, z.1 * z.2) l = a * zsum (λ z, z.1 * z.1) l + b * zsum fst l).
  { induction l as [|z l IH]; intros Hl; [split; unfold zlen; cbn; ring|].
    rewrite !zsum_cons, zlen_cons. destruct IH as [-> ->]; [intros w Hw; apply Hl; by right|].
    rewrite (Hl z) by left. split; ring. }
  destruct (Hsum zs Hline) as [HY HXY]. unfold NUM, DEN, SY, SX, SXY, SXX, nZ. rewrite HY, HXY. ring.
Qed.

Lemma line_DEN : 0 < DEN zs.
Proof.
  pose proof (DEN_nonneg zs). destruct (Z.eq_dec (DEN zs) 0) as [E|]; [|lia].
  exfalso. by apply Hz, (DEN_zero zs).
Qed.

Lemma line_bounds :
  Z.abs a <= 2 ^ 26 ∧ Z.abs b <= 2 ^ 51 + 2 ^ 25 ∧ Z.abs (a * SX zs) <= 2 ^ 51 ∧
  ∀ z, z ∈ zs → Z.abs (a * z.1) <= 2 ^ 51 ∧ Z.abs z.2 <= 2 ^ 25.
Proof.
  pose proof (n_pos zs line_ne) as Hn. destruct Hroom as [_ Hr]. fold (nZ zs) in Hr.
  assert (Hc : ∀ z, z ∈ zs → Z.abs z.1 <= 2 ^ 25 ∧ Z.abs z.2 <= 2 ^ 25).
  { intros z Hin. destruct (Hr z Hin). nia. }
  assert (Ha : Z.abs a <= 2 ^ 26).
  { pose proof (Hline z1 Hz1). pose proof (Hline z2 Hz2). destruct (Hc z1 Hz1), (Hc z2 Hz2).
    assert (Hd : a * (z1.1 - z2.1) = z1.2 - z2.2) by lia.
    assert (Z.abs a * Z.abs (z1.1 - z2.1) = Z.abs (z1.2 - z2.2)) by (rewrite <- Z.abs_mul; by f_equal).
    assert (1 <= Z.abs (z1.1 - z2.1)) by lia. nia. }
  assert (Hau : ∀ u, Z.abs u <= 2 ^ 25 → Z.abs (a * u) <= 2 ^ 51).
  { intros u Hu. rewrite Z.abs_mul. change (2 ^ 51) with (2 ^ 26 * 2 ^ 25). apply Z.mul_le_mono_nonneg; lia. }
  destruct (sums_bounds zs Hroom line_ne) as (BX & _).
  assert (Hall : ∀ z, z ∈ zs → Z.abs (a * z.1) <= 2 ^ 51 ∧ Z.abs z.2 <= 2 ^ 25).
  { intros z Hin. destruct (Hc z Hin). split; [by apply Hau|done]. }
  split_and!; [done| |by apply Hau|done].
  destruct (Hall z1 Hz1). pose proof (Hline z1 Hz1). lia.
Qed.

(** No residual is left, and the distances from the mean are numbers. *)
Lemma line_residuals slope intercept mean :
  denotes a slope → denotes b intercept → fin64 mean →
  let '(ssRes, ssTot) := residuals slope intercept mean pts in
  denotes 0 ssRes ∧ num64 ssTot ∧ 0 <= fval ssTot.
Proof.
  intros Hs Hi Hm. destruct line_bounds as (_ & _ & _ & Hb). unfold residuals.
  assert (Hgen : ∀ l ws res tot, Forall2 point_denotes l ws → (∀ z, z ∈ ws → z ∈ zs) →
    denotes 0 res → num64 tot ∧ 0 <= fval tot →
    let '(ssRes, ssTot) := fold_left (add_residual slope intercept mean) l (res, tot) in
    denotes 0 ssRes ∧ num64 ssTot ∧ 0 <= fval ssTot).
  { intros l ws res tot Hl. revert res tot. induction Hl as [|[x y] z l ws [Hx Hy] _ IH];
      intros res tot Hin Hres Htot; [done|]. cbn [fold_left add_residual fst snd] in *. apply IH.
    - intros w Hw. apply Hin. by right.
    - assert (Hzin : z ∈ zs) by (apply Hin; left). destruct (Hb z Hzin) as [Bau Bv].
      pose proof (Hline z Hzin) as Hv.
      assert (Hp : denotes z.2 (fadd (fmul slope x) intercept)).
      { rewrite Hv. apply denotes_add; [apply denotes_mul; [done..|lia]|done|]. rewrite <- Hv. lia. }
      pose proof (denotes_sub _ _ _ _ Hy Hp ltac:(lia)) as Hd. rewrite Z.sub_diag in Hd.
      pose proof (denotes_mul _ _ _ _ Hd Hd ltac:(done)) as Hsq.
      exact (denotes_add _ _ _ _ Hres Hsq ltac:(done)).
    - destruct (fmul_square_num (fsub y mean)) as [? ?].
      { destruct (fsub_rounds y mean (proj1 Hy) Hm) as [? _]. done. }
      destruct Htot as [? ?]. destruct (fadd_nonneg tot (fmul (fsub y mean) (fsub y mean))); [done..|].
      split; [done|lia]. }
  apply (Hgen pts zs); [done..|apply denotes_zero|done].
Qed.

(** The regression finds the line. *)
Lemma line_regression :
  ∃ slope intercept r2,
    linearRegression (map fst pts) (map snd pts) = Ret (slope, intercept, r2) ∧
    denotes a slope ∧ denotes b intercept ∧ denotes 1 r2.
Proof.
  rewrite (regression_unfold pts zs Hpts Hroom line_ne). cbv zeta.
  destruct (numerators_exact pts zs Hpts Hroom line_ne) as (HD & HN & BD & BN).
  destruct (sums_exact pts zs Hpts Hroom line_ne) as (HX & HY & _).
  pose proof (n_exact zs Hroom line_ne) as Hn. pose proof (n_pos zs line_ne) as Hnpos.
  pose proof line_DEN as Hden. pose proof line_NUM as Hnum.
  destruct line_bounds as (Ba & Bb & BaX & _).
  destruct (Z.eqb_spec (DEN zs) 0) as [|_]; [lia|].
  set (den := fsub (fmul _ (sumX2 _)) _) in *. set (num := fsub (fmul _ (sumXY _)) _) in *.
  assert (Hs : denotes a (fdiv num den)).
  { apply (denotes_div a (DEN zs)); [by rewrite <- Hnum|done|lia|lia]. }
  set (slope := fdiv num den) in *. clearbody slope.
  assert (HSY : SY zs = a * SX zs + nZ zs * b).
  { unfold NUM, DEN in Hnum. unfold SY, SX, nZ in *.
    clear -Hline. induction zs as [|z l IH]; [unfold zlen; cbn; ring|].
    rewrite !zsum_cons, zlen_cons, IH by (intros w Hw; apply Hline; by right).
    rewrite (Hline z) by left. ring. }
  assert (Hi : denotes b (fdiv (fsub (sumY (sums_of pts)) (fmul slope (sumX (sums_of pts)))) (f64_of_Z (nZ zs)))).
  { apply (denotes_div b (nZ zs)); [|done|lia|lia].
    replace (b * nZ zs) with (SY zs - a * SX zs) by lia.
    destruct (sums_bounds zs Hroom line_ne) as (_ & BY & _).
    apply denotes_sub; [done| |lia]. apply denotes_mul; [done..|lia]. }
  set (intercept := fdiv (fsub _ _) _) in *. clearbody intercept.
  assert (Hmean : fin64 (fdiv (sumY (sums_of pts)) (f64_of_Z (nZ zs)))).
  { destruct (sums_bounds zs Hroom line_ne) as (_ & BY & _).
    apply (denotes_div_fin (SY zs) (nZ zs)); [done..|lia]. }
  pose proof (line_residuals slope intercept _ Hs Hi Hmean) as Hres.
  destruct (residuals slope intercept _ pts) as [ssRes ssTot]. destruct Hres as (Hr & Ht & Ht0).
  eexists _, _, _. split; [reflexivity|]. split; [done|]. split; [done|].
  destruct (feqb ssTot f64_zero) eqn:Et; [by apply denotes_of_Z|].
  destruct (denotes_0_zero ssRes Hr) as [s ->].
  destruct (fdiv_zero_pos s ssTot Ht Ht0 Et) as [t ->].
  assert (f64_max2 f64_zero (fsub (f64_of_Z 1) (S754_zero t)) = f64_of_Z 1) as -> by (by destruct t).
  by apply denotes_of_Z.
Qed.
End Line.
End Regression.

(** * What the tool answers *)
Section Forecast.
Import McpQuery QuerySpec McpForecast ForecastSpec.

(** C29.  The regression is least squares: for points with whole coordinates (n and n times every
      coordinate at most 2^25) it returns; the slope is the one rounded quotient of the exact
      numerator n Σxy - Σx Σy and denominator n Σx² - (Σx)², which is positive unless all
      points have the same x, when the slope is 0; and the line with that exact slope
      through the centre of the points has the least sum of squared distances among all lines
      (P x + R) / W. *)
Theorem regression_least_squares pts zs :
  Forall2 point_denotes pts zs → roomy zs → zs ≠ [] →
  (∃ slope intercept r2,
    linearRegression (map fst pts) (map snd pts) = Ret (slope, intercept, r2) ∧
    if DEN zs =? 0 then slope = f64_zero
    else ∃ num den, slope = fdiv num den ∧ denotes (NUM zs) num ∧ denotes (DEN zs) den) ∧
  0 <= DEN zs ∧ (DEN zs = 0 → ∀ z z', z ∈ zs → z' ∈ zs → z.1 = z'.1) ∧
  ∀ P R W,
    W * W * zsum (λ z, residual zs z * residual zs z) zs <=
    nZ zs * DEN zs * (nZ zs * DEN zs) *
      zsum (λ z, (W * z.2 - P * z.1 - R) * (W * z.2 - P * z.1 - R)) zs.
Proof.
  intros Hpts Hroom Hne. split_and!.
  - rewrite (regression_unfold pts zs Hpts Hroom Hne). cbv zeta.
    destruct (numerators_exact pts zs Hpts Hroom Hne) as (HD & HN & _).
    destruct (DEN zs =? 0); [by eexists _, _, _|].
    destruct (residuals _ _ _ _) as [ssRes ssTot]. eexists _, _, _. split; [reflexivity|].
    by eexists _, _.
  - apply DEN_nonneg.
  - intros H0 z z' Hz Hz'. by apply (DEN_zero zs).
  - intros P R W. apply least_squares.
Qed.

(** ** A history that grows by [a] every hour *)

(** The right forecast at [now] for [n] points with the newest value [b]: the threshold
    [t] = b + a k is met in [k] hours, if at all. *)
Definition predicts (a b t k n now : Z) (r : forecastResult) : Prop :=
  DataPoints r = n ∧ denotes b (CurrentValue r) ∧ denotes a (Trend r) ∧ denotes t (f_Threshold r) ∧
  denotes 1 (R2 r) ∧
  if a =? 0 then HitsAt r = None ∧ HoursUntil r = None
  else if k <=? 0 then
    HitsAt r = None ∧ HoursUntil r = None ∧
    f_Message r = if t <=? b then "Metric already exceeds threshold."
                  else "Trend is moving away from threshold."
  else HitsAt r = Some (now + k * Hour) ∧ ∃ h, HoursUntil r = Some h ∧ denotes k h.

(** A point [h] hours before the newest one, whose value is [b]; there are [n] points. *)
Definition on_line (newest a b n : Z) (p : Z * float64) : Prop :=
  ∃ h, p.1 = newest - h * Hour ∧ 0 <= h <= 2 ^ 21 ∧ n * h <= 2 ^ 25 ∧
    n * Z.abs (b - a * h) <= 2 ^ 25 ∧ denotes (b - a * h) p.2.

Lemma dur_Hours_whole h : 0 <= h <= 2 ^ 21 → denotes h (dur_Hours (h * Hour)).
Proof.
  intros Hh. unfold dur_Hours. assert (Hour ≠ 0) by done.
  rewrite Z.quot_mul, Z.rem_mul by done.
  rewrite <- (Z.add_0_r h) at 1. apply denotes_add; [apply denotes_of_Z; lia| |lia].
  apply (denotes_div 0 3600000000000); [apply denotes_zero|by apply denotes_of_Z|done|done].
Qed.

Lemma round2_denotes z x : denotes z x → Z.abs z < 2 ^ 45 → denotes z (round2 x).
Proof.
  intros Hx Hz. unfold round2, hundred.
  apply (denotes_div z 100); [|by apply denotes_of_Z|done|lia].
  apply denotes_round; [|lia]. apply denotes_mul; [done|by apply denotes_of_Z|lia].
Qed.

Lemma denotes_finite_number z x : denotes z x → finite x = true.
Proof. intros [[[_ Hn] Hi] _]. unfold finite. by rewrite Hn, Hi. Qed.

Section Line.
Context (newest a b : Z) (points : list (Z * float64)).
Let n := zlen points.
Context (Hn : 3 <= n <= 2 ^ 25).
Context (Hline : ∀ p, p ∈ points → on_line newest a b n p).
Context (Hsorted : StronglySorted (λ p q : Z * float64, p.1 <= q.1) points).
Context (p1 p2 : Z * float64) (Hp1 : p1 ∈ points) (Hp2 : p2 ∈ points) (Hp : p1.1 ≠ p2.1).
Context (Hnew : ∃ p, p ∈ points ∧ p.1 = newest).

(** How many hours before the newest point. *)
Definition hours_before (p : Z * float64) : Z := (newest - p.1) / Hour.

Lemma hours_before_spec p :
  p ∈ points →
  let h := hours_before p in
  p.1 = newest - h * Hour ∧ 0 <= h <= 2 ^ 21 ∧ n * h <= 2 ^ 25 ∧
  n * Z.abs (b - a * h) <= 2 ^ 25 ∧ denotes (b - a * h) p.2.
Proof.
  intros Hin. destruct (Hline p Hin) as (h & Hb & Hrest). cbv zeta.
  assert (hours_before p = h) as ->; [|done].
  unfold hours_before. rewrite Hb. replace (newest - (newest - h * Hour)) with (h * Hour) by lia.
  by apply Z.div_mul.
Qed.

(** The points as the regression sees them, from the first point [p0]. *)
Definition whole_points (p0 : Z * float64) : list (Z * Z) :=
  map (λ p, (hours_before p0 - hours_before p, b - a * hours_before p)) points.

Lemma point_denote p0 p :
  head points = Some p0 → p ∈ points →
  point_denotes (dur_Hours (time_Sub p.1 p0.1), p.2)
    (hours_before p0 - hours_before p, b - a * hours_before p).
Proof.
  intros H0 Hin. assert (Hin0 : p0 ∈ points) by (destruct points; [done|injection H0 as ->; left]).
  destruct (hours_before_spec p0 Hin0) as (E0 & B0 & _).
  destruct (hours_before_spec p Hin) as (E & B & _ & _ & Hv). split; [|done]. cbn [fst snd].
  assert (Hle : p0.1 <= p.1).
  { destruct points as [|q l]; [done|]. injection H0 as ->. apply StronglySorted_inv in Hsorted as [_ Hl].
    rewrite Forall_forall in Hl. apply elem_of_cons in Hin as [->|Hin]; [lia|by apply Hl]. }
  assert (Hd : p.1 - p0.1 = (hours_before p0 - hours_before p) * Hour) by lia.
  assert (0 <= hours_before p0 - hours_before p) by (unfold_time; lia).
  rewrite time_Sub_exact, Hd by (rewrite Hd; unfold is_i64, min_int64, max_int64; unfold_time; lia).
  apply dur_Hours_whole. lia.
Qed.

Lemma points_denote p0 :
  head points = Some p0 →
  Forall2 point_denotes
    (map (λ p : Z * float64, (dur_Hours (time_Sub p.1 p0.1), p.2)) points) (whole_points p0).
Proof.
  intros H0. apply Forall2_fmap_l, Forall2_fmap_r, Forall_Forall2_diag, Forall_forall.
  intros p Hin. by apply point_denote.
Qed.

Lemma whole_points_roomy p0 : p0 ∈ points → roomy (whole_points p0).
Proof.
  intros Hin0. destruct (hours_before_spec p0 Hin0) as (_ & B0 & N0 & _).
  assert (Hlen : zlen (whole_points p0) = n) by (unfold whole_points, zlen; by rewrite length_map).
  split; rewrite Hlen; [lia|]. intros z Hz. apply list_elem_of_fmap in Hz as (p & -> & Hin).
  destruct (hours_before_spec p Hin) as (_ & B & N & V & _). cbn [fst snd]. split; [|done].
  assert (Z.abs (hours_before p0 - hours_before p) <= Z.max (hours_before p0) (hours_before p)) by lia.
  destruct (Z.max_spec (hours_before p0) (hours_before p)) as [[_ Em]|[_ Em]]; rewrite Em in *; nia.
Qed.

Lemma last_newest : ∃ p0 pn q r l,
  points = p0 :: q :: r :: l ∧ List.last points pn = pn ∧ pn ∈ points ∧ hours_before pn = 0 ∧
  ∀ (f : Z * float64 → float64) d, List.last (map f points) d = f pn.
Proof.
  assert (∃ p0 q r l, points = p0 :: q :: r :: l) as (p0 & q & r & l & Ep).
  { assert (H3 : (3 <= length points)%nat) by (unfold n, zlen in Hn; lia).
    clear -H3. destruct points as [|p0 [|q [|r l]]]; cbn in H3; [lia..|by repeat eexists]. }
  set (pn := List.last points p0).
  assert (Happ : points = removelast points ++ [pn]) by (by apply app_removelast_last; rewrite Ep).
  assert (Hin : pn ∈ points) by (rewrite Happ; apply elem_of_app; right; left).
  exists p0, pn, q, r, l. split_and!; [done| |done| |].
  - rewrite Happ, last_last. done.
  - destruct Hnew as (p & Hpin & Hpv).
    assert (Hle : p.1 <= pn.1).
    { clear Hpv. pose proof Hsorted as Hsorted'. rewrite Happ in Hpin, Hsorted'. apply elem_of_app in Hpin as [Hpin| ->%list_elem_of_singleton]; [|lia].
      apply (StronglySorted_app_1_elem_of _ _ _ _ _ Hsorted' Hpin). left. }
    destruct (hours_before_spec pn Hin) as (E & B & _). unfold_time. lia.
  - intros f d. rewrite Happ, map_app. cbn [map]. apply last_last.
Qed.

Lemma forecast_line node ctx dim thr t k now :
  denotes t thr → Z.abs t <= 2 ^ 40 → (a ≠ 0 → t = b + a * k ∧ k * Hour < 2 ^ 53) →
  ∃ r, forecast node ctx dim thr points now = Ret (JSON r) ∧ predicts a b t k n now r.
Proof.
  intros Ht Bt Hk. destruct last_newest as (p0 & pn & q & r & l & Ep & _ & Hinn & Hhn & Hlast).
  assert (Hin0 : p0 ∈ points) by (rewrite Ep; left).
  assert (Hhead : head points = Some p0) by (by rewrite Ep).
  destruct (hours_before_spec p0 Hin0) as (_ & B0 & _).
  destruct (hours_before_spec pn Hinn) as (_ & _ & _ & Vn & Dn). rewrite Hhn, Z.mul_0_r, Z.sub_0_r in Vn, Dn.
  set (h0 := hours_before p0) in *.
  set (pts := map (λ p : Z * float64, (dur_Hours (time_Sub p.1 p0.1), p.2)) points).
  pose proof (points_denote p0 Hhead) as Hpts. fold pts in Hpts.
  assert (Hmem : ∀ p, p ∈ points →
    (h0 - hours_before p, b - a * hours_before p) ∈ whole_points p0).
  { intros p Hin. apply list_elem_of_fmap. by exists p. }
  assert (Hl : ∀ z, z ∈ whole_points p0 → z.2 = a * z.1 + (b - a * h0)).
  { intros z Hz. apply list_elem_of_fmap in Hz as (p & -> & _). cbn [fst snd]. unfold h0. ring. }
  assert (Hdist : h0 - hours_before p1 ≠ h0 - hours_before p2).
  { destruct (hours_before_spec p1 Hp1) as [E1 _]. destruct (hours_before_spec p2 Hp2) as [E2 _].
    intros E. apply Hp. rewrite E1, E2. do 2 f_equal. lia. }
  destruct (line_regression pts (whole_points p0) a (b - a * h0) Hpts (whole_points_roomy p0 Hin0) Hl
    _ _ (Hmem p1 Hp1) (Hmem p2 Hp2) Hdist) as (slope & intercept & r2 & Hreg & Hs & Hi & Hr2).
  destruct (line_bounds pts (whole_points p0) a (b - a * h0) Hpts (whole_points_roomy p0 Hin0) Hl
    _ _ (Hmem p1 Hp1) (Hmem p2 Hp2) Hdist) as (Ba & Bi & _ & Bau).
  destruct (Bau _ (Hmem pn Hinn)) as [Bah _]. cbn [fst] in Bah. rewrite Hhn, Z.sub_0_r in Bah.
  assert (Bb : Z.abs b <= 2 ^ 25) by nia.
  unfold forecast. rewrite Ep. cbn [fst]. rewrite <- Ep.
  assert (Hxs : map (λ p : Z * float64, dur_Hours (time_Sub p.1 p0.1)) points = map fst pts)
    by (unfold pts; by rewrite map_map).
  assert (Hys : map snd points = map snd pts) by (unfold pts; by rewrite map_map).
  destruct p0 as [t0 v0]. cbn [fst] in *.
  rewrite (Hlast snd f64_zero), (Hlast (λ p, dur_Hours (time_Sub p.1 t0)) f64_zero).
  rewrite Hxs, Hys, Hreg. cbn [mbind outcome_bind].
  destruct (point_denote (t0, v0) pn Hhead Hinn) as [Hcur _]. cbn [fst snd] in Hcur.
  fold h0 in Hcur. rewrite Hhn, Z.sub_0_r in Hcur.
  set (cur := dur_Hours (time_Sub pn.1 t0)) in *. clearbody cur.
  assert (Hpred : denotes b (fadd intercept (fmul slope cur))).
  { replace b with ((b - a * h0) + a * h0) by ring. apply denotes_add; [done| |lia].
    apply denotes_mul; [done..|lia]. }
  rewrite (denotes_eqb a 0 slope f64_zero Hs (denotes_zero false)).
  assert (Hjson : ∀ hits hours msg,
    match hours with Some h => finite h = true | None => True end →
    let r := mkForecast node ctx dim (round2 pn.2) (round2 slope) thr hits hours n (round2 r2) msg in
    answer_forecast r = JSON r ∧ DataPoints r = n ∧ denotes b (CurrentValue r) ∧ denotes a (Trend r) ∧
    denotes t (f_Threshold r) ∧ denotes 1 (R2 r)).
  { intros hits hours msg Hh. cbv zeta. unfold answer_forecast, jsonResult, forecast_numbers.
    cbn [CurrentValue Trend f_Threshold HoursUntil R2 DataPoints].
    pose proof (round2_denotes b pn.2 Dn ltac:(lia)) as H1.
    pose proof (round2_denotes a slope Hs ltac:(lia)) as H2.
    pose proof (round2_denotes 1 r2 Hr2 ltac:(done)) as H3.
    split; [|done]. assert (Hf : List.find (λ f, negb (finite f))
      ([round2 pn.2; round2 slope; thr] ++ match hours with Some h => [h] | None => [] end ++ [round2 r2]) = None).
    { cbn [app List.find]. rewrite (denotes_finite_number _ _ H1), (denotes_finite_number _ _ H2),
        (denotes_finite_number _ _ Ht). cbn [negb].
      destruct hours as [h|]; cbn [app List.find]; rewrite ?Hh, (denotes_finite_number _ _ H3); done. }
    by rewrite Hf. }
  fold n. unfold predicts. destruct (Z.eqb_spec a 0) as [Ha|Ha].
  { destruct (Hjson None None "Metric is flat — no trend detected." I) as (-> & Hrest).
    eexists. split; [reflexivity|]. cbv zeta in Hrest. tauto. }
  destruct (Hk Ha) as [Htk Hkb].
  assert (Hh : denotes k (fdiv (fsub thr (fadd intercept (fmul slope cur))) slope)).
  { apply (denotes_div k a); [|done|done|nia]. replace (k * a) with (t - b) by lia.
    apply denotes_sub; [done..|lia]. }
  set (hours := fdiv _ slope) in *. clearbody hours.
  rewrite (denotes_leb k 0 hours f64_zero Hh (denotes_zero false)). unfold fgeb.
  change (SFleb thr pn.2) with (fleb thr pn.2). rewrite (denotes_leb t b thr pn.2 Ht Dn).
  destruct (Z.leb_spec k 0) as [Hk0|Hk0].
  - destruct (t <=? b).
    + destruct (Hjson None None "Metric already exceeds threshold." I) as (-> & Hrest).
      eexists. split; [reflexivity|]. cbv zeta in Hrest. tauto.
    + destruct (Hjson None None "Trend is moving away from threshold." I) as (-> & Hrest).
      eexists. split; [reflexivity|]. cbv zeta in Hrest. tauto.
  - assert (Hhit : f64_to_int (fmul hours (f64_of_Z Hour)) = k * Hour).
    { apply denotes_to_int; [|unfold is_i64, min_int64, max_int64; unfold_time; lia].
      apply denotes_mul; [done|by apply denotes_of_Z|unfold_time; lia]. }
    rewrite Hhit. assert (Hr : denotes k (round2 hours)) by (apply round2_denotes; [done|unfold_time; lia]).
    match goal with |- context [answer_forecast (mkForecast _ _ _ _ _ _ ?hits ?hrs _ _ ?msg)] =>
      destruct (Hjson hits hrs msg (denotes_finite_number _ _ Hr)) as (-> & Hrest) end.
    eexists. split; [reflexivity|]. cbv zeta in Hrest. cbn [HitsAt HoursUntil].
    split_and!; try tauto. exists (round2 hours). split; [done|exact Hr].
Qed.
End Line.

Context `{Unicode} `{PL : PointReaderLaws}.

Lemma forecast_sql_spec node ctx dim after :
  let fs := text_filter DimensionIs dim in
  b_query (forecast_sql node ctx dim after) = points_text fs ∧
  b_args (forecast_sql node ctx dim after) = [AText node; AText ctx; ATime after] ++ map filter_arg fs.
Proof.
  cbv zeta. unfold forecast_sql, add_if, text_filter, points_text.
  destruct (String.eqb_spec dim "") as [->|Hd]; cbn [b_query b_args add_filter map app where_text]; [done|].
  split; [reflexivity|done].
Qed.

(** C31.  A metric on a line of whole slope is forecast exactly.  Let the question give a time
      'after' and a dimension, and let the hourly rollups of the node, context and dimension
      since then be at least three, at two different times or more, on a line that rises by a
      whole amount [a] every hour (whole hours before the newest one and whole values, whose
      sums stay below 2^53), and the threshold a whole number of hours [k] away on the
      line.  Then the answer gives the trend [a], the newest value and R² = 1; a threshold
      ahead is predicted for exactly [k] hours from now, one already passed is reported as such,
      and a flat metric gets no prediction.  (A slope that is not whole is rounded to two digits,
      and without a dimension those of the context are not summed; of these cases nothing is
      said here.) *)
Theorem forecast_of_linear_history now1 now2 q T after newest a b t k points :
  let node := arg_string q "node_id" in
  let ctx := arg_string q "context" in
  let fs := text_filter DimensionIs (arg_string q "dimension") in
  arg_string q "after" ≠ "" → parseTimeArg now1 (arg_string q "after") = inr after →
  arg_string q "dimension" ≠ "" →
  query_points T (points_text fs) ([AText node; AText ctx; ATime after] ++ map filter_arg fs) =
    inr (points, None) →
  3 <= zlen points <= 2 ^ 25 →
  (∀ key r, Schema.rollups_1h T !! key = Some r → in_history node ctx after fs key →
     on_line newest a b (zlen points) (point_of (key, r))) →
  (∃ p, p ∈ points ∧ p.1 = newest) → (∃ p, p ∈ points ∧ p.1 ≠ newest) →
  denotes t (arg_float q "threshold") → Z.abs t <= 2 ^ 40 →
  (a ≠ 0 → t = b + a * k ∧ k * Hour < 2 ^ 53) →
  ∃ r, handleForecast now1 now2 q T = Ret (JSON r) ∧ predicts a b t k (zlen points) now2 r.
Proof.
  intros node ctx fs Hne Hafter _ Hq Hn Hline [p1 [Hp1 E1]] [p2 [Hp2 E2]] Ht Bt Hk.
  unfold handleForecast. apply String.eqb_neq in Hne. rewrite Hne, Hafter. fold node ctx.
  destruct (forecast_sql_spec node ctx (arg_string q "dimension") after) as [-> ->]. fold fs. rewrite Hq.
  destruct (points_end _ _ _ _ _ _ Hq) as (sorted & Hperm & Hs & ->).
  apply (forecast_line newest a b (map point_of sorted) Hn) with (p1 := p1) (p2 := p2); try done.
  - intros p Hp. apply list_elem_of_fmap in Hp as ([key r] & -> & Hp). rewrite Hperm in Hp.
    apply list_elem_of_filter in Hp as [Hh Hm]. apply elem_of_map_to_list in Hm. by apply Hline.
  - clear -Hs. induction Hs as [|r l Hl IH Hr]; [constructor|]. cbn [map]. constructor; [done|].
    apply Forall_fmap. eapply Forall_impl; [exact Hr|]. by intros r'.
  - congruence.
  - by exists p1.
Qed.

(** Without an "after" the tool never answers: its default of seven days is not a duration. *)
Lemma forecast_default_refused now1 now2 q T :
  arg_string q "after" = "" → ∃ e, handleForecast now1 now2 q T = Ret (textResult ("Invalid 'after': " +:+ e)).
Proof.
  intros Ha. unfold handleForecast. rewrite Ha. destruct (parseTimeArg_days now1 7) as [e He]; [lia|].
  exists e. change (if String.eqb "" "" then "-7d" else "") with ("-" +:+ fmt_d 7 +:+ "d"). by rewrite He.
Qed.
End Forecast.

(** * A reader in memory *)
Module MemPoints.
Import McpQuery QuerySpec McpForecast ForecastSpec.

#[export] Instance bucket_le_dec r r' : Decision (bucket_le r r').
Proof. unfold bucket_le. apply _. Defined.
#[export] Instance bucket_le_total : Total bucket_le.
Proof. intros r r'. unfold bucket_le. lia. Qed.
#[export] Instance bucket_le_trans : Transitive bucket_le.
Proof. intros r1 r2 r3. unfold bucket_le. lia. Qed.

Definition select (T : Schema.tables) (node ctx : string) (after : Z) (fs : list filter)
    : answer (Z * float64) :=
  inr (map point_of (merge_sort bucket_le
    (base.filter (λ r, in_history node ctx after fs r.1) (map_to_list (Schema.rollups_1h T)))), None).

Definition run (T : Schema.tables) (q : string) (args : list sql_arg) : answer (Z * float64) :=
  match args with
  | [AText node; AText ctx; ATime after] =>
      if String.eqb q (points_text []) then select T node ctx after [] else inl "syntax error"
  | [AText node; AText ctx; ATime after; AText dim] =>
      if String.eqb q (points_text [FText DimensionIs dim])
      then select T node ctx after [FText DimensionIs dim] else inl "syntax error"
  | _ => inl "syntax error"
  end.

#[export] Instance reader : PointReader := {| query_points := run |}.

#[export] Instance reader_laws : PointReaderLaws reader.
Proof.
  split. cbn [query_points reader]. intros T node ctx after fs points E.
  assert (Hsel : ∀ fs, select T node ctx after fs = inr (points, None) → history node ctx after fs T points).
  { intros fs' Hs. injection Hs as <-. eexists. split; [apply (merge_sort_Permutation bucket_le)|].
    split; [by apply (StronglySorted_merge_sort bucket_le)|done]. }
  destruct fs as [|f [|f' fs]]; cbn [app map run] in E.
  - apply Hsel. unfold run in E. by rewrite String.eqb_refl in E.
  - destruct f as [c v|l|m|u|u]; cbn [filter_arg] in E; try done. unfold run in E.
    destruct (String.eqb_spec (points_text [FText c v]) (points_text [FText DimensionIs v])) as [Et|]; [|done].
    destruct c; try done. by apply Hsel.
  - exfalso. unfold run in E. by destruct (filter_arg f), (filter_arg f').
Qed.
End MemPoints.

Section ForecastWitnesses.
Import McpQuery QuerySpec McpForecast ForecastSpec MemPoints.
#[local] Instance no_unicode : Unicode := {| unicode_ToLower s := s; unicode_Quote s := s |}.

Lemma regression_least_squares_witness :
  ∃ slope intercept r2,
    linearRegression [f64_of_Z 0; f64_of_Z 1; f64_of_Z 3] [f64_of_Z 1; f64_of_Z 2; f64_of_Z 2] =
      Ret (slope, intercept, r2) ∧
    ∃ num den, slope = fdiv num den ∧ denotes 4 num ∧ denotes 14 den.
Proof.
  destruct (regression_least_squares
    [(f64_of_Z 0, f64_of_Z 1); (f64_of_Z 1, f64_of_Z 2); (f64_of_Z 3, f64_of_Z 2)] [(0, 1); (1, 2); (3, 2)])
    as [(s & i & r2 & E & num & den & Hs & Hnum & Hden) _].
  - repeat (constructor; [split; by apply denotes_of_Z|]). constructor.
  - split; [by vm_compute|]. intros z Hz.
    repeat (apply elem_of_cons in Hz as [->|Hz]; [by vm_compute|]). by apply not_elem_of_nil in Hz.
  - done.
  - change (NUM [(0, 1); (1, 2); (3, 2)]) with 4 in Hnum. change (DEN [(0, 1); (1, 2); (3, 2)]) with 14 in Hden.
    exists s, i, r2. split; [exact E|]. exists num, den. split; [exact Hs|]. split; [exact Hnum|exact Hden].
Defined.

(** The disk of a node fills by 2 every hour. *)
Definition disk_tables : Schema.tables :=
  let at_hour h := ("n1", h * Hour, "disk.space", "used", "") in
  let gib v := Schema.mkRollup "GiB" (f64_of_Z v) f64_zero f64_zero 60 in
  Schema.mkTables [] ∅ (<[at_hour 1 := gib 12]> (<[at_hour 2 := gib 14]> (<[at_hour 4 := gib 18]> ∅))) ∅.

Definition disk_question : arguments :=
  {["node_id" := JStr "n1"; "context" := JStr "disk.space"; "dimension" := JStr "used";
    "after" := JStr "1970-01-01"; "threshold" := JNum (f64_of_Z 30)]}.

Lemma forecast_of_linear_history_witness :
  ∃ r, handleForecast 0 (4 * Hour) disk_question disk_tables = Ret (JSON r) ∧
    predicts 2 18 30 6 3 (4 * Hour) r.
Proof.
  set (points := [(1 * Hour, f64_of_Z 12); (2 * Hour, f64_of_Z 14); (4 * Hour, f64_of_Z 18)]).
  refine (forecast_of_linear_history 0 (4 * Hour) disk_question disk_tables 0 (4 * Hour) 2 18 30 6 points
    _ _ _ _ _ _ _ _ _ _ _).
  - done.
  - by vm_compute.
  - done.
  - by vm_compute.
  - by vm_compute.
  - intros key r Hr _.
    assert (Hd : ∀ z, 0 <= z < 100 → denotes z (f64_of_Z z)) by (intros; apply denotes_of_Z; lia).
    cbn [disk_tables Schema.rollups_1h] in Hr.
    apply lookup_insert_Some in Hr as [[<- <-]|[_ Hr]]; [exists 3|].
    { split_and!; [done..|]. by apply (Hd 12). }
    apply lookup_insert_Some in Hr as [[<- <-]|[_ Hr]]; [exists 2|].
    { split_and!; [done..|]. by apply (Hd 14). }
    apply lookup_insert_Some in Hr as [[<- <-]|[_ Hr]]; [exists 0|by rewrite lookup_empty in Hr].
    split_and!; [done..|]. by apply (Hd 18).
  - exists (4 * Hour, f64_of_Z 18). split; [by do 2 right; left|done].
  - exists (1 * Hour, f64_of_Z 12). split; [by left|done].
  - by apply denotes_of_Z.
  - done.
  - done.
Defined.
End ForecastWitnesses.
