(* ===== verification/McpAnomaly.v ===== *)
(** The anomaly tool of the MCP server, internal/mcp/anomaly.go: z-scores of the newest samples. *)

From Stdlib Require Import Ascii SpecFloat Sorted.
From stdpp Require Import sorting.
From S2P Require Import Prelude GoInt GoFloat GoFloatInt GoTime GoString GoDuration Store Collector McpQuery GoSort McpSummary.

Module McpAnomaly.
Import McpQuery.

(** A row of the statement: a context, dimension and instance with the mean and deviation of its
    values and the newest one. *)
Record group := mkGroup {
  g_context : string;
  g_dimension : string;
  g_instance : string;
  g_mean : float64;
  g_stddev : float64;
  g_latest : float64;
}.

(** [anomaly] and [anomalyResult]. *)
Record anomaly := mkAnomaly {
  an_Context : string;
  an_Dimension : string;
  an_Instance : string;
  LatestVal : float64;
  Mean : float64;
  StdDev : float64;
  ZScore : float64;
  Direction : string;
}.

Record anomalyResult := mkAnomalies {
  an_NodeID : string;
  Anomalies : list anomaly;
  Total : Z;
}.

Definition threshold_of (thresholdF : float64) : float64 :=
  if fgtb thresholdF f64_zero then thresholdF else f64_ratio 5 2.

Definition anomaly_limit (limitF : float64) : Z :=
  if fgtb limitF f64_zero then f64_to_int limitF else 20.

(** The statement. *)
Definition anomaly_base : string := "
		SELECT context, dimension, COALESCE(instance, '') as instance,
			AVG(value) as mean,
			STDDEV_POP(value) as stddev,
			(array_agg(value ORDER BY collected_at DESC))[1] as latest
		FROM hardware_metric_samples
		WHERE node_id = $1 AND collected_at >= $2
	".

Definition anomaly_tail : string := " GROUP BY context, dimension, COALESCE(instance, '')
		HAVING COUNT(*) >= 5 AND STDDEV_POP(value) > 0".

Definition anomaly_sql (nodeID ctxFilter : string) (afterTime : Z) : builder :=
  let b := mkBuilder anomaly_base [AText nodeID; ATime afterTime] 3 in
  let b := add_if ctxFilter " AND context = $" b in
  mkBuilder (b_query b +:+ anomaly_tail) (b_args b) (b_idx b).

(** The body of the loop over the rows. *)
Definition zscore (g : group) : float64 := fdiv (fsub (g_latest g) (g_mean g)) (g_stddev g).

Definition anomaly_of (threshold : float64) (g : group) : option anomaly :=
  let zScore := zscore g in
  let absZ := fabs zScore in
  if fgeb absZ threshold then
    Some (mkAnomaly (g_context g) (g_dimension g) (g_instance g) (round2 (g_latest g)) (round2 (g_mean g))
            (round2 (g_stddev g)) (round2 zScore) (if fgtb zScore f64_zero then "high" else "low"))
  else None.

Class GroupReader := {
  query_groups : Schema.tables → string → list sql_arg → answer group;
}.

Section Detect.
Context `{Unicode} `{SortSlice}.

Definition more_deviant (a b : anomaly) : bool := fgtb (fabs (ZScore a)) (fabs (ZScore b)).

Definition anomaly_numbers (r : anomalyResult) : list float64 :=
  flat_map (λ a, [LatestVal a; Mean a; StdDev a; ZScore a]) (Anomalies r).

(** What [handleDetectAnomalies] makes of the rows. *)
Definition detect (nodeID : string) (threshold : float64) (limit : Z) (rows : list group)
    : outcome (result anomalyResult) :=
  let anomalies := sort_Slice more_deviant (omap (anomaly_of threshold) rows) in
  anomalies ← (if limit <? zlen anomalies
               then if limit <? 0 then Panic else Ret (take (Z.to_nat limit) anomalies)
               else Ret anomalies);
  let r := mkAnomalies nodeID anomalies (zlen rows) in
  Ret (jsonResult (anomaly_numbers r) r).

(** [handleDetectAnomalies]. *)
Definition handleDetectAnomalies `{GroupReader} (now : Z) (a : arguments) (T : Schema.tables)
    : outcome (result anomalyResult) :=
  let nodeID := arg_string a "node_id" in
  let afterStr := arg_string a "after" in
  let afterStr := if String.eqb afterStr "" then "-1h" else afterStr in
  let threshold := threshold_of (arg_float a "threshold") in
  let limit := anomaly_limit (arg_float a "limit") in
  match parseTimeArg now afterStr with
  | inl e => Ret (textResult ("Invalid 'after': " +:+ e))
  | inr afterTime =>
      let b := anomaly_sql nodeID (arg_string a "context") afterTime in
      match query_groups T (b_query b) (b_args b) with
      | inl e => Ret (textResult ("Error: " +:+ e))
      | inr (rows, _) => detect nodeID threshold limit rows
      end
  end.
End Detect.
End McpAnomaly.

(** * What the statement means *)
Module AnomalySpec.
Import McpQuery QuerySpec McpAnomaly.

Definition anomaly_text (fs : list filter) : string :=
  anomaly_base +:+ where_text 3 fs +:+ anomaly_tail.

Definition group_key : Type := string * string * string.

Definition key_of_sample (r : Schema.row) : group_key :=
  (Schema.context r, Schema.dimension r, default "" (Schema.instance r)).

Definition key_of_group (g : group) : group_key := (g_context g, g_dimension g, g_instance g).

(** The samples of the window, and those of one group. *)
Definition in_window (node : string) (after : Z) (fs : list filter) (r : Schema.row) : Prop :=
  Schema.node_id r = node ∧ Schema.pg_time after <= Schema.collected_at r ∧ Forall (meets r) fs.

#[export] Instance in_window_dec node after fs r : Decision (in_window node after fs r).
Proof. unfold in_window. apply _. Defined.

Definition group_samples (node : string) (after : Z) (fs : list filter) (T : Schema.tables) (k : group_key)
    : list Schema.row :=
  base.filter (λ r, in_window node after fs r ∧ key_of_sample r = k) (Schema.samples T).

(** The row of a group: mean and deviation of its values, and the value of a newest sample. *)
Definition describes (avg dev : list float64 → float64) (l : list Schema.row) (g : group) : Prop :=
  g_mean g = avg (map Schema.value l) ∧ g_stddev g = dev (map Schema.value l) ∧
  ∃ r, r ∈ l ∧ g_latest g = Schema.value r ∧ ∀ r', r' ∈ l → Schema.collected_at r' <= Schema.collected_at r.

(** [STDDEV_POP(value) > 0]: PostgreSQL takes NaN for greater than every number. *)
Definition deviates (x : float64) : bool := fgtb x f64_zero || is_nan x.

(** The groups delivered are those of at least five samples that deviate, each once. *)
Definition grouped (avg dev : list float64 → float64) (node : string) (after : Z) (fs : list filter)
    (T : Schema.tables) (rows : list group) : Prop :=
  NoDup (map key_of_group rows) ∧
  (∀ g, g ∈ rows →
     let l := group_samples node after fs T (key_of_group g) in
     5 <= zlen l ∧ deviates (dev (map Schema.value l)) = true ∧ describes avg dev l g) ∧
  (∀ k, let l := group_samples node after fs T k in
     5 <= zlen l → deviates (dev (map Schema.value l)) = true → k ∈ map key_of_group rows).

Class GroupReaderLaws (avg dev : list float64 → float64) `(GR : GroupReader) : Prop := {
  groups_end T node after fs rows :
    query_groups T (anomaly_text fs) ([AText node; ATime after] ++ map filter_arg fs) = inr (rows, None) →
    grouped avg dev node after fs T rows;
}.
End AnomalySpec.

Section AnomalyProofs.
Import McpQuery QuerySpec McpAnomaly AnomalySpec.

Lemma anomaly_sql_spec node ctx after :
  let fs := text_filter ContextIs ctx in
  b_query (anomaly_sql node ctx after) = anomaly_text fs ∧
  b_args (anomaly_sql node ctx after) = [AText node; ATime after] ++ map filter_arg fs.
Proof.
  cbv zeta. unfold anomaly_sql, add_if, text_filter, anomaly_text.
  destruct (String.eqb_spec ctx "") as [->|Hd]; cbn [b_query b_args add_filter map app where_text]; [done|].
  split; [reflexivity|done].
Qed.

(** A group with finite numbers. *)
Definition proper_group (g : group) : Prop :=
  fin64 (g_mean g) ∧ fin64 (g_latest g) ∧ fin64 (g_stddev g) ∧ 0 < fval (g_stddev g).

Lemma zscore_num g : proper_group g → num64 (zscore g).
Proof.
  intros (Hm & Hl & Hd & H0). apply fdiv_num_inf; [|done..].
  by destruct (fsub_rounds (g_latest g) (g_mean g) Hl Hm) as [? _].
Qed.

Lemma round2_num x : num64 x → num64 (round2 x).
Proof.
  intros Hx. unfold round2, hundred. destruct (f64_of_Z_exact 100) as [Hf Hv]; [done|].
  assert (0 < fval (f64_of_Z 100)) by (rewrite Hv; lia).
  apply fdiv_num_inf; [|done..]. apply f64_round_num. by apply fmul_num_inf.
Qed.

(** What is reported of a group. *)
Lemma anomaly_of_spec threshold g a :
  anomaly_of threshold g = Some a →
  fgeb (fabs (zscore g)) threshold = true ∧
  (an_Context a, an_Dimension a, an_Instance a) = key_of_group g ∧ ZScore a = round2 (zscore g) ∧
  Direction a = (if fgtb (zscore g) f64_zero then "high" else "low").
Proof.
  unfold anomaly_of. destruct (fgeb (fabs (zscore g)) threshold) eqn:E; [|done]. by intros [= <-].
Qed.

Context `{Unicode} `{SortSliceLaws} {avg dev : list float64 → float64} `{GL : GroupReaderLaws avg dev}.

Lemma sorted_anomalies threshold rows :
  Forall proper_group rows →
  StronglySorted (λ a b, Z.abs (fval (ZScore b)) <= Z.abs (fval (ZScore a)))
    (sort_Slice more_deviant (omap (anomaly_of threshold) rows)).
Proof.
  intros Hrows.
  assert (Hnum : ∀ a, a ∈ omap (anomaly_of threshold) rows → num64 (ZScore a)).
  { intros a Ha. apply list_elem_of_omap in Ha as (g & Hg & Ha).
    apply anomaly_of_spec in Ha as (_ & _ & -> & _). apply round2_num, zscore_num.
    rewrite Forall_forall in Hrows. by apply Hrows. }
  assert (Hs : StronglySorted (λ a b, - Z.abs (fval (ZScore a)) <= - Z.abs (fval (ZScore b)))
    (sort_Slice more_deviant (omap (anomaly_of threshold) rows))).
  { apply (sort_Slice_sorted _ more_deviant (λ a, - Z.abs (fval (ZScore a)))).
    intros x y Hx Hy. unfold more_deviant. rewrite fgtb_fval by (apply num64_fabs; auto).
    rewrite !fval_fabs. destruct (Z.ltb_spec (Z.abs (fval (ZScore y))) (Z.abs (fval (ZScore x)))),
      (Z.ltb_spec (- Z.abs (fval (ZScore x))) (- Z.abs (fval (ZScore y)))); lia. }
  revert Hs. generalize (sort_Slice more_deviant (omap (anomaly_of threshold) rows)). clear.
  intros l Hs. induction Hs as [|a l _ IH Ha]; [constructor|]. constructor; [done|].
  eapply Forall_impl; [exact Ha|]. cbn. lia.
Qed.

(** C30.  detect_anomalies reports the metrics whose newest sample deviates most: in a JSON answer
      every reported dimension is one of the window with at least five samples, counted once,
      whose z-score reaches the threshold; the most deviant come first, no more than the limit;
      a dimension that qualifies is missing only if the limit is reached by others at least as
      deviant.  The total counts the dimensions looked at. *)
Theorem detect_anomalies_reports now q T rows after r :
  let node := arg_string q "node_id" in
  let fs := text_filter ContextIs (arg_string q "context") in
  let threshold := threshold_of (arg_float q "threshold") in
  let limit := anomaly_limit (arg_float q "limit") in
  parseTimeArg now (if String.eqb (arg_string q "after") "" then "-1h" else arg_string q "after") = inr after →
  query_groups T (anomaly_text fs) ([AText node; ATime after] ++ map filter_arg fs) = inr (rows, None) →
  Forall proper_group rows →
  handleDetectAnomalies now q T = Ret (JSON r) →
  let reported a g := g ∈ rows ∧ fgeb (fabs (zscore g)) threshold = true ∧
    (an_Context a, an_Dimension a, an_Instance a) = key_of_group g ∧ ZScore a = round2 (zscore g) in
  Total r = zlen rows ∧ zlen (Anomalies r) <= limit ∧
  StronglySorted (λ a b, Z.abs (fval (ZScore b)) <= Z.abs (fval (ZScore a))) (Anomalies r) ∧
  (∀ a, a ∈ Anomalies r → ∃ g, reported a g ∧
     5 <= zlen (group_samples node after fs T (key_of_group g))) ∧
  (∀ g, g ∈ rows → fgeb (fabs (zscore g)) threshold = true →
     (∃ a, a ∈ Anomalies r ∧ reported a g) ∨
     zlen (Anomalies r) = limit ∧
     ∀ a, a ∈ Anomalies r → Z.abs (fval (round2 (zscore g))) <= Z.abs (fval (ZScore a))).
Proof.
  intros node fs threshold limit Hafter Hq Hrows Hans reported.
  unfold handleDetectAnomalies in Hans. rewrite Hafter in Hans. fold node threshold limit in Hans.
  destruct (anomaly_sql_spec node (arg_string q "context") after) as [Eq Ea].
  rewrite Eq, Ea in Hans. fold fs in Hans. rewrite Hq in Hans. unfold detect in Hans.
  pose proof (sorted_anomalies threshold rows Hrows) as Hs.
  pose proof (sort_Slice_perm _ more_deviant (omap (anomaly_of threshold) rows)) as Hperm.
  set (sorted := sort_Slice _ _) in *. clearbody sorted.
  destruct (groups_end _ _ _ _ _ Hq) as (_ & Hgrp & _).
  assert (Hcut : ∃ rest, sorted = Anomalies r ++ rest ∧ zlen (Anomalies r) <= limit ∧ Total r = zlen rows ∧
    (rest = [] ∨ zlen (Anomalies r) = limit)).
  { destruct (Z.ltb_spec limit (zlen sorted)) as [Hl|Hl]; [destruct (Z.ltb_spec limit 0) as [|Hl0]; [done|]|];
      cbn [mbind outcome_bind] in Hans; injection Hans as Hans; apply jsonResult_JSON in Hans as [-> _];
      cbn [Anomalies Total].
    - exists (drop (Z.to_nat limit) sorted). rewrite take_drop. unfold zlen in *. rewrite length_take.
      split_and!; [done|lia|done|right; lia].
    - exists []. rewrite app_nil_r. split_and!; [done..|by left]. }
  destruct Hcut as (rest & Hsorted & Hlim & Htot & Hrest). rewrite Hsorted in Hs, Hperm.
  assert (Hmem : ∀ a, a ∈ Anomalies r ++ rest ↔ ∃ g, g ∈ rows ∧ anomaly_of threshold g = Some a).
  { intros a. rewrite Hperm. apply list_elem_of_omap. }
  split_and!; [done|done| | |].
  - eapply StronglySorted_prefix; [exists rest; reflexivity|exact Hs].
  - intros a Ha. destruct (proj1 (Hmem a)) as (g & Hg & Hag); [apply elem_of_app; by left|].
    destruct (anomaly_of_spec _ _ _ Hag) as (Hz & Hk & Hzs & _). exists g.
    split; [done|]. by apply Hgrp.
  - intros g Hg Hz.
    assert (∃ a, anomaly_of threshold g = Some a) as [a Hag].
    { unfold anomaly_of. rewrite Hz. by eexists. }
    destruct (anomaly_of_spec _ _ _ Hag) as (_ & Hk & Hzs & _).
    assert (Hin : a ∈ Anomalies r ++ rest) by (apply Hmem; by exists g).
    apply elem_of_app in Hin as [Hin|Hin]; [left; by exists a|]. right.
    destruct Hrest as [->|Hfull]; [by apply not_elem_of_nil in Hin|]. split; [done|].
    intros a' Ha'. rewrite <- Hzs.
    by apply (StronglySorted_app_1_elem_of _ _ _ _ _ Hs Ha').
Qed.

(** A limit of 2^63 or more becomes negative and the slice expression panics, even when
    nothing was found. *)
Lemma anomaly_limit_panics now q T rows err after :
  let f := arg_float q "limit" in
  fgtb f f64_zero = true → ¬ is_i64 (f64_trunc f) ∨ is_inf f = true →
  parseTimeArg now (if String.eqb (arg_string q "after") "" then "-1h" else arg_string q "after") = inr after →
  (let b := anomaly_sql (arg_string q "node_id") (arg_string q "context") after in
   query_groups T (b_query b) (b_args b) = inr (rows, err)) →
  handleDetectAnomalies now q T = Panic.
Proof.
  intros f Hpos Hbig Hafter Hq. unfold handleDetectAnomalies. rewrite Hafter. cbv zeta in Hq. rewrite Hq.
  assert (Hlim : anomaly_limit (arg_float q "limit") = min_int64).
  { fold f. clearbody f. unfold anomaly_limit. rewrite Hpos. destruct f as [s|s| |s m e]; [done..|].
    destruct Hbig as [Hbig|]; [|done]. unfold f64_to_int. by rewrite decide_False. }
  unfold detect. rewrite Hlim.
  pose proof (zlen_nonneg (sort_Slice more_deviant (omap (anomaly_of (threshold_of (arg_float q "threshold"))) rows))).
  destruct (Z.ltb_spec min_int64 (zlen (sort_Slice more_deviant
    (omap (anomaly_of (threshold_of (arg_float q "threshold"))) rows)))) as [_|Hge]; [done|].
  unfold min_int64 in Hge. lia.
Qed.
End AnomalyProofs.

(** * A reader in memory *)
Module MemGroups.
Import McpQuery QuerySpec McpAnomaly AnomalySpec.

Section Reader.
Context (avg dev : list float64 → float64).

Definition newest (l : list Schema.row) : option Schema.row :=
  List.find (λ r, forallb (λ r', Schema.collected_at r' <=? Schema.collected_at r) l) l.

Definition group_of (node : string) (after : Z) (fs : list filter) (T : Schema.tables) (k : group_key)
    : option group :=
  let l := group_samples node after fs T k in
  let vals := map Schema.value l in
  if (5 <=? zlen l) && deviates (dev vals)
  then r ← newest l; Some (mkGroup k.1.1 k.1.2 k.2 (avg vals) (dev vals) (Schema.value r))
  else None.

Definition keys (node : string) (after : Z) (fs : list filter) (T : Schema.tables) : list group_key :=
  remove_dups (map key_of_sample (base.filter (in_window node after fs) (Schema.samples T))).

Definition select (node : string) (after : Z) (fs : list filter) (T : Schema.tables) : answer group :=
  inr (omap (group_of node after fs T) (keys node after fs T), None).

Definition run (T : Schema.tables) (q : string) (args : list sql_arg) : answer group :=
  match args with
  | [AText node; ATime after] =>
      if String.eqb q (anomaly_text []) then select node after [] T else inl "syntax error"
  | [AText node; ATime after; AText ctx] =>
      if String.eqb q (anomaly_text [FText ContextIs ctx])
      then select node after [FText ContextIs ctx] T else inl "syntax error"
  | _ => inl "syntax error"
  end.

#[export] Instance reader : GroupReader := {| query_groups := run |}.

Lemma newest_exists l : l ≠ [] → ∃ r, newest l = Some r.
Proof.
  intros Hl. assert (∃ r, r ∈ l ∧ ∀ r', r' ∈ l → Schema.collected_at r' <= Schema.collected_at r) as (m & Hm & Hmax).
  { induction l as [|r l IH]; [done|]. destruct (decide (l = [])) as [->|Hne].
    - exists r. split; [left|]. intros r' Hr'. apply list_elem_of_singleton in Hr' as ->. done.
    - destruct (IH Hne) as (m & Hm & Hmax).
      destruct (Z.le_gt_cases (Schema.collected_at r) (Schema.collected_at m)).
      + exists m. split; [by right|]. intros r' [->|Hr']%elem_of_cons; auto.
      + exists r. split; [left|]. intros r' [->|Hr']%elem_of_cons; [done|]. specialize (Hmax r' Hr'). lia. }
  unfold newest. destruct (List.find _ l) as [r|] eqn:E; [by exists r|]. exfalso.
  assert (Hf : forallb (λ r', Schema.collected_at r' <=? Schema.collected_at m) l = true).
  { apply forallb_forall. intros r' Hr'. apply Z.leb_le, Hmax. by apply list_elem_of_In. }
  apply list_elem_of_In in Hm. rewrite (List.find_none _ _ E m Hm) in Hf. done.
Qed.

Lemma newest_spec l r : newest l = Some r →
  r ∈ l ∧ ∀ r', r' ∈ l → Schema.collected_at r' <= Schema.collected_at r.
Proof.
  intros E. apply List.find_some in E as [Hin Hall]. split; [by apply list_elem_of_In|].
  intros r' Hr'. rewrite forallb_forall in Hall. apply Z.leb_le, Hall. by apply list_elem_of_In.
Qed.

Lemma group_of_key node after fs T k g : group_of node after fs T k = Some g → key_of_group g = k.
Proof.
  unfold group_of. destruct (_ && _); [|done]. destruct (newest _); [|done]. cbn.
  intros [= <-]. by destruct k as [[]].
Qed.

Lemma select_grouped node after fs T rows :
  select node after fs T = inr (rows, None) → grouped avg dev node after fs T rows.
Proof.
  intros [= <-].
  assert (Hkey : ∀ ks, map key_of_group (omap (group_of node after fs T) ks) `sublist_of` ks).
  { induction ks as [|k ks IH]; [done|]. cbn. destruct (group_of node after fs T k) as [g|] eqn:E.
    - cbn. rewrite (group_of_key _ _ _ _ _ _ E). by constructor.
    - by constructor. }
  split_and!.
  - eapply sublist_NoDup; [|apply Hkey]. apply NoDup_remove_dups.
  - intros g Hg. apply list_elem_of_omap in Hg as (k & _ & Hg).
    pose proof (group_of_key _ _ _ _ _ _ Hg) as Hk. rewrite Hk. unfold group_of in Hg. cbv zeta.
    destruct (Z.leb_spec 5 (zlen (group_samples node after fs T k))) as [H5|]; [|done].
    destruct (deviates _) eqn:Ed; [|done]. cbn [andb] in Hg.
    destruct (newest _) as [r|] eqn:En; [|done]. injection Hg as <-. split; [done|]. split; [done|].
    split; [done|]. split; [done|]. exists r. destruct (newest_spec _ _ En). done.
  - intros k. cbv zeta. intros H5 Hd. apply list_elem_of_fmap.
    destruct (newest_exists (group_samples node after fs T k)) as [r Hr].
    { intros E. rewrite E in H5. by cbn in H5. }
    assert (∃ g, group_of node after fs T k = Some g) as [g Hg].
    { unfold group_of. rewrite Hd, Hr. destruct (Z.leb_spec 5 (zlen (group_samples node after fs T k))); [|lia].
      by eexists. }
    exists g. split; [by rewrite (group_of_key _ _ _ _ _ _ Hg)|]. apply list_elem_of_omap. exists k.
    split; [|done]. apply elem_of_remove_dups, list_elem_of_fmap. exists r.
    destruct (newest_spec _ _ Hr) as [Hin _]. unfold group_samples in Hin.
    apply list_elem_of_filter in Hin as [[Hw Hk] Hs]. split; [done|]. by apply list_elem_of_filter.
Qed.

#[export] Instance reader_laws : GroupReaderLaws avg dev reader.
Proof.
  split. cbn [query_groups reader]. intros T node after fs rows E.
  destruct fs as [|f [|f' fs]]; cbn [app map] in E.
  - apply select_grouped. unfold run in E. by rewrite String.eqb_refl in E.
  - destruct f as [c v|l|m|u|u]; cbn [filter_arg] in E; try done. unfold run in E.
    destruct (String.eqb_spec (anomaly_text [FText c v]) (anomaly_text [FText ContextIs v])) as [Et|]; [|done].
    destruct c; try done. by apply select_grouped.
  - exfalso. unfold run in E. by destruct (filter_arg f), (filter_arg f').
Qed.
End Reader.
End MemGroups.

Section AnomalyWitness.
Import McpQuery QuerySpec McpAnomaly AnomalySpec MemGroups MemOrder.
#[local] Instance no_unicode : Unicode := {| unicode_ToLower s := s; unicode_Quote s := s |}.

(** Mean and deviation, summed from the left. *)
Definition float_sum (l : list float64) : float64 := fold_left fadd l f64_zero.
Definition float_mean (l : list float64) : float64 := fdiv (float_sum l) (f64_of_Z (zlen l)).
Definition float_dev (l : list float64) : float64 :=
  let m := float_mean l in
  SFsqrt f64_prec f64_emax (float_mean (map (λ x, fmul (fsub x m) (fsub x m)) l)).

#[local] Instance the_reader : GroupReader := reader float_mean float_dev.
#[local] Instance the_laws : GroupReaderLaws float_mean float_dev the_reader := reader_laws float_mean float_dev.

(** Nine samples of 1, and then one of 11. *)
Definition spike_tables : Schema.tables :=
  Schema.mkTables
    (map (λ t, cpu_row (t * Minute) "user" (if t =? 10 then 11 else 1)) [1; 2; 3; 4; 5; 6; 7; 8; 9; 10]) ∅ ∅ ∅.

Definition spike_question : arguments := {["node_id" := JStr "n1"; "context" := JStr "system.cpu"]}.

Definition spike : group :=
  mkGroup "system.cpu" "user" "" (f64_of_Z 2) (f64_of_Z 3) (f64_of_Z 11).

Lemma detect_anomalies_reports_witness :
  ∃ r, handleDetectAnomalies (11 * Minute) spike_question spike_tables = Ret (JSON r) ∧
    Total r = 1 ∧ ∃ a, Anomalies r = [a] ∧ ZScore a = f64_of_Z 3.
Proof.
  set (r := mkAnomalies "n1" [mkAnomaly "system.cpu" "user" "" (f64_of_Z 11) (f64_of_Z 2) (f64_of_Z 3)
                                (f64_of_Z 3) "high"] 1).
  assert (Hr : handleDetectAnomalies (11 * Minute) spike_question spike_tables = Ret (JSON r))
    by (vm_compute; reflexivity).
  destruct (detect_anomalies_reports (11 * Minute) spike_question spike_tables [spike] (- 49 * Minute) r)
    as (Htot & _).
  - vm_compute. reflexivity.
  - vm_compute. reflexivity.
  - constructor; [|constructor]. repeat split; vm_compute; reflexivity.
  - exact Hr.
  - exists r. split; [exact Hr|]. split; [exact Htot|]. eexists. split; reflexivity.
Defined.
End AnomalyWitness.
