(* ===== verification/McpTables.v ===== *)
(** The tools of the MCP server that list what is stored: list_nodes and
    latest_hardware_metrics (internal/mcp/server.go), metric_cardinality
    (internal/mcp/cardinality.go) and [ListNodes] of internal/store/store.go. *)

From Stdlib Require Import Ascii SpecFloat Sorted.
From stdpp Require Import sorting.
From S2P Require Import Prelude GoInt GoFloat GoTime GoString GoDuration Store Collector McpQuery McpAnomaly.

(** ** [NodeInfo] and [nodeRow], [metricRow] is [Schema.row] *)
Record NodeInfo := mkNodeInfo {
  n_NodeID : string;
  n_Hostname : string;
  n_NetdataBaseURL : string;
  n_LastCollectedAt : option Z;
}.

Module McpTables.
Import McpQuery.

Record cardinalityResult := mkCardinality {
  c_NodeID : string;
  UniqueContexts : Z;
  UniqueDimensions : Z;
  UniqueInstances : Z;
  TotalSamples : Z;
}.

(** ** The statements *)
Definition list_nodes_text : string := "
		SELECT
			n.node_id,
			COALESCE(n.hostname, '') as hostname,
			COALESCE(n.netdata_base_url, '') as base_url,
			(SELECT MAX(collected_at) FROM hardware_metric_samples WHERE node_id = n.node_id) as last_collected
		FROM netdata_nodes n
		ORDER BY n.node_id
	".

Definition store_nodes_text : string := "
		SELECT
			n.node_id,
			COALESCE(n.hostname, ''),
			COALESCE(n.netdata_base_url, ''),
			(SELECT MAX(collected_at) FROM hardware_metric_samples WHERE node_id = n.node_id)
		FROM netdata_nodes n
		ORDER BY n.node_id
	".

Definition latest_base : string := "
		SELECT node_id, collected_at, context, chart, family, instance, dimension, unit, value
		FROM hardware_latest_metrics
		WHERE 1=1
	".

Definition latest_order : string := " ORDER BY node_id, context, instance, dimension".

Definition contexts_of (contextsStr : string) : list string := map TrimSpace (Split contextsStr ",").

Definition latest_sql (nodeID contextsStr : string) : builder :=
  let b := mkBuilder latest_base [] 1 in
  let b := add_if nodeID " AND node_id = $" b in
  let b :=
    if String.eqb contextsStr "" then b
    else mkBuilder (b_query b +:+ " AND context = ANY($" +:+ fmt_d (b_idx b) +:+ ")")
           (b_args b ++ [ATexts (contexts_of contextsStr)]) (b_idx b + 1) in
  mkBuilder (b_query b +:+ latest_order) (b_args b) (b_idx b).

Definition cardinality_base : string := "
		SELECT
			node_id,
			COUNT(DISTINCT context) AS unique_contexts,
			COUNT(DISTINCT dimension) AS unique_dimensions,
			COUNT(DISTINCT COALESCE(instance, '')) AS unique_instances,
			COUNT(*) AS total_samples
		FROM hardware_metric_samples
		WHERE collected_at >= $1
	".

Definition cardinality_tail : string := " GROUP BY node_id ORDER BY node_id".

Definition cardinality_sql (nodeID : string) (afterTime : Z) : builder :=
  let b := add_if nodeID " AND node_id = $" (mkBuilder cardinality_base [ATime afterTime] 2) in
  mkBuilder (b_query b +:+ cardinality_tail) (b_args b) (b_idx b).

(** ** The operations *)
Class TableReader := {
  query_nodes : Schema.tables → string → list sql_arg → answer NodeInfo;
  query_latest : Schema.tables → string → list sql_arg → answer Schema.row;
  query_cardinality : Schema.tables → string → list sql_arg → answer cardinalityResult;
}.

Section Tables.
Context `{Unicode} `{TableReader}.

(** [Store.ListNodes]: the rows so far come with the error that ended them. *)
Definition ListNodes (T : Schema.tables) : list NodeInfo * option string :=
  match query_nodes T store_nodes_text [] with
  | inl e => ([], Some ("listing nodes: " +:+ e))
  | inr (nodes, err) => (nodes, err)
  end.

Definition handleListNodes (T : Schema.tables) : result (list NodeInfo) :=
  match query_nodes T list_nodes_text [] with
  | inl e => textResult ("Error listing nodes: " +:+ e)
  | inr (_, Some e) => textResult ("Error iterating nodes: " +:+ e)
  | inr (nodes, None) => jsonResult [] nodes
  end.

Definition handleLatestMetrics (a : arguments) (T : Schema.tables) : result (list Schema.row) :=
  let b := latest_sql (arg_string a "node_id") (arg_string a "contexts") in
  match query_latest T (b_query b) (b_args b) with
  | inl e => textResult ("Error querying latest metrics: " +:+ e)
  | inr (rows, _) => jsonResult (map Schema.value rows) rows
  end.

(** [handleCardinality], with its readings of the clock. *)
Definition handleCardinality (now1 now2 : Z) (a : arguments) (T : Schema.tables)
    : result (list cardinalityResult) :=
  let nodeID := arg_string a "node_id" in
  let afterStr := arg_string a "after" in
  let after :=
    if String.eqb afterStr "" then inr (time_Add now1 (-24 * Hour))
    else parseTimeArg now2 afterStr in
  match after with
  | inl e => textResult ("Invalid 'after': " +:+ e)
  | inr afterTime =>
      let b := cardinality_sql nodeID afterTime in
      match query_cardinality T (b_query b) (b_args b) with
      | inl e => textResult ("Error: " +:+ e)
      | inr ([], _) => textResult "No metric data found in the specified time range."
      | inr (results, _) => jsonResult [] results
      end
  end.
End Tables.
End McpTables.

(** * Orders of ORDER BY *)
Section Lex.
Context {A B : Type} `{EqDecision B} (f : A → B) (le : B → B → Prop) (rest : A → A → Prop).

(** By [f] first, then by [rest]. *)
Definition lex (x y : A) : Prop := if decide (f x = f y) then rest x y else le (f x) (f y).

#[export] Instance lex_dec `{∀ b b', Decision (le b b')} `{∀ x y, Decision (rest x y)} x y :
  Decision (lex x y).
Proof. unfold lex. destruct (decide (f x = f y)); apply _. Defined.

#[export] Instance lex_total : Total le → Total rest → Total lex.
Proof.
  intros Hle Hrest x y. unfold lex. destruct (decide (f x = f y)), (decide (f y = f x)); try congruence.
  - apply Hrest.
  - apply Hle.
Qed.

#[export] Instance lex_trans : Transitive le → AntiSymm (=) le → Transitive rest → Transitive lex.
Proof.
  intros Hle Hanti Hrest x y z. unfold lex.
  destruct (decide (f x = f y)) as [E|N], (decide (f y = f z)) as [E'|N'].
  - rewrite decide_True by congruence. apply Hrest.
  - rewrite decide_False by congruence. by rewrite E.
  - rewrite decide_False by congruence. by rewrite <- E'.
  - intros H1 H2. rewrite decide_False; [by etransitivity|].
    intros E. apply N. rewrite E in H1 |- *. by apply Hanti.
Qed.
End Lex.

Section NullLast.
Context {A : Type} (le : A → A → Prop).

Definition null_last (x y : option A) : Prop :=
  match x, y with
  | Some x, Some y => le x y
  | _, None => True
  | None, Some _ => False
  end.

#[export] Instance null_last_dec `{∀ a b, Decision (le a b)} x y : Decision (null_last x y).
Proof. destruct x, y; cbn; apply _. Defined.
#[export] Instance null_last_total : Total le → Total null_last.
Proof. intros Hle [x|] [y|]; cbn; auto. Qed.
#[export] Instance null_last_trans : Transitive le → Transitive null_last.
Proof. intros Hle [x|] [y|] [z|]; cbn; try done. by transitivity y. Qed.
#[export] Instance null_last_antisym : AntiSymm (=) le → AntiSymm (=) null_last.
Proof. intros Hle [x|] [y|]; cbn; try done. intros H1 H2. f_equal. by apply Hle. Qed.
End NullLast.

(** * What the statements mean *)
Module TablesSpec.
Import McpQuery QuerySpec McpTables.

(** A newest sample of a list has this time. *)
Definition last_time (l : list Schema.row) : option Z :=
  foldr (λ r m, Some (match m with Some t => Z.max (Schema.collected_at r) t | None => Schema.collected_at r end))
    None l.

Definition samples_of_node (T : Schema.tables) (id : string) : list Schema.row :=
  base.filter (λ r, Schema.node_id r = id) (Schema.samples T).

Definition node_info (T : Schema.tables) (p : string * Schema.node) : NodeInfo :=
  mkNodeInfo p.1 (Schema.hostname p.2) (Schema.netdata_base_url p.2) (last_time (samples_of_node T p.1)).

(** A series, in the sense of the view hardware_latest_metrics. *)
Definition series (r : Schema.row) : string * string * string * string :=
  (Schema.node_id r, Schema.context r, Schema.dimension r, default "" (Schema.instance r)).

(** The view: of each series one of its newest samples. *)
Definition latest_view (T : Schema.tables) (view : list Schema.row) : Prop :=
  NoDup (map series view) ∧
  (∀ r, r ∈ view → r ∈ Schema.samples T ∧
     ∀ r', r' ∈ Schema.samples T → series r' = series r → newer r r') ∧
  (∀ r, r ∈ Schema.samples T → series r ∈ map series view).

Section Order.
Context (text_le : string → string → Prop).

(** ORDER BY of the latest metrics: the texts in the collation of the server, NULL last. *)
Definition row_order : Schema.row → Schema.row → Prop :=
  lex Schema.node_id text_le
    (lex Schema.context text_le
      (lex Schema.instance (null_last text_le)
        (λ r r', text_le (Schema.dimension r) (Schema.dimension r')))).

Definition latest_text (fs : list filter) : string := latest_base +:+ where_text 1 fs +:+ latest_order.

Definition latest_selected (fs : list filter) (T : Schema.tables) (rows : list Schema.row) : Prop :=
  ∃ view, latest_view T view ∧ rows ≡ₚ base.filter (λ r, Forall (meets r) fs) view ∧
    StronglySorted row_order rows.

Definition cardinality_text (fs : list filter) : string :=
  cardinality_base +:+ where_text 2 fs +:+ cardinality_tail.

Definition distinct (l : list string) : Z := zlen (remove_dups l).

Definition cardinality_of (id : string) (l : list Schema.row) : cardinalityResult :=
  mkCardinality id (distinct (map Schema.context l)) (distinct (map Schema.dimension l))
    (distinct (map (λ r, default "" (Schema.instance r)) l)) (zlen l).

Definition window (after : Z) (fs : list filter) (T : Schema.tables) : list Schema.row :=
  base.filter (λ r, Forall (meets r) (FAfter after :: fs)) (Schema.samples T).

Definition cardinalities (after : Z) (fs : list filter) (T : Schema.tables) : list cardinalityResult :=
  let w := window after fs T in
  map (λ id, cardinality_of id (base.filter (λ r, Schema.node_id r = id) w))
    (remove_dups (map Schema.node_id w)).

Class TableReaderLaws `(TR : TableReader) : Prop := {
  nodes_end T q nodes :
    q = list_nodes_text ∨ q = store_nodes_text → query_nodes T q [] = inr (nodes, None) →
    nodes ≡ₚ map (node_info T) (map_to_list (Schema.nodes T)) ∧
    StronglySorted (λ n n', text_le (n_NodeID n) (n_NodeID n')) nodes;
  latest_end T fs rows :
    query_latest T (latest_text fs) (map filter_arg fs) = inr (rows, None) → latest_selected fs T rows;
  latest_break T fs rows e :
    query_latest T (latest_text fs) (map filter_arg fs) = inr (rows, Some e) →
    ∃ full, latest_selected fs T full ∧ rows `prefix_of` full;
  cardinality_end T after fs rows :
    query_cardinality T (cardinality_text fs) (ATime after :: map filter_arg fs) = inr (rows, None) →
    rows ≡ₚ cardinalities after fs T ∧ StronglySorted (λ c c', text_le (c_NodeID c) (c_NodeID c')) rows;
}.
End Order.
End TablesSpec.

(** * The tools show what was stored *)
Section TableProofs.
Import McpQuery QuerySpec McpTables TablesSpec.
Context `{Unicode} (text_le : string → string → Prop) `{TRL : TableReaderLaws text_le}.

Definition contexts_filter (contextsStr : string) : list filter :=
  if String.eqb contextsStr "" then [] else [FContexts (contexts_of contextsStr)].

Definition latest_filters (a : arguments) : list filter :=
  text_filter NodeIs (arg_string a "node_id") ++ contexts_filter (arg_string a "contexts").

Lemma latest_sql_spec a :
  let b := latest_sql (arg_string a "node_id") (arg_string a "contexts") in
  b_query b = latest_text (latest_filters a) ∧ b_args b = map filter_arg (latest_filters a).
Proof.
  assert (Hb := builds_add_if _ _ _ _ _ NodeIs (arg_string a "node_id") (builds_start latest_base [] 1)).
  cbn [app] in Hb. unfold latest_sql, latest_text, latest_filters, contexts_filter.
  change (" AND " +:+ column_name NodeIs +:+ " = $") with " AND node_id = $" in Hb.
  set (b := add_if _ _ _) in *. clearbody b. destruct Hb as [Hq Ha Hi].
  destruct (String.eqb (arg_string a "contexts") ""); cbn [b_query b_args].
  - rewrite app_nil_r, Hq, Ha. by rewrite sapp_assoc.
  - rewrite where_text_app, Hq, Ha, Hi, map_app. cbn. by rewrite sapp_nil, !sapp_assoc.
Qed.

Lemma cardinality_sql_spec node after :
  let b := cardinality_sql node after in
  b_query b = cardinality_text (text_filter NodeIs node) ∧
  b_args b = ATime after :: map filter_arg (text_filter NodeIs node).
Proof.
  destruct (builds_add_if _ _ _ _ _ NodeIs node (builds_start cardinality_base [ATime after] 2)) as [Hq Ha _].
  unfold cardinality_sql, cardinality_text. cbn [b_query b_args].
  change (" AND node_id = $") with (" AND " +:+ column_name NodeIs +:+ " = $").
  rewrite Hq, Ha. by rewrite sapp_assoc.
Qed.

Lemma last_time_ge l r : r ∈ l → ∃ t, last_time l = Some t ∧ Schema.collected_at r <= t.
Proof.
  induction l as [|r' l IH]; [by intros ?%not_elem_of_nil|].
  intros [->|Hr]%elem_of_cons; cbn; eexists; (split; [reflexivity|]).
  - destruct (foldr _ _ l); lia.
  - destruct (IH Hr) as (t & Ht & Hle). unfold last_time in Ht. rewrite Ht. lia.
Qed.

(** list_nodes: a registered node with a sample is listed with a time no older than it. *)
Lemma node_listed T nodes r n :
  query_nodes T list_nodes_text [] = inr (nodes, None) →
  r ∈ Schema.samples T → Schema.nodes T !! Schema.node_id r = Some n →
  ∃ t, mkNodeInfo (Schema.node_id r) (Schema.hostname n) (Schema.netdata_base_url n) (Some t) ∈ nodes ∧
    Schema.collected_at r <= t.
Proof.
  intros E Hr Hn. apply (nodes_end text_le) in E as [Hperm _]; [|by left].
  destruct (last_time_ge (samples_of_node T (Schema.node_id r)) r) as (t & Ht & Hle).
  { by apply list_elem_of_filter. }
  exists t. split; [|done]. rewrite Hperm. apply list_elem_of_fmap.
  exists (Schema.node_id r, n). split; [|by apply elem_of_map_to_list].
  unfold node_info. cbn. by rewrite Ht.
Qed.

(** The filters of the latest metrics look at the series only. *)
Lemma meets_series a r r' :
  series r = series r' → Forall (meets r) (latest_filters a) → Forall (meets r') (latest_filters a).
Proof.
  intros Hs. rewrite !Forall_forall. intros Hm f Hf. specialize (Hm f Hf). injection Hs as Hn Hc Hd Hi.
  unfold latest_filters, text_filter, contexts_filter in Hf. apply elem_of_app in Hf as [Hf|Hf].
  - destruct (String.eqb _ ""); [by apply not_elem_of_nil in Hf|].
    apply list_elem_of_singleton in Hf as ->. cbn in *. congruence.
  - destruct (String.eqb _ ""); [by apply not_elem_of_nil in Hf|].
    apply list_elem_of_singleton in Hf as ->. cbn in *. congruence.
Qed.

(** latest_hardware_metrics: a series asked for is shown by exactly one row, a newest sample. *)
Lemma series_shown T a rows r :
  query_latest T (latest_text (latest_filters a)) (map filter_arg (latest_filters a)) = inr (rows, None) →
  r ∈ Schema.samples T → Forall (meets r) (latest_filters a) →
  ∃ v, v ∈ rows ∧ series v = series r ∧ v ∈ Schema.samples T ∧
    (∀ r', r' ∈ Schema.samples T → series r' = series r → newer v r') ∧
    ∀ v', v' ∈ rows → series v' = series r → v' = v.
Proof.
  intros E Hr Hm. apply (latest_end text_le) in E as (view & (Hnd & Hnew & Hall) & Hperm & _).
  destruct (proj1 (list_elem_of_fmap _ _ _) (Hall r Hr)) as (v & Hs & Hv).
  destruct (Hnew v Hv) as [HvT Hvn]. exists v. split_and!; [|done|done|..].
  - rewrite Hperm. apply list_elem_of_filter. split; [|done]. by apply (meets_series a r).
  - intros r' Hr' Hs'. apply Hvn; [done|congruence].
  - intros v' Hv' Hs'. rewrite Hperm in Hv'. apply list_elem_of_filter in Hv' as [_ Hv'].
    apply list_elem_of_lookup in Hv as [i Hi], Hv' as [j Hj].
    assert (i = j) as ->; [|congruence]. eapply (NoDup_lookup (map series view)); [done|..].
    + rewrite list_lookup_fmap, Hi. reflexivity.
    + rewrite list_lookup_fmap, Hj. cbn. congruence.
Qed.

(** What the three tools make of the server's answers. *)
Lemma handleLatestMetrics_answers T a :
  let fs := latest_filters a in
  match query_latest T (latest_text fs) (map filter_arg fs) with
  | inl e => handleLatestMetrics a T = textResult ("Error querying latest metrics: " +:+ e)
  | inr (rows, _) => printed (map Schema.value rows) rows (handleLatestMetrics a T)
  end.
Proof.
  unfold handleLatestMetrics. destruct (latest_sql_spec a) as [-> ->].
  destruct (query_latest _ _ _) as [e|[rows err]]; [done|apply jsonResult_printed].
Qed.

Lemma distinct_pos l x : x ∈ l → 1 <= distinct l.
Proof.
  intros Hx. unfold distinct. assert (Hd : x ∈ remove_dups l) by (by apply elem_of_remove_dups).
  destruct (remove_dups l); [by apply not_elem_of_nil in Hd|]. rewrite zlen_cons.
  pose proof (zlen_nonneg l0). lia.
Qed.

(** The start of the window of metric_cardinality. *)
Definition counts_from (now1 now2 : Z) (a : arguments) (after : Z) : Prop :=
  if String.eqb (arg_string a "after") "" then after = time_Add now1 (-24 * Hour)
  else parseTimeArg now2 (arg_string a "after") = inr after.

Lemma handleCardinality_answers T now1 now2 a after :
  let fs := text_filter NodeIs (arg_string a "node_id") in
  counts_from now1 now2 a after →
  handleCardinality now1 now2 a T =
    match query_cardinality T (cardinality_text fs) (ATime after :: map filter_arg fs) with
    | inl e => textResult ("Error: " +:+ e)
    | inr ([], _) => textResult "No metric data found in the specified time range."
    | inr (rows, _) => JSON rows
    end.
Proof.
  intros fs Hafter. unfold handleCardinality. unfold counts_from in Hafter.
  destruct (cardinality_sql_spec (arg_string a "node_id") after) as [Hq Ha]. fold fs in Hq, Ha.
  rewrite <- Hq, <- Ha. destruct (String.eqb _ ""); by rewrite Hafter.
Qed.

(** metric_cardinality: the node of a sample in the window is counted, over its whole window. *)
Lemma node_counted T after rows r fs :
  query_cardinality T (cardinality_text fs) (ATime after :: map filter_arg fs) = inr (rows, None) →
  r ∈ window after fs T →
  let c := cardinality_of (Schema.node_id r)
      (base.filter (λ r', Schema.node_id r' = Schema.node_id r) (window after fs T)) in
  c ∈ rows ∧ 1 <= UniqueContexts c ∧ 1 <= UniqueDimensions c ∧ 1 <= UniqueInstances c ∧ 1 <= TotalSamples c.
Proof.
  intros E Hr c. apply (cardinality_end text_le) in E as [Hperm _]. set (l := base.filter _ _) in c.
  assert (Hl : r ∈ l) by (by apply list_elem_of_filter).
  split_and!; try (eapply distinct_pos, list_elem_of_fmap; by exists r).
  - rewrite Hperm. apply list_elem_of_fmap. exists (Schema.node_id r). split; [done|].
    apply elem_of_remove_dups, list_elem_of_fmap. by exists r.
  - cbn. destruct l; [by apply not_elem_of_nil in Hl|]. rewrite zlen_cons. pose proof (zlen_nonneg l). lia.
Qed.
End TableProofs.

(** * What is inserted is shown *)
Section Visible.
Import McpQuery QuerySpec McpTables TablesSpec Schema.
Context `{Unicode} `{PL : PostgresLaws} (text_le : string → string → Prop) `{TRL : TableReaderLaws text_le}.

Lemma inserted_present d ss d' n s :
  Ops.InsertSamples d ss = Ret (d', (n, None)) → s ∈ ss →
  (∃ r, r ∈ samples (db_tables d') ∧ key r = key (stored (Ops.row_of s))) ∧
  is_Some (nodes (db_tables d') !! NodeID s).
Proof.
  intros Hins Hs. destruct (InsertSamples_spec d ss) as (d1 & n1 & e1 & E & Hspec).
  rewrite Hins in E. injection E as <- <- <-. destruct Hspec as [[Hk ->] _]. split.
  - assert (Hr : stored (Ops.row_of s) ∈ map stored (map Ops.row_of ss)).
    { apply list_elem_of_fmap. eexists. split; [reflexivity|]. apply list_elem_of_fmap. by exists s. }
    pose proof (insert_rows_has (samples (db_tables d)) (map stored (map Ops.row_of ss))) as Hall.
    rewrite Forall_forall in Hall. specialize (Hall _ Hr). apply has_key_spec in Hall.
    apply list_elem_of_fmap in Hall as (r & Hkr & Hin). by exists r.
  - unfold known_nodes in Hk. rewrite forallb_forall in Hk. cbn.
    apply (bool_decide_eq_true (is_Some (nodes (db_tables d) !! node_id (Ops.row_of s)))), Hk.
    apply in_map_iff. exists s. split; [done|by apply list_elem_of_In].
Qed.

(** The question asks for the series of [s]: no node or its node, no contexts or its context
    among them. *)
Definition asks_for (a : arguments) (s : MetricSample) : Prop :=
  (arg_string a "node_id" = "" ∨ arg_string a "node_id" = NodeID s) ∧
  (arg_string a "contexts" = "" ∨ Context_ s ∈ contexts_of (arg_string a "contexts")).

Lemma asks_for_meets a s r :
  key r = key (stored (Ops.row_of s)) → asks_for a s → Forall (meets r) (latest_filters a).
Proof.
  intros [= Hn _ Hc _ _ _] [Ha1 Ha2]. unfold latest_filters, text_filter, contexts_filter.
  apply Forall_app. split.
  - destruct (String.eqb_spec (arg_string a "node_id") ""); [constructor|].
    constructor; [|constructor]. cbn. destruct Ha1; [done|congruence].
  - destruct (String.eqb_spec (arg_string a "contexts") ""); [constructor|].
    constructor; [|constructor]. cbn. destruct Ha2; [done|congruence].
Qed.

(** C11.  What InsertSamples stored without error the listing tools of the MCP server show whenever
      their query succeeds: list_nodes answers with a list that names the node with a last
      collection no older than the sample; latest_hardware_metrics, asked for its node and context,
      answers with exactly one row of its series, a newest one, provided the values it prints are
      finite (one stored NaN or infinity makes it an error text); metric_cardinality answers
      with a count of its node, over the whole window, when the sample lies in it.  A query that
      fails gets a text. *)
Theorem inserted_samples_listed d ss d' n s :
  Ops.InsertSamples d ss = Ret (d', (n, None)) → s ∈ ss →
  let T := db_tables d' in
  let t := pg_time (CollectedAt s) in
  match query_nodes T list_nodes_text [] with
  | inl e => handleListNodes T = textResult ("Error listing nodes: " +:+ e)
  | inr (_, Some e) => handleListNodes T = textResult ("Error iterating nodes: " +:+ e)
  | inr (nodes, None) => handleListNodes T = JSON nodes ∧
      ∃ i last, i ∈ nodes ∧ n_NodeID i = NodeID s ∧ n_LastCollectedAt i = Some last ∧ t <= last
  end ∧
  (∀ a, asks_for a s →
     match query_latest T (latest_text (latest_filters a)) (map filter_arg (latest_filters a)) with
     | inl e => handleLatestMetrics a T = textResult ("Error querying latest metrics: " +:+ e)
     | inr (rows, err) => printed (map value rows) rows (handleLatestMetrics a T) ∧
         (err = None → ∃ v, v ∈ rows ∧ v ∈ samples T ∧ series v = series (Ops.row_of s) ∧
            t <= collected_at v ∧ ∀ v', v' ∈ rows → series v' = series (Ops.row_of s) → v' = v)
     end) ∧
  (∀ now1 now2 a after,
     (arg_string a "node_id" = "" ∨ arg_string a "node_id" = NodeID s) → counts_from now1 now2 a after →
     after <= CollectedAt s →
     let fs := text_filter NodeIs (arg_string a "node_id") in
     match query_cardinality T (cardinality_text fs) (ATime after :: map filter_arg fs) with
     | inl e => handleCardinality now1 now2 a T = textResult ("Error: " +:+ e)
     | inr (rows, Some _) => True
     | inr (rows, None) => handleCardinality now1 now2 a T = JSON rows ∧
         let c := cardinality_of (NodeID s) (base.filter (λ r, node_id r = NodeID s) (window after fs T)) in
         c ∈ rows ∧ 1 <= UniqueContexts c ∧ 1 <= UniqueDimensions c ∧ 1 <= UniqueInstances c ∧ 1 <= TotalSamples c
     end).
Proof.
  intros Hins Hs T t. destruct (inserted_present d ss d' n s Hins Hs) as [(r & Hr & Hkey) [i Hi]].
  fold T in Hr, Hi. assert (Hk := Hkey). injection Hk as Hn Ht Hc Hd Hch Hin. fold t in Ht.
  assert (Hseries : series r = series (Ops.row_of s)) by (unfold series; cbn in *; congruence).
  cbn in Hn. split_and!.
  - unfold handleListNodes. destruct (query_nodes T list_nodes_text []) as [e|[l [e|]]] eqn:E; [done..|].
    split; [done|]. rewrite <- Hn in Hi.
    destruct (node_listed text_le T l r i E Hr Hi) as (last & Hin' & Hle).
    eexists _, last. split; [exact Hin'|]. split_and!; [done..|lia].
  - intros a Hask. pose proof (handleLatestMetrics_answers T a) as Hans. cbv zeta in Hans.
    destruct (query_latest _ _ _) as [e|[rows err]] eqn:E; [done|]. split; [done|]. intros ->.
    destruct (series_shown text_le T a rows r E Hr) as (v & Hv & Hvs & HvT & Hnew & Hone);
      [by eapply asks_for_meets|].
    exists v. split_and!; [done..|congruence| |].
    + rewrite <- Ht. by apply Hnew.
    + intros v' Hv' Hs'. apply Hone; congruence.
  - intros now1 now2 a after Hnode Hafter Hle fs.
    rewrite (handleCardinality_answers T now1 now2 a after Hafter). fold fs.
    destruct (query_cardinality _ _ _) as [e|[rows [e|]]] eqn:E; [done..|].
    assert (Hwin : r ∈ window after fs T).
    { unfold window. apply list_elem_of_filter. split; [|done]. constructor.
      + cbn. rewrite Ht. unfold t, pg_time. apply Z.mul_le_mono_nonneg_r; [done|]. by apply Z.div_le_mono.
      + unfold fs, text_filter. destruct (String.eqb_spec (arg_string a "node_id") ""); [constructor|].
        constructor; [|constructor]. cbn. destruct Hnode; [done|congruence]. }
    pose proof (node_counted text_le T after rows r fs E Hwin) as Hcount. rewrite Hn in Hcount.
    split; [|exact Hcount]. destruct rows; [|done]. by apply proj1, not_elem_of_nil in Hcount.
Qed.
End Visible.

(** * A reader in memory *)
Module MemTables.
Import McpQuery QuerySpec McpTables TablesSpec MemReader.

Fixpoint parse_filters (i : Z) (args : list sql_arg) (s : string) : option (list filter * string) :=
  match args with
  | [] => Some ([], s)
  | a :: args =>
      '(f, s) ← parse_candidates (candidates a) i s;
      '(fs, s) ← parse_filters (i + 1) args s;
      Some (f :: fs, s)
  end.

Definition parse_select (base tail : string) (i : Z) (args : list sql_arg) (q : string)
    : option (list filter) :=
  s ← strip base q;
  '(fs, rest) ← parse_filters i args s;
  if String.eqb rest tail then Some fs else None.

Lemma parse_filters_spec fs i s :
  parse_filters i (map filter_arg fs) (where_text i fs +:+ s) = Some (fs, s).
Proof.
  revert i. induction fs as [|f fs IH]; intros i; [done|]. cbn [map parse_filters where_text].
  rewrite sapp_assoc, parse_candidates_spec. cbn [mbind option_bind]. by rewrite IH.
Qed.

Lemma parse_select_spec base tail i fs :
  parse_select base tail i (map filter_arg fs) (base +:+ where_text i fs +:+ tail) = Some fs.
Proof.
  unfold parse_select. rewrite strip_app. cbn [mbind option_bind]. rewrite parse_filters_spec.
  cbn [mbind option_bind]. by rewrite String.eqb_refl.
Qed.

Definition view (T : Schema.tables) : list Schema.row :=
  omap (λ k, MemGroups.newest (base.filter (λ r, series r = k) (Schema.samples T)))
    (remove_dups (map series (Schema.samples T))).

Definition by_node (n n' : NodeInfo) : Prop := str_le (n_NodeID n) (n_NodeID n').
Definition by_counted (c c' : cardinalityResult) : Prop := str_le (c_NodeID c) (c_NodeID c').

#[export] Instance by_node_dec n n' : Decision (by_node n n').
Proof. unfold by_node. apply _. Defined.
#[export] Instance by_counted_dec n n' : Decision (by_counted n n').
Proof. unfold by_counted. apply _. Defined.
#[export] Instance by_node_total : Total by_node.
Proof. intros n n'. apply str_le_total. Qed.
#[export] Instance by_counted_total : Total by_counted.
Proof. intros n n'. apply str_le_total. Qed.
#[export] Instance by_node_trans : Transitive by_node.
Proof. intros n1 n2 n3. apply str_le_trans. Qed.
#[export] Instance by_counted_trans : Transitive by_counted.
Proof. intros n1 n2 n3. apply str_le_trans. Qed.
#[export] Instance row_order_dec r r' : Decision (row_order str_le r r').
Proof. unfold row_order. apply _. Defined.
#[export] Instance row_order_total : Total (row_order str_le).
Proof. unfold row_order. repeat apply lex_total; try apply _. intros r r'. apply str_le_total. Qed.
#[export] Instance row_order_trans : Transitive (row_order str_le).
Proof.
  unfold row_order. repeat apply lex_trans; try apply _. intros r1 r2 r3. apply str_le_trans.
Qed.

#[export] Instance reader : TableReader := {|
  query_nodes T q args :=
    if (String.eqb q list_nodes_text || String.eqb q store_nodes_text) && (length args =? 0)%nat
    then inr (merge_sort by_node (map (node_info T) (map_to_list (Schema.nodes T))), None)
    else unreadable;
  query_latest T q args :=
    match parse_select latest_base latest_order 1 args q with
    | Some fs => inr (merge_sort (row_order str_le) (base.filter (λ r, Forall (meets r) fs) (view T)), None)
    | None => unreadable
    end;
  query_cardinality T q args :=
    match args with
    | ATime after :: args =>
        match parse_select cardinality_base cardinality_tail 2 args q with
        | Some fs => inr (merge_sort by_counted (cardinalities after fs T), None)
        | None => unreadable
        end
    | _ => unreadable
    end;
|}.

Lemma view_latest T : latest_view T (view T).
Proof.
  assert (Hsub : ∀ ks, map series (omap (λ k, MemGroups.newest
      (base.filter (λ r, series r = k) (Schema.samples T))) ks) `sublist_of` ks).
  { induction ks as [|k ks IH]; [done|]. cbn. destruct (MemGroups.newest _) as [r|] eqn:E; [|by constructor].
    apply MemGroups.newest_spec in E as [Hr _]. apply list_elem_of_filter in Hr as [<- _]. cbn.
    by constructor. }
  split_and!.
  - eapply sublist_NoDup; [|apply Hsub]. apply NoDup_remove_dups.
  - intros r Hr. apply list_elem_of_omap in Hr as (k & _ & Hr).
    apply MemGroups.newest_spec in Hr as [Hin Hnew]. apply list_elem_of_filter in Hin as [<- Hin].
    split; [done|]. intros r' Hr' Hs. apply Hnew. by apply list_elem_of_filter.
  - intros r Hr. set (l := base.filter (λ r', series r' = series r) (Schema.samples T)).
    destruct (MemGroups.newest_exists l) as [v Hv].
    { intros Hl. assert (r ∈ l) as Hin by (by apply list_elem_of_filter). rewrite Hl in Hin.
      by apply not_elem_of_nil in Hin. }
    apply list_elem_of_fmap. exists v. split.
    + apply MemGroups.newest_spec in Hv as [Hin _]. by apply list_elem_of_filter in Hin as [-> _].
    + apply list_elem_of_omap. exists (series r). split; [|exact Hv].
      apply elem_of_remove_dups, list_elem_of_fmap. by exists r.
Qed.

#[export] Instance reader_laws : TableReaderLaws str_le reader.
Proof.
  split; cbn [query_nodes query_latest query_cardinality reader].
  - intros T q nodes Hq E. assert (Hb : String.eqb q list_nodes_text || String.eqb q store_nodes_text = true).
    { destruct Hq as [-> | ->]; [by rewrite String.eqb_refl|]. rewrite String.eqb_refl. apply orb_true_r. }
    rewrite Hb in E. cbn [andb length Nat.eqb] in E. injection E as <-. apply (merge_selected by_node).
  - intros T fs rows E. unfold latest_text in E. rewrite parse_select_spec in E. injection E as <-.
    destruct (merge_selected (row_order str_le) (base.filter (λ r, Forall (meets r) fs) (view T))).
    exists (view T). split; [apply view_latest|done].
  - intros T fs rows e E. unfold latest_text in E. by rewrite parse_select_spec in E.
  - intros T after fs rows E. unfold cardinality_text in E. rewrite parse_select_spec in E.
    injection E as <-. apply (merge_selected by_counted).
Qed.
End MemTables.

Section TablesWitness.
Import McpQuery QuerySpec McpTables TablesSpec MemTables.
#[local] Instance no_unicode : Unicode := {| unicode_ToLower s := s; unicode_Quote s := s |}.
#[local] Instance reliable : Postgres := MemPg.server MemPg.no_faults.
#[local] Instance reliable_laws : PostgresLaws reliable := MemPg.server_laws MemPg.no_faults.

(** One sample of a registered node. *)
Definition inserted : @db reliable :=
  MemPg.mkState (with_rows one_node [Ops.row_of (sample_at Hour)]) 3.

Lemma inserted_samples_listed_witness :
  Ops.InsertSamples (MemPg.mkState one_node 0 : @db reliable) [sample_at Hour] = Ret (inserted, (1, None)) ∧
  ∃ v, handleLatestMetrics ∅ (db_tables inserted) = JSON [v] ∧ Hour <= Schema.collected_at v.
Proof.
  assert (Hins : Ops.InsertSamples (MemPg.mkState one_node 0 : @db reliable) [sample_at Hour] =
                 Ret (inserted, (1, None))) by (vm_compute; reflexivity).
  split; [exact Hins|].
  destruct (inserted_samples_listed str_le _ _ _ _ (sample_at Hour) Hins (list_elem_of_here _ _))
    as (_ & Hlatest & _).
  exists (Schema.stored (Ops.row_of (sample_at Hour))).
  assert (Hask : asks_for ∅ (sample_at Hour)) by (split; by left).
  specialize (Hlatest ∅ Hask).
  assert (Hq : query_latest (db_tables inserted) (latest_text (latest_filters ∅)) (map filter_arg (latest_filters ∅)) =
    inr ([Schema.stored (Ops.row_of (sample_at Hour))], None)) by (vm_compute; reflexivity).
  rewrite Hq in Hlatest. destruct Hlatest as [[Hp _] Hv]. split.
  - apply Hp. apply Forall_cons. split; [reflexivity|apply Forall_nil; exact I].
  - destruct (Hv eq_refl) as (v & Hin & _ & _ & Hle & _). apply list_elem_of_singleton in Hin as ->. exact Hle.
Defined.
End TablesWitness.
