(* ===== verification/McpServer.v ===== *)
(** The MCP server, [New] of internal/mcp/server.go and the register functions of the package: the
    twelve tools with the arguments they declare and the handlers behind them. *)

From Stdlib Require Import SpecFloat.
From S2P Require Import Prelude GoInt GoFloat GoTime GoSort GoString Store Collector McpQuery McpSummary McpAlerts McpNatural McpForecast McpAnomaly McpTables.

Module McpServer.
Import McpQuery.

(** A declared argument. *)
Inductive arg_kind := StringArg | NumberArg.
Record arg_spec := mkArg { arg_name : string; kind : arg_kind; required : bool }.

Definition WithString (name : string) : arg_spec := mkArg name StringArg false.
Definition WithStringRequired (name : string) : arg_spec := mkArg name StringArg true.
Definition WithNumber (name : string) : arg_spec := mkArg name NumberArg false.
Definition WithNumberRequired (name : string) : arg_spec := mkArg name NumberArg true.

(** What a handler answers: the result of its own type; natural_query prints its plan and the
    result of the query in one text. *)
Inductive content :=
| Content (A : Type) (r : result A)
| PlanAndResult (plan : McpNatural.nlQueryPlan) (r : result (list Schema.row)).
Arguments Content {A} r.

(** A handler, with its readings of the clock. *)
Definition handler : Type := (nat → Z) → arguments → Schema.tables → outcome content.

Record tool := mkTool { tool_args : list arg_spec; tool_handler : handler }.

Section Tools.
Context `{Unicode} `{MapOrder} `{SortSlice}.
Context `{Reader} `{McpAlerts.ValueReader} `{McpForecast.PointReader} `{McpAnomaly.GroupReader} `{McpTables.TableReader}.
(** The two statements with fixed text, of the summary and of the bottlenecks. *)
Context (query_window : Schema.tables → string → Z → Z → answer McpSummary.window_row).
Context (query_aggregates : Schema.tables → string → Z → answer McpSummary.DimAgg).

(** The tools of a server under construction. *)
Definition server : Type := gmap string tool.

Definition AddTool (name : string) (args : list arg_spec) (h : handler) (s : server) : server :=
  <[name := mkTool args h]> s.

Definition registerAlertTools (s : server) : server :=
  AddTool "check_alerts" [WithStringRequired "node_id"; WithString "severity"]
    (λ clk a T, Ret (Content (McpAlerts.handleCheckAlerts clk a T)))
  (AddTool "list_alerts" [] (λ _ _ _, Ret (Content McpAlerts.handleListAlerts)) s).

Definition registerRollupTools (s : server) : server :=
  AddTool "query_rollup_metrics"
    [WithStringRequired "node_id"; WithString "context"; WithString "dimension"; WithString "instance";
     WithStringRequired "after"; WithString "before"; WithNumber "limit"]
    (λ clk a T, Ret (Content (handleQueryRollup (clk 0%nat) (clk 1%nat) (clk 2%nat) a T))) s.

Definition registerCardinalityTools (s : server) : server :=
  AddTool "metric_cardinality" [WithString "node_id"; WithString "after"]
    (λ clk a T, Ret (Content (McpTables.handleCardinality (clk 0%nat) (clk 1%nat) a T))) s.

Definition registerAnomalyTools (s : server) : server :=
  AddTool "detect_anomalies"
    [WithStringRequired "node_id"; WithString "context"; WithString "after"; WithNumber "threshold";
     WithNumber "limit"]
    (λ clk a T, r ← McpAnomaly.handleDetectAnomalies (clk 0%nat) a T; Ret (Content r)) s.

Definition registerForecastTools (s : server) : server :=
  AddTool "forecast_capacity"
    [WithStringRequired "node_id"; WithStringRequired "context"; WithString "dimension"; WithString "after";
     WithNumberRequired "threshold"]
    (λ clk a T, r ← McpForecast.handleForecast (clk 0%nat) (clk 1%nat) a T; Ret (Content r)) s.

Definition registerNLQueryTools (s : server) : server :=
  AddTool "natural_query" [WithStringRequired "query"; WithString "node_id"]
    (λ clk a T,
       let '(plan, r) := McpNatural.handleNaturalQuery (clk 0%nat) (clk 1%nat) (clk 2%nat) a T in
       Ret (PlanAndResult plan r)) s.

Definition New : server :=
  let s := ∅ in
  let s := AddTool "list_nodes" [] (λ _ _ T, Ret (Content (McpTables.handleListNodes T))) s in
  let s := AddTool "latest_hardware_metrics" [WithString "node_id"; WithString "contexts"]
             (λ _ a T, Ret (Content (McpTables.handleLatestMetrics a T))) s in
  let s := AddTool "query_hardware_metrics"
             [WithString "node_id"; WithString "context"; WithString "dimension"; WithString "instance";
              WithString "labels"; WithString "after"; WithString "before"; WithNumber "limit"]
             (λ clk a T, Ret (Content (handleQueryMetrics (clk 0%nat) (clk 1%nat) a T))) s in
  let s := AddTool "summarize_hardware_performance"
             [WithStringRequired "node_id"; WithString "after"; WithString "before"]
             (λ clk a T, Ret (Content (McpSummary.handleSummarize (query_window T)
                                         (clk 0%nat) (clk 1%nat) (clk 2%nat) a))) s in
  let s := AddTool "find_hardware_bottlenecks" [WithStringRequired "node_id"; WithString "after"]
             (λ clk a T, Ret (Content (McpSummary.handleBottlenecks (query_aggregates T) (clk 0%nat) a))) s in
  let s := registerAlertTools s in
  let s := registerRollupTools s in
  let s := registerCardinalityTools s in
  let s := registerAnomalyTools s in
  let s := registerForecastTools s in
  registerNLQueryTools s.

End Tools.
End McpServer.

Section ServerProofs.
Import McpQuery McpServer.
Context `{Unicode} `{MapOrder} `{SortSlice}.
Context `{Reader} `{McpAlerts.ValueReader} `{McpForecast.PointReader} `{McpAnomaly.GroupReader} `{McpTables.TableReader}.
Context (query_window : Schema.tables → string → Z → Z → answer McpSummary.window_row).
Context (query_aggregates : Schema.tables → string → Z → answer McpSummary.DimAgg).

Lemma New_tools :
  dom (New query_window query_aggregates) =
  {["list_nodes"; "latest_hardware_metrics"; "query_hardware_metrics"; "summarize_hardware_performance";
    "find_hardware_bottlenecks"; "list_alerts"; "check_alerts"; "query_rollup_metrics"; "metric_cardinality";
    "detect_anomalies"; "forecast_capacity"; "natural_query"]}.
Proof.
  unfold New, registerNLQueryTools, registerForecastTools, registerAnomalyTools, registerCardinalityTools,
    registerRollupTools, registerAlertTools, AddTool, server. cbv zeta.
  rewrite !dom_insert_L, dom_empty_L. set_solver.
Qed.

Lemma linearRegression_returns xs ys :
  length xs = length ys → ∃ r, McpForecast.linearRegression xs ys = Ret r.
Proof.
  intros Hl. unfold McpForecast.linearRegression, zlen. rewrite Hl, Z.ltb_irrefl.
  destruct (feqb _ _); [by eexists|]. destruct (McpForecast.residuals _ _ _ _). by eexists.
Qed.

(** [forecast_capacity] always answers: the two slices of the regression have equal length. *)
Lemma handleForecast_returns now1 now2 a T : ∃ r, McpForecast.handleForecast now1 now2 a T = Ret r.
Proof.
  unfold McpForecast.handleForecast. destruct (parseTimeArg _ _) as [e|after]; [by eexists|].
  destruct (McpForecast.query_points _ _ _) as [e|[points err]]; [by eexists|].
  unfold McpForecast.forecast. destruct points as [|[t v] [|q [|q' points]]]; [by eexists..|].
  match goal with |- context [McpForecast.linearRegression ?xs ?ys] =>
    destruct (linearRegression_returns xs ys) as [[[slope intercept] r2] ->] end.
  { by rewrite !length_map. }
  cbn [mbind outcome_bind]. repeat (case_match; try by eexists).
Qed.

Lemma detect_returns node threshold limit rows :
  0 <= limit → ∃ r, McpAnomaly.detect node threshold limit rows = Ret r.
Proof.
  intros Hl. unfold McpAnomaly.detect. destruct (_ <? zlen _); [|by eexists].
  replace (limit <? 0) with false by lia. by eexists.
Qed.

(** One tool after the other. *)
Ltac each_tool Ht :=
  unfold New, registerNLQueryTools, registerForecastTools, registerAnomalyTools, registerCardinalityTools,
    registerRollupTools, registerAlertTools, AddTool, server in Ht; cbv zeta in Ht;
  repeat (apply lookup_insert_Some in Ht as [[<- <-]|[_ Ht]]; [|]);
  [..|by rewrite lookup_empty in Ht].

(** C37.  The server has twelve tools under names that differ, and every registered tool answers every
    call: only detect_anomalies can panic, and not when the limit converts to an integer
    that is not negative. *)
Theorem tools_answer name t clk a T :
  New query_window query_aggregates !! name = Some t →
  (name = "detect_anomalies" → 0 <= McpAnomaly.anomaly_limit (arg_float a "limit")) →
  size (dom (New query_window query_aggregates)) = 12%nat ∧ ∃ c, tool_handler t clk a T = Ret c.
Proof.
  intros Ht Hlimit. split; [by rewrite New_tools|]. each_tool Ht; cbn [tool_handler]; try by eexists.
  - destruct (handleForecast_returns (clk 0%nat) (clk 1%nat) a T) as [r ->]. by eexists.
  - unfold McpAnomaly.handleDetectAnomalies. destruct (parseTimeArg _ _) as [e|after]; [by eexists|].
    destruct (McpAnomaly.query_groups _ _ _) as [e|[rows err]]; [by eexists|].
    match goal with |- context [McpAnomaly.detect ?n ?th ?l ?rs] =>
      destruct (detect_returns n th l rs) as [r ->]; [by apply Hlimit|] end.
    by eexists.
Qed.

(** Two requests that agree on the declared arguments, each at its declared type. *)
Definition agree (args : list arg_spec) (a a' : arguments) : Prop :=
  Forall (λ s, match kind s with
               | StringArg => arg_string a (arg_name s) = arg_string a' (arg_name s)
               | NumberArg => arg_float a (arg_name s) = arg_float a' (arg_name s)
               end) args.

(** C36.  The declared input schema of every tool covers what its handler reads: requests that agree on
    the declared arguments, as strings or numbers as declared, get the same answer. *)
Theorem tools_read_declared name t clk a a' T :
  New query_window query_aggregates !! name = Some t → agree (tool_args t) a a' →
  tool_handler t clk a T = tool_handler t clk a' T.
Proof.
  intros Ht Hagree. each_tool Ht; cbn [tool_handler tool_args] in *; unfold agree in Hagree;
    rewrite ?Forall_cons in Hagree; cbn [kind arg_name WithString WithStringRequired WithNumber WithNumberRequired] in Hagree;
    destruct_and?; 
    unfold McpNatural.handleNaturalQuery, McpForecast.handleForecast, McpAnomaly.handleDetectAnomalies,
      McpTables.handleCardinality, handleQueryRollup, query_rollup_sql, McpAlerts.handleCheckAlerts,
      McpSummary.handleBottlenecks, McpSummary.handleSummarize, handleQueryMetrics, query_metrics_sql,
      McpTables.handleLatestMetrics;
    repeat match goal with E : arg_string a _ = _ |- _ => rewrite !E; clear E
           | E : arg_float a _ = _ |- _ => rewrite !E; clear E end;
    reflexivity.
Qed.
End ServerProofs.

Section ServerWitnesses.
Import McpQuery McpServer MemOrder.
#[local] Instance no_unicode : Unicode := {| unicode_ToLower s := s; unicode_Quote s := s |}.
#[local] Existing Instance MemReader.reader.
#[local] Existing Instance MemPoints.reader.
#[local] Existing Instance MemTables.reader.
#[local] Instance groups : McpAnomaly.GroupReader := MemGroups.reader float_mean float_dev.
#[local] Instance values : McpAlerts.ValueReader := {| McpAlerts.query_value _ _ _ := inl "no rows" |}.

Definition empty_window (T : Schema.tables) (node : string) (t1 t2 : Z) : answer McpSummary.window_row :=
  inr ([], None).
Definition empty_aggregates (T : Schema.tables) (node : string) (t : Z) : answer McpSummary.DimAgg :=
  inr ([], None).

Lemma registered name :
  name ∈ dom (New empty_window empty_aggregates) →
  ∃ t, New empty_window empty_aggregates !! name = Some t.
Proof. intros Hn. by apply elem_of_dom in Hn. Qed.

Lemma tools_answer_witness :
  ∃ t, New empty_window empty_aggregates !! "detect_anomalies" = Some t ∧
    ∃ c, tool_handler t (λ _, 0) {["limit" := JNum (f64_of_Z 3)]} cpu_tables = Ret c.
Proof.
  destruct (registered "detect_anomalies") as [t Ht]; [rewrite New_tools; set_solver|].
  exists t. split; [exact Ht|].
  refine (proj2 (tools_answer empty_window empty_aggregates "detect_anomalies" t (λ _, 0)
    {["limit" := JNum (f64_of_Z 3)]} cpu_tables Ht _)).
  intros _. vm_compute. discriminate.
Defined.

(** An argument that is not declared, and one of another type, change nothing. *)
Lemma tools_read_declared_witness :
  ∃ t, New empty_window empty_aggregates !! "metric_cardinality" = Some t ∧
    tool_handler t (λ _, 0) {["context" := JStr "system.cpu"; "after" := JNum (f64_of_Z 3)]} cpu_tables =
    tool_handler t (λ _, 0) ∅ cpu_tables.
Proof.
  destruct (registered "metric_cardinality") as [t Ht]; [rewrite New_tools; set_solver|].
  exists t. split; [exact Ht|].
  apply (tools_read_declared empty_window empty_aggregates "metric_cardinality" t (λ _, 0) _ _ cpu_tables Ht).
  unfold New, registerNLQueryTools, registerForecastTools, registerAnomalyTools, registerCardinalityTools,
    AddTool, server in Ht. cbv zeta in Ht.
  do 3 (rewrite lookup_insert_ne in Ht by done). rewrite lookup_insert_eq in Ht. injection Ht as <-.
  constructor; [vm_compute; reflexivity|]. constructor; [vm_compute; reflexivity|]. constructor.
Defined.
End ServerWitnesses.
