(* ===== verification/Tracing.v ===== *)
(** Tracing, internal/tracing: the set-up of the tracer and the
    spans (tracing.go) and the log handler that adds
    trace ids to log records (loghandler.go).  OpenTelemetry is not part of the repository: its
    exporter, resource and provider are parameters. *)

From S2P Require Import Prelude.

Module Tracing.

(** ** [Init] *)
Section Init.
Context {Exporter Resource Provider : Type}.
Context (otlptracegrpc_New : string → string + Exporter) (resource_New : string → string → string + Resource).
Context (NewTracerProvider : Exporter → Resource → Provider).

Definition tracerName : string := "netdata-postgres-mcp".

(** The shutdown function: nothing, or that of a provider within five seconds. *)
Inductive shutdown := NoShutdown | ShutdownProvider (tp : Provider).

(** [Init], for the global provider so far: the provider, the shutdown function and the error. *)
Definition Init (Getenv : string → string) (version : string) (global : option Provider)
    : option Provider * (option shutdown * option string) :=
  let endpoint := Getenv "OTEL_EXPORTER_OTLP_ENDPOINT" in
  if String.eqb endpoint "" then (global, (Some NoShutdown, None))
  else
    match otlptracegrpc_New endpoint with
    | inl err => (global, (None, Some err))
    | inr exporter =>
        match resource_New tracerName version with
        | inl err => (global, (None, Some err))
        | inr res =>
            let tp := NewTracerProvider exporter res in
            (Some tp, (Some (ShutdownProvider tp), None))
        end
    end.
End Init.

(** ** Spans

    Tracers, spans and the collected errors belong to OpenTelemetry: a tracer starts a span in a
    context, and a span records errors in a state of its own. *)
Class Telemetry (Provider Tracer_ Span Ctx KeyValue W : Type) := {
  otel_Tracer : option Provider → string → Tracer_;
  tracer_Start : Tracer_ → Ctx → string → list KeyValue → W → (Ctx * Span) * W;
  span_of : Ctx → Span;
  IsRecording : Span → W → bool;
  span_RecordError : Span → string → W → W;
}.

Section Spans.
Context {Provider Tracer_ Span Ctx KeyValue W : Type} `{T : !Telemetry Provider Tracer_ Span Ctx KeyValue W}.

(** [Tracer], of the global provider. *)
Definition Tracer (global : option Provider) : Tracer_ := otel_Tracer global tracerName.

Definition StartSpan (global : option Provider) (ctx : Ctx) (name : string) (attrs : list KeyValue) (w : W)
    : (Ctx * Span) * W :=
  tracer_Start (Tracer global) ctx name attrs w.

Definition RecordError (ctx : Ctx) (err : string) (w : W) : W :=
  let span := span_of ctx in
  if IsRecording span w then span_RecordError span err w else w.
End Spans.

(** ** Log handlers

    The interface [slog.Handler], for contexts of any type; a handler writes to an output. *)
Definition Attr : Type := string * string.

Record Record_ := mkRecord { level : Z; message : string; attrs : list Attr }.

Definition AddAttrs (l : list Attr) (r : Record_) : Record_ := mkRecord (level r) (message r) (attrs r ++ l).

Class Handler (Ctx Output H : Type) := {
  Enabled : H → Ctx → Z → bool;
  Handle : H → Ctx → Record_ → Output → Output * option string;
  WithAttrs : H → list Attr → H;
  WithGroup : H → string → H;
}.

Section LogHandler.
Context {Ctx Output H : Type} `{HH : !Handler Ctx Output H}.
(** The trace and span id of the span in a context, when its span context is valid. *)
Context (SpanFromContext : Ctx → option (string * string)).

Record LogHandler := mkLogHandler { inner : H }.

Definition NewLogHandler (h : H) : LogHandler := mkLogHandler h.

Definition lh_Enabled (h : LogHandler) : Ctx → Z → bool := Enabled (Ctx := Ctx) (Output := Output) (inner h).

Definition lh_Handle (h : LogHandler) (ctx : Ctx) (record : Record_) : Output → Output * option string :=
  let record :=
    match SpanFromContext ctx with
    | Some (trace_id, span_id) => AddAttrs [("trace_id", trace_id); ("span_id", span_id)] record
    | None => record
    end in
  Handle (inner h) ctx record.

Definition lh_WithAttrs (h : LogHandler) (l : list Attr) : LogHandler :=
  mkLogHandler (WithAttrs (Ctx := Ctx) (Output := Output) (inner h) l).

Definition lh_WithGroup (h : LogHandler) (name : string) : LogHandler :=
  mkLogHandler (WithGroup (Ctx := Ctx) (Output := Output) (inner h) name).

#[export] Instance log_handler : Handler Ctx Output LogHandler := {|
  Enabled := lh_Enabled;
  Handle := lh_Handle;
  WithAttrs := lh_WithAttrs;
  WithGroup := lh_WithGroup;
|}.
End LogHandler.
Arguments LogHandler H : clear implicits.

(** A logger made of a handler by calls of [With] and [WithGroup], and one entry. *)
Inductive derivation := With (l : list Attr) | Group (name : string).

Section Logger.
Context {Ctx Output H : Type} `{HH : !Handler Ctx Output H}.

Definition derive (h : H) (d : derivation) : H :=
  match d with
  | With l => WithAttrs (Ctx := Ctx) (Output := Output) h l
  | Group name => WithGroup (Ctx := Ctx) (Output := Output) h name
  end.

Definition log (h : H) (ctx : Ctx) (r : Record_) (o : Output) : Output :=
  if Enabled (Output := Output) h ctx (level r) then (Handle h ctx r o).1 else o.
End Logger.

(** ** The handlers of the standard library

    Both write one line per record, with the fields of the logger before those of the record,
    each under the groups that were open when it was added. *)
Record std_handler := mkStd { min_level : Z; groups : list string; fields : list (list string * Attr) }.

Record line := mkLine { l_level : Z; l_message : string; l_fields : list (list string * Attr) }.

Definition under (gs : list string) (l : list Attr) : list (list string * Attr) := map (λ a, (gs, a)) l.

#[export] Instance std {Ctx : Type} : Handler Ctx (list line) std_handler := {|
  Enabled h _ lvl := min_level h <=? lvl;
  Handle h _ r o := (o ++ [mkLine (level r) (message r) (fields h ++ under (groups h) (attrs r))], None);
  WithAttrs h l := mkStd (min_level h) (groups h) (fields h ++ under (groups h) l);
  WithGroup h name := if String.eqb name "" then h else mkStd (min_level h) (groups h ++ [name]) (fields h);
|}.
End Tracing.

Section TracingProofs.
Import Tracing.

Section Refines.
Context {Ctx Output H : Type} `{HH : !Handler Ctx Output H} (SpanFromContext : Ctx → option (string * string)).
#[local] Instance traced : Handler Ctx Output (LogHandler H) := log_handler SpanFromContext.

(** What the handler makes of a record. *)
Definition with_ids (ctx : Ctx) (r : Record_) : Record_ :=
  match SpanFromContext ctx with
  | Some (t, s) => AddAttrs [("trace_id", t); ("span_id", s)] r
  | None => r
  end.

(** Deriving commutes with wrapping, so logging through the wrapped handler is logging the
    record with its ids through the handler. *)
Lemma LogHandler_refines h ds ctx r o :
  log (fold_left (derive (Ctx := Ctx) (Output := Output)) ds (NewLogHandler h)) ctx r o =
  log (fold_left (derive (Ctx := Ctx) (Output := Output)) ds h) ctx (with_ids ctx r) o.
Proof.
  assert (Hd : fold_left (derive (Ctx := Ctx) (Output := Output)) ds (NewLogHandler h) =
    NewLogHandler (fold_left (derive (Ctx := Ctx) (Output := Output)) ds h)).
  { revert h. induction ds as [|[l|name] ds IH]; intros h; [done|..].
    - exact (IH (WithAttrs (Ctx := Ctx) (Output := Output) h l)).
    - exact (IH (WithGroup (Ctx := Ctx) (Output := Output) h name)). }
  rewrite Hd. unfold log, with_ids. cbn [Enabled Handle traced log_handler].
  unfold lh_Enabled, lh_Handle. by destruct (SpanFromContext ctx) as [[t s]|].
Qed.
End Refines.

(** The groups open after some derivations. *)
Definition open_groups (gs : list string) (ds : list derivation) : list string :=
  fold_left (λ gs d, match d with Group name => if String.eqb name "" then gs else gs ++ [name] | With _ => gs end) ds gs.

Lemma derive_groups (Ctx : Type) ds h :
  groups (fold_left (derive (Ctx := Ctx) (Output := list line)) ds h) = open_groups (groups h) ds.
Proof.
  revert h. induction ds as [|[l|name] ds IH]; intros h; cbn; [done|by rewrite IH|].
  destruct (String.eqb name ""); by rewrite IH.
Qed.

Lemma derive_level (Ctx : Type) ds h :
  min_level (fold_left (derive (Ctx := Ctx) (Output := list line)) ds h) = min_level h.
Proof.
  revert h. induction ds as [|[l|name] ds IH]; intros h; cbn; [done|by rewrite IH|].
  destruct (String.eqb name ""); by rewrite IH.
Qed.

Lemma under_app gs l l' : under gs (l ++ l') = under gs l ++ under gs l'.
Proof. apply map_app. Qed.

(** The fields a trace adds. *)
Definition trace_fields (span : option (string * string)) : list Attr :=
  match span with Some (t, s) => [("trace_id", t); ("span_id", s)] | None => [] end.

(** Every log line carries the ids of its trace: whatever fields and groups a logger was given, an
    entry logged in a context with a valid span is written as the line of the plain handler
    with trace_id and span_id after its fields, under the groups then open; without a span it
    is that line itself, and an entry below the level is written by neither. *)
Theorem trace_ids_logged {Ctx} (SpanFromContext : Ctx → option (string * string)) h ds ctx r o :
  let traced := log_handler (H := std_handler) (Output := list line) SpanFromContext in
  let derived := fold_left (derive (Ctx := Ctx) (Output := list line)) ds h in
  let gs := open_groups (groups h) ds in
  let written extra :=
    if min_level h <=? level r
    then o ++ [mkLine (level r) (message r) (fields derived ++ under gs (attrs r) ++ under gs extra)]
    else o in
  log derived ctx r o = written [] ∧
  log (HH := traced) (fold_left (derive (HH := traced)) ds (NewLogHandler h)) ctx r o =
    written (trace_fields (SpanFromContext ctx)).
Proof.
  intros traced derived gs written.
  assert (Hplain : ∀ extra, log derived ctx (AddAttrs extra r) o = written extra).
  { intros extra. unfold log, written, AddAttrs. cbn [Enabled Handle std level message attrs fst]. unfold derived. rewrite derive_level, derive_groups.
    fold gs. by rewrite under_app. }
  split.
  - rewrite <- (Hplain []). unfold AddAttrs. rewrite app_nil_r. by destruct r.
  - unfold traced. rewrite LogHandler_refines. fold derived. rewrite <- Hplain. f_equal.
    unfold with_ids, trace_fields. destruct (SpanFromContext ctx) as [[t s]|]; [done|].
    unfold AddAttrs. rewrite app_nil_r. by destruct r.
Qed.

(** Without an endpoint tracing is a no-op; when its set-up fails nothing is installed; and what
    it installs is what its shutdown function stops. *)
Lemma Init_cases {E R P} exporter_New resource_New (make : E → R → P) Getenv version global :
  let '(global', (sd, err)) := Init exporter_New resource_New make Getenv version global in
  (Getenv "OTEL_EXPORTER_OTLP_ENDPOINT" = "" → global' = global ∧ sd = Some NoShutdown ∧ err = None) ∧
  (∀ e, err = Some e → global' = global ∧ sd = None) ∧
  (∀ tp, sd = Some (ShutdownProvider tp) → global' = Some tp ∧ err = None).
Proof.
  unfold Init. destruct (String.eqb_spec (Getenv "OTEL_EXPORTER_OTLP_ENDPOINT") "") as [|Hne]; [done|].
  repeat case_match; simplify_eq; split_and!; try done; intros; by simplify_eq.
Qed.

(** An error recorded in the context [StartSpan] returns goes to the span it started: once when the
    span records, as OpenTelemetry's tracers put the started span into the context. *)
Lemma RecordError_started `{T : !Telemetry Provider Tr Span Ctx KV W} global ctx name l w err :
  (∀ t c n k v, span_of (tracer_Start t c n k v).1.1 = (tracer_Start t c n k v).1.2) →
  let '((ctx', span), w') := StartSpan global ctx name l w in
  RecordError ctx' err w' = (if IsRecording span w' then span_RecordError span err w' else w').
Proof.
  intros Hlaw. unfold StartSpan. specialize (Hlaw (Tracer global) ctx name l w).
  destruct (tracer_Start _ _ _ _ _) as [[ctx' span] w']. cbn in Hlaw. subst span. reflexivity.
Qed.
End TracingProofs.
